(** * PicoDVI UART terminal: the terminal engine of [my_terminal/main.c]

    A shallow embedding of the byte ingress ring buffer, the packed colour
    planes, the double-buffered screen, the escape-sequence state machine,
    the cursor engine and the menu overlays of
    [software/apps/my_terminal/main.c], followed by the properties of the
    terminal specification that were checked against it.

    Conventions.
    - C integers are [Z] with the wrap-around of their type written out
      ([uint8], [uint16], [uint32]).
    - C arrays are lists read with [rd] and written with [wr].  Every write
      of the source is guarded by a bounds check or by an invariant on its
      index; a read past the end of an array, which in C returns whatever
      lies behind the array, returns [0] in the model and no theorem below
      depends on such a value.
    - The globals of the program are gathered in the record [globals],
      grouped by the component they belong to; the field names are the
      names of the C globals.
    - The spin lock [buffer_lock] is taken and released inside one function
      body each time; a body that holds it is one atomic transition here. *)

From Stdlib Require Import ZArith Lia Bool List String Ascii.
From stdpp Require Import base list numbers.

Local Open Scope Z_scope.

(** ** Configuration constants *)

Definition FONT_CHAR_WIDTH : Z := 8.
Definition FONT_CHAR_HEIGHT : Z := 16.
Definition FRAME_WIDTH : Z := 640.
Definition FRAME_HEIGHT : Z := 480.
Definition CHAR_COLS : Z := Eval cbv in FRAME_WIDTH / FONT_CHAR_WIDTH.
Definition CHAR_ROWS : Z := Eval cbv in FRAME_HEIGHT / FONT_CHAR_HEIGHT.
Definition COLOUR_PLANE_SIZE_WORDS : Z := Eval cbv in CHAR_ROWS * CHAR_COLS * 4 / 32.
Definition COLOUR_PAD_WORDS : Z := 8.
Definition UART_BUFFER_SIZE : Z := 512.
Definition CURSOR_BLINK_MS : Z := 500.
Definition MAIN_LOOP_MIN_MS : Z := 10.
Definition ANSI_PARAM_MAX : Z := 4.
Definition ANSI_BUFFER_SIZE : Z := 16.
Definition MENU_BUFFER_WIDTH : Z := 34.
Definition MENU_BUFFER_HEIGHT : Z := 12.
Definition INT_MAX : Z := 2147483647.

(** ** Machine integers and arrays *)

Definition uint8 (z : Z) : Z := z mod 256.
Definition uint16 (z : Z) : Z := z mod 65536.
Definition uint32 (z : Z) : Z := z mod 4294967296.

(** [a[i]] *)
Definition rd (a : list Z) (i : Z) : Z := default 0 (a !! Z.to_nat i).
(** [a[i] = v] *)
Definition wr (a : list Z) (i v : Z) : list Z := <[Z.to_nat i := v]> a.

(** The index ranges of the [for] loops: [0 .. n-1]. *)
Definition upto (n : Z) : list Z := seqZ 0 n.

(** ** Program state *)

(** [terminal_state_t] *)
Record terminal_state_t := mk_term {
  cursor_x : Z;               (* uint16_t *)
  cursor_y : Z;               (* uint16_t *)
  cursor_visible : bool;
  escape_mode : bool;
  ansi_mode : bool;
  skip_next_lf : bool;
  skip_next_cr : bool;
  suppress_next_cr : bool
}.

(** The four screen arrays. *)
Record screen_t := mk_screen {
  charbuf_front : list Z;     (* char [CHAR_ROWS * CHAR_COLS] *)
  charbuf_back : list Z;
  colourbuf_front : list Z;   (* uint32_t [3 * COLOUR_PLANE_SIZE_WORDS + COLOUR_PAD_WORDS] *)
  colourbuf_back : list Z
}.

(** The flags of the swap protocol. *)
Record swap_t := mk_swap {
  swap_pending : bool;
  scroll_settled : bool;
  safe_to_scroll : bool;
  swap_queued : bool;
  buffer_dirty : bool
}.

(** Cursor rendering state. *)
Record cursor_t := mk_cursor {
  cursor_drawn : bool;
  saved_cursor_x : Z;         (* int *)
  saved_cursor_y : Z;         (* int *)
  cursor_draw_x : Z;          (* int *)
  cursor_draw_y : Z;          (* int *)
  saved_cursor_char : Z;      (* char *)
  saved_cursor_fg : Z;        (* uint8_t *)
  cursor_blink_counter : Z    (* uint32_t *)
}.

(** ANSI parser state. *)
Record ansi_t := mk_ansi {
  ansi_params : list Z;       (* uint8_t [ANSI_PARAM_MAX] *)
  ansi_param_count : Z;       (* uint8_t *)
  ansi_param_index : Z;       (* uint8_t *)
  ansi_buffer : list Z;       (* char [16] *)
  ansi_buf_len : Z;           (* uint8_t *)
  ansi_final_char : Z
}.

Inductive cursor_style :=
| CURSOR__SOLID_BLOCK | CURSOR_UNDERLINE | CURSOR_BAR
| CURSOR_APPLE_I | CURSOR_SHADED_BLOCK | CURSOR__SOLID_ARROW.

Record theme_t := mk_theme {
  current_cursor : cursor_style;
  current_fg : Z;             (* uint8_t *)
  current_bg : Z              (* uint8_t *)
}.

(** Menu system.  The two-dimensional arrays [saved_*[row][col]] are laid
    out row by row: element [row][col] is at [row * MENU_BUFFER_WIDTH + col]. *)
Record menu_t := mk_menu {
  saved_chars : list Z;
  saved_fg : list Z;
  saved_bg : list Z;
  menu_left : Z;              (* uint16_t *)
  menu_top : Z;               (* uint16_t *)
  theme_select_mode : bool;
  cursor_menu_mode : bool;
  bg_color_menu_mode : bool;
  fg_color_menu_mode : bool;
  color_menu_buf : list Z;    (* char [3] *)
  color_menu_buf_len : Z      (* uint8_t *)
}.

Record globals := mk_globals {
  term : terminal_state_t;
  scr : screen_t;
  swp : swap_t;
  cur : cursor_t;
  ansi : ansi_t;
  thm : theme_t;
  menu : menu_t;
  input_active : bool
}.

(** *** Assignments to one field *)

Definition set_cursor_x v t := mk_term v (cursor_y t) (cursor_visible t) (escape_mode t) (ansi_mode t) (skip_next_lf t) (skip_next_cr t) (suppress_next_cr t).
Definition set_cursor_y v t := mk_term (cursor_x t) v (cursor_visible t) (escape_mode t) (ansi_mode t) (skip_next_lf t) (skip_next_cr t) (suppress_next_cr t).
Definition set_cursor_visible v t := mk_term (cursor_x t) (cursor_y t) v (escape_mode t) (ansi_mode t) (skip_next_lf t) (skip_next_cr t) (suppress_next_cr t).
Definition set_escape_mode v t := mk_term (cursor_x t) (cursor_y t) (cursor_visible t) v (ansi_mode t) (skip_next_lf t) (skip_next_cr t) (suppress_next_cr t).
Definition set_ansi_mode v t := mk_term (cursor_x t) (cursor_y t) (cursor_visible t) (escape_mode t) v (skip_next_lf t) (skip_next_cr t) (suppress_next_cr t).
Definition set_skip_next_lf v t := mk_term (cursor_x t) (cursor_y t) (cursor_visible t) (escape_mode t) (ansi_mode t) v (skip_next_cr t) (suppress_next_cr t).
Definition set_skip_next_cr v t := mk_term (cursor_x t) (cursor_y t) (cursor_visible t) (escape_mode t) (ansi_mode t) (skip_next_lf t) v (suppress_next_cr t).
Definition set_suppress_next_cr v t := mk_term (cursor_x t) (cursor_y t) (cursor_visible t) (escape_mode t) (ansi_mode t) (skip_next_lf t) (skip_next_cr t) v.

Definition set_charbuf_front v s := mk_screen v (charbuf_back s) (colourbuf_front s) (colourbuf_back s).
Definition set_charbuf_back v s := mk_screen (charbuf_front s) v (colourbuf_front s) (colourbuf_back s).
Definition set_colourbuf_front v s := mk_screen (charbuf_front s) (charbuf_back s) v (colourbuf_back s).
Definition set_colourbuf_back v s := mk_screen (charbuf_front s) (charbuf_back s) (colourbuf_front s) v.

Definition set_swap_pending v w := mk_swap v (scroll_settled w) (safe_to_scroll w) (swap_queued w) (buffer_dirty w).
Definition set_scroll_settled v w := mk_swap (swap_pending w) v (safe_to_scroll w) (swap_queued w) (buffer_dirty w).
Definition set_safe_to_scroll v w := mk_swap (swap_pending w) (scroll_settled w) v (swap_queued w) (buffer_dirty w).
Definition set_swap_queued v w := mk_swap (swap_pending w) (scroll_settled w) (safe_to_scroll w) v (buffer_dirty w).
Definition set_buffer_dirty v w := mk_swap (swap_pending w) (scroll_settled w) (safe_to_scroll w) (swap_queued w) v.

Definition set_cursor_drawn v k := mk_cursor v (saved_cursor_x k) (saved_cursor_y k) (cursor_draw_x k) (cursor_draw_y k) (saved_cursor_char k) (saved_cursor_fg k) (cursor_blink_counter k).
Definition set_saved_cursor_x v k := mk_cursor (cursor_drawn k) v (saved_cursor_y k) (cursor_draw_x k) (cursor_draw_y k) (saved_cursor_char k) (saved_cursor_fg k) (cursor_blink_counter k).
Definition set_saved_cursor_y v k := mk_cursor (cursor_drawn k) (saved_cursor_x k) v (cursor_draw_x k) (cursor_draw_y k) (saved_cursor_char k) (saved_cursor_fg k) (cursor_blink_counter k).
Definition set_cursor_draw_x v k := mk_cursor (cursor_drawn k) (saved_cursor_x k) (saved_cursor_y k) v (cursor_draw_y k) (saved_cursor_char k) (saved_cursor_fg k) (cursor_blink_counter k).
Definition set_cursor_draw_y v k := mk_cursor (cursor_drawn k) (saved_cursor_x k) (saved_cursor_y k) (cursor_draw_x k) v (saved_cursor_char k) (saved_cursor_fg k) (cursor_blink_counter k).
Definition set_saved_cursor_char v k := mk_cursor (cursor_drawn k) (saved_cursor_x k) (saved_cursor_y k) (cursor_draw_x k) (cursor_draw_y k) v (saved_cursor_fg k) (cursor_blink_counter k).
Definition set_saved_cursor_fg v k := mk_cursor (cursor_drawn k) (saved_cursor_x k) (saved_cursor_y k) (cursor_draw_x k) (cursor_draw_y k) (saved_cursor_char k) v (cursor_blink_counter k).
Definition set_cursor_blink_counter v k := mk_cursor (cursor_drawn k) (saved_cursor_x k) (saved_cursor_y k) (cursor_draw_x k) (cursor_draw_y k) (saved_cursor_char k) (saved_cursor_fg k) v.

Definition set_ansi_params v a := mk_ansi v (ansi_param_count a) (ansi_param_index a) (ansi_buffer a) (ansi_buf_len a) (ansi_final_char a).
Definition set_ansi_param_count v a := mk_ansi (ansi_params a) v (ansi_param_index a) (ansi_buffer a) (ansi_buf_len a) (ansi_final_char a).
Definition set_ansi_param_index v a := mk_ansi (ansi_params a) (ansi_param_count a) v (ansi_buffer a) (ansi_buf_len a) (ansi_final_char a).
Definition set_ansi_buffer v a := mk_ansi (ansi_params a) (ansi_param_count a) (ansi_param_index a) v (ansi_buf_len a) (ansi_final_char a).
Definition set_ansi_buf_len v a := mk_ansi (ansi_params a) (ansi_param_count a) (ansi_param_index a) (ansi_buffer a) v (ansi_final_char a).
Definition set_ansi_final_char v a := mk_ansi (ansi_params a) (ansi_param_count a) (ansi_param_index a) (ansi_buffer a) (ansi_buf_len a) v.

Definition set_current_cursor v h := mk_theme v (current_fg h) (current_bg h).
Definition set_current_fg v h := mk_theme (current_cursor h) v (current_bg h).
Definition set_current_bg v h := mk_theme (current_cursor h) (current_fg h) v.

Definition set_saved_chars v m := mk_menu v (saved_fg m) (saved_bg m) (menu_left m) (menu_top m) (theme_select_mode m) (cursor_menu_mode m) (bg_color_menu_mode m) (fg_color_menu_mode m) (color_menu_buf m) (color_menu_buf_len m).
Definition set_saved_fg v m := mk_menu (saved_chars m) v (saved_bg m) (menu_left m) (menu_top m) (theme_select_mode m) (cursor_menu_mode m) (bg_color_menu_mode m) (fg_color_menu_mode m) (color_menu_buf m) (color_menu_buf_len m).
Definition set_saved_bg v m := mk_menu (saved_chars m) (saved_fg m) v (menu_left m) (menu_top m) (theme_select_mode m) (cursor_menu_mode m) (bg_color_menu_mode m) (fg_color_menu_mode m) (color_menu_buf m) (color_menu_buf_len m).
Definition set_menu_left v m := mk_menu (saved_chars m) (saved_fg m) (saved_bg m) v (menu_top m) (theme_select_mode m) (cursor_menu_mode m) (bg_color_menu_mode m) (fg_color_menu_mode m) (color_menu_buf m) (color_menu_buf_len m).
Definition set_menu_top v m := mk_menu (saved_chars m) (saved_fg m) (saved_bg m) (menu_left m) v (theme_select_mode m) (cursor_menu_mode m) (bg_color_menu_mode m) (fg_color_menu_mode m) (color_menu_buf m) (color_menu_buf_len m).
Definition set_theme_select_mode v m := mk_menu (saved_chars m) (saved_fg m) (saved_bg m) (menu_left m) (menu_top m) v (cursor_menu_mode m) (bg_color_menu_mode m) (fg_color_menu_mode m) (color_menu_buf m) (color_menu_buf_len m).
Definition set_cursor_menu_mode v m := mk_menu (saved_chars m) (saved_fg m) (saved_bg m) (menu_left m) (menu_top m) (theme_select_mode m) v (bg_color_menu_mode m) (fg_color_menu_mode m) (color_menu_buf m) (color_menu_buf_len m).
Definition set_bg_color_menu_mode v m := mk_menu (saved_chars m) (saved_fg m) (saved_bg m) (menu_left m) (menu_top m) (theme_select_mode m) (cursor_menu_mode m) v (fg_color_menu_mode m) (color_menu_buf m) (color_menu_buf_len m).
Definition set_fg_color_menu_mode v m := mk_menu (saved_chars m) (saved_fg m) (saved_bg m) (menu_left m) (menu_top m) (theme_select_mode m) (cursor_menu_mode m) (bg_color_menu_mode m) v (color_menu_buf m) (color_menu_buf_len m).
Definition set_color_menu_buf v m := mk_menu (saved_chars m) (saved_fg m) (saved_bg m) (menu_left m) (menu_top m) (theme_select_mode m) (cursor_menu_mode m) (bg_color_menu_mode m) (fg_color_menu_mode m) v (color_menu_buf_len m).
Definition set_color_menu_buf_len v m := mk_menu (saved_chars m) (saved_fg m) (saved_bg m) (menu_left m) (menu_top m) (theme_select_mode m) (cursor_menu_mode m) (bg_color_menu_mode m) (fg_color_menu_mode m) (color_menu_buf m) v.

(** *** Updates of one group of globals *)

Definition on_term (f : terminal_state_t -> terminal_state_t) g :=
  mk_globals (f (term g)) (scr g) (swp g) (cur g) (ansi g) (thm g) (menu g) (input_active g).
Definition on_scr (f : screen_t -> screen_t) g :=
  mk_globals (term g) (f (scr g)) (swp g) (cur g) (ansi g) (thm g) (menu g) (input_active g).
Definition on_swp (f : swap_t -> swap_t) g :=
  mk_globals (term g) (scr g) (f (swp g)) (cur g) (ansi g) (thm g) (menu g) (input_active g).
Definition on_cur (f : cursor_t -> cursor_t) g :=
  mk_globals (term g) (scr g) (swp g) (f (cur g)) (ansi g) (thm g) (menu g) (input_active g).
Definition on_ansi (f : ansi_t -> ansi_t) g :=
  mk_globals (term g) (scr g) (swp g) (cur g) (f (ansi g)) (thm g) (menu g) (input_active g).
Definition on_thm (f : theme_t -> theme_t) g :=
  mk_globals (term g) (scr g) (swp g) (cur g) (ansi g) (f (thm g)) (menu g) (input_active g).
Definition on_menu (f : menu_t -> menu_t) g :=
  mk_globals (term g) (scr g) (swp g) (cur g) (ansi g) (thm g) (f (menu g)) (input_active g).
Definition set_input_active v g :=
  mk_globals (term g) (scr g) (swp g) (cur g) (ansi g) (thm g) (menu g) v.

(** ** Colour model and screen buffer *)

(** [set_char]: store a glyph in the back buffer; outside the grid nothing
    is written.  The arguments are converted to the parameter types
    [uint], [uint] and [uint8_t]. *)
Definition set_char (x y c : Z) (s : screen_t) : screen_t :=
  let x := uint32 x in
  let y := uint32 y in
  let c := uint8 c in
  if (x <? CHAR_COLS) && (y <? CHAR_ROWS)
  then set_charbuf_back (wr (charbuf_back s) (x + y * CHAR_COLS) c) s
  else s.

(** One turn of the plane loop of [set_colour]: the loop state is the
    colour buffer and the not yet consumed bits of [fg] and [bg]. *)
Definition set_colour_plane (word bit : Z) (st : list Z * Z * Z) (p : Z) : list Z * Z * Z :=
  let '(cb, fg, bg) := st in
  let val := uint32 (Z.lor (Z.land fg 3) (Z.land (Z.shiftl bg 2) 12)) in
  let i := word + p * COLOUR_PLANE_SIZE_WORDS in
  let cleared := Z.land (rd cb i) (uint32 (Z.lnot (uint32 (Z.shiftl 15 bit)))) in
  (wr cb i (Z.lor cleared (uint32 (Z.shiftl val bit))),
   uint8 (Z.shiftr fg 2), uint8 (Z.shiftr bg 2)).

(** [set_colour]: pack [(fg, bg)] into the cell's nibble of the three
    colour planes of the back buffer. *)
Definition set_colour (x y fg bg : Z) (s : screen_t) : screen_t :=
  let x := uint32 x in
  let y := uint32 y in
  let fg := uint8 fg in
  let bg := uint8 bg in
  if (x >=? CHAR_COLS) || (y >=? CHAR_ROWS) then s
  else
    let idx := x + y * CHAR_COLS in
    let bit := (idx mod 8) * 4 in
    let word := idx / 8 in
    let '(cb, _, _) :=
      foldl (set_colour_plane word bit) (colourbuf_back s, fg, bg) [0; 1; 2] in
    set_colourbuf_back cb s.

(** One turn of the decoding loop [for (int p = 2; p >= 0; --p)] that
    [draw_color_menu], [draw_cursor_menu] and the blink code of [main] run
    on a cell. *)
Definition get_colour_plane (cb : list Z) (word bit : Z) (st : Z * Z) (p : Z) : Z * Z :=
  let '(fg, bg) := st in
  let val := rd cb (word + p * COLOUR_PLANE_SIZE_WORDS) in
  let nibble := uint8 (Z.land (Z.shiftr val bit) 15) in
  (uint8 (Z.lor (Z.shiftl fg 2) (Z.land nibble 3)),
   uint8 (Z.lor (Z.shiftl bg 2) (Z.land (Z.shiftr nibble 2) 3))).

(** The decoded pair [(fg, bg)] of the cell [(px, py)] of the back buffer. *)
Definition get_colour (px py : Z) (s : screen_t) : Z * Z :=
  let idx := px + py * CHAR_COLS in
  let bit := (idx mod 8) * 4 in
  let word := idx / 8 in
  foldl (get_colour_plane (colourbuf_back s) word bit) (0, 0) [2; 1; 0].

(** [memmove(&a[dst], &a[src], n)] on elements of one array. *)
Definition memmove (a : list Z) (dst src n : Z) : list Z :=
  take (Z.to_nat dst) a
  ++ take (Z.to_nat n) (drop (Z.to_nat src) a)
  ++ drop (Z.to_nat (dst + n)) a.

(** ** Swap protocol *)

Definition request_swap (g : globals) : globals :=
  if negb (swap_queued (swp g))
  then on_swp (fun w => set_swap_queued true (set_swap_pending true w)) g
  else g.

(** The bulk copy back over front, and the flags it resets. *)
Definition perform_swap (g : globals) : globals :=
  let g := on_scr (fun s =>
             set_colourbuf_front (colourbuf_back s)
               (set_charbuf_front (charbuf_back s) s)) g in
  on_swp (fun w =>
    set_safe_to_scroll true (set_scroll_settled true
      (set_swap_queued false (set_swap_pending false w)))) g.

Definition safe_request_swap (g : globals) : globals :=
  if buffer_dirty (swp g) || cursor_drawn (cur g) || cursor_visible (term g)
  then on_swp (set_buffer_dirty false) (perform_swap (request_swap g))
  else g.

(** The render loop of [core1_main] at display line [y]: the swap happens
    at line 0 when one is pending; the scan-out that follows only reads the
    front buffer. *)
Definition core1_line (y : Z) (g : globals) : globals :=
  if (y =? 0) && swap_pending (swp g) then perform_swap g else g.

(** ** Terminal operations *)

Definition clear_screen (g : globals) : globals :=
  let fg := current_fg (thm g) in
  let bg := current_bg (thm g) in
  let g := on_scr (fun s =>
             set_colourbuf_back (replicate (length (colourbuf_back s)) 0) s) g in
  let g := on_scr (fun s =>
             foldl (fun s y =>
               foldl (fun s x =>
                 set_colour x y fg bg
                   (set_charbuf_back (wr (charbuf_back s) (x + y * CHAR_COLS) 32) s))
                 s (upto CHAR_COLS))
               s (upto CHAR_ROWS)) g in
  let g := on_term (fun t => set_cursor_y 0 (set_cursor_x 0 t)) g in
  request_swap g.

Definition scroll_up (g : globals) : globals :=
  let fg := current_fg (thm g) in
  let bg := current_bg (thm g) in
  let last := CHAR_ROWS - 1 in
  let g := on_scr (fun s =>
    (* shift the character buffer *)
    let s := set_charbuf_back
               (memmove (charbuf_back s) 0 CHAR_COLS (last * CHAR_COLS)) s in
    (* clear the last row of characters *)
    let s := foldl (fun s x =>
               set_charbuf_back (wr (charbuf_back s) (x + last * CHAR_COLS) 32) s)
               s (upto CHAR_COLS) in
    (* shift every colour plane *)
    let s := foldl (fun s p =>
               let base := p * COLOUR_PLANE_SIZE_WORDS in
               set_colourbuf_back
                 (memmove (colourbuf_back s) base (base + CHAR_COLS / 8)
                    (last * (CHAR_COLS / 8))) s)
               s [0; 1; 2] in
    (* clear the nibbles of the last row *)
    let s := foldl (fun s x =>
               let idx := x + last * CHAR_COLS in
               let bit := (idx mod 8) * 4 in
               let word := idx / 8 in
               foldl (fun s p =>
                 let i := word + p * COLOUR_PLANE_SIZE_WORDS in
                 set_colourbuf_back
                   (wr (colourbuf_back s) i
                      (Z.land (rd (colourbuf_back s) i)
                         (uint32 (Z.lnot (uint32 (Z.shiftl 15 bit)))))) s)
                 s [0; 1; 2])
               s (upto CHAR_COLS) in
    (* paint the last row with the current colours *)
    foldl (fun s x => set_colour x last fg bg s) s (upto CHAR_COLS)) g in
  let g := on_swp (set_buffer_dirty true) g in
  safe_request_swap g.

Definition new_line (g : globals) : globals :=
  let g := on_term (set_cursor_x 0) g in
  let y' := uint16 (cursor_y (term g) + 1) in
  let g := on_term (set_cursor_y y') g in
  let g := if y' >=? CHAR_ROWS
           then scroll_up (on_term (set_cursor_y (CHAR_ROWS - 1)) g)
           else g in
  let g := on_swp (set_buffer_dirty true) g in
  safe_request_swap g.

(** ** ANSI processing *)

Definition ansi_colors : list Z := [0; 48; 12; 60; 3; 51; 15; 63].

Definition process_ansi_code (param : Z) (h : theme_t) : theme_t :=
  if param =? 0 then set_current_bg 0 (set_current_fg 63 h)
  else if (param >=? 30) && (param <=? 37)
  then set_current_fg (rd ansi_colors (param - 30)) h
  else if (param >=? 40) && (param <=? 47)
  then set_current_bg (rd ansi_colors (param - 40)) h
  else h.

(** The count [n] of the cursor movements A, B, C and D. *)
Definition move_count (params : list Z) (count : Z) : Z :=
  if (count >=? 1) && (rd params 0 >? 0) then rd params 0 else 1.

Definition process_ansi_sequence (params : list Z) (count : Z) (final : Z)
    (g : globals) : globals :=
  if final =? 74 (* 'J' *) then
    if (count =? 1) && (rd params 0 =? 2) then clear_screen g else g
  else if final =? 75 (* 'K' *) then
    let n := CHAR_COLS - cursor_x (term g) in
    let g := on_scr (fun s =>
               foldl (fun s x =>
                 set_colour x (cursor_y (term g)) (current_fg (thm g)) (current_bg (thm g))
                   (set_char x (cursor_y (term g)) 32 s))
                 s (seqZ (cursor_x (term g)) n)) g in
    on_swp (set_buffer_dirty true) g
  else if final =? 72 (* 'H' *) then
    let g := if count >=? 1
             then on_term (set_cursor_y
                    (uint16 (if rd params 0 >? 0 then rd params 0 - 1 else 0))) g
             else g in
    if count >=? 2
    then on_term (set_cursor_x
           (uint16 (if rd params 1 >? 0 then rd params 1 - 1 else 0))) g
    else g
  else if final =? 109 (* 'm' *) then
    on_thm (fun h =>
      foldl (fun h i => process_ansi_code (rd params i) h) h (upto count)) g
  else if final =? 115 (* 's' *) then
    on_cur (fun k => set_saved_cursor_y (cursor_y (term g))
                       (set_saved_cursor_x (cursor_x (term g)) k)) g
  else if final =? 117 (* 'u' *) then
    if negb (saved_cursor_x (cur g) =? -1) && negb (saved_cursor_y (cur g) =? -1)
    then on_term (fun t => set_cursor_y (uint16 (saved_cursor_y (cur g)))
                             (set_cursor_x (uint16 (saved_cursor_x (cur g))) t)) g
    else g
  else if final =? 65 (* 'A' *) then
    let n := move_count params count in
    if cursor_y (term g) >=? n
    then on_term (set_cursor_y (uint16 (cursor_y (term g) - n))) g
    else on_term (set_cursor_y 0) g
  else if final =? 66 (* 'B' *) then
    let n := move_count params count in
    if cursor_y (term g) + n <? CHAR_ROWS
    then on_term (set_cursor_y (uint16 (cursor_y (term g) + n))) g
    else on_term (set_cursor_y (CHAR_ROWS - 1)) g
  else if final =? 67 (* 'C' *) then
    let n := move_count params count in
    if cursor_x (term g) + n <? CHAR_COLS
    then on_term (set_cursor_x (uint16 (cursor_x (term g) + n))) g
    else on_term (set_cursor_x (CHAR_COLS - 1)) g
  else if final =? 68 (* 'D' *) then
    let n := move_count params count in
    if cursor_x (term g) >=? n
    then on_term (set_cursor_x (uint16 (cursor_x (term g) - n))) g
    else on_term (set_cursor_x 0) g
  else g.

(** ** Menus *)

(** The bytes of a C string literal. *)
Definition bytes_of (s : string) : list Z :=
  map (fun a => Z.of_N (N_of_ascii a)) (list_ascii_of_string s).

(** The body of the saving loop for the cell [row], [col] of the
    rectangle at [(left, top)]: glyph and decoded colours of an in-grid
    cell go to [saved_chars], [saved_fg] and [saved_bg]. *)
Definition save_menu_cell (sc : screen_t) (left top row col : Z) (m : menu_t) : menu_t :=
  let px := uint32 (left + col) in
  let py := uint32 (top + row) in
  if (px <? CHAR_COLS) && (py <? CHAR_ROWS) then
    let at_ := row * MENU_BUFFER_WIDTH + col in
    let ch := rd (charbuf_back sc) (px + py * CHAR_COLS) in
    let '(fg, bg) := get_colour px py sc in
    set_saved_bg (wr (saved_bg m) at_ bg)
      (set_saved_fg (wr (saved_fg m) at_ fg)
         (set_saved_chars (wr (saved_chars m) at_ ch) m))
  else m.

(** The saving loop shared by [draw_color_menu] and [draw_cursor_menu]
    over the [rows] x [cols] rectangle at [(menu_left, menu_top)].  The
    loop writes the three save arrays only; [menu_left], [menu_top] and
    the back buffer, which it reads, are the same in every turn. *)
Definition save_menu_region (rows cols : Z) (g : globals) : globals :=
  on_menu (fun m =>
    foldl (fun m row =>
      foldl (fun m col =>
        save_menu_cell (scr g) (menu_left (menu g)) (menu_top (menu g)) row col m)
        m (upto cols))
      m (upto rows)) g.

(** The loop [for (i = 0; i < strlen(s); i++) { set_char(x + i, y, s[i]);
    set_colour(x + i, y, current_fg, current_bg); }] of the menu code. *)
Definition draw_text (x y : Z) (s : list Z) (fg bg : Z) (sc : screen_t) : screen_t :=
  foldl (fun sc i => set_colour (x + i) y fg bg (set_char (x + i) y (rd s i) sc))
    sc (upto (Z.of_nat (length s))).

(** A horizontal border line: corner, [width] dashes from column [x],
    corner. *)
Definition draw_border_row (left x row width : Z) (sc : screen_t) : screen_t :=
  let sc := set_char left row 43 sc in
  let sc := foldl (fun sc i => set_char (x + i) row 45 sc) sc (upto width) in
  set_char (left + width) row 43 sc.

(** The two vertical border lines over [height] rows from row [y]. *)
Definition draw_border_sides (left y width height : Z) (sc : screen_t) : screen_t :=
  foldl (fun sc i => set_char (left + width) (y + i) 124 (set_char left (y + i) 124 sc))
    sc (upto height).

(** What [draw_color_menu] paints into the back buffer: the border, the
    title, the grid of the 64 colour codes with their samples, and the
    prompt. *)
Definition paint_color_menu (left top x y fg bg : Z) (title prompt : list Z)
    (sc : screen_t) : screen_t :=
  let sc := draw_border_row left x top 32 sc in
  let sc := draw_border_sides left y 32 10 sc in
  let sc := draw_border_row left x (top + 10) 32 sc in
  let sc := draw_text x y title fg bg sc in
  (* colour grid with two-digit numbers *)
  let sc := foldl (fun sc row =>
              foldl (fun sc col =>
                let color_idx := uint8 (row * 8 + col) in
                let pos_x := uint16 (x + col * 4) in
                let pos_y := uint16 (y + row + 1) in
                let sc := set_char pos_x pos_y (48 + color_idx / 10) sc in
                let sc := set_char (pos_x + 1) pos_y (48 + color_idx mod 10) sc in
                let sc := set_colour pos_x pos_y 63 color_idx sc in
                let sc := set_colour (pos_x + 1) pos_y 63 color_idx sc in
                let sc := set_char (pos_x + 2) pos_y 219 sc in
                set_colour (pos_x + 2) pos_y 63 color_idx sc)
                sc (upto 8))
              sc (upto 8) in
  draw_text x (y + 9) prompt fg bg sc.

Definition draw_color_menu (title prompt : list Z) (g : globals) : globals :=
  let x := 2 in
  let y := if cursor_y (term g) + 12 <? CHAR_ROWS
           then uint16 (cursor_y (term g) + 1)
           else uint16 (CHAR_ROWS - 12) in
  let g := on_menu (fun m => set_menu_top (uint16 (y - 1)) (set_menu_left (uint16 (x - 1)) m)) g in
  let g := save_menu_region 12 34 g in
  let g := on_scr (paint_color_menu (menu_left (menu g)) (menu_top (menu g)) x y
                     (current_fg (thm g)) (current_bg (thm g)) title prompt) g in
  let g := on_swp (set_buffer_dirty true) g in
  safe_request_swap g.

(** The loop of [restore_menu_region]: every in-grid cell of the saved
    rectangle gets its saved glyph and colours back. *)
Definition restore_cells (m : menu_t) (sc : screen_t) : screen_t :=
  foldl (fun sc row =>
    foldl (fun sc col =>
      let px := uint32 (menu_left m + col) in
      let py := uint32 (menu_top m + row) in
      if (px <? CHAR_COLS) && (py <? CHAR_ROWS) then
        let at_ := row * MENU_BUFFER_WIDTH + col in
        set_colour px py (rd (saved_fg m) at_) (rd (saved_bg m) at_)
          (set_char px py (rd (saved_chars m) at_) sc)
      else sc)
      sc (upto MENU_BUFFER_WIDTH))
    sc (upto MENU_BUFFER_HEIGHT).

Definition restore_menu_region (g : globals) : globals :=
  let g := on_scr (restore_cells (menu g)) g in
  let g := on_swp (set_buffer_dirty true) g in
  safe_request_swap g.

Definition cursor_menu_lines : list (list Z) :=
  [ bytes_of "Cursor Style Menu:";
    bytes_of "[1] Block        " ++ [219];
    bytes_of "[2] Underline    _";
    bytes_of "[3] Bar          |";
    bytes_of "[4] Apple I      @";
    bytes_of "[5] Shaded Block " ++ [178];
    bytes_of "[6] Arrow        >";
    bytes_of "Select style: " ].

(** What [draw_cursor_menu] paints into the back buffer. *)
Definition paint_cursor_menu (left top x y fg bg : Z) (sc : screen_t) : screen_t :=
  let num_lines := Z.of_nat (length cursor_menu_lines) in
  let box_width := 32 in
  let box_height := uint8 (num_lines + 2) in
  let sc := draw_border_row left x top box_width sc in
  let sc := draw_border_sides left y box_width (box_height - 2) sc in
  let sc := draw_border_row left x (top + box_height - 1) box_width sc in
  foldl (fun sc i => draw_text x (y + i) (nth (Z.to_nat i) cursor_menu_lines []) fg bg sc)
    sc (upto num_lines).

Definition draw_cursor_menu (g : globals) : globals :=
  let x := 2 in
  let y := if cursor_y (term g) + MENU_BUFFER_HEIGHT + 1 <? CHAR_ROWS
           then uint16 (cursor_y (term g) + 1)
           else uint16 (CHAR_ROWS - MENU_BUFFER_HEIGHT - 1) in
  let g := on_menu (fun m => set_menu_top (uint16 (y - 1)) (set_menu_left (uint16 (x - 1)) m)) g in
  let g := save_menu_region MENU_BUFFER_HEIGHT MENU_BUFFER_WIDTH g in
  let g := on_scr (paint_cursor_menu (menu_left (menu g)) (menu_top (menu g)) x y
                     (current_fg (thm g)) (current_bg (thm g))) g in
  let g := on_swp (set_buffer_dirty true) g in
  safe_request_swap g.

(** ** Cursor engine *)

Definition cursor_glyph (st : cursor_style) : Z :=
  match st with
  | CURSOR__SOLID_BLOCK => 219
  | CURSOR_APPLE_I => 64
  | CURSOR_UNDERLINE => 95
  | CURSOR_BAR => 124
  | CURSOR_SHADED_BLOCK => 178
  | CURSOR__SOLID_ARROW => 62
  end.

(** Restoring the cell under a drawn cursor: [set_char] and [set_colour]
    at [(cursor_draw_x, cursor_draw_y)] with the saved glyph. *)
Definition restore_cursor_cell (g : globals) : globals :=
  on_scr (fun sc =>
    set_colour (cursor_draw_x (cur g)) (cursor_draw_y (cur g))
      (saved_cursor_fg (cur g)) (current_bg (thm g))
      (set_char (cursor_draw_x (cur g)) (cursor_draw_y (cur g))
         (saved_cursor_char (cur g)) sc)) g.

(** Painting the cursor glyph at [(cursor_draw_x, cursor_draw_y)]: the cell
    is blanked with the current background and then receives the glyph of
    the current style in the current colours. *)
Definition paint_cursor_cell (g : globals) : globals :=
  let x := cursor_draw_x (cur g) in
  let y := cursor_draw_y (cur g) in
  on_scr (fun sc =>
    let sc := set_char x y 32 sc in
    let sc := set_colour x y 0 (current_bg (thm g)) sc in
    let sc := set_char x y (cursor_glyph (current_cursor (thm g))) sc in
    set_colour x y (current_fg (thm g)) (current_bg (thm g)) sc) g.

(** The first block of [handle_char]: remove the cursor if it is drawn. *)
Definition remove_cursor (g : globals) : globals :=
  if cursor_drawn (cur g)
  then on_swp (set_buffer_dirty true)
         (on_cur (set_cursor_drawn false) (restore_cursor_cell g))
  else g.

(** The last block of [handle_char]: the forced cursor redraw. *)
Definition redraw_cursor (g : globals) : globals :=
  if cursor_visible (term g) && negb (cursor_menu_mode (menu g)) then
    let g := if cursor_drawn (cur g) then restore_cursor_cell g else g in
    let g := on_cur (fun k => set_cursor_draw_y (cursor_y (term g))
                                (set_cursor_draw_x (cursor_x (term g)) k)) g in
    let g := on_cur (set_saved_cursor_char
               (rd (charbuf_back (scr g))
                  (cursor_draw_x (cur g) + cursor_draw_y (cur g) * CHAR_COLS))) g in
    let g := paint_cursor_cell g in
    on_swp (set_buffer_dirty true) (on_cur (set_cursor_drawn true) g)
  else g.

(** The cursor blink block at the head of the main loop. *)
Definition cursor_blink (g : globals) : globals :=
  if cursor_visible (term g) && negb (cursor_menu_mode (menu g)) then
    let g := on_cur (fun k =>
               set_cursor_blink_counter (uint32 (cursor_blink_counter k + 1)) k) g in
    if cursor_blink_counter (cur g) >=? CURSOR_BLINK_MS / MAIN_LOOP_MIN_MS then
      let g := on_cur (set_cursor_blink_counter 0) g in
      let g :=
        if cursor_drawn (cur g)
        then on_cur (set_cursor_drawn false) (restore_cursor_cell g)
        else
          let g := on_cur (fun k => set_cursor_draw_y (cursor_y (term g))
                                      (set_cursor_draw_x (cursor_x (term g)) k)) g in
          let g := on_cur (set_saved_cursor_char
                     (rd (charbuf_back (scr g))
                        (cursor_draw_x (cur g) + cursor_draw_y (cur g) * CHAR_COLS))) g in
          let g := on_cur (set_saved_cursor_fg
                     (fst (get_colour (cursor_draw_x (cur g)) (cursor_draw_y (cur g)) (scr g)))) g in
          let g := paint_cursor_cell g in
          on_cur (set_cursor_drawn true) g in
      safe_request_swap (on_swp (set_buffer_dirty true) g)
    else g
  else g.

(** ** The C library function [atoi]

    [handle_char] converts the digits gathered in [ansi_buffer] with
    [atoi].  The buffer only ever holds ASCII digits below [ansi_buf_len]
    and the terminating NUL written just before the call, so the blank and
    sign prefix that [atoi] accepts never occurs and the result is the
    value of the leading run of digits.  ISO C defines that result only
    when it fits [int]; what [atoi] returns beyond [INT_MAX] is left to
    the C library and is a parameter of the model. *)
Class LibC := { atoi_out_of_range : list Z -> Z }.

(** newlib, the C library of the Pico SDK: [atoi(s)] is
    [(int) strtol(s, NULL, 10)], and [strtol] saturates at [LONG_MAX],
    which is [INT_MAX] on this 32-bit target. *)
Definition newlib : LibC := {| atoi_out_of_range := fun _ => INT_MAX |}.

Definition is_digit (c : Z) : bool := (48 <=? c) && (c <=? 57).

Fixpoint digit_run (s : list Z) : list Z :=
  match s with
  | c :: s' => if is_digit c then c :: digit_run s' else []
  | [] => []
  end.

(** The value of a string of ASCII digits. *)
Definition decimal (ds : list Z) : Z := foldl (fun v d => v * 10 + (d - 48)) 0 ds.

Definition atoi `{LibC} (s : list Z) : Z :=
  let ds := digit_run s in
  if decimal ds <=? INT_MAX then decimal ds else atoi_out_of_range ds.

(** ** Character handling *)

Definition reset_ansi_state (a : ansi_t) : ansi_t :=
  set_ansi_final_char 0 (set_ansi_buf_len 0
    (set_ansi_param_index 0 (set_ansi_param_count 0 a))).

(** [ansi_buffer[ansi_buf_len] = '\0';] *)
Definition terminate_ansi_buffer (a : ansi_t) : ansi_t :=
  set_ansi_buffer (wr (ansi_buffer a) (ansi_buf_len a) 0) a.

(** [ansi_params[ansi_param_count++] = atoi(ansi_buffer);] *)
Definition commit_param `{LibC} (a : ansi_t) : ansi_t :=
  set_ansi_param_count (uint8 (ansi_param_count a + 1))
    (set_ansi_params
       (wr (ansi_params a) (ansi_param_count a) (uint8 (atoi (ansi_buffer a)))) a).

(** The branch [if (term.escape_mode)] of [handle_char]. *)
Definition handle_escape `{LibC} (c : Z) (g : globals) : globals :=
  if c =? 91 (* '[' *) then
    on_ansi reset_ansi_state (on_term (set_ansi_mode true) g)
  else if ansi_mode (term g) then
    if is_digit c then
      if ansi_buf_len (ansi g) <? ANSI_BUFFER_SIZE - 1
      then on_ansi (fun a =>
             set_ansi_buf_len (uint8 (ansi_buf_len a + 1))
               (set_ansi_buffer (wr (ansi_buffer a) (ansi_buf_len a) c) a)) g
      else g
    else if c =? 59 (* ';' *) then
      let g := on_ansi terminate_ansi_buffer g in
      let g := if ansi_param_count (ansi g) <? ANSI_PARAM_MAX
               then on_ansi commit_param g else g in
      on_ansi (set_ansi_buf_len 0) g
    else
      let g := on_ansi terminate_ansi_buffer g in
      let g := if (ansi_buf_len (ansi g) >? 0)
                  && (ansi_param_count (ansi g) <? ANSI_PARAM_MAX)
               then on_ansi commit_param g else g in
      let g := process_ansi_sequence
                 (ansi_params (ansi g)) (ansi_param_count (ansi g)) c g in
      on_term (fun t => set_ansi_mode false (set_escape_mode false t)) g
  else on_term (set_escape_mode false) g.

(** The branches [if (fg_color_menu_mode)] and [if (bg_color_menu_mode)]
    of [handle_char] are the same code up to the colour assigned
    ([set_color]) and the mode flag cleared ([set_mode]). *)
Definition color_menu_char (set_color : Z -> theme_t -> theme_t)
    (set_mode : bool -> menu_t -> menu_t) (c : Z) (g : globals) : globals :=
  let len := color_menu_buf_len (menu g) in
  if is_digit c && (len <? 2) then
    let g := on_menu (fun m =>
               set_color_menu_buf_len (uint8 (len + 1))
                 (set_color_menu_buf (wr (color_menu_buf m) len c) m)) g in
    if color_menu_buf_len (menu g) =? 2 then
      let color_num :=
        uint8 ((rd (color_menu_buf (menu g)) 0 - 48) * 10
               + (rd (color_menu_buf (menu g)) 1 - 48)) in
      let g := if color_num <? 64 then on_thm (set_color color_num) g else g in
      let g := restore_menu_region g in
      on_menu (fun m => set_color_menu_buf_len 0 (set_mode false m)) g
    else g
  else if (c =? 8) && (len >? 0) then
    on_menu (set_color_menu_buf_len (uint8 (len - 1))) g
  else if c =? 27 then
    let g := restore_menu_region g in
    on_menu (fun m => set_color_menu_buf_len 0 (set_mode false m)) g
  else g.

Definition cursor_style_of_key (c : Z) : option cursor_style :=
  if c =? 49 then Some CURSOR__SOLID_BLOCK
  else if c =? 50 then Some CURSOR_UNDERLINE
  else if c =? 51 then Some CURSOR_BAR
  else if c =? 52 then Some CURSOR_APPLE_I
  else if c =? 53 then Some CURSOR_SHADED_BLOCK
  else if c =? 54 then Some CURSOR__SOLID_ARROW
  else None.

(** The branch [if (cursor_menu_mode)] of [handle_char]. *)
Definition cursor_menu_char (c : Z) (g : globals) : globals :=
  match cursor_style_of_key c with
  | None => g
  | Some st =>
    let g := on_thm (set_current_cursor st) g in
    let g := on_menu (set_cursor_menu_mode false) g in
    let g := restore_menu_region g in
    let g := on_term (set_cursor_visible true) g in
    on_cur (set_cursor_blink_counter 0) g
  end.

(** The theme presets [(fg, bg)] of keys '0' to '9'. *)
Definition theme_of_key (c : Z) : option (Z * Z) :=
  if c =? 48 then Some (12, 0)
  else if c =? 49 then Some (60, 0)
  else if c =? 50 then Some (63, 3)
  else if c =? 51 then Some (0, 63)
  else if c =? 52 then Some (11, 3)
  else if c =? 53 then Some (60, 3)
  else if c =? 54 then Some (51, 0)
  else if c =? 55 then Some (42, 0)
  else if c =? 56 then Some (15, 0)
  else if c =? 57 then Some (48, 21)
  else None.

(** The branch [if (theme_select_mode)] of [handle_char]. *)
Definition theme_char (c : Z) (g : globals) : globals :=
  match theme_of_key c with
  | None => g
  | Some (fg, bg) =>
    on_menu (set_theme_select_mode false)
      (on_thm (fun h => set_current_bg bg (set_current_fg fg h)) g)
  end.

Definition open_color_menu (set_mode : bool -> menu_t -> menu_t)
    (title : list Z) (g : globals) : globals :=
  let g := on_menu (fun m =>
             set_color_menu_buf [0; 0; 0]
               (set_color_menu_buf_len 0 (set_mode true m))) g in
  draw_color_menu title (bytes_of "Enter color code (00-63):") g.

(** The [switch (c)] of [handle_char]. *)
Definition handle_normal (c : Z) (g : globals) : globals :=
  if c =? 6 (* Ctrl+F *) then
    open_color_menu set_fg_color_menu_mode (bytes_of "Foreground Color Menu") g
  else if c =? 2 (* Ctrl+B *) then
    open_color_menu set_bg_color_menu_mode (bytes_of "Background Color Menu") g
  else if c =? 20 then on_menu (set_theme_select_mode true) g
  else if c =? 14 then draw_cursor_menu (on_menu (set_cursor_menu_mode true) g)
  else if c =? 27 then on_term (set_escape_mode true) g
  else if c =? 13 (* '\r' *) then
    on_term (fun t => set_suppress_next_cr true (set_skip_next_lf true t)) (new_line g)
  else if c =? 10 (* '\n' *) then
    on_term (set_skip_next_cr true) (new_line g)
  else if c =? 8 (* '\b' *) then
    if cursor_x (term g) >? 0 then
      let g := on_term (set_cursor_x (uint16 (cursor_x (term g) - 1))) g in
      let g := on_scr (fun sc =>
                 set_colour (cursor_x (term g)) (cursor_y (term g))
                   (current_fg (thm g)) (current_bg (thm g))
                   (set_char (cursor_x (term g)) (cursor_y (term g)) 32 sc)) g in
      on_swp (set_buffer_dirty true) g
    else g
  else
    let g := on_scr (fun sc =>
               set_colour (cursor_x (term g)) (cursor_y (term g))
                 (current_fg (thm g)) (current_bg (thm g))
                 (set_char (cursor_x (term g)) (cursor_y (term g)) c sc)) g in
    let g := on_term (set_cursor_x (uint16 (cursor_x (term g) + 1))) g in
    let g := on_swp (set_buffer_dirty true) g in
    if cursor_x (term g) >=? CHAR_COLS then new_line g else g.

(** The line-ending filter at the head of [handle_char]: the flag is
    [true] when the byte is swallowed (the function returns there), and
    [false] when the byte goes on with the suppression flags reset. *)
Definition line_ending_filter (c : Z) (g : globals) : globals * bool :=
  if suppress_next_cr (term g) && (c =? 13) then
    (on_term (set_suppress_next_cr false) g, true)
  else
    let g := on_term (set_suppress_next_cr false) g in
    if skip_next_lf (term g) && (c =? 10) then
      (on_term (set_skip_next_lf false) g, true)
    else if skip_next_cr (term g) && (c =? 13) then
      (on_term (set_skip_next_cr false) g, true)
    else
      let g := if skip_next_lf (term g) && negb (c =? 10)
               then on_term (set_skip_next_lf false) g else g in
      let g := if skip_next_cr (term g) && negb (c =? 13)
               then on_term (set_skip_next_cr false) g else g in
      (g, false).

(** The mode dispatch of [handle_char] that follows the line-ending
    filter: escape sequence, the four menus, then the [switch] with the
    cursor redraw and the swap after it. *)
Definition dispatch_char `{LibC} (c : Z) (g : globals) : globals :=
  if escape_mode (term g) then handle_escape c g
  else if fg_color_menu_mode (menu g) then
    color_menu_char set_current_fg set_fg_color_menu_mode c g
  else if bg_color_menu_mode (menu g) then
    color_menu_char set_current_bg set_bg_color_menu_mode c g
  else if cursor_menu_mode (menu g) then cursor_menu_char c g
  else if theme_select_mode (menu g) then theme_char c g
  else safe_request_swap (redraw_cursor (handle_normal c g)).

Definition handle_char `{LibC} (c : Z) (g : globals) : globals :=
  let g := set_input_active true g in
  let g := remove_cursor g in
  let '(g, swallowed) := line_ending_filter c g in
  if swallowed then g else dispatch_char c g.

(** Feeding a sequence of bytes, one [handle_char] call each. *)
Definition feed `{LibC} (bs : list Z) (g : globals) : globals :=
  foldl (fun g c => handle_char c g) g bs.

(** ** Byte ingress queue *)

Record uart_queue := mk_queue {
  uart_buffer : list Z;       (* uint8_t [UART_BUFFER_SIZE] *)
  uart_head : Z;              (* uint16_t *)
  uart_tail : Z;              (* uint16_t *)
  uart_overflow : bool
}.

(** The body of the [while (uart_is_readable(UART_ID))] loop of
    [on_uart_rx] for one received byte [ch]. *)
Definition uart_rx_byte (q : uart_queue) (ch : Z) : uart_queue :=
  let next_head := uint16 ((uart_head q + 1) mod UART_BUFFER_SIZE) in
  if next_head =? uart_tail q
  then mk_queue (uart_buffer q) (uart_head q) (uart_tail q) true
  else mk_queue (wr (uart_buffer q) (uart_head q) (uint8 ch))
         next_head (uart_tail q) (uart_overflow q).

(** [on_uart_rx]: the interrupt handler takes every byte the UART holds,
    here the list [rx], in order. *)
Definition on_uart_rx (rx : list Z) (q : uart_queue) : uart_queue :=
  foldl uart_rx_byte q rx.

(** The number of buffered bytes, as [process_uart_buffer] computes it. *)
Definition uart_level (q : uart_queue) : Z :=
  (uart_head q - uart_tail q + UART_BUFFER_SIZE) mod UART_BUFFER_SIZE.

Section Consumer.
(** The consumer of the bytes; in the program it is [handle_char] on the
    globals. *)
Context {A : Type} (handle : Z -> A -> A).

(** The body of the [while (uart_tail != uart_head)] loop of
    [process_uart_buffer]. *)
Definition process_uart_byte (qa : uart_queue * A) : uart_queue * A :=
  let '(q, a) := qa in
  let c := rd (uart_buffer q) (uart_tail q) in
  let q := mk_queue (uart_buffer q) (uart_head q)
             (uint16 ((uart_tail q + 1) mod UART_BUFFER_SIZE)) (uart_overflow q) in
  let a := handle c a in
  let q := if uart_overflow q && (uart_level q >? UART_BUFFER_SIZE / 4)
           then mk_queue (uart_buffer q) (uart_head q) (uart_tail q) false
           else q in
  (q, a).

(** The loop itself, with no interrupt arriving while it runs; [None]
    when the fuel ends before the loop does. *)
Fixpoint process_uart_loop (fuel : nat) (qa : uart_queue * A) : option (uart_queue * A) :=
  if uart_tail (fst qa) =? uart_head (fst qa) then Some qa
  else match fuel with
       | O => None
       | S fuel' => process_uart_loop fuel' (process_uart_byte qa)
       end.

(** The ring never holds [UART_BUFFER_SIZE] bytes, so that many turns
    always suffice. *)
Definition process_uart_buffer (qa : uart_queue * A) : option (uart_queue * A) :=
  process_uart_loop (Z.to_nat UART_BUFFER_SIZE) qa.
End Consumer.

(** The bytes a consumer gathers, oldest first. *)
Definition collect (c : Z) (got : list Z) : list Z := got ++ [c].

(** The queue at start-up: a zeroed array, both indices 0. *)
Definition uart_init : uart_queue :=
  mk_queue (replicate (Z.to_nat UART_BUFFER_SIZE) 0) 0 0 false.

(** The bytes between tail and head, oldest first: [n] bytes from index
    [t], wrapping at [UART_BUFFER_SIZE]. *)
Fixpoint ring_slice (buf : list Z) (t : Z) (n : nat) : list Z :=
  match n with
  | O => []
  | S n' => rd buf t :: ring_slice buf ((t + 1) mod UART_BUFFER_SIZE) n'
  end.

Definition pending (q : uart_queue) : list Z :=
  ring_slice (uart_buffer q) (uart_tail q) (Z.to_nat (uart_level q)).

(** Indices in range and the array at its declared size. *)
Definition queue_ok (q : uart_queue) : Prop :=
  length (uart_buffer q) = Z.to_nat UART_BUFFER_SIZE
  /\ 0 <= uart_head q < UART_BUFFER_SIZE
  /\ 0 <= uart_tail q < UART_BUFFER_SIZE.

(** ** Start-up and the two loops *)

(** The globals as [main] leaves them before it enters its loop: zeroed
    statics, the initialisers of the declarations, the assignments of
    [main], then [clear_screen] and [perform_swap]. *)
Definition boot_globals : globals :=
  let cells := Z.to_nat (CHAR_ROWS * CHAR_COLS) in
  let words := Z.to_nat (3 * COLOUR_PLANE_SIZE_WORDS + COLOUR_PAD_WORDS) in
  let saved := Z.to_nat (MENU_BUFFER_HEIGHT * MENU_BUFFER_WIDTH) in
  mk_globals
    (mk_term 0 0 true false false false false false)
    (mk_screen (replicate cells 0) (replicate cells 0)
       (replicate words 0) (replicate words 0))
    (mk_swap false true false false false)
    (mk_cursor false 0 0 0 0 32 0 0)
    (mk_ansi (replicate (Z.to_nat ANSI_PARAM_MAX) 0) 0 0
       (replicate (Z.to_nat ANSI_BUFFER_SIZE) 0) 0 0)
    (mk_theme CURSOR_APPLE_I 12 0)
    (mk_menu (replicate saved 0) (replicate saved 0) (replicate saved 0)
       0 0 false false false false [0; 0; 0] 0)
    false.

Definition init_globals : globals :=
  Eval vm_compute in perform_swap (clear_screen boot_globals).

(** One turn of the [while (1)] loop of [main]: the blink block, then
    [process_uart_buffer], then the reset of [input_active] when more than
    100 ms lie between the start of the previous turn and the start of
    this one.  That time, [absolute_time_diff_us(last_loop_time, now)],
    is read from the clock and is the argument [elapsed_us].  The call of
    [handle_char] under [deferred_pending] never runs, since nothing sets
    that flag; the watchdog, the LED and the wait at the end of the turn
    touch none of the globals modelled here. *)
Definition main_loop_turn `{LibC} (elapsed_us : Z) (qg : uart_queue * globals)
    : option (uart_queue * globals) :=
  match process_uart_buffer handle_char (fst qg, cursor_blink (snd qg)) with
  | Some (q, g) =>
    Some (q, if elapsed_us >? 100000 then set_input_active false g else g)
  | None => None
  end.

(** The two cores as one transition system.  [core1] is at display line
    [line]; [core0] handles a byte or runs its blink block. *)
Record system := mk_system { globals_of : globals; line : Z }.

Inductive actor := Render | Terminal (c : Z) | Blink.

Definition run `{LibC} (a : actor) (s : system) : system :=
  match a with
  | Render =>
    mk_system (core1_line (line s) (globals_of s)) ((line s + 1) mod FRAME_HEIGHT)
  | Terminal c => mk_system (handle_char c (globals_of s)) (line s)
  | Blink => mk_system (cursor_blink (globals_of s)) (line s)
  end.

(** ** Definitions used by the statements and proofs below *)

(** The declared size of the colour arrays, in words. *)
Definition colourbuf_words : nat :=
  Z.to_nat (3 * COLOUR_PLANE_SIZE_WORDS + COLOUR_PAD_WORDS).

(** The decoding loop on three nibbles, plane 2 first. *)
Definition nibbles_decode (n0 n1 n2 : Z) : Z * Z :=
  foldl (fun st n =>
    (uint8 (Z.lor (Z.shiftl (fst st) 2) (Z.land n 3)),
     uint8 (Z.lor (Z.shiftl (snd st) 2) (Z.land (Z.shiftr n 2) 3))))
    (0, 0) [n2; n1; n0].

(** The three nibbles that the plane loop of [set_colour] stores for
    [(fg, bg)] fit four bits and decode to [(fg, bg)]. *)
Definition pack_checks (fg bg : Z) : bool :=
  let v0 := uint32 (Z.lor (Z.land fg 3) (Z.land (Z.shiftl bg 2) 12)) in
  let fg1 := uint8 (Z.shiftr fg 2) in
  let bg1 := uint8 (Z.shiftr bg 2) in
  let v1 := uint32 (Z.lor (Z.land fg1 3) (Z.land (Z.shiftl bg1 2) 12)) in
  let fg2 := uint8 (Z.shiftr fg1 2) in
  let bg2 := uint8 (Z.shiftr bg1 2) in
  let v2 := uint32 (Z.lor (Z.land fg2 3) (Z.land (Z.shiftl bg2 2) 12)) in
  (v0 <? 16) && (v1 <? 16) && (v2 <? 16) && (0 <=? v0) && (0 <=? v1) && (0 <=? v2)
  && bool_decide (nibbles_decode (uint8 v0) (uint8 v1) (uint8 v2) = (fg, bg)).

(** The head of [handle_char] up to the line-ending filter. *)
Definition prologue (g : globals) : globals :=
  remove_cursor (set_input_active true g).

(** All three line-ending flags reset. *)
Definition clear_line_flags (t : terminal_state_t) : terminal_state_t :=
  set_skip_next_cr false (set_skip_next_lf false (set_suppress_next_cr false t)).

(** No escape sequence is being read and no menu is open. *)
Definition in_normal (g : globals) : bool :=
  negb (escape_mode (term g))
  && negb (fg_color_menu_mode (menu g)) && negb (bg_color_menu_mode (menu g))
  && negb (cursor_menu_mode (menu g)) && negb (theme_select_mode (menu g)).

(** One of the four menus is open. *)
Definition menu_active (g : globals) : bool :=
  theme_select_mode (menu g) || cursor_menu_mode (menu g)
  || fg_color_menu_mode (menu g) || bg_color_menu_mode (menu g).

(** No line-ending flag is armed. *)
Definition line_flags_clear (g : globals) : bool :=
  negb (skip_next_lf (term g)) && negb (skip_next_cr (term g))
  && negb (suppress_next_cr (term g)).

(** The cursor lies in the grid. *)
Definition cursor_in_grid (g : globals) : Prop :=
  0 <= cursor_x (term g) < CHAR_COLS /\ 0 <= cursor_y (term g) < CHAR_ROWS.

(** ** Font table and scan-out

    [font_8x16] comes from a header that is not part of the sources at
    hand and is an argument here. *)
Definition FONT_N_CHARS : Z := 256.

(** [reverse_byte] *)
Definition reverse_byte (b : Z) : Z :=
  let b := uint8 b in
  let b := uint8 (Z.lor (Z.shiftr b 4) (Z.shiftl b 4)) in
  let b := uint8 (Z.lor (Z.shiftr (Z.land b 204) 2) (Z.shiftl (Z.land b 51) 2)) in
  uint8 (Z.lor (Z.shiftr (Z.land b 170) 1) (Z.shiftl (Z.land b 85) 1)).

(** The loop of [main] that fills [font_scanline] from [font_8x16]. *)
Definition build_font_scanline (font_8x16 : list (list Z)) (font_scanline : list Z) : list Z :=
  foldl (fun t ch =>
    foldl (fun t row =>
      let byte := uint8 (rd (nth (Z.to_nat ch) font_8x16 []) row) in
      wr t (row * FONT_N_CHARS + ch) (reverse_byte byte))
      t (upto FONT_CHAR_HEIGHT))
    font_scanline (upto FONT_N_CHARS).

(** What [core1_main] computes for display line [y]: the text row, the
    line of the glyphs, and the offsets into [charbuf_front],
    [colourbuf_front] (per plane) and [font_scanline] that it hands to the
    encoder. *)
Definition scan_row (y : Z) : Z :=
  let row := uint32 (y / FONT_CHAR_HEIGHT) in
  if row >=? CHAR_ROWS then CHAR_ROWS - 1 else row.
Definition scan_font_y (y : Z) : Z := y mod FONT_CHAR_HEIGHT.
Definition scan_chars (y : Z) : Z := scan_row y * CHAR_COLS.
Definition scan_colours (y plane : Z) : Z :=
  scan_row y * (COLOUR_PLANE_SIZE_WORDS / CHAR_ROWS) + plane * COLOUR_PLANE_SIZE_WORDS.
Definition scan_font (y : Z) : Z := scan_font_y y * FONT_N_CHARS.

(** ** Debug injection

    [inject_debug_to_uart]: the C string [msg] is the list of its bytes,
    which ends at the first NUL or at the end of the list. *)
Fixpoint inject_debug_to_uart (msg : list Z) (q : uart_queue) : uart_queue :=
  match msg with
  | [] => q
  | c :: msg' =>
    if c =? 0 then q
    else inject_debug_to_uart msg'
           (mk_queue (wr (uart_buffer q) (uart_head q) (uint8 c))
              (uint16 ((uart_head q + 1) mod UART_BUFFER_SIZE))
              (uart_tail q) (uart_overflow q))
  end.

(** ** Cells of the back buffer *)

(** The glyph of the cell [(x, y)]: [charbuf_back[x + y * CHAR_COLS]]. *)
Definition glyph_at (x y : Z) (s : screen_t) : Z :=
  rd (charbuf_back s) (x + y * CHAR_COLS).

(** The nibble of the cell [(x, y)] in colour plane [p]:
    [(colourbuf_back[word + p * COLOUR_PLANE_SIZE_WORDS] >> bit) & 0xF]. *)
Definition nibble_at (p x y : Z) (s : screen_t) : Z :=
  let idx := x + y * CHAR_COLS in
  Z.land (Z.shiftr (rd (colourbuf_back s) (idx / 8 + p * COLOUR_PLANE_SIZE_WORDS))
            (idx mod 8 * 4)) 15.

Definition in_grid (x y : Z) : Prop := 0 <= x < CHAR_COLS /\ 0 <= y < CHAR_ROWS.

(** The back arrays at their declared sizes. *)
Definition screen_ok (s : screen_t) : Prop :=
  length (charbuf_back s) = Z.to_nat (CHAR_ROWS * CHAR_COLS)
  /\ length (colourbuf_back s) = colourbuf_words.

(** The glyphs of the back buffer are bytes. *)
Definition glyphs_ok (s : screen_t) : Prop :=
  Forall (fun c => 0 <= c < 256) (charbuf_back s).

(** The cell [(x, y)] shows the same in [s] and [s']. *)
Definition same_cell (x y : Z) (s s' : screen_t) : Prop :=
  glyph_at x y s' = glyph_at x y s
  /\ forall p, 0 <= p < 3 -> nibble_at p x y s' = nibble_at p x y s.

(** The nibble that the plane loop of [set_colour] stores in plane [p]. *)
Definition packed_nibble (p fg bg : Z) : Z :=
  let fg := Z.shiftr (uint8 fg) (2 * p) in
  let bg := Z.shiftr (uint8 bg) (2 * p) in
  Z.lor (Z.land fg 3) (Z.land (Z.shiftl bg 2) 12).

(** Replacing the nibble at [bit] of the colour word [w] by [v], as the
    assignment in the plane loop of [set_colour] does. *)
Definition write_nibble (w bit v : Z) : Z :=
  Z.lor (Z.land w (uint32 (Z.lnot (uint32 (Z.shiftl 15 bit)))))
    (uint32 (Z.shiftl v bit)).

(** The three values of [val] in the plane loop of [set_colour] are the
    packed nibbles, each below 16. *)
Definition plane_values_check (fg bg : Z) : bool :=
  let v0 := uint32 (Z.lor (Z.land fg 3) (Z.land (Z.shiftl bg 2) 12)) in
  let fg1 := uint8 (Z.shiftr fg 2) in
  let bg1 := uint8 (Z.shiftr bg 2) in
  let v1 := uint32 (Z.lor (Z.land fg1 3) (Z.land (Z.shiftl bg1 2) 12)) in
  let fg2 := uint8 (Z.shiftr fg1 2) in
  let bg2 := uint8 (Z.shiftr bg1 2) in
  let v2 := uint32 (Z.lor (Z.land fg2 3) (Z.land (Z.shiftl bg2 2) 12)) in
  (v0 =? packed_nibble 0 fg bg) && (v1 =? packed_nibble 1 fg bg)
  && (v2 =? packed_nibble 2 fg bg)
  && (0 <=? v0) && (v0 <? 16) && (0 <=? v1) && (v1 <? 16) && (0 <=? v2) && (v2 <? 16)
  && bool_decide (nibbles_decode v0 v1 v2 = (fg mod 64, bg mod 64)).

(** Decoding three nibbles and packing the result gives the nibbles back. *)
Definition repack_check (n0 n1 n2 : Z) : bool :=
  let '(fg, bg) := nibbles_decode n0 n1 n2 in
  (packed_nibble 0 fg bg =? n0) && (packed_nibble 1 fg bg =? n1)
  && (packed_nibble 2 fg bg =? n2) && (0 <=? fg) && (fg <? 64) && (0 <=? bg) && (bg <? 64).

(** The index pairs of a loop nest, outer index first, in the order in
    which the nest visits them. *)
Definition cells_of (outer inner : list Z) : list (Z * Z) :=
  outer ≫= (fun r => (fun c => (r, c)) <$> inner).

(** The stages of [scroll_up] on the screen arrays, in the order of the
    function body: the glyphs, the colour planes, the nibbles of the last
    row, and the colours of the last row. *)
Definition scroll_glyphs (s : screen_t) : screen_t :=
  let last := CHAR_ROWS - 1 in
  let s := set_charbuf_back
             (memmove (charbuf_back s) 0 CHAR_COLS (last * CHAR_COLS)) s in
  foldl (fun s x =>
    set_charbuf_back (wr (charbuf_back s) (x + last * CHAR_COLS) 32) s)
    s (upto CHAR_COLS).

Definition scroll_planes (s : screen_t) : screen_t :=
  let last := CHAR_ROWS - 1 in
  foldl (fun s p =>
    let base := p * COLOUR_PLANE_SIZE_WORDS in
    set_colourbuf_back
      (memmove (colourbuf_back s) base (base + CHAR_COLS / 8)
         (last * (CHAR_COLS / 8))) s)
    s [0; 1; 2].

Definition scroll_clear_last (s : screen_t) : screen_t :=
  let last := CHAR_ROWS - 1 in
  foldl (fun s x =>
    let idx := x + last * CHAR_COLS in
    let bit := (idx mod 8) * 4 in
    let word := idx / 8 in
    foldl (fun s p =>
      let i := word + p * COLOUR_PLANE_SIZE_WORDS in
      set_colourbuf_back
        (wr (colourbuf_back s) i
           (Z.land (rd (colourbuf_back s) i)
              (uint32 (Z.lnot (uint32 (Z.shiftl 15 bit)))))) s)
      s [0; 1; 2])
    s (upto CHAR_COLS).

Definition scroll_paint_last (fg bg : Z) (s : screen_t) : screen_t :=
  foldl (fun s x => set_colour x (CHAR_ROWS - 1) fg bg s) s (upto CHAR_COLS).

(** Both current colours are 6-bit values. *)
Definition colours_ok (h : theme_t) : Prop :=
  0 <= current_fg h < 64 /\ 0 <= current_bg h < 64.

(** One round of the two loops on the queue: the interrupt handler takes
    the burst [rx], then [process_uart_buffer] runs; and a sequence of such
    rounds. *)
Definition uart_round {A : Type} (handle : Z -> A -> A)
    (st : option (uart_queue * A)) (rx : list Z) : option (uart_queue * A) :=
  match st with
  | Some (q, a) => process_uart_buffer handle (on_uart_rx rx q, a)
  | None => None
  end.

Definition uart_rounds {A : Type} (handle : Z -> A -> A)
    (bursts : list (list Z)) (st : option (uart_queue * A)) : option (uart_queue * A) :=
  foldl (uart_round handle) st bursts.

(** Bit [i] of [reverse_byte b] is bit [7 - i] of [b], and reversing
    twice gives the byte back. *)
Definition reverse_byte_check (b : Z) : bool :=
  forallb (fun i => Bool.eqb (Z.testbit (reverse_byte b) i) (Z.testbit b (7 - i))) (upto 8)
  && (reverse_byte (reverse_byte b) =? b)
  && (0 <=? reverse_byte b) && (reverse_byte b <? 256).

(** The row the cursor is on after a line advance from row [y]. *)
Definition next_row (y : Z) : Z :=
  if uint16 (y + 1) >=? CHAR_ROWS then CHAR_ROWS - 1 else uint16 (y + 1).

(** The fields of the menu record that say which menu is open and what
    has been typed into it. *)
Definition menu_modes (m : menu_t) :=
  (theme_select_mode m, cursor_menu_mode m, bg_color_menu_mode m,
   fg_color_menu_mode m, color_menu_buf m, color_menu_buf_len m).

(** The state in which the mode dispatch sees a byte that passed the
    filter. *)
Definition filtered (g : globals) : globals := on_term clear_line_flags (prologue g).

(** The arrays of the parser at their declared sizes. *)
Definition ansi_arrays_ok (g : globals) : Prop :=
  length (ansi_buffer (ansi g)) = Z.to_nat ANSI_BUFFER_SIZE
  /\ length (ansi_params (ansi g)) = Z.to_nat ANSI_PARAM_MAX.

Definition all_digits (ds : list Z) : Prop := Forall (fun d => is_digit d = true) ds.

(** The parser is inside a CSI sequence and has gathered the digits [ds]
    of the parameter being read. *)
Definition csi_collecting (g : globals) (ds : list Z) : Prop :=
  escape_mode (term g) = true /\ ansi_mode (term g) = true
  /\ line_flags_clear g = true
  /\ ansi_buf_len (ansi g) = Z.of_nat (length ds)
  /\ take (length ds) (ansi_buffer (ansi g)) = ds
  /\ (length ds <= 15)%nat /\ all_digits ds
  /\ ansi_arrays_ok g.

(** What reading digits leaves alone. *)
Definition csi_rest (g : globals) :=
  (cursor_x (term g), cursor_y (term g), cursor_visible (term g),
   ansi_params (ansi g), ansi_param_count (ansi g), thm g, menu g).

(** The committed value of a parameter written with the digits [ds]. *)
Definition csi_param `{LibC} (ds : list Z) : Z := uint8 (atoi ds).

(** The coordinate that CSI H stores for the committed parameter [p]. *)
Definition csi_coord (p : Z) : Z := if p >? 0 then p - 1 else 0.

(** The bulk copy on the screen arrays. *)
Definition copy_back_to_front (sc : screen_t) : screen_t :=
  set_colourbuf_front (colourbuf_back sc) (set_charbuf_front (charbuf_back sc) sc).

(** Which colour menu: the colour it assigns and the mode flag it owns. *)
Inductive color_menu := FgMenu | BgMenu.

Definition menu_set_color (k : color_menu) : Z -> theme_t -> theme_t :=
  match k with FgMenu => set_current_fg | BgMenu => set_current_bg end.
Definition menu_set_mode (k : color_menu) : bool -> menu_t -> menu_t :=
  match k with FgMenu => set_fg_color_menu_mode | BgMenu => set_bg_color_menu_mode end.
Definition menu_mode (k : color_menu) (g : globals) : bool :=
  match k with
  | FgMenu => fg_color_menu_mode (menu g)
  | BgMenu => bg_color_menu_mode (menu g)
  end.
Definition menu_color (k : color_menu) (g : globals) : Z :=
  match k with FgMenu => current_fg (thm g) | BgMenu => current_bg (thm g) end.
Definition other_color (k : color_menu) (g : globals) : Z :=
  match k with FgMenu => current_bg (thm g) | BgMenu => current_fg (thm g) end.

(** The menu [k] is the one that [handle_char] serves: its flag is set,
    no escape sequence is being read, and for the background menu the
    foreground flag, which is tested first, is clear. *)
Definition color_menu_open (k : color_menu) (g : globals) : Prop :=
  escape_mode (term g) = false /\ menu_mode k g = true
  /\ (k = BgMenu -> fg_color_menu_mode (menu g) = false).

(** The parser's indices are inside its arrays. *)
Definition parser_ok (g : globals) : Prop :=
  ansi_arrays_ok g
  /\ 0 <= ansi_buf_len (ansi g) < ANSI_BUFFER_SIZE
  /\ 0 <= ansi_param_count (ansi g) <= ANSI_PARAM_MAX.

(** The number of modes that are active: the escape parser and the four
    menus. *)
Definition active_modes (g : globals) : Z :=
  Z.b2z (escape_mode (term g))
  + Z.b2z (fg_color_menu_mode (menu g)) + Z.b2z (bg_color_menu_mode (menu g))
  + Z.b2z (cursor_menu_mode (menu g)) + Z.b2z (theme_select_mode (menu g)).

(** The committed parameters are bytes. *)
Definition params_ok (g : globals) : Prop :=
  Forall (fun p => 0 <= p < 256) (ansi_params (ansi g)).

(** The glyph that the cell [(x, y)] shows apart from the cursor: the
    glyph saved under the cursor where the cursor is drawn, and the glyph
    of the back buffer elsewhere. *)
Definition text_at (g : globals) (x y : Z) : Z :=
  if cursor_drawn (cur g) && (x =? cursor_draw_x (cur g)) && (y =? cursor_draw_y (cur g))
  then saved_cursor_char (cur g)
  else glyph_at x y (scr g).

(** A drawn cursor sits on the cursor position. *)
Definition drawn_at_cursor (g : globals) : Prop :=
  cursor_drawn (cur g) = true ->
  cursor_draw_x (cur g) = cursor_x (term g) /\ cursor_draw_y (cur g) = cursor_y (term g).

(** The three save arrays of the menus at their declared size. *)
Definition menu_arrays_ok (m : menu_t) : Prop :=
  length (saved_chars m) = Z.to_nat (MENU_BUFFER_HEIGHT * MENU_BUFFER_WIDTH)
  /\ length (saved_fg m) = Z.to_nat (MENU_BUFFER_HEIGHT * MENU_BUFFER_WIDTH)
  /\ length (saved_bg m) = Z.to_nat (MENU_BUFFER_HEIGHT * MENU_BUFFER_WIDTH).

(** The rectangle that the menus save and restore, with its top row
    [top]: columns 1 to 34, twelve rows. *)
Definition menu_rect (top x y : Z) : Prop :=
  1 <= x < 1 + MENU_BUFFER_WIDTH /\ top <= y < top + MENU_BUFFER_HEIGHT.

(** [s'] is a screen of the declared size that differs from [s] inside
    the rectangle only. *)
Definition keeps (top : Z) (s s' : screen_t) : Prop :=
  screen_ok s'
  /\ forall x y, in_grid x y -> ~ menu_rect top x y -> same_cell x y s s'.

(** The distance of a cursor movement written with the digits [ds]: the
    committed parameter, and 1 when the parameter is absent or 0. *)
Definition csi_distance `{LibC} (ds : list Z) : Z :=
  if decide (ds = []) then 1 else if csi_param ds >? 0 then csi_param ds else 1.

(** The text of the cell [(x, y)] after a line advance from the state
    [g]: the text as it is while the cursor is above the last row, and
    the text of the cell below, or a space on the last row, once the
    advance scrolls. *)
Definition text_after_advance (g : globals) (x y : Z) : Z :=
  if cursor_y (term g) + 1 <? CHAR_ROWS then text_at g x y
  else if y <? CHAR_ROWS - 1 then text_at g x (y + 1) else 32.

(** * Verified properties *)

(** ** Arrays *)

Lemma rd_wr_eq (a : list Z) (i v : Z) :
  (Z.to_nat i < length a)%nat -> rd (wr a i v) i = v.
Proof.
  intros Hi. unfold rd, wr. by rewrite list_lookup_insert_eq.
Qed.

Lemma rd_wr_ne (a : list Z) (i j v : Z) :
  Z.to_nat i <> Z.to_nat j -> rd (wr a i v) j = rd a j.
Proof.
  intros Hij. unfold rd, wr. by rewrite list_lookup_insert_ne.
Qed.

Lemma length_wr (a : list Z) (i v : Z) : length (wr a i v) = length a.
Proof. apply length_insert. Qed.

(** Checking a decidable property on [0 .. n-1] by evaluation. *)
Lemma upto_forallb (P : Z -> bool) (n : Z) :
  forallb P (upto n) = true -> forall z, 0 <= z < n -> P z = true.
Proof.
  intros Hall z Hz. rewrite forallb_forall in Hall. apply Hall.
  apply list_elem_of_In, elem_of_seqZ. lia.
Qed.

(** ** Colour model *)

Lemma uint32_bits_low (z n : Z) :
  0 <= n < 32 -> Z.testbit (uint32 z) n = Z.testbit z n.
Proof.
  intros Hn. unfold uint32. change 4294967296 with (2 ^ 32).
  apply Z.mod_pow2_bits_low. lia.
Qed.

(** Writing a nibble into a colour word and reading it back. *)
Lemma nibble_write_read (w v bit : Z) :
  0 <= v < 16 -> 0 <= bit <= 28 ->
  Z.land
    (Z.shiftr
       (Z.lor (Z.land w (uint32 (Z.lnot (uint32 (Z.shiftl 15 bit)))))
          (uint32 (Z.shiftl v bit))) bit) 15 = v.
Proof.
  intros Hv Hbit. apply Z.bits_inj'. intros n Hn.
  change 15 with (Z.ones 4).
  rewrite Z.land_spec, Z.testbit_ones_nonneg by lia.
  rewrite Z.shiftr_spec by lia.
  destruct (Z.ltb_spec n 4) as [Hlt|Hge].
  - rewrite andb_true_r, Z.lor_spec, Z.land_spec.
    rewrite !uint32_bits_low by lia.
    rewrite Z.lnot_spec by lia.
    rewrite uint32_bits_low by lia.
    rewrite !Z.shiftl_spec by lia.
    replace (n + bit - bit) with n by lia.
    rewrite Z.testbit_ones_nonneg by lia.
    replace (n <? 4) with true by (symmetry; apply Z.ltb_lt; lia).
    cbn [negb]. by rewrite andb_false_r.
  - rewrite andb_false_r. symmetry.
    replace v with (v mod 2 ^ 4) by (apply Z.mod_small; lia).
    apply Z.mod_pow2_bits_high. lia.
Qed.

Lemma pack_checks_all (fg bg : Z) :
  0 <= fg < 64 -> 0 <= bg < 64 -> pack_checks fg bg = true.
Proof.
  intros Hfg Hbg.
  pose proof (upto_forallb (fun f => forallb (pack_checks f) (upto 64)) 64) as Hall.
  cbv beta in Hall.
  specialize (Hall ltac:(vm_compute; reflexivity) fg Hfg).
  exact (upto_forallb _ _ Hall bg Hbg).
Qed.

(** C1. Colour round trip: for every [fg] and [bg] in 0..63 and every cell
    of the grid, packing the pair into the three colour planes with
    [set_colour] and decoding the cell's nibbles with the loop of the menu
    save code ([get_colour]) gives back [(fg, bg)]. *)
Theorem colour_round_trip (s : screen_t) (x y fg bg : Z) :
  length (colourbuf_back s) = colourbuf_words ->
  0 <= x < CHAR_COLS -> 0 <= y < CHAR_ROWS ->
  0 <= fg < 64 -> 0 <= bg < 64 ->
  get_colour x y (set_colour x y fg bg s) = (fg, bg).
Proof.
  intros Hlen Hx Hy Hfg Hbg.
  unfold CHAR_COLS, CHAR_ROWS in Hx, Hy.
  unfold set_colour, get_colour.
  assert (Hux : uint32 x = x) by (unfold uint32; apply Z.mod_small; lia).
  assert (Huy : uint32 y = y) by (unfold uint32; apply Z.mod_small; lia).
  assert (Hufg : uint8 fg = fg) by (unfold uint8; apply Z.mod_small; lia).
  assert (Hubg : uint8 bg = bg) by (unfold uint8; apply Z.mod_small; lia).
  rewrite Hux, Huy, Hufg, Hubg.
  replace ((x >=? CHAR_COLS) || (y >=? CHAR_ROWS)) with false
    by (symmetry; apply orb_false_iff; unfold CHAR_COLS, CHAR_ROWS; lia).
  set (idx := x + y * CHAR_COLS).
  set (bit := idx mod 8 * 4).
  set (word := idx / 8).
  assert (Hidx : 0 <= idx < 2400) by (unfold idx, CHAR_COLS; lia).
  assert (Hbit : 0 <= bit <= 28) by (unfold bit; pose proof (Z.mod_pos_bound idx 8); lia).
  assert (Hword : 0 <= word < 300) by (unfold word; split; [apply Z.div_pos; lia | apply Z.div_lt_upper_bound; lia]).
  pose proof (pack_checks_all fg bg Hfg Hbg) as Hpk.
  unfold pack_checks in Hpk. cbv zeta in Hpk.
  repeat (apply andb_prop in Hpk; destruct Hpk as [Hpk ?]).
  apply bool_decide_eq_true_1 in H.
  apply Z.ltb_lt in Hpk, H4, H3. apply Z.leb_le in H2, H1, H0.
  cbn [foldl set_colour_plane].
  set (v0 := uint32 (Z.lor (Z.land fg 3) (Z.land (Z.shiftl bg 2) 12))) in *.
  set (v1 := uint32 (Z.lor (Z.land (uint8 (Z.shiftr fg 2)) 3)
                       (Z.land (Z.shiftl (uint8 (Z.shiftr bg 2)) 2) 12))) in *.
  set (v2 := uint32 (Z.lor (Z.land (uint8 (Z.shiftr (uint8 (Z.shiftr fg 2)) 2)) 3)
                       (Z.land (Z.shiftl (uint8 (Z.shiftr (uint8 (Z.shiftr bg 2)) 2)) 2) 12))) in *.
  match goal with |- context [set_colourbuf_back ?cb s] => set (cb' := cb) end.
  cbn [colourbuf_back set_colourbuf_back].
  unfold colourbuf_words, COLOUR_PAD_WORDS in Hlen.
  assert (R0 : Z.land (Z.shiftr (rd cb' (word + 0 * COLOUR_PLANE_SIZE_WORDS)) bit) 15 = v0).
  { unfold cb'. do 2 (rewrite rd_wr_ne by (unfold COLOUR_PLANE_SIZE_WORDS; lia)).
    rewrite rd_wr_eq by (rewrite Hlen; unfold COLOUR_PLANE_SIZE_WORDS; lia).
    apply nibble_write_read; lia. }
  assert (R1 : Z.land (Z.shiftr (rd cb' (word + 1 * COLOUR_PLANE_SIZE_WORDS)) bit) 15 = v1).
  { unfold cb'. rewrite rd_wr_ne by (unfold COLOUR_PLANE_SIZE_WORDS; lia).
    rewrite rd_wr_eq
      by (rewrite length_wr, Hlen; unfold COLOUR_PLANE_SIZE_WORDS; lia).
    apply nibble_write_read; lia. }
  assert (R2 : Z.land (Z.shiftr (rd cb' (word + 2 * COLOUR_PLANE_SIZE_WORDS)) bit) 15 = v2).
  { unfold cb'. rewrite rd_wr_eq
      by (rewrite !length_wr, Hlen; unfold COLOUR_PLANE_SIZE_WORDS; lia).
    apply nibble_write_read; lia. }
  unfold get_colour_plane. rewrite R2, R1, R0. exact H.
Qed.

Lemma colour_round_trip_witness :
  get_colour 3 2 (set_colour 3 2 12 5 (scr init_globals)) = (12, 5).
Proof.
  apply colour_round_trip;
    [ vm_compute; reflexivity
    | unfold CHAR_COLS; lia | unfold CHAR_ROWS; lia | lia | lia ].
Defined.

(** ** Byte ingress queue *)

Ltac ring_arith :=
  unfold uart_level, uint16, UART_BUFFER_SIZE in *;
  cbn [uart_head uart_tail] in *;
  Z.div_mod_to_equations; lia.

Lemma uart_level_range (q : uart_queue) : 0 <= uart_level q < UART_BUFFER_SIZE.
Proof. unfold uart_level, UART_BUFFER_SIZE. apply Z.mod_pos_bound. lia. Qed.

Lemma ring_slice_length (buf : list Z) (t : Z) (n : nat) :
  length (ring_slice buf t n) = n.
Proof. revert t. induction n as [|n IH]; intros t; cbn; [done | by rewrite IH]. Qed.

(** A write at the head does not touch the [n] slots from the tail as long
    as the head is not among them. *)
Lemma ring_slice_wr (buf : list Z) (h t c : Z) (n : nat) :
  0 <= h < UART_BUFFER_SIZE -> 0 <= t < UART_BUFFER_SIZE ->
  Z.of_nat n <= (h - t) mod UART_BUFFER_SIZE ->
  ring_slice (wr buf h c) t n = ring_slice buf t n.
Proof.
  revert t. induction n as [|n IH]; intros t Hh Ht Hn; cbn [ring_slice]; [done|].
  rewrite rd_wr_ne by ring_arith.
  f_equal. apply IH; [done | ring_arith | ring_arith].
Qed.

Lemma ring_slice_snoc (buf : list Z) (t : Z) (n : nat) :
  0 <= t < UART_BUFFER_SIZE ->
  ring_slice buf t (S n)
  = ring_slice buf t n ++ [rd buf ((t + Z.of_nat n) mod UART_BUFFER_SIZE)].
Proof.
  revert t. induction n as [|n IH]; intros t Ht.
  - cbn. f_equal. f_equal. ring_arith.
  - change (ring_slice buf t (S (S n)))
      with (rd buf t :: ring_slice buf ((t + 1) mod UART_BUFFER_SIZE) (S n)).
    rewrite IH by ring_arith. cbn [ring_slice app]. do 3 f_equal.
    f_equal. ring_arith.
Qed.

(** A byte received while there is room is appended. *)
Lemma uart_rx_byte_room (q : uart_queue) (ch : Z) :
  queue_ok q -> uart_level q < UART_BUFFER_SIZE - 1 ->
  queue_ok (uart_rx_byte q ch)
  /\ pending (uart_rx_byte q ch) = pending q ++ [uint8 ch]
  /\ uart_level (uart_rx_byte q ch) = uart_level q + 1
  /\ uart_overflow (uart_rx_byte q ch) = uart_overflow q.
Proof.
  intros (Hlen & Hh & Ht) Hroom. unfold uart_rx_byte.
  destruct (Z.eqb_spec (uint16 ((uart_head q + 1) mod UART_BUFFER_SIZE)) (uart_tail q))
    as [Heq|Hne]; [exfalso; ring_arith|].
  assert (Hlvl : uart_level
            (mk_queue (wr (uart_buffer q) (uart_head q) (uint8 ch))
               (uint16 ((uart_head q + 1) mod UART_BUFFER_SIZE))
               (uart_tail q) (uart_overflow q)) = uart_level q + 1)
    by ring_arith.
  split; [|split; [|split]]; [| | exact Hlvl | reflexivity].
  - unfold queue_ok. cbn. rewrite length_wr. split; [done|]. split; [ring_arith | done].
  - unfold pending. rewrite Hlvl. cbn [uart_buffer uart_tail].
    pose proof (uart_level_range q) as Hr.
    replace (Z.to_nat (uart_level q + 1)) with (S (Z.to_nat (uart_level q))) by lia.
    rewrite ring_slice_snoc by done.
    rewrite ring_slice_wr by (try done; ring_arith).
    f_equal. f_equal.
    replace ((uart_tail q + Z.of_nat (Z.to_nat (uart_level q))) mod UART_BUFFER_SIZE)
      with (uart_head q) by ring_arith.
    apply rd_wr_eq. rewrite Hlen. unfold UART_BUFFER_SIZE in *. lia.
Qed.

(** A byte received by a full ring is dropped and raises the flag. *)
Lemma uart_rx_byte_full (q : uart_queue) (ch : Z) :
  queue_ok q -> uart_level q = UART_BUFFER_SIZE - 1 ->
  uart_rx_byte q ch = mk_queue (uart_buffer q) (uart_head q) (uart_tail q) true.
Proof.
  intros (Hlen & Hh & Ht) Hfull. unfold uart_rx_byte.
  destruct (Z.eqb_spec (uint16 ((uart_head q + 1) mod UART_BUFFER_SIZE)) (uart_tail q))
    as [Heq|Hne]; [done | exfalso; ring_arith].
Qed.

(** The effect of a whole burst: as many bytes as there is room for are
    appended, in order; the flag is raised when a byte was left over. *)
Lemma on_uart_rx_pending (bs : list Z) (q : uart_queue) :
  queue_ok q ->
  let room := Z.to_nat (UART_BUFFER_SIZE - 1 - uart_level q) in
  queue_ok (on_uart_rx bs q)
  /\ pending (on_uart_rx bs q) = pending q ++ map uint8 (take room bs)
  /\ uart_overflow (on_uart_rx bs q)
     = uart_overflow q || bool_decide (room < length bs)%nat.
Proof.
  revert q. induction bs as [|b bs IH]; intros q Hok room.
  - cbn. split; [done|]. rewrite take_nil, app_nil_r. split; [done|].
    rewrite bool_decide_eq_false_2 by lia. by rewrite orb_false_r.
  - unfold on_uart_rx. cbn [foldl]. fold (on_uart_rx bs (uart_rx_byte q b)).
    pose proof (uart_level_range q) as Hr.
    destruct (Z.eq_dec (uart_level q) (UART_BUFFER_SIZE - 1)) as [Hfull|Hroom].
    + rewrite (uart_rx_byte_full q b Hok Hfull).
      set (q' := mk_queue _ _ _ true).
      assert (Hok' : queue_ok q') by exact Hok.
      destruct (IH q' Hok') as (IH1 & IH2 & IH3).
      assert (Hlv : uart_level q' = uart_level q) by reflexivity.
      assert (Hroom0 : room = 0%nat) by (unfold room; lia).
      rewrite Hlv in IH2, IH3. fold room in IH2, IH3.
      rewrite Hroom0 in *. rewrite take_0 in *. cbn [map] in *.
      split; [done|]. split; [exact IH2|].
      rewrite IH3. subst q'. cbn [uart_overflow orb length].
      rewrite (bool_decide_eq_true_2 (0 < S (length bs))%nat) by lia.
      by rewrite orb_true_r.
    + destruct (uart_rx_byte_room q b Hok ltac:(lia)) as (Hok' & Hp & Hl & Ho).
      destruct (IH _ Hok') as (IH1 & IH2 & IH3).
      rewrite Hl, Hp in IH2. rewrite Hl, Ho in IH3.
      replace room with (S (Z.to_nat (UART_BUFFER_SIZE - 1 - (uart_level q + 1))))
        by (unfold room; lia).
      cbn [take map length]. split; [done|]. split.
      * rewrite IH2, <- app_assoc. reflexivity.
      * rewrite IH3. f_equal. apply bool_decide_ext. lia.
Qed.

Section Drain.
Context {A : Type} (handle : Z -> A -> A).

(** One turn of the consumer loop takes the oldest byte. *)
Lemma process_uart_byte_pending (q : uart_queue) (a : A) :
  queue_ok q -> uart_tail q <> uart_head q ->
  let qa := process_uart_byte handle (q, a) in
  queue_ok (fst qa)
  /\ uart_level (fst qa) = uart_level q - 1
  /\ uart_head (fst qa) = uart_head q
  /\ exists c, pending q = c :: pending (fst qa) /\ snd qa = handle c a.
Proof.
  intros (Hlen & Hh & Ht) Hne. unfold process_uart_byte.
  set (q1 := mk_queue (uart_buffer q) (uart_head q)
               (uint16 ((uart_tail q + 1) mod UART_BUFFER_SIZE)) (uart_overflow q)).
  assert (Hl1 : uart_level q1 = uart_level q - 1) by (unfold q1; ring_arith).
  assert (Hsame : forall b : bool,
    (if b then mk_queue (uart_buffer q1) (uart_head q1) (uart_tail q1) false else q1)
    = mk_queue (uart_buffer q1) (uart_head q1) (uart_tail q1)
        (if b then false else uart_overflow q1)) by (intros []; reflexivity).
  cbv zeta. fold q1. rewrite Hsame. cbn [fst snd].
  set (q2 := mk_queue _ _ _ _).
  assert (Hl2 : uart_level q2 = uart_level q - 1) by exact Hl1.
  split; [|split; [exact Hl2 | split; [reflexivity|]]].
  - unfold queue_ok. cbn. split; [done|]. split; [done | ring_arith].
  - exists (rd (uart_buffer q) (uart_tail q)). split; [|reflexivity].
    unfold pending. rewrite Hl2.
    pose proof (uart_level_range q) as Hr.
    assert (Hpos : 0 < uart_level q) by ring_arith.
    replace (Z.to_nat (uart_level q)) with (S (Z.to_nat (uart_level q - 1))) by lia.
    cbn [ring_slice]. f_equal. cbn [uart_buffer uart_tail q2 q1].
    f_equal. ring_arith.
Qed.

Lemma process_uart_loop_drains (fuel : nat) (q : uart_queue) (a : A) :
  queue_ok q -> (Z.to_nat (uart_level q) <= fuel)%nat ->
  exists q',
    process_uart_loop handle fuel (q, a)
    = Some (q', foldl (fun a c => handle c a) a (pending q))
    /\ uart_tail q' = uart_head q' /\ uart_head q' = uart_head q.
Proof.
  revert q a. induction fuel as [|fuel IH]; intros q a Hok Hfuel.
  - pose proof (uart_level_range q) as Hr.
    assert (Hempty : uart_tail q = uart_head q)
      by (destruct Hok as (_ & ? & ?); ring_arith).
    exists q. cbn. rewrite Hempty, Z.eqb_refl. split; [|done].
    unfold pending. replace (Z.to_nat (uart_level q)) with 0%nat by lia. done.
  - cbn [process_uart_loop fst].
    destruct (Z.eqb_spec (uart_tail q) (uart_head q)) as [Hempty|Hne].
    + exists q. split; [|done]. unfold pending.
      replace (Z.to_nat (uart_level q)) with 0%nat; [done|].
      destruct Hok as (_ & ? & ?). ring_arith.
    + destruct (process_uart_byte_pending q a Hok Hne) as (Hok' & Hl & Hh & c & Hp & Ha).
      destruct (process_uart_byte handle (q, a)) as [q1 a1] eqn:Hstep.
      cbn [fst snd] in *.
      destruct (IH q1 a1 Hok' ltac:(pose proof (uart_level_range q1); lia))
        as (q' & Hrun & Ht & Hhd).
      exists q'. rewrite Hrun, Hp, Ha. cbn [foldl]. split; [done|].
      split; [done | congruence].
Qed.

(** [process_uart_buffer] returns, having handed every buffered byte to
    the consumer in order. *)
Lemma process_uart_buffer_drains (q : uart_queue) (a : A) :
  queue_ok q ->
  exists q',
    process_uart_buffer handle (q, a)
    = Some (q', foldl (fun a c => handle c a) a (pending q))
    /\ uart_tail q' = uart_head q'.
Proof.
  intros Hok.
  destruct (process_uart_loop_drains (Z.to_nat UART_BUFFER_SIZE) q a Hok) as (q' & H1 & H2 & _).
  - pose proof (uart_level_range q). lia.
  - exists q'. done.
Qed.
End Drain.

Lemma foldl_collect (bs got : list Z) :
  foldl (fun a c => collect c a) got bs = got ++ bs.
Proof.
  revert got. induction bs as [|b bs IH]; intros got; cbn.
  - by rewrite app_nil_r.
  - rewrite IH. unfold collect. by rewrite <- app_assoc.
Qed.

Lemma map_uint8_bytes (bs : list Z) :
  Forall (fun b => 0 <= b < 256) bs -> map uint8 bs = bs.
Proof.
  induction 1 as [|b bs Hb _ IH]; [done|]. cbn. rewrite IH. f_equal.
  unfold uint8. apply Z.mod_small. lia.
Qed.

Lemma pending_empty (q : uart_queue) :
  queue_ok q -> uart_head q = uart_tail q -> pending q = [] /\ uart_level q = 0.
Proof.
  intros (_ & Hh & Ht) Heq.
  assert (Hl : uart_level q = 0) by ring_arith.
  unfold pending. rewrite Hl. done.
Qed.

(** C2 as amended.  A burst of bytes pushed into an empty ring and then
    drained: the consumer receives the first [UART_BUFFER_SIZE - 1] bytes of
    the burst, in order and once each.  A burst of at most
    [UART_BUFFER_SIZE - 1] bytes is therefore received whole and leaves the
    overflow flag clear; a longer burst raises the flag and exactly
    [UART_BUFFER_SIZE - 1] bytes arrive. *)
Theorem queue_conservation (q : uart_queue) (bs : list Z) :
  queue_ok q -> uart_head q = uart_tail q -> uart_overflow q = false ->
  Forall (fun b => 0 <= b < 256) bs ->
  let cap1 := Z.to_nat (UART_BUFFER_SIZE - 1) in
  let q1 := on_uart_rx bs q in
  (exists q2,
     process_uart_buffer collect (q1, []) = Some (q2, take cap1 bs)
     /\ uart_tail q2 = uart_head q2)
  /\ ((length bs <= cap1)%nat -> take cap1 bs = bs /\ uart_overflow q1 = false)
  /\ ((cap1 < length bs)%nat ->
      length (take cap1 bs) = cap1 /\ uart_overflow q1 = true).
Proof.
  intros Hok Hempty Hflag Hbytes cap1 q1.
  destruct (pending_empty q Hok Hempty) as (Hp & Hl).
  destruct (on_uart_rx_pending bs q Hok) as (Hok1 & Hp1 & Ho1).
  rewrite Hl, Z.sub_0_r in Hp1, Ho1. fold cap1 in Hp1, Ho1.
  rewrite Hp, Hflag in *. cbn [app orb] in *.
  rewrite map_uint8_bytes in Hp1 by (by apply Forall_take).
  fold q1 in Hok1, Hp1, Ho1.
  split; [|split].
  - destruct (process_uart_buffer_drains collect q1 [] Hok1) as (q2 & Hrun & Ht).
    exists q2. rewrite Hrun, Hp1, foldl_collect. done.
  - intros Hle. split; [by apply take_ge|].
    rewrite Ho1. apply bool_decide_eq_false_2. lia.
  - intros Hlt. split; [rewrite length_take; lia|].
    rewrite Ho1. apply bool_decide_eq_true_2. lia.
Qed.

Lemma queue_conservation_witness :
  let bs := [72; 73; 13; 10] in
  let q1 := on_uart_rx bs uart_init in
  (exists q2,
     process_uart_buffer collect (q1, []) = Some (q2, take 511 bs)
     /\ uart_tail q2 = uart_head q2)
  /\ ((length bs <= 511)%nat -> take 511 bs = bs /\ uart_overflow q1 = false)
  /\ ((511 < length bs)%nat ->
      length (take 511 bs) = 511%nat /\ uart_overflow q1 = true).
Proof.
  apply (queue_conservation uart_init [72; 73; 13; 10]).
  - unfold queue_ok. vm_compute. repeat split; discriminate.
  - reflexivity.
  - reflexivity.
  - repeat constructor; lia.
Defined.

(** C2 as stated fails at [N = UART_BUFFER_SIZE]: of 512 bytes pushed into
    the empty ring the consumer receives 511. *)
Lemma queue_conservation_fails_at_capacity :
  let bs := map uint8 (upto UART_BUFFER_SIZE) in
  Z.of_nat (length bs) <= UART_BUFFER_SIZE
  /\ exists q2 got,
       process_uart_buffer collect (on_uart_rx bs uart_init, []) = Some (q2, got)
       /\ length got = 511%nat /\ got <> bs.
Proof.
  split; [vm_compute; discriminate|].
  eexists. eexists. split; [vm_compute; reflexivity|].
  split; [vm_compute; reflexivity|].
  intros Heq. apply (f_equal length) in Heq. vm_compute in Heq. discriminate.
Qed.

(** The flag test of the consumer loop: with the flag set, it is cleared
    exactly when more than a quarter of the ring is still buffered. *)
Lemma process_uart_byte_overflow {A : Type} (handle : Z -> A -> A)
    (q : uart_queue) (a : A) :
  uart_overflow q = true ->
  let q' := fst (process_uart_byte handle (q, a)) in
  uart_overflow q' = negb (uart_level q' >? UART_BUFFER_SIZE / 4).
Proof.
  intros Hset. unfold process_uart_byte. cbv zeta.
  cbn [uart_overflow]. rewrite Hset. cbn [andb].
  match goal with |- context [if ?b then _ else _] => destruct b eqn:Hb end;
    cbn [fst uart_overflow]; unfold uart_level in *; cbn [uart_head uart_tail] in *;
    rewrite Hb; done.
Qed.

(** C5 on the code: 512 bytes pushed without draining raise the flag with
    511 bytes buffered; the consumer's first turn leaves 510 bytes
    buffered, far above a quarter of the capacity, and clears the flag.
    With the flag set and 100 bytes left, below a quarter, a turn keeps
    the flag set. *)
Theorem overflow_cleared_above_quarter :
  let q1 := on_uart_rx (map uint8 (upto UART_BUFFER_SIZE)) uart_init in
  let q2 := fst (process_uart_byte collect (q1, [])) in
  let q3 := mk_queue (uart_buffer q1) 101 0 true in
  let q4 := fst (process_uart_byte collect (q3, [])) in
  uart_overflow q1 = true /\ uart_level q1 = 511
  /\ uart_level q2 = 510 /\ uart_overflow q2 = false
  /\ uart_level q4 = 100 /\ uart_overflow q4 = true.
Proof. vm_compute. repeat split. Qed.


(** ** Projections of updated globals *)

Create Rewrite HintDb frame.

Lemma term_on_term f g : term (on_term f g) = f (term g).
Proof. reflexivity. Qed.
Lemma scr_on_term f g : scr (on_term f g) = scr g.
Proof. reflexivity. Qed.
Lemma swp_on_term f g : swp (on_term f g) = swp g.
Proof. reflexivity. Qed.
Lemma cur_on_term f g : cur (on_term f g) = cur g.
Proof. reflexivity. Qed.
Lemma ansi_on_term f g : ansi (on_term f g) = ansi g.
Proof. reflexivity. Qed.
Lemma thm_on_term f g : thm (on_term f g) = thm g.
Proof. reflexivity. Qed.
Lemma menu_on_term f g : menu (on_term f g) = menu g.
Proof. reflexivity. Qed.
Lemma term_on_scr f g : term (on_scr f g) = term g.
Proof. reflexivity. Qed.
Lemma scr_on_scr f g : scr (on_scr f g) = f (scr g).
Proof. reflexivity. Qed.
Lemma swp_on_scr f g : swp (on_scr f g) = swp g.
Proof. reflexivity. Qed.
Lemma cur_on_scr f g : cur (on_scr f g) = cur g.
Proof. reflexivity. Qed.
Lemma ansi_on_scr f g : ansi (on_scr f g) = ansi g.
Proof. reflexivity. Qed.
Lemma thm_on_scr f g : thm (on_scr f g) = thm g.
Proof. reflexivity. Qed.
Lemma menu_on_scr f g : menu (on_scr f g) = menu g.
Proof. reflexivity. Qed.
Lemma term_on_swp f g : term (on_swp f g) = term g.
Proof. reflexivity. Qed.
Lemma scr_on_swp f g : scr (on_swp f g) = scr g.
Proof. reflexivity. Qed.
Lemma swp_on_swp f g : swp (on_swp f g) = f (swp g).
Proof. reflexivity. Qed.
Lemma cur_on_swp f g : cur (on_swp f g) = cur g.
Proof. reflexivity. Qed.
Lemma ansi_on_swp f g : ansi (on_swp f g) = ansi g.
Proof. reflexivity. Qed.
Lemma thm_on_swp f g : thm (on_swp f g) = thm g.
Proof. reflexivity. Qed.
Lemma menu_on_swp f g : menu (on_swp f g) = menu g.
Proof. reflexivity. Qed.
Lemma term_on_cur f g : term (on_cur f g) = term g.
Proof. reflexivity. Qed.
Lemma scr_on_cur f g : scr (on_cur f g) = scr g.
Proof. reflexivity. Qed.
Lemma swp_on_cur f g : swp (on_cur f g) = swp g.
Proof. reflexivity. Qed.
Lemma cur_on_cur f g : cur (on_cur f g) = f (cur g).
Proof. reflexivity. Qed.
Lemma ansi_on_cur f g : ansi (on_cur f g) = ansi g.
Proof. reflexivity. Qed.
Lemma thm_on_cur f g : thm (on_cur f g) = thm g.
Proof. reflexivity. Qed.
Lemma menu_on_cur f g : menu (on_cur f g) = menu g.
Proof. reflexivity. Qed.
Lemma term_on_ansi f g : term (on_ansi f g) = term g.
Proof. reflexivity. Qed.
Lemma scr_on_ansi f g : scr (on_ansi f g) = scr g.
Proof. reflexivity. Qed.
Lemma swp_on_ansi f g : swp (on_ansi f g) = swp g.
Proof. reflexivity. Qed.
Lemma cur_on_ansi f g : cur (on_ansi f g) = cur g.
Proof. reflexivity. Qed.
Lemma ansi_on_ansi f g : ansi (on_ansi f g) = f (ansi g).
Proof. reflexivity. Qed.
Lemma thm_on_ansi f g : thm (on_ansi f g) = thm g.
Proof. reflexivity. Qed.
Lemma menu_on_ansi f g : menu (on_ansi f g) = menu g.
Proof. reflexivity. Qed.
Lemma term_on_thm f g : term (on_thm f g) = term g.
Proof. reflexivity. Qed.
Lemma scr_on_thm f g : scr (on_thm f g) = scr g.
Proof. reflexivity. Qed.
Lemma swp_on_thm f g : swp (on_thm f g) = swp g.
Proof. reflexivity. Qed.
Lemma cur_on_thm f g : cur (on_thm f g) = cur g.
Proof. reflexivity. Qed.
Lemma ansi_on_thm f g : ansi (on_thm f g) = ansi g.
Proof. reflexivity. Qed.
Lemma thm_on_thm f g : thm (on_thm f g) = f (thm g).
Proof. reflexivity. Qed.
Lemma menu_on_thm f g : menu (on_thm f g) = menu g.
Proof. reflexivity. Qed.
Lemma term_on_menu f g : term (on_menu f g) = term g.
Proof. reflexivity. Qed.
Lemma scr_on_menu f g : scr (on_menu f g) = scr g.
Proof. reflexivity. Qed.
Lemma swp_on_menu f g : swp (on_menu f g) = swp g.
Proof. reflexivity. Qed.
Lemma cur_on_menu f g : cur (on_menu f g) = cur g.
Proof. reflexivity. Qed.
Lemma ansi_on_menu f g : ansi (on_menu f g) = ansi g.
Proof. reflexivity. Qed.
Lemma thm_on_menu f g : thm (on_menu f g) = thm g.
Proof. reflexivity. Qed.
Lemma menu_on_menu f g : menu (on_menu f g) = f (menu g).
Proof. reflexivity. Qed.
Lemma term_set_input_active v g : term (set_input_active v g) = term g.
Proof. reflexivity. Qed.
Lemma scr_set_input_active v g : scr (set_input_active v g) = scr g.
Proof. reflexivity. Qed.
Lemma swp_set_input_active v g : swp (set_input_active v g) = swp g.
Proof. reflexivity. Qed.
Lemma cur_set_input_active v g : cur (set_input_active v g) = cur g.
Proof. reflexivity. Qed.
Lemma ansi_set_input_active v g : ansi (set_input_active v g) = ansi g.
Proof. reflexivity. Qed.
Lemma thm_set_input_active v g : thm (set_input_active v g) = thm g.
Proof. reflexivity. Qed.
Lemma menu_set_input_active v g : menu (set_input_active v g) = menu g.
Proof. reflexivity. Qed.

#[local] Hint Rewrite
  term_on_term scr_on_term swp_on_term cur_on_term ansi_on_term
  thm_on_term menu_on_term term_on_scr scr_on_scr swp_on_scr
  cur_on_scr ansi_on_scr thm_on_scr menu_on_scr term_on_swp
  scr_on_swp swp_on_swp cur_on_swp ansi_on_swp thm_on_swp
  menu_on_swp term_on_cur scr_on_cur swp_on_cur cur_on_cur
  ansi_on_cur thm_on_cur menu_on_cur term_on_ansi scr_on_ansi
  swp_on_ansi cur_on_ansi ansi_on_ansi thm_on_ansi menu_on_ansi
  term_on_thm scr_on_thm swp_on_thm cur_on_thm ansi_on_thm
  thm_on_thm menu_on_thm term_on_menu scr_on_menu swp_on_menu
  cur_on_menu ansi_on_menu thm_on_menu menu_on_menu term_set_input_active
  scr_set_input_active swp_set_input_active cur_set_input_active ansi_set_input_active thm_set_input_active
  menu_set_input_active : frame.

(** ** Which globals each function leaves alone *)

Lemma foldl_preserves {A B : Type} (P : A -> Prop) (f : A -> B -> A) (l : list B) (a : A) :
  P a -> (forall a x, P a -> P (f a x)) -> P (foldl f a l).
Proof.
  intros Ha Hstep. revert a Ha. induction l as [|x l IH]; intros a Ha; cbn; auto.
Qed.

(** Case analysis on every closed [if] condition of the goal. *)
Ltac split_ifs :=
  repeat match goal with
         | |- context [if ?b then _ else _] => destruct b
         end.

Ltac frame_of f := intros; unfold f; split_ifs; reflexivity.

(** Fields of updated [terminal_state_t] records; used on goals whose
    states are variables. *)
Ltac proj :=
  cbn [cursor_x cursor_y cursor_visible escape_mode ansi_mode skip_next_lf
       skip_next_cr suppress_next_cr
       set_cursor_x set_cursor_y set_cursor_visible set_escape_mode set_ansi_mode
       set_skip_next_lf set_skip_next_cr set_suppress_next_cr clear_line_flags] in *.

Lemma request_swap_term g : term (request_swap g) = term g.
Proof. frame_of request_swap. Qed.
Lemma request_swap_scr g : scr (request_swap g) = scr g.
Proof. frame_of request_swap. Qed.
Lemma request_swap_cur g : cur (request_swap g) = cur g.
Proof. frame_of request_swap. Qed.
Lemma request_swap_ansi g : ansi (request_swap g) = ansi g.
Proof. frame_of request_swap. Qed.
Lemma request_swap_thm g : thm (request_swap g) = thm g.
Proof. frame_of request_swap. Qed.
Lemma request_swap_menu g : menu (request_swap g) = menu g.
Proof. frame_of request_swap. Qed.

Lemma safe_request_swap_term g : term (safe_request_swap g) = term g.
Proof. unfold safe_request_swap, perform_swap. split_ifs; [apply request_swap_term | done]. Qed.
Lemma safe_request_swap_cur g : cur (safe_request_swap g) = cur g.
Proof. unfold safe_request_swap, perform_swap. split_ifs; [apply request_swap_cur | done]. Qed.
Lemma safe_request_swap_ansi g : ansi (safe_request_swap g) = ansi g.
Proof. unfold safe_request_swap, perform_swap. split_ifs; [apply request_swap_ansi | done]. Qed.
Lemma safe_request_swap_thm g : thm (safe_request_swap g) = thm g.
Proof. unfold safe_request_swap, perform_swap. split_ifs; [apply request_swap_thm | done]. Qed.
Lemma safe_request_swap_menu g : menu (safe_request_swap g) = menu g.
Proof. unfold safe_request_swap, perform_swap. split_ifs; [apply request_swap_menu | done]. Qed.
Lemma safe_request_swap_back g :
  charbuf_back (scr (safe_request_swap g)) = charbuf_back (scr g)
  /\ colourbuf_back (scr (safe_request_swap g)) = colourbuf_back (scr g).
Proof.
  unfold safe_request_swap, perform_swap. split_ifs; [|done].
  cbn. by rewrite request_swap_scr.
Qed.

#[local] Hint Rewrite safe_request_swap_term safe_request_swap_cur
  safe_request_swap_ansi safe_request_swap_thm safe_request_swap_menu : frame.

Lemma scroll_up_term g : term (scroll_up g) = term g.
Proof. unfold scroll_up. by autorewrite with frame. Qed.
Lemma scroll_up_cur g : cur (scroll_up g) = cur g.
Proof. unfold scroll_up. by autorewrite with frame. Qed.
Lemma scroll_up_ansi g : ansi (scroll_up g) = ansi g.
Proof. unfold scroll_up. by autorewrite with frame. Qed.
Lemma scroll_up_thm g : thm (scroll_up g) = thm g.
Proof. unfold scroll_up. by autorewrite with frame. Qed.
Lemma scroll_up_menu g : menu (scroll_up g) = menu g.
Proof. unfold scroll_up. by autorewrite with frame. Qed.

#[local] Hint Rewrite scroll_up_term scroll_up_cur scroll_up_ansi scroll_up_thm
  scroll_up_menu : frame.

Lemma new_line_term g :
  term (new_line g) = set_cursor_y (next_row (cursor_y (term g))) (set_cursor_x 0 (term g)).
Proof.
  unfold new_line, next_row. autorewrite with frame. proj.
  destruct (uint16 (cursor_y (term g) + 1) >=? CHAR_ROWS);
    autorewrite with frame; reflexivity.
Qed.
Lemma new_line_cur g : cur (new_line g) = cur g.
Proof. unfold new_line. autorewrite with frame. proj. split_ifs; by autorewrite with frame. Qed.
Lemma new_line_ansi g : ansi (new_line g) = ansi g.
Proof. unfold new_line. autorewrite with frame. proj. split_ifs; by autorewrite with frame. Qed.
Lemma new_line_thm g : thm (new_line g) = thm g.
Proof. unfold new_line. autorewrite with frame. proj. split_ifs; by autorewrite with frame. Qed.
Lemma new_line_menu g : menu (new_line g) = menu g.
Proof. unfold new_line. autorewrite with frame. proj. split_ifs; by autorewrite with frame. Qed.

#[local] Hint Rewrite new_line_term new_line_cur new_line_ansi new_line_thm
  new_line_menu : frame.

Lemma clear_screen_term g :
  term (clear_screen g) = set_cursor_y 0 (set_cursor_x 0 (term g)).
Proof. unfold clear_screen. by rewrite request_swap_term. Qed.
Lemma clear_screen_cur g : cur (clear_screen g) = cur g.
Proof. unfold clear_screen. by rewrite request_swap_cur. Qed.
Lemma clear_screen_ansi g : ansi (clear_screen g) = ansi g.
Proof. unfold clear_screen. by rewrite request_swap_ansi. Qed.
Lemma clear_screen_thm g : thm (clear_screen g) = thm g.
Proof. unfold clear_screen. by rewrite request_swap_thm. Qed.
Lemma clear_screen_menu g : menu (clear_screen g) = menu g.
Proof. unfold clear_screen. by rewrite request_swap_menu. Qed.

#[local] Hint Rewrite clear_screen_term clear_screen_cur clear_screen_ansi
  clear_screen_thm clear_screen_menu : frame.

Lemma remove_cursor_term g : term (remove_cursor g) = term g.
Proof. frame_of remove_cursor. Qed.
Lemma remove_cursor_ansi g : ansi (remove_cursor g) = ansi g.
Proof. frame_of remove_cursor. Qed.
Lemma remove_cursor_thm g : thm (remove_cursor g) = thm g.
Proof. frame_of remove_cursor. Qed.
Lemma remove_cursor_menu g : menu (remove_cursor g) = menu g.
Proof. frame_of remove_cursor. Qed.
Lemma remove_cursor_drawn g : cursor_drawn (cur (remove_cursor g)) = false.
Proof. unfold remove_cursor. destruct (cursor_drawn (cur g)) eqn:E; [reflexivity | exact E]. Qed.
Lemma remove_cursor_saved g :
  saved_cursor_x (cur (remove_cursor g)) = saved_cursor_x (cur g)
  /\ saved_cursor_y (cur (remove_cursor g)) = saved_cursor_y (cur g).
Proof. unfold remove_cursor. split_ifs; done. Qed.

Lemma prologue_term g : term (prologue g) = term g.
Proof. unfold prologue. by rewrite remove_cursor_term. Qed.
Lemma prologue_ansi g : ansi (prologue g) = ansi g.
Proof. unfold prologue. by rewrite remove_cursor_ansi. Qed.
Lemma prologue_thm g : thm (prologue g) = thm g.
Proof. unfold prologue. by rewrite remove_cursor_thm. Qed.
Lemma prologue_menu g : menu (prologue g) = menu g.
Proof. unfold prologue. by rewrite remove_cursor_menu. Qed.
Lemma prologue_scr g : scr (prologue g) = scr (remove_cursor g).
Proof.
  unfold prologue, remove_cursor. cbn [cur set_input_active].
  destruct (cursor_drawn (cur g)); reflexivity.
Qed.
Lemma prologue_drawn g : cursor_drawn (cur (prologue g)) = false.
Proof. unfold prologue. apply remove_cursor_drawn. Qed.
Lemma prologue_saved g :
  saved_cursor_x (cur (prologue g)) = saved_cursor_x (cur g)
  /\ saved_cursor_y (cur (prologue g)) = saved_cursor_y (cur g).
Proof. unfold prologue. by destruct (remove_cursor_saved (set_input_active true g)) as [-> ->]. Qed.

#[local] Hint Rewrite prologue_term prologue_ansi prologue_thm prologue_menu
  prologue_drawn : frame.

Lemma redraw_cursor_term g : term (redraw_cursor g) = term g.
Proof. frame_of redraw_cursor. Qed.
Lemma redraw_cursor_ansi g : ansi (redraw_cursor g) = ansi g.
Proof. frame_of redraw_cursor. Qed.
Lemma redraw_cursor_thm g : thm (redraw_cursor g) = thm g.
Proof. frame_of redraw_cursor. Qed.
Lemma redraw_cursor_menu g : menu (redraw_cursor g) = menu g.
Proof. frame_of redraw_cursor. Qed.
Lemma redraw_cursor_saved g :
  saved_cursor_x (cur (redraw_cursor g)) = saved_cursor_x (cur g)
  /\ saved_cursor_y (cur (redraw_cursor g)) = saved_cursor_y (cur g).
Proof. unfold redraw_cursor. split_ifs; done. Qed.

#[local] Hint Rewrite redraw_cursor_term redraw_cursor_ansi redraw_cursor_thm
  redraw_cursor_menu : frame.

Lemma restore_menu_region_term g : term (restore_menu_region g) = term g.
Proof. unfold restore_menu_region. by autorewrite with frame. Qed.
Lemma restore_menu_region_cur g : cur (restore_menu_region g) = cur g.
Proof. unfold restore_menu_region. by autorewrite with frame. Qed.
Lemma restore_menu_region_ansi g : ansi (restore_menu_region g) = ansi g.
Proof. unfold restore_menu_region. by autorewrite with frame. Qed.
Lemma restore_menu_region_thm g : thm (restore_menu_region g) = thm g.
Proof. unfold restore_menu_region. by autorewrite with frame. Qed.
Lemma restore_menu_region_menu g : menu (restore_menu_region g) = menu g.
Proof. unfold restore_menu_region. by autorewrite with frame. Qed.

#[local] Hint Rewrite restore_menu_region_term restore_menu_region_cur
  restore_menu_region_ansi restore_menu_region_thm restore_menu_region_menu : frame.

Lemma save_menu_cell_modes sc left top row col m :
  menu_modes (save_menu_cell sc left top row col m) = menu_modes m
  /\ menu_left (save_menu_cell sc left top row col m) = menu_left m
  /\ menu_top (save_menu_cell sc left top row col m) = menu_top m.
Proof.
  unfold save_menu_cell. cbv zeta. split_ifs; [|done].
  destruct (get_colour _ _ _). done.
Qed.

Lemma save_menu_fold_modes sc left top (rows cols : list Z) m :
  let m' := foldl (fun m row =>
              foldl (fun m col => save_menu_cell sc left top row col m) m cols)
              m rows in
  menu_modes m' = menu_modes m /\ menu_left m' = menu_left m
  /\ menu_top m' = menu_top m.
Proof.
  apply (foldl_preserves (fun m' =>
    menu_modes m' = menu_modes m /\ menu_left m' = menu_left m
    /\ menu_top m' = menu_top m)); [done|].
  intros m1 row H1.
  apply (foldl_preserves (fun m' =>
    menu_modes m' = menu_modes m /\ menu_left m' = menu_left m
    /\ menu_top m' = menu_top m)); [done|].
  intros m2 col (H2 & H3 & H4).
  destruct (save_menu_cell_modes sc left top row col m2) as (-> & -> & ->). done.
Qed.

Lemma save_menu_region_menu rows cols g :
  menu_modes (menu (save_menu_region rows cols g)) = menu_modes (menu g)
  /\ menu_left (menu (save_menu_region rows cols g)) = menu_left (menu g)
  /\ menu_top (menu (save_menu_region rows cols g)) = menu_top (menu g).
Proof. unfold save_menu_region. cbn [menu on_menu]. apply save_menu_fold_modes. Qed.

Lemma draw_color_menu_frame title prompt g :
  let g' := draw_color_menu title prompt g in
  term g' = term g /\ cur g' = cur g /\ ansi g' = ansi g /\ thm g' = thm g
  /\ menu_modes (menu g') = menu_modes (menu g).
Proof.
  unfold draw_color_menu. cbv zeta. autorewrite with frame.
  repeat split; try reflexivity.
  cbn [menu on_scr on_swp].
  match goal with |- context [save_menu_region ?r ?c ?g0] =>
    destruct (save_menu_region_menu r c g0) as (-> & _) end.
  reflexivity.
Qed.

Lemma draw_cursor_menu_frame g :
  let g' := draw_cursor_menu g in
  term g' = term g /\ cur g' = cur g /\ ansi g' = ansi g /\ thm g' = thm g
  /\ menu_modes (menu g') = menu_modes (menu g).
Proof.
  unfold draw_cursor_menu. cbv zeta. autorewrite with frame.
  repeat split; try reflexivity.
  cbn [menu on_scr on_swp].
  match goal with |- context [save_menu_region ?r ?c ?g0] =>
    destruct (save_menu_region_menu r c g0) as (-> & _) end.
  reflexivity.
Qed.

Lemma process_ansi_sequence_frame params count final g :
  let g' := process_ansi_sequence params count final g in
  ansi g' = ansi g /\ menu g' = menu g
  /\ cursor_drawn (cur g') = cursor_drawn (cur g)
  /\ cursor_visible (term g') = cursor_visible (term g)
  /\ escape_mode (term g') = escape_mode (term g)
  /\ ansi_mode (term g') = ansi_mode (term g)
  /\ skip_next_lf (term g') = skip_next_lf (term g)
  /\ skip_next_cr (term g') = skip_next_cr (term g)
  /\ suppress_next_cr (term g') = suppress_next_cr (term g).
Proof.
  unfold process_ansi_sequence. cbv zeta.
  split_ifs; autorewrite with frame; done.
Qed.


(** ** The head of [handle_char] *)

(** A byte other than CR and LF passes the filter and resets the flags. *)
Lemma line_ending_filter_pass (c : Z) (g : globals) :
  c <> 13 -> c <> 10 ->
  line_ending_filter c g = (on_term clear_line_flags g, false).
Proof.
  intros H13 H10. unfold line_ending_filter.
  apply Z.eqb_neq in H13, H10. rewrite H13, H10.
  destruct g as [[x y v e a lf cr sup] sc w k an h m i].
  destruct lf, cr, sup; reflexivity.
Qed.

(** With no flag armed every byte passes. *)
Lemma line_ending_filter_clear (c : Z) (g : globals) :
  line_flags_clear g = true ->
  line_ending_filter c g = (on_term clear_line_flags g, false).
Proof.
  unfold line_flags_clear, line_ending_filter.
  destruct g as [[x y v e a lf cr sup] sc w k an h m i]. cbn.
  destruct lf, cr, sup; cbn; try discriminate. reflexivity.
Qed.

(** A CR that follows a CR is swallowed. *)
Lemma line_ending_filter_cr_cr (g : globals) :
  suppress_next_cr (term g) = true ->
  line_ending_filter 13 g = (on_term (set_suppress_next_cr false) g, true).
Proof. intros H. unfold line_ending_filter. rewrite H. reflexivity. Qed.

(** A LF that follows a CR is swallowed. *)
Lemma line_ending_filter_cr_lf (g : globals) :
  skip_next_lf (term g) = true ->
  line_ending_filter 10 g
  = (on_term (set_skip_next_lf false) (on_term (set_suppress_next_cr false) g), true).
Proof.
  intros H. unfold line_ending_filter. cbn [Z.eqb andb Pos.eqb].
  rewrite andb_false_r. autorewrite with frame. proj. rewrite H. reflexivity.
Qed.

Section HandleChar.
Context `{LibC}.

Lemma handle_char_unfold (c : Z) (g : globals) :
  handle_char c g
  = let '(g', swallowed) := line_ending_filter c (prologue g) in
    if swallowed then g' else dispatch_char c g'.
Proof. reflexivity. Qed.

Lemma handle_char_pass (c : Z) (g : globals) :
  c <> 13 -> c <> 10 -> handle_char c g = dispatch_char c (filtered g).
Proof.
  intros H13 H10. rewrite handle_char_unfold.
  by rewrite line_ending_filter_pass.
Qed.

Lemma handle_char_clear (c : Z) (g : globals) :
  line_flags_clear g = true -> handle_char c g = dispatch_char c (filtered g).
Proof.
  intros Hf. rewrite handle_char_unfold.
  rewrite line_ending_filter_clear; [done|].
  unfold line_flags_clear. by rewrite prologue_term.
Qed.

Lemma filtered_term g : term (filtered g) = clear_line_flags (term g).
Proof. unfold filtered. by autorewrite with frame. Qed.
Lemma filtered_ansi g : ansi (filtered g) = ansi g.
Proof. unfold filtered. by autorewrite with frame. Qed.
Lemma filtered_thm g : thm (filtered g) = thm g.
Proof. unfold filtered. by autorewrite with frame. Qed.
Lemma filtered_menu g : menu (filtered g) = menu g.
Proof. unfold filtered. by autorewrite with frame. Qed.
Lemma filtered_drawn g : cursor_drawn (cur (filtered g)) = false.
Proof. unfold filtered. by autorewrite with frame. Qed.
Lemma filtered_in_normal g : in_normal (filtered g) = in_normal g.
Proof. unfold in_normal. by rewrite filtered_term, filtered_menu. Qed.

Lemma dispatch_char_normal (c : Z) (g : globals) :
  in_normal g = true ->
  dispatch_char c g = safe_request_swap (redraw_cursor (handle_normal c g)).
Proof.
  unfold in_normal, dispatch_char. intros Hn.
  repeat (apply andb_prop in Hn; destruct Hn as [Hn ?]).
  repeat match goal with
         | Hx : negb ?b = true |- _ => apply negb_true_iff in Hx; rewrite Hx
         end.
  reflexivity.
Qed.

Lemma handle_normal_cr g :
  handle_normal 13 g
  = on_term (fun t => set_suppress_next_cr true (set_skip_next_lf true t)) (new_line g).
Proof. reflexivity. Qed.

(** CR in normal mode: the filtered state advances one line and the two
    flags are armed. *)
Lemma handle_char_cr_term (g : globals) :
  in_normal g = true -> line_flags_clear g = true ->
  term (handle_char 13 g)
  = set_suppress_next_cr true (set_skip_next_lf true
      (set_cursor_y (next_row (cursor_y (term g)))
         (set_cursor_x 0 (clear_line_flags (term g))))).
Proof.
  intros Hn Hf. rewrite handle_char_clear by done.
  rewrite dispatch_char_normal by (by rewrite filtered_in_normal).
  autorewrite with frame. rewrite handle_normal_cr.
  autorewrite with frame. by rewrite filtered_term.
Qed.

Lemma next_row_in_grid (y : Z) :
  0 <= y < CHAR_ROWS -> next_row y = Z.min (y + 1) (CHAR_ROWS - 1).
Proof.
  unfold next_row, uint16, CHAR_ROWS. intros Hy.
  rewrite (Z.mod_small (y + 1)) by lia.
  destruct (Z.geb_spec (y + 1) 30); lia.
Qed.
End HandleChar.


(** ** Reading a CSI sequence *)

Lemma digit_run_app (ds rest : list Z) :
  all_digits ds -> digit_run (ds ++ 0 :: rest) = ds.
Proof.
  induction 1 as [|d ds Hd _ IH]; [reflexivity|].
  cbn [app digit_run]. rewrite Hd, IH. reflexivity.
Qed.

Lemma digit_run_digits (ds : list Z) : all_digits ds -> digit_run ds = ds.
Proof.
  induction 1 as [|d ds Hd _ IH]; [reflexivity|].
  cbn [digit_run]. rewrite Hd, IH. reflexivity.
Qed.

Lemma is_digit_range (d : Z) : is_digit d = true -> 48 <= d <= 57.
Proof. unfold is_digit. lia. Qed.

Lemma line_flags_clear_flags (t : terminal_state_t) g :
  term g = clear_line_flags t -> line_flags_clear g = true.
Proof. unfold line_flags_clear. intros ->. reflexivity. Qed.

Section Csi.
Context `{LibC}.

Lemma atoi_terminated (ds rest : list Z) :
  all_digits ds -> atoi (ds ++ 0 :: rest) = atoi ds.
Proof.
  intros Hd. unfold atoi. by rewrite digit_run_app, digit_run_digits.
Qed.

Lemma atoi_in_range (ds : list Z) :
  all_digits ds -> decimal ds <= INT_MAX -> atoi ds = decimal ds.
Proof.
  intros Hd Hle. unfold atoi. rewrite digit_run_digits by done.
  destruct (Z.leb_spec (decimal ds) INT_MAX); [done | lia].
Qed.

Lemma csi_param_range (ds : list Z) : 0 <= csi_param ds < 256.
Proof. unfold csi_param, uint8. apply Z.mod_pos_bound. lia. Qed.

Lemma handle_char_escape (c : Z) (g : globals) :
  escape_mode (term g) = true -> line_flags_clear g = true ->
  handle_char c g = handle_escape c (filtered g).
Proof.
  intros He Hf. rewrite handle_char_clear by done.
  unfold dispatch_char. rewrite filtered_term. proj. by rewrite He.
Qed.

(** One more digit. *)
Lemma csi_digit (g : globals) (ds : list Z) (d : Z) :
  csi_collecting g ds -> is_digit d = true -> (length ds < 15)%nat ->
  csi_collecting (handle_char d g) (ds ++ [d])
  /\ csi_rest (handle_char d g) = csi_rest g.
Proof.
  intros (He & Ha & Hf & Hlen & Htake & Hle & Hds & Hbuf & Hpar) Hd Hlt.
  rewrite handle_char_escape by done.
  pose proof (is_digit_range d Hd) as Hr.
  unfold handle_escape.
  replace (d =? 91) with false by (symmetry; apply Z.eqb_neq; lia).
  rewrite filtered_term, filtered_ansi. proj. rewrite Ha, Hd, Hlen.
  replace (Z.of_nat (length ds) <? ANSI_BUFFER_SIZE - 1) with true
    by (symmetry; apply Z.ltb_lt; unfold ANSI_BUFFER_SIZE; lia).
  unfold csi_collecting, csi_rest, ansi_arrays_ok, line_flags_clear.
  autorewrite with frame. rewrite filtered_term, filtered_ansi, filtered_thm, filtered_menu.
  proj. rewrite He, Ha.
  cbn [ansi_buf_len ansi_buffer ansi_params ansi_param_count set_ansi_buf_len set_ansi_buffer].
  rewrite Hlen. unfold wr. rewrite Nat2Z.id, length_insert, length_app. cbn [length].
  unfold ANSI_BUFFER_SIZE in *.
  repeat split; try done.
  - unfold uint8. rewrite Z.mod_small by lia. lia.
  - replace (length ds + 1)%nat with (S (length ds)) by lia.
    rewrite (take_S_r _ _ d) by (apply list_lookup_insert_eq; lia).
    by rewrite take_insert_ge, Htake by lia.
  - lia.
  - apply Forall_app. split; [done | by constructor].
Qed.

Lemma feed_cons (c : Z) (bs : list Z) (g : globals) :
  feed (c :: bs) g = feed bs (handle_char c g).
Proof. reflexivity. Qed.

Lemma feed_app (a b : list Z) (g : globals) :
  feed (a ++ b) g = feed b (feed a g).
Proof. unfold feed. apply foldl_app. Qed.

(** A run of digits. *)
Lemma csi_digits (ds pre : list Z) (g : globals) :
  csi_collecting g pre -> all_digits ds -> (length pre + length ds <= 15)%nat ->
  csi_collecting (feed ds g) (pre ++ ds)
  /\ csi_rest (feed ds g) = csi_rest g.
Proof.
  revert pre g. induction ds as [|d ds IH]; intros pre g Hc Hds Hlen.
  - rewrite app_nil_r. done.
  - inversion Hds as [|? ? Hd Hds']; subst. cbn [length] in Hlen.
    destruct (csi_digit g pre d Hc Hd ltac:(lia)) as (Hc1 & Hr1).
    rewrite feed_cons.
    destruct (IH (pre ++ [d]) _ Hc1 Hds') as (Hc2 & Hr2).
    { rewrite length_app. cbn [length]. lia. }
    rewrite <- app_assoc in Hc2. split; [exact Hc2 | congruence].
Qed.

(** The buffer as [atoi] sees it at the end of a parameter. *)
Lemma csi_atoi (g : globals) (ds : list Z) :
  csi_collecting g ds ->
  atoi (ansi_buffer (terminate_ansi_buffer (ansi g))) = atoi ds.
Proof.
  intros (He & Ha & Hf & Hlen & Htake & Hle & Hds & Hbuf & Hpar).
  unfold terminate_ansi_buffer. cbn [ansi_buffer set_ansi_buffer].
  rewrite Hlen. unfold wr. rewrite Nat2Z.id.
  unfold ANSI_BUFFER_SIZE in *.
  rewrite (insert_take_drop (ansi_buffer (ansi g)) (length ds) 0) by lia.
  rewrite Htake.
  by apply atoi_terminated.
Qed.

Lemma handle_normal_esc g : handle_normal 27 g = on_term (set_escape_mode true) g.
Proof. reflexivity. Qed.

Lemma handle_escape_bracket g :
  handle_escape 91 g = on_ansi reset_ansi_state (on_term (set_ansi_mode true) g).
Proof. reflexivity. Qed.

(** ESC [ from normal mode starts a sequence with no parameter. *)
Lemma csi_enter (g : globals) :
  in_normal g = true -> ansi_arrays_ok g ->
  let s := feed [27; 91] g in
  csi_collecting s [] /\ ansi_param_count (ansi s) = 0
  /\ cursor_x (term s) = cursor_x (term g) /\ cursor_y (term s) = cursor_y (term g)
  /\ thm s = thm g /\ menu s = menu g.
Proof.
  intros Hn (Hbuf & Hpar). cbv zeta. rewrite !feed_cons.
  change (feed [] ?x) with x.
  assert (H1 : term (handle_char 27 g) = set_escape_mode true (clear_line_flags (term g))
               /\ ansi (handle_char 27 g) = ansi g /\ thm (handle_char 27 g) = thm g
               /\ menu (handle_char 27 g) = menu g).
  { rewrite handle_char_pass by lia.
    rewrite dispatch_char_normal by (by rewrite filtered_in_normal).
    rewrite handle_normal_esc. autorewrite with frame.
    by rewrite filtered_term, filtered_ansi, filtered_thm, filtered_menu. }
  destruct H1 as (Ht1 & Ha1 & Hh1 & Hm1).
  remember (handle_char 27 g) as s1 eqn:E1. clear E1.
  rewrite handle_char_escape; [| by rewrite Ht1 | by unfold line_flags_clear; rewrite Ht1].
  rewrite handle_escape_bracket.
  unfold csi_collecting, ansi_arrays_ok, line_flags_clear.
  autorewrite with frame.
  rewrite filtered_term, filtered_ansi, filtered_thm, filtered_menu, Ht1, Ha1, Hh1, Hm1.
  repeat split; try done; [cbn; lia | constructor].
Qed.

(** The semicolon commits the parameter read so far. *)
Lemma csi_semicolon (g : globals) (ds : list Z) (k : Z) :
  csi_collecting g ds -> ansi_param_count (ansi g) = k -> 0 <= k < ANSI_PARAM_MAX ->
  let s := handle_char 59 g in
  csi_collecting s []
  /\ ansi_param_count (ansi s) = k + 1
  /\ ansi_params (ansi s) = wr (ansi_params (ansi g)) k (csi_param ds)
  /\ cursor_x (term s) = cursor_x (term g) /\ cursor_y (term s) = cursor_y (term g)
  /\ thm s = thm g /\ menu s = menu g.
Proof.
  intros Hc Hk Hkr. cbv zeta.
  pose proof (csi_atoi g ds Hc) as Hatoi.
  destruct Hc as (He & Ha & Hf & Hlen & Htake & Hle & Hds & Hbuf & Hpar).
  rewrite handle_char_escape by done.
  unfold handle_escape. cbn [Z.eqb Pos.eqb is_digit Z.leb Z.compare Pos.compare
    Pos.compare_cont andb].
  rewrite filtered_term. proj. rewrite Ha.
  autorewrite with frame. rewrite filtered_ansi.
  replace (ansi_param_count (terminate_ansi_buffer (ansi g)) <? ANSI_PARAM_MAX)
    with true by (symmetry; apply Z.ltb_lt; cbn; lia).
  unfold csi_collecting, ansi_arrays_ok, line_flags_clear.
  autorewrite with frame.
  rewrite filtered_term, filtered_ansi, filtered_thm, filtered_menu.
  unfold commit_param. rewrite Hatoi. fold (csi_param ds).
  proj. rewrite He, Ha.
  cbn [ansi_buf_len ansi_buffer ansi_params ansi_param_count set_ansi_buf_len
       set_ansi_buffer set_ansi_params set_ansi_param_count terminate_ansi_buffer].
  rewrite Hk. unfold wr. rewrite !length_insert.
  unfold ANSI_PARAM_MAX in *.
  repeat split; try done.
  - cbn. lia.
  - constructor.
  - unfold uint8. apply Z.mod_small. lia.
Qed.

(** A final byte commits a pending parameter and dispatches the
    sequence on the parameters gathered. *)
Lemma csi_final (g : globals) (ds : list Z) (k c : Z) :
  csi_collecting g ds -> ansi_param_count (ansi g) = k -> 0 <= k < ANSI_PARAM_MAX ->
  is_digit c = false -> c <> 59 -> c <> 91 ->
  let params := if decide (ds = []) then ansi_params (ansi g)
                else wr (ansi_params (ansi g)) k (csi_param ds) in
  let count := if decide (ds = []) then k else k + 1 in
  exists G,
    handle_char c g
    = on_term (fun t => set_ansi_mode false (set_escape_mode false t))
        (process_ansi_sequence params count c G)
    /\ term G = clear_line_flags (term g)
    /\ ansi_params (ansi G) = params /\ ansi_param_count (ansi G) = count
    /\ thm G = thm g /\ menu G = menu g.
Proof.
  intros Hc Hk Hkr Hnd H59 H91. cbv zeta.
  pose proof (csi_atoi g ds Hc) as Hatoi.
  destruct Hc as (He & Ha & Hf & Hlen & Htake & Hle & Hds & Hbuf & Hpar).
  rewrite handle_char_escape by done.
  unfold handle_escape. cbv zeta.
  apply Z.eqb_neq in H59, H91. rewrite H91, H59, Hnd.
  rewrite filtered_term. proj. rewrite Ha.
  autorewrite with frame. rewrite filtered_ansi.
  change (ansi_buf_len (terminate_ansi_buffer (ansi g))) with (ansi_buf_len (ansi g)).
  change (ansi_param_count (terminate_ansi_buffer (ansi g)))
    with (ansi_param_count (ansi g)).
  rewrite Hlen, Hk.
  match goal with |- context [?x <? ANSI_PARAM_MAX] =>
    replace (x <? ANSI_PARAM_MAX) with true
      by (symmetry; apply Z.ltb_lt; unfold ANSI_PARAM_MAX in *; lia) end.
  rewrite andb_true_r.
  destruct (decide (ds = [])) as [-> | Hne].
  - destruct (Z.of_nat (length (@nil Z)) >? 0) eqn:E; [discriminate E|].
    autorewrite with frame. rewrite filtered_ansi.
    change (ansi_params (terminate_ansi_buffer (ansi g))) with (ansi_params (ansi g)).
    change (ansi_param_count (terminate_ansi_buffer (ansi g)))
      with (ansi_param_count (ansi g)).
    rewrite Hk.
    eexists. split; [reflexivity|].
    autorewrite with frame.
    rewrite filtered_term, filtered_ansi, filtered_thm, filtered_menu.
    repeat split; try done.
  - destruct (Z.gtb_spec (Z.of_nat (length ds)) 0) as [Hpos|Hz];
      [| exfalso; destruct ds; [done | cbn [length] in Hz; lia]].
    autorewrite with frame. rewrite filtered_ansi.
    unfold commit_param. rewrite Hatoi. fold (csi_param ds).
    cbn [ansi_params ansi_param_count set_ansi_params set_ansi_param_count
         terminate_ansi_buffer set_ansi_buffer].
    rewrite Hk.
    replace (uint8 (k + 1)) with (k + 1)
      by (unfold uint8, ANSI_PARAM_MAX in *; symmetry; apply Z.mod_small; lia).
    eexists. split; [reflexivity|].
    autorewrite with frame.
    rewrite filtered_term, filtered_ansi, filtered_thm, filtered_menu.
    cbn [ansi_params ansi_param_count set_ansi_params set_ansi_param_count
         terminate_ansi_buffer set_ansi_buffer].
    rewrite Hatoi, Hk. fold (csi_param ds).
    repeat split; try done.
    unfold uint8, ANSI_PARAM_MAX in *. apply Z.mod_small. lia.
Qed.

Lemma process_ansi_sequence_H params count g :
  process_ansi_sequence params count 72 g
  = let g1 := if count >=? 1
              then on_term (set_cursor_y
                     (uint16 (if rd params 0 >? 0 then rd params 0 - 1 else 0))) g
              else g in
    if count >=? 2
    then on_term (set_cursor_x
           (uint16 (if rd params 1 >? 0 then rd params 1 - 1 else 0))) g1
    else g1.
Proof. reflexivity. Qed.

Lemma process_ansi_sequence_C params count g :
  process_ansi_sequence params count 67 g
  = let n := move_count params count in
    if cursor_x (term g) + n <? CHAR_COLS
    then on_term (set_cursor_x (uint16 (cursor_x (term g) + n))) g
    else on_term (set_cursor_x (CHAR_COLS - 1)) g.
Proof. reflexivity. Qed.

Lemma uint16_csi_coord (ds : list Z) :
  uint16 (if csi_param ds >? 0 then csi_param ds - 1 else 0) = csi_coord (csi_param ds).
Proof.
  pose proof (csi_param_range ds). unfold csi_coord, uint16.
  destruct (csi_param ds >? 0) eqn:E; apply Z.mod_small; lia.
Qed.
End Csi.


Lemma csi_rest_eq (g g' : globals) :
  csi_rest g' = csi_rest g ->
  cursor_x (term g') = cursor_x (term g) /\ cursor_y (term g') = cursor_y (term g)
  /\ ansi_params (ansi g') = ansi_params (ansi g)
  /\ ansi_param_count (ansi g') = ansi_param_count (ansi g).
Proof. unfold csi_rest. intros Heq. injection Heq. auto. Qed.

Section CsiTheorems.
Context `{LibC}.

(** ESC [ digits: the parser holds the digits, nothing else moved. *)
Lemma csi_first_param (g : globals) (ds : list Z) :
  in_normal g = true -> ansi_arrays_ok g -> all_digits ds -> (length ds <= 15)%nat ->
  let s := feed ([27; 91] ++ ds) g in
  csi_collecting s ds /\ ansi_param_count (ansi s) = 0
  /\ cursor_x (term s) = cursor_x (term g) /\ cursor_y (term s) = cursor_y (term g).
Proof.
  intros Hn Hok Hds Hlen. cbv zeta. rewrite feed_app.
  destruct (csi_enter g Hn Hok) as (Hc & Hk & Hx & Hy & _).
  remember (feed [27; 91] g) as s2 eqn:E. clear E.
  destruct (csi_digits ds [] s2 Hc Hds) as (Hc3 & Hr3); [cbn; lia|].
  apply csi_rest_eq in Hr3. destruct Hr3 as (Hx3 & Hy3 & _ & Hk3).
  cbn [app] in Hc3. split; [done|]. split; [congruence|]. split; congruence.
Qed.

(** ESC [ digits ; digits: the first parameter is committed. *)
Lemma csi_second_param (g : globals) (d1 d2 : list Z) :
  in_normal g = true -> ansi_arrays_ok g ->
  all_digits d1 -> (length d1 <= 15)%nat -> all_digits d2 -> (length d2 <= 15)%nat ->
  let s := feed ([27; 91] ++ d1 ++ [59] ++ d2) g in
  csi_collecting s d2 /\ ansi_param_count (ansi s) = 1
  /\ rd (ansi_params (ansi s)) 0 = csi_param d1
  /\ cursor_x (term s) = cursor_x (term g) /\ cursor_y (term s) = cursor_y (term g).
Proof.
  intros Hn Hok Hd1 Hl1 Hd2 Hl2. cbv zeta.
  rewrite app_assoc, feed_app, feed_app.
  destruct (csi_first_param g d1 Hn Hok Hd1 Hl1) as (Hc & Hk & Hx & Hy).
  remember (feed ([27; 91] ++ d1) g) as s3 eqn:E. clear E.
  change (feed [59] s3) with (handle_char 59 s3).
  destruct (csi_semicolon s3 d1 0 Hc Hk) as (Hc4 & Hk4 & Hp4 & Hx4 & Hy4 & _);
    [unfold ANSI_PARAM_MAX; lia|].
  assert (Hlenp : length (ansi_params (ansi s3)) = 4%nat)
    by (destruct Hc as (_ & _ & _ & _ & _ & _ & _ & _ & Hp); exact Hp).
  remember (handle_char 59 s3) as s4 eqn:E. clear E.
  destruct (csi_digits d2 [] s4 Hc4 Hd2) as (Hc5 & Hr5); [cbn; lia|].
  apply csi_rest_eq in Hr5. destruct Hr5 as (Hx5 & Hy5 & Hp5 & Hk5).
  cbn [app] in Hc5. split; [done|]. split; [by rewrite Hk5, Hk4|].
  split; [|split; congruence].
  rewrite Hp5, Hp4. apply rd_wr_eq. rewrite Hlenp. lia.
Qed.

(** What CSI H does to the cursor, from the parameters committed before
    the final byte and the digits [ds] still pending. *)
Lemma csi_final_H (g : globals) (ds : list Z) (k : Z) :
  csi_collecting g ds -> ansi_param_count (ansi g) = k -> 0 <= k < ANSI_PARAM_MAX ->
  let params := if decide (ds = []) then ansi_params (ansi g)
                else wr (ansi_params (ansi g)) k (csi_param ds) in
  let count := if decide (ds = []) then k else k + 1 in
  let s := handle_char 72 g in
  cursor_y (term s)
  = (if count >=? 1
     then uint16 (if rd params 0 >? 0 then rd params 0 - 1 else 0)
     else cursor_y (term g))
  /\ cursor_x (term s)
    = (if count >=? 2
       then uint16 (if rd params 1 >? 0 then rd params 1 - 1 else 0)
       else cursor_x (term g)).
Proof.
  intros Hc Hk Hkr. cbv zeta.
  destruct (csi_final g ds k 72 Hc Hk Hkr) as (G & -> & HtG & _); [done | lia | lia |].
  rewrite process_ansi_sequence_H. cbv zeta.
  destruct (_ >=? 1), (_ >=? 2); autorewrite with frame; rewrite HtG;
    split; reflexivity.
Qed.

(** What CSI C does to the cursor column. *)
Lemma csi_final_C (g : globals) (ds : list Z) (k : Z) :
  csi_collecting g ds -> ansi_param_count (ansi g) = k -> 0 <= k < ANSI_PARAM_MAX ->
  let params := if decide (ds = []) then ansi_params (ansi g)
                else wr (ansi_params (ansi g)) k (csi_param ds) in
  let count := if decide (ds = []) then k else k + 1 in
  let n := move_count params count in
  cursor_x (term (handle_char 67 g))
  = (if cursor_x (term g) + n <? CHAR_COLS
     then uint16 (cursor_x (term g) + n) else CHAR_COLS - 1).
Proof.
  intros Hc Hk Hkr. cbv zeta.
  destruct (csi_final g ds k 67 Hc Hk Hkr) as (G & -> & HtG & _); [done | lia | lia |].
  rewrite process_ansi_sequence_C. cbv zeta. rewrite HtG.
  change (cursor_x (clear_line_flags (term g))) with (cursor_x (term g)).
  destruct (_ <? CHAR_COLS); autorewrite with frame; reflexivity.
Qed.

(** C6 as amended.  From normal mode, for parameters written with at
    most 15 digits each: ESC [ p1 ; p2 H puts the cursor on row
    [csi_coord] of the committed first parameter and column [csi_coord]
    of the committed second one, where the committed parameter is the
    8-bit value [csi_param] and [csi_coord p] is [p - 1], or 0 for
    [p = 0]; an empty first parameter counts as 0.  When the second
    parameter is absent (ESC [ p1 ; H and ESC [ p1 H) the column is left
    where it was, and ESC [ H leaves the cursor where it was.
    ESC [ 5 ; 10 H gives row 4, column 9. *)
Theorem csi_cursor_position (g : globals) (d1 d2 : list Z) :
  in_normal g = true -> ansi_arrays_ok g ->
  all_digits d1 -> (length d1 <= 15)%nat ->
  all_digits d2 -> (length d2 <= 15)%nat ->
  (d2 <> [] ->
     let s := feed ([27; 91] ++ d1 ++ [59] ++ d2 ++ [72]) g in
     cursor_y (term s) = csi_coord (csi_param d1)
     /\ cursor_x (term s) = csi_coord (csi_param d2))
  /\ (let s := feed ([27; 91] ++ d1 ++ [59] ++ [72]) g in
      cursor_y (term s) = csi_coord (csi_param d1)
      /\ cursor_x (term s) = cursor_x (term g))
  /\ (d1 <> [] ->
      let s := feed ([27; 91] ++ d1 ++ [72]) g in
      cursor_y (term s) = csi_coord (csi_param d1)
      /\ cursor_x (term s) = cursor_x (term g))
  /\ (let s := feed [27; 91; 72] g in
      cursor_y (term s) = cursor_y (term g)
      /\ cursor_x (term s) = cursor_x (term g))
  /\ (let s := feed [27; 91; 53; 59; 49; 48; 72] g in
      cursor_y (term s) = 4 /\ cursor_x (term s) = 9).
Proof.
  intros Hn Hok Hd1 Hl1 Hd2 Hl2.
  assert (Hpair : forall e1 e2, all_digits e1 -> (length e1 <= 15)%nat ->
            all_digits e2 -> (length e2 <= 15)%nat ->
            let s := feed ([27; 91] ++ e1 ++ [59] ++ e2 ++ [72]) g in
            cursor_y (term s) = csi_coord (csi_param e1)
            /\ cursor_x (term s)
               = if decide (e2 = []) then cursor_x (term g)
                 else csi_coord (csi_param e2)).
  { intros e1 e2 He1 Hm1 He2 Hm2. cbv zeta.
    rewrite !app_assoc, feed_app, <- !app_assoc.
    destruct (csi_second_param g e1 e2 Hn Hok He1 Hm1 He2 Hm2)
      as (Hc & Hk & Hp & Hx & Hy).
    remember (feed ([27; 91] ++ e1 ++ [59] ++ e2) g) as s5 eqn:E. clear E.
    change (feed [72] s5) with (handle_char 72 s5).
    assert (Hlenp : length (ansi_params (ansi s5)) = 4%nat)
      by (destruct Hc as (_ & _ & _ & _ & _ & _ & _ & _ & Hq); exact Hq).
    destruct (csi_final_H s5 e2 1 Hc Hk) as (Hrow & Hcol);
      [unfold ANSI_PARAM_MAX; lia|].
    rewrite Hrow, Hcol.
    destruct (decide (e2 = [])) as [-> | Hne].
    - change (1 >=? 1) with true. change (1 >=? 2) with false. cbv iota.
      rewrite Hp, uint16_csi_coord. done.
    - change (1 + 1 >=? 1) with true. change (1 + 1 >=? 2) with true. cbv iota.
      rewrite rd_wr_ne by lia. rewrite rd_wr_eq by (rewrite Hlenp; lia).
      rewrite Hp, !uint16_csi_coord. done. }
  assert (Hone : forall e1, all_digits e1 -> (length e1 <= 15)%nat ->
            let s := feed ([27; 91] ++ e1 ++ [72]) g in
            cursor_y (term s)
            = (if decide (e1 = []) then cursor_y (term g)
               else csi_coord (csi_param e1))
            /\ cursor_x (term s) = cursor_x (term g)).
  { intros e1 He1 Hm1. cbv zeta.
    rewrite app_assoc, feed_app.
    destruct (csi_first_param g e1 Hn Hok He1 Hm1) as (Hc & Hk & Hx & Hy).
    remember (feed ([27; 91] ++ e1) g) as s3 eqn:E. clear E.
    change (feed [72] s3) with (handle_char 72 s3).
    assert (Hlenp : length (ansi_params (ansi s3)) = 4%nat)
      by (destruct Hc as (_ & _ & _ & _ & _ & _ & _ & _ & Hq); exact Hq).
    destruct (csi_final_H s3 e1 0 Hc Hk) as (Hrow & Hcol);
      [unfold ANSI_PARAM_MAX; lia|].
    rewrite Hrow, Hcol.
    destruct (decide (e1 = [])) as [-> | Hne].
    - change (0 >=? 1) with false. change (0 >=? 2) with false. cbv iota. done.
    - change (0 + 1 >=? 1) with true. change (0 + 1 >=? 2) with false. cbv iota.
      rewrite rd_wr_eq by (rewrite Hlenp; lia).
      rewrite uint16_csi_coord. done. }
  split; [|split; [|split; [|split]]].
  - intros Hne. destruct (Hpair d1 d2 Hd1 Hl1 Hd2 Hl2) as (Hr & Hcl).
    rewrite decide_False in Hcl by done. done.
  - destruct (Hpair d1 [] Hd1 Hl1) as (Hr & Hcl); [constructor | cbn; lia |].
    rewrite decide_True in Hcl by done. done.
  - intros Hne. destruct (Hone d1 Hd1 Hl1) as (Hr & Hcl).
    rewrite decide_False in Hr by done. done.
  - destruct (Hone []) as (Hr & Hcl); [constructor | cbn; lia |].
    rewrite decide_True in Hr by done. done.
  - destruct (Hpair [53] [49; 48]) as (Hr & Hcl);
      [repeat constructor | cbn; lia | repeat constructor | cbn; lia |].
    rewrite decide_False in Hcl by done.
    split; [exact Hr | exact Hcl].
Qed.


(** ** The clamped cursor movements

    The line advance and the cursor movements A, B, C and D keep the
    cursor in the grid. *)
Lemma new_line_in_grid (g : globals) :
  cursor_in_grid g -> cursor_in_grid (new_line g).
Proof.
  unfold cursor_in_grid. intros (Hx & Hy). rewrite new_line_term.
  cbn [cursor_x cursor_y set_cursor_x set_cursor_y].
  unfold next_row, uint16, CHAR_COLS, CHAR_ROWS in *.
  rewrite Z.mod_small by lia.
  destruct (Z.geb_spec (cursor_y (term g) + 1) 30); lia.
Qed.

Lemma move_count_range (params : list Z) (count : Z) :
  0 <= rd params 0 < 256 -> 1 <= move_count params count < 256.
Proof.
  intros Hp. unfold move_count.
  destruct (count >=? 1); cbn [andb]; [|lia].
  destruct (Z.gtb_spec (rd params 0) 0); lia.
Qed.

Lemma csi_move_in_grid (params : list Z) (count final : Z) (g : globals) :
  final = 65 \/ final = 66 \/ final = 67 \/ final = 68 ->
  0 <= rd params 0 < 256 ->
  cursor_in_grid g ->
  cursor_in_grid (process_ansi_sequence params count final g).
Proof.
  intros Hf Hp (Hx & Hy).
  pose proof (move_count_range params count Hp) as Hn.
  unfold cursor_in_grid, process_ansi_sequence. cbv zeta.
  remember (move_count params count) as n eqn:E. clear E.
  unfold uint16, CHAR_COLS, CHAR_ROWS in *.
  destruct Hf as [-> | [-> | [-> | ->]]]; cbn [Z.eqb Pos.eqb];
    match goal with |- context [if ?b then _ else _] => destruct b eqn:Hb end;
    autorewrite with frame;
    cbn [cursor_x cursor_y set_cursor_x set_cursor_y];
    try rewrite Z.mod_small; lia.
Qed.

(** C4 on the code: ESC [ 99 ; 99 H, fed to the terminal as [main]
    leaves it, puts the cursor at column 98 of row 98, outside the
    80 x 30 grid. *)
Theorem csi_h_leaves_grid :
  let s := feed [27; 91; 57; 57; 59; 57; 57; 72] init_globals in
  cursor_x (term s) = 98 /\ cursor_y (term s) = 98 /\ ~ cursor_in_grid s.
Proof.
  cbv zeta. assert (Hs : term (feed [27; 91; 57; 57; 59; 57; 57; 72] init_globals)
                         = mk_term 98 98 true false false false false false)
    by (vm_compute; reflexivity).
  unfold cursor_in_grid. rewrite Hs. cbn. unfold CHAR_COLS. lia.
Qed.
End CsiTheorems.

Lemma init_arrays_ok : ansi_arrays_ok init_globals.
Proof. split; reflexivity. Qed.

Lemma csi_cursor_position_witness :
  let g := init_globals in
  let d1 := [53] in
  let d2 := [49; 48] in
  (d2 <> [] ->
     let s := @feed newlib ([27; 91] ++ d1 ++ [59] ++ d2 ++ [72]) g in
     cursor_y (term s) = csi_coord (@csi_param newlib d1)
     /\ cursor_x (term s) = csi_coord (@csi_param newlib d2))
  /\ (let s := @feed newlib ([27; 91] ++ d1 ++ [59] ++ [72]) g in
      cursor_y (term s) = csi_coord (@csi_param newlib d1)
      /\ cursor_x (term s) = cursor_x (term g))
  /\ (d1 <> [] ->
      let s := @feed newlib ([27; 91] ++ d1 ++ [72]) g in
      cursor_y (term s) = csi_coord (@csi_param newlib d1)
      /\ cursor_x (term s) = cursor_x (term g))
  /\ (let s := @feed newlib [27; 91; 72] g in
      cursor_y (term s) = cursor_y (term g)
      /\ cursor_x (term s) = cursor_x (term g))
  /\ (let s := @feed newlib [27; 91; 53; 59; 49; 48; 72] g in
      cursor_y (term s) = 4 /\ cursor_x (term s) = 9).
Proof.
  apply (@csi_cursor_position newlib init_globals [53] [49; 48]).
  - reflexivity.
  - split; reflexivity.
  - repeat constructor.
  - simpl; lia.
  - repeat constructor.
  - simpl; lia.
Defined.

(** C6 as stated fails: after ESC [ 5 ; 10 H has put the cursor on row 4,
    column 9, ESC [ H leaves it there instead of moving it to (0, 0); and
    ESC [ 300 ; 1 H selects row 43, not row 299. *)
Lemma csi_h_without_parameters_keeps_cursor :
  let g := @feed newlib [27; 91; 53; 59; 49; 48; 72] init_globals in
  let s := @feed newlib [27; 91; 72] g in
  let s' := @feed newlib [27; 91; 51; 48; 48; 59; 49; 72] init_globals in
  (cursor_y (term g), cursor_x (term g)) = (4, 9)
  /\ (cursor_y (term s), cursor_x (term s)) = (4, 9)
  /\ (cursor_y (term s), cursor_x (term s)) <> (0, 0)
  /\ cursor_y (term s') = 43 /\ cursor_y (term s') <> 300 - 1.
Proof. vm_compute. repeat split; discriminate. Qed.




(** ** Colour menus *)

Lemma safe_request_swap_scr g :
  (buffer_dirty (swp g) || cursor_drawn (cur g) || cursor_visible (term g)) = true ->
  scr (safe_request_swap g) = copy_back_to_front (scr g).
Proof.
  intros Hc. unfold safe_request_swap. rewrite Hc.
  unfold perform_swap. autorewrite with frame. by rewrite request_swap_scr.
Qed.

Lemma restore_menu_region_scr g :
  scr (restore_menu_region g) = copy_back_to_front (restore_cells (menu g) (scr g)).
Proof.
  unfold restore_menu_region. cbv zeta.
  rewrite safe_request_swap_scr by reflexivity.
  by autorewrite with frame.
Qed.

Section ColorMenu.
Context `{LibC}.

Lemma dispatch_char_color_menu k c g :
  color_menu_open k g ->
  dispatch_char c g = color_menu_char (menu_set_color k) (menu_set_mode k) c g.
Proof.
  intros (He & Hm & Hfg). unfold dispatch_char. rewrite He.
  destruct k; cbn in Hm.
  - by rewrite Hm.
  - by rewrite (Hfg eq_refl), Hm.
Qed.

Lemma filtered_color_menu_open k g :
  color_menu_open k g -> color_menu_open k (filtered g).
Proof.
  unfold color_menu_open. intros (He & Hm & Hfg).
  unfold menu_mode in *. rewrite filtered_term, filtered_menu. proj.
  repeat split; assumption.
Qed.

Lemma filtered_scr g : scr (filtered g) = scr (remove_cursor g).
Proof. unfold filtered. autorewrite with frame. apply prologue_scr. Qed.

(** The first digit is stored; nothing else happens. *)
Lemma color_menu_first_digit k (g : globals) (d : Z) :
  color_menu_open k g -> is_digit d = true ->
  color_menu_buf_len (menu g) = 0 ->
  let s := handle_char d g in
  s = on_menu (fun m => set_color_menu_buf_len 1
                          (set_color_menu_buf (wr (color_menu_buf m) 0 d) m))
        (filtered g).
Proof.
  intros Ho Hd Hlen. cbv zeta.
  pose proof (is_digit_range d Hd).
  rewrite handle_char_pass by lia.
  rewrite (dispatch_char_color_menu k) by (by apply filtered_color_menu_open).
  unfold color_menu_char. cbv zeta. rewrite filtered_menu, Hlen, Hd.
  autorewrite with frame. rewrite filtered_menu.
  reflexivity.
Qed.

(** The restore loop reads the saved arrays and the menu origin only. *)
Lemma restore_cells_typed (m : menu_t) (b : list Z) (n : Z) (sc : screen_t) :
  restore_cells (set_color_menu_buf_len n (set_color_menu_buf b m)) sc
  = restore_cells m sc.
Proof.
  unfold restore_cells.
  cbn [menu_left menu_top saved_chars saved_fg saved_bg
       set_color_menu_buf_len set_color_menu_buf].
  reflexivity.
Qed.

Ltac menu_fields :=
  cbn [color_menu_buf color_menu_buf_len set_color_menu_buf set_color_menu_buf_len
       fg_color_menu_mode bg_color_menu_mode set_fg_color_menu_mode
       set_bg_color_menu_mode current_fg current_bg current_cursor
       set_current_fg set_current_bg] in *.

(** The second digit closes the menu. *)
Lemma color_menu_char_second k (X : globals) (d1 d2 : Z) :
  color_menu_buf_len (menu X) = 1 ->
  rd (color_menu_buf (menu X)) 0 = d1 ->
  length (color_menu_buf (menu X)) = 3%nat ->
  is_digit d1 = true -> is_digit d2 = true ->
  let v := (d1 - 48) * 10 + (d2 - 48) in
  let s := color_menu_char (menu_set_color k) (menu_set_mode k) d2 X in
  menu_mode k s = false /\ color_menu_buf_len (menu s) = 0
  /\ menu_color k s = (if v <? 64 then v else menu_color k X)
  /\ other_color k s = other_color k X
  /\ current_cursor (thm s) = current_cursor (thm X)
  /\ scr s = copy_back_to_front (restore_cells (menu X) (scr X)).
Proof.
  intros Hlen Hb0 Hsize Hd1 Hd2. cbv zeta.
  pose proof (is_digit_range d1 Hd1). pose proof (is_digit_range d2 Hd2).
  unfold color_menu_char. cbv zeta. rewrite Hlen, Hd2.
  change (true && (1 <? 2)) with true. cbv iota.
  autorewrite with frame. menu_fields.
  change (uint8 (1 + 1) =? 2) with true. cbv iota.
  rewrite rd_wr_ne by lia. rewrite rd_wr_eq by (rewrite Hsize; lia). rewrite Hb0.
  replace (uint8 ((d1 - 48) * 10 + (d2 - 48))) with ((d1 - 48) * 10 + (d2 - 48))
    by (unfold uint8; symmetry; apply Z.mod_small; lia).
  unfold menu_mode, menu_color, other_color.
  destruct ((d1 - 48) * 10 + (d2 - 48) <? 64);
    autorewrite with frame; rewrite restore_menu_region_scr;
    autorewrite with frame; rewrite restore_cells_typed;
    destruct k; menu_fields; repeat split; reflexivity.
Qed.

(** ESC closes the menu and assigns no colour. *)
Lemma color_menu_char_esc k (X : globals) :
  let s := color_menu_char (menu_set_color k) (menu_set_mode k) 27 X in
  menu_mode k s = false /\ color_menu_buf_len (menu s) = 0
  /\ thm s = thm X
  /\ scr s = copy_back_to_front (restore_cells (menu X) (scr X)).
Proof.
  cbv zeta. unfold color_menu_char. cbv zeta.
  change (is_digit 27) with false. change (27 =? 8) with false.
  change (27 =? 27) with true. rewrite !andb_false_l. cbv iota.
  unfold menu_mode.
  autorewrite with frame. rewrite restore_menu_region_scr.
  destruct k; menu_fields; repeat split; reflexivity.
Qed.

(** Any other byte is ignored. *)
Lemma color_menu_char_other k (X : globals) (c : Z) :
  is_digit c = false -> c <> 8 -> c <> 27 ->
  color_menu_char (menu_set_color k) (menu_set_mode k) c X = X.
Proof.
  intros Hd H8 H27. unfold color_menu_char. cbv zeta.
  apply Z.eqb_neq in H8, H27. by rewrite Hd, H8, H27.
Qed.

Lemma remove_cursor_id g : cursor_drawn (cur g) = false -> remove_cursor g = g.
Proof. intros Hd. unfold remove_cursor. by rewrite Hd. Qed.

(** Backspace takes back a typed digit. *)
Lemma color_menu_char_bs k (X : globals) :
  let s := color_menu_char (menu_set_color k) (menu_set_mode k) 8 X in
  menu_mode k s = menu_mode k X /\ thm s = thm X /\ scr s = scr X
  /\ color_menu_buf_len (menu s)
     = (if color_menu_buf_len (menu X) >? 0
        then uint8 (color_menu_buf_len (menu X) - 1) else color_menu_buf_len (menu X)).
Proof.
  cbv zeta. unfold color_menu_char. cbv zeta.
  change (is_digit 8) with false. change (8 =? 8) with true.
  change (8 =? 27) with false. cbn [andb].
  unfold menu_mode.
  destruct (color_menu_buf_len (menu X) >? 0); autorewrite with frame;
    destruct k; menu_fields; repeat split; reflexivity.
Qed.

(** What the line-ending filter leaves alone. *)
Lemma line_ending_filter_keeps (c : Z) (g : globals) :
  let g' := fst (line_ending_filter c g) in
  scr g' = scr g /\ menu g' = menu g /\ thm g' = thm g
  /\ escape_mode (term g') = escape_mode (term g).
Proof.
  unfold line_ending_filter. cbv zeta.
  destruct g as [[x y v e a lf cr sup] sc w k an h m i].
  cbn. destruct sup, lf, cr, (c =? 13), (c =? 10); cbn; repeat split.
Qed.

(** A byte that the line-ending filter swallows or that the open colour
    menu does not know leaves the menu, the colours and the screen
    (apart from the removal of the cursor glyph) as they are. *)
Lemma color_menu_ignores k (g : globals) (c : Z) :
  color_menu_open k g -> is_digit c = false -> c <> 27 -> c <> 8 ->
  menu (handle_char c g) = menu g /\ thm (handle_char c g) = thm g
  /\ scr (handle_char c g) = scr (remove_cursor g).
Proof.
  intros (He & Hm & Hfg) Hd H27 H8. rewrite handle_char_unfold.
  pose proof (line_ending_filter_keeps c (prologue g)) as Hfr. cbv zeta in Hfr.
  destruct (line_ending_filter c (prologue g)) as [g' sw]. cbn [fst] in Hfr.
  destruct Hfr as (Hscr & Hmenu & Hthm & Hesc).
  rewrite prologue_menu in Hmenu. rewrite prologue_term in Hesc.
  rewrite prologue_scr in Hscr. rewrite prologue_thm in Hthm.
  assert (Hsame : (if sw then g' else dispatch_char c g') = g').
  { destruct sw; [reflexivity|].
    rewrite (dispatch_char_color_menu k).
    - by apply color_menu_char_other.
    - unfold color_menu_open, menu_mode in *. rewrite Hesc, Hmenu. done. }
  rewrite Hsame. done.
Qed.

End ColorMenu.




(** ** Cursor drawing and the menus *)

(** The filter touches the three flags only. *)
Lemma line_ending_filter_frame (c : Z) (g : globals) :
  let g' := fst (line_ending_filter c g) in
  scr g' = scr g /\ cur g' = cur g /\ menu g' = menu g
  /\ escape_mode (term g') = escape_mode (term g)
  /\ cursor_visible (term g') = cursor_visible (term g).
Proof.
  unfold line_ending_filter. cbv zeta.
  destruct g as [[x y v e a lf cr sup] sc w k an h m i].
  cbn. destruct sup, lf, cr, (c =? 13), (c =? 10); cbn; repeat split.
Qed.

Lemma handle_normal_cur (c : Z) (g : globals) : cur (handle_normal c g) = cur g.
Proof.
  unfold handle_normal, open_color_menu. cbv zeta.
  split_ifs; autorewrite with frame; try reflexivity.
  - match goal with |- context [draw_color_menu ?t ?p ?g0] =>
      destruct (draw_color_menu_frame t p g0) as (_ & -> & _) end.
    by autorewrite with frame.
  - match goal with |- context [draw_color_menu ?t ?p ?g0] =>
      destruct (draw_color_menu_frame t p g0) as (_ & -> & _) end.
    by autorewrite with frame.
  - match goal with |- context [draw_cursor_menu ?g0] =>
      destruct (draw_cursor_menu_frame g0) as (_ & -> & _) end.
    by autorewrite with frame.
Qed.

Lemma handle_normal_visible (c : Z) (g : globals) :
  cursor_visible (term (handle_normal c g)) = cursor_visible (term g).
Proof.
  unfold handle_normal, open_color_menu. cbv zeta.
  split_ifs; autorewrite with frame; try reflexivity.
  - match goal with |- context [draw_color_menu ?t ?p ?g0] =>
      destruct (draw_color_menu_frame t p g0) as (-> & _) end.
    by autorewrite with frame.
  - match goal with |- context [draw_color_menu ?t ?p ?g0] =>
      destruct (draw_color_menu_frame t p g0) as (-> & _) end.
    by autorewrite with frame.
  - match goal with |- context [draw_cursor_menu ?g0] =>
      destruct (draw_cursor_menu_frame g0) as (-> & _) end.
    by autorewrite with frame.
Qed.

Lemma redraw_cursor_guard (g : globals) :
  cursor_menu_mode (menu g) = true -> redraw_cursor g = g.
Proof. intros Hm. unfold redraw_cursor. by rewrite Hm, andb_false_r. Qed.

Lemma cursor_menu_char_drawn (c : Z) (g : globals) :
  cursor_drawn (cur (cursor_menu_char c g)) = cursor_drawn (cur g).
Proof.
  unfold cursor_menu_char. destruct (cursor_style_of_key c); [|reflexivity].
  cbv zeta. by autorewrite with frame.
Qed.

Lemma theme_char_cur (c : Z) (g : globals) : cur (theme_char c g) = cur g.
Proof. unfold theme_char. destruct (theme_of_key c) as [[fg bg]|]; reflexivity. Qed.

Lemma color_menu_char_cur set_color set_mode (c : Z) (g : globals) :
  cur (color_menu_char set_color set_mode c g) = cur g.
Proof.
  unfold color_menu_char. cbv zeta.
  split_ifs; by autorewrite with frame.
Qed.

Section CursorAndMenus.
Context `{LibC}.

Lemma handle_escape_drawn (c : Z) (g : globals) :
  cursor_drawn (cur (handle_escape c g)) = cursor_drawn (cur g).
Proof.
  unfold handle_escape. cbv zeta.
  split_ifs; autorewrite with frame; try reflexivity.
  all: match goal with
       | |- context [process_ansi_sequence ?p ?n ?f ?g0] =>
         destruct (process_ansi_sequence_frame p n f g0) as (_ & _ & -> & _)
       end; by autorewrite with frame.
Qed.

(** The cursor is drawn at the end of [handle_char] only on the path
    through the [switch], and only when no cursor-style menu is open
    at that point. *)
Lemma handle_char_drawn (c : Z) (g : globals) :
  cursor_drawn (cur (handle_char c g)) = true ->
  in_normal g = true /\ cursor_menu_mode (menu (handle_char c g)) = false.
Proof.
  rewrite handle_char_unfold.
  pose proof (line_ending_filter_frame c (prologue g)) as Hfr. cbv zeta in Hfr.
  destruct (line_ending_filter c (prologue g)) as [g' sw]. cbn [fst] in Hfr.
  destruct Hfr as (_ & Hcur & Hmenu & Hesc & _).
  rewrite prologue_term in Hesc. rewrite prologue_menu in Hmenu.
  assert (Hnot : cursor_drawn (cur g') = false) by (by rewrite Hcur, prologue_drawn).
  clear Hcur. destruct sw; [congruence|].
  unfold dispatch_char, in_normal. rewrite <- Hesc, <- Hmenu.
  destruct (escape_mode (term g')).
  { rewrite handle_escape_drawn. congruence. }
  destruct (fg_color_menu_mode (menu g')).
  { rewrite color_menu_char_cur. congruence. }
  destruct (bg_color_menu_mode (menu g')).
  { rewrite color_menu_char_cur. congruence. }
  destruct (cursor_menu_mode (menu g')).
  { rewrite cursor_menu_char_drawn. congruence. }
  destruct (theme_select_mode (menu g')).
  { rewrite theme_char_cur. congruence. }
  autorewrite with frame. intros Hdrawn. split; [reflexivity|].
  destruct (cursor_menu_mode (menu (handle_normal c g'))) eqn:Hm; [|reflexivity].
  rewrite redraw_cursor_guard, handle_normal_cur in Hdrawn by exact Hm.
  congruence.
Qed.

(** C8 as amended.  While the cursor-style menu is open neither drawing
    site writes anything: the blink block and the redraw block both
    leave every global as it is, so [handle_char] never ends with the
    cursor drawn, also not for the byte that opens that menu.  A byte
    handled while any of the four menus is open is not followed by a
    cursor redraw either.  ([cursor_drawn] is set by the two drawing
    blocks and by nothing else, and [handle_char] clears it on entry.) *)
Theorem cursor_not_drawn_in_cursor_menu (g : globals) (c : Z) :
  (cursor_menu_mode (menu g) = true -> cursor_blink g = g /\ redraw_cursor g = g)
  /\ (menu_active g = true -> cursor_drawn (cur (handle_char c g)) = false)
  /\ (cursor_menu_mode (menu (handle_char c g)) = true ->
      cursor_drawn (cur (handle_char c g)) = false).
Proof.
  split; [|split].
  - intros Hm. unfold cursor_blink, redraw_cursor.
    by rewrite Hm, andb_false_r.
  - intros Ha.
    destruct (cursor_drawn (cur (handle_char c g))) eqn:Hd; [|reflexivity].
    destruct (handle_char_drawn c g Hd) as (Hn & _).
    unfold menu_active in Ha. unfold in_normal in Hn.
    destruct (escape_mode (term g)), (theme_select_mode (menu g)),
      (cursor_menu_mode (menu g)), (fg_color_menu_mode (menu g)),
      (bg_color_menu_mode (menu g)); discriminate.
  - intros Hm.
    destruct (cursor_drawn (cur (handle_char c g))) eqn:Hd; [|reflexivity].
    destruct (handle_char_drawn c g Hd) as (_ & Hoff). congruence.
Qed.

(** ** The swap *)

(** The removal of the cursor glyph writes the back arrays only. *)
Lemma remove_cursor_front (g : globals) :
  charbuf_front (scr (remove_cursor g)) = charbuf_front (scr g)
  /\ colourbuf_front (scr (remove_cursor g)) = colourbuf_front (scr g).
Proof.
  unfold remove_cursor. destruct (cursor_drawn (cur g)); [|done].
  autorewrite with frame. unfold restore_cursor_cell. autorewrite with frame.
  unfold set_colour. cbv zeta.
  destruct (_ || _).
  - unfold set_char. cbv zeta. destruct (_ && _); done.
  - destruct (foldl _ _ _) as [[cb a] b].
    unfold set_char. cbv zeta. destruct (_ && _); done.
Qed.

(** The bytes that the line-ending filter swallows. *)
Lemma line_ending_filter_swallows (c : Z) (g : globals) :
  (c = 13 /\ (suppress_next_cr (term g) = true \/ skip_next_cr (term g) = true))
  \/ (c = 10 /\ skip_next_lf (term g) = true) ->
  snd (line_ending_filter c g) = true.
Proof.
  unfold line_ending_filter. cbv zeta.
  destruct g as [[x y v e a lf cr sup] sc w k an h m i]. cbn.
  destruct sup, lf, cr; cbn;
    intros [(-> & [Hs | Hs]) | (-> & Hs)]; try discriminate; reflexivity.
Qed.

(** A byte that the line-ending filter swallows leaves [handle_char]
    before the swap. *)
Lemma handle_char_swallowed (c : Z) (g : globals) :
  (c = 13 /\ (suppress_next_cr (term g) = true \/ skip_next_cr (term g) = true))
  \/ (c = 10 /\ skip_next_lf (term g) = true) ->
  scr (handle_char c g) = scr (remove_cursor g).
Proof.
  intros Hc. rewrite handle_char_unfold.
  pose proof (line_ending_filter_frame c (prologue g)) as Hfr. cbv zeta in Hfr.
  pose proof (line_ending_filter_swallows c (prologue g)) as Hsw.
  rewrite prologue_term in Hsw. specialize (Hsw Hc).
  destruct (line_ending_filter c (prologue g)) as [g' sw].
  cbn [fst snd] in Hfr, Hsw. rewrite Hsw.
  destruct Hfr as (-> & _). apply prologue_scr.
Qed.

End CursorAndMenus.

Lemma cursor_not_drawn_in_cursor_menu_witness :
  let g := @handle_char newlib 14 init_globals in
  (cursor_blink g = g /\ redraw_cursor g = g)
  /\ cursor_drawn (cur (@handle_char newlib 55 g)) = false
  /\ cursor_drawn (cur g) = false.
Proof.
  destruct (@cursor_not_drawn_in_cursor_menu newlib (@handle_char newlib 14 init_globals) 55)
    as (Hblink & Hbyte & _).
  destruct (@cursor_not_drawn_in_cursor_menu newlib init_globals 14) as (_ & _ & Hopen).
  split; [apply Hblink; vm_compute; reflexivity|].
  split; [apply Hbyte; vm_compute; reflexivity|].
  apply Hopen; vm_compute; reflexivity.
Defined.

(** C8 as stated fails in theme-pick mode, which draws no overlay and is
    not named by the guard of the drawing sites.  Ctrl+T enters the mode
    and the redraw at the end of the same [handle_char] call puts the
    cursor glyph '@' into the back buffer at the cursor cell; 99 turns of
    the blink block later the glyph has been taken off, and the next turn
    draws it again, the mode being active all the time. *)
Lemma cursor_drawn_in_theme_pick :
  let g := @handle_char newlib 20 init_globals in
  let g99 := Nat.iter 99 cursor_blink g in
  let g100 := cursor_blink g99 in
  theme_select_mode (menu g) = true /\ cursor_drawn (cur g) = true
  /\ rd (charbuf_back (scr g)) 0 = 64
  /\ theme_select_mode (menu g99) = true /\ cursor_drawn (cur g99) = false
  /\ rd (charbuf_back (scr g99)) 0 = 32
  /\ theme_select_mode (menu g100) = true /\ cursor_drawn (cur g100) = true
  /\ rd (charbuf_back (scr g100)) 0 = 64.
Proof. vm_compute. repeat split. Qed.



(** ** Cells of the back buffer *)

Lemma cell_index_inj (x y x' y' : Z) :
  in_grid x y -> in_grid x' y' ->
  x + y * CHAR_COLS = x' + y' * CHAR_COLS -> x = x' /\ y = y'.
Proof. unfold in_grid, CHAR_COLS, CHAR_ROWS. lia. Qed.

Lemma cell_index_range (x y : Z) :
  in_grid x y -> 0 <= x + y * CHAR_COLS < 2400.
Proof. unfold in_grid, CHAR_COLS, CHAR_ROWS. lia. Qed.

Lemma uint32_small (z : Z) : 0 <= z < 4294967296 -> uint32 z = z.
Proof. intros Hz. unfold uint32. by apply Z.mod_small. Qed.

Lemma set_char_in_grid (x y c : Z) (s : screen_t) :
  in_grid x y ->
  set_char x y c s
  = set_charbuf_back (wr (charbuf_back s) (x + y * CHAR_COLS) (uint8 c)) s.
Proof.
  intros (Hx & Hy). unfold CHAR_COLS, CHAR_ROWS in *. unfold set_char.
  rewrite !uint32_small by lia.
  replace ((x <? CHAR_COLS) && (y <? CHAR_ROWS)) with true; [reflexivity|].
  symmetry. apply andb_true_iff. unfold CHAR_COLS, CHAR_ROWS. lia.
Qed.

Lemma set_char_colourbuf (x y c : Z) (s : screen_t) :
  colourbuf_back (set_char x y c s) = colourbuf_back s.
Proof. unfold set_char. by destruct (_ && _). Qed.

Lemma set_char_front (x y c : Z) (s : screen_t) :
  charbuf_front (set_char x y c s) = charbuf_front s
  /\ colourbuf_front (set_char x y c s) = colourbuf_front s.
Proof. unfold set_char. by destruct (_ && _). Qed.

Lemma set_char_length (x y c : Z) (s : screen_t) :
  length (charbuf_back (set_char x y c s)) = length (charbuf_back s).
Proof.
  unfold set_char. destruct (_ && _); [|reflexivity].
  cbn [charbuf_back set_charbuf_back]. apply length_wr.
Qed.

Lemma set_colour_charbuf (x y fg bg : Z) (s : screen_t) :
  charbuf_back (set_colour x y fg bg s) = charbuf_back s.
Proof.
  unfold set_colour. destruct (_ || _); [reflexivity|].
  by destruct (foldl _ _ _) as [[cb ?] ?].
Qed.

Lemma set_colour_front (x y fg bg : Z) (s : screen_t) :
  charbuf_front (set_colour x y fg bg s) = charbuf_front s
  /\ colourbuf_front (set_colour x y fg bg s) = colourbuf_front s.
Proof.
  unfold set_colour. destruct (_ || _); [done|].
  by destruct (foldl _ _ _) as [[cb ?] ?].
Qed.

(** *** Colour words *)

Lemma land15_range (a : Z) : 0 <= Z.land a 15 < 16.
Proof.
  change 15 with (Z.ones 4). rewrite Z.land_ones by lia.
  apply Z.mod_pos_bound. lia.
Qed.

Lemma nibble_at_range (p x y : Z) (s : screen_t) : 0 <= nibble_at p x y s < 16.
Proof. apply land15_range. Qed.

Lemma write_nibble_same (w v bit : Z) :
  0 <= v < 16 -> 0 <= bit <= 28 ->
  Z.land (Z.shiftr (write_nibble w bit v) bit) 15 = v.
Proof. apply nibble_write_read. Qed.

Lemma write_nibble_other (w v j j' : Z) :
  0 <= v < 16 -> 0 <= j < 8 -> 0 <= j' < 8 -> j <> j' ->
  Z.land (Z.shiftr (write_nibble w (j * 4) v) (j' * 4)) 15
  = Z.land (Z.shiftr w (j' * 4)) 15.
Proof.
  intros Hv Hj Hj' Hne. unfold write_nibble. apply Z.bits_inj'. intros n Hn.
  change 15 with (Z.ones 4).
  rewrite !Z.land_spec, !Z.testbit_ones_nonneg by lia.
  rewrite !Z.shiftr_spec by lia.
  destruct (Z.ltb_spec n 4) as [Hlt|Hge]; [|by rewrite !andb_false_r].
  rewrite !andb_true_r, Z.lor_spec, Z.land_spec.
  rewrite !uint32_bits_low by lia.
  rewrite Z.lnot_spec by lia.
  rewrite uint32_bits_low by lia.
  assert (Hmask : Z.testbit (Z.shiftl (Z.ones 4) (j * 4)) (n + j' * 4) = false).
  { destruct (Z.ltb_spec (n + j' * 4) (j * 4)).
    - apply Z.shiftl_spec_low. lia.
    - rewrite Z.shiftl_spec by lia.
      rewrite Z.testbit_ones_nonneg by lia. apply Z.ltb_ge. lia. }
  assert (Hval : Z.testbit (Z.shiftl v (j * 4)) (n + j' * 4) = false).
  { destruct (Z.ltb_spec (n + j' * 4) (j * 4)).
    - apply Z.shiftl_spec_low. lia.
    - rewrite Z.shiftl_spec by lia.
      replace v with (v mod 2 ^ 4) by (apply Z.mod_small; lia).
      apply Z.mod_pow2_bits_high. lia. }
  rewrite Hmask, Hval. cbn [negb]. by rewrite andb_true_r, orb_false_r.
Qed.

Lemma plane_values_check_all (fg bg : Z) :
  0 <= fg < 256 -> 0 <= bg < 256 -> plane_values_check fg bg = true.
Proof.
  intros Hfg Hbg.
  pose proof (upto_forallb (fun f => forallb (plane_values_check f) (upto 256)) 256) as Hall.
  cbv beta in Hall.
  specialize (Hall ltac:(vm_compute; reflexivity) fg Hfg).
  exact (upto_forallb _ _ Hall bg Hbg).
Qed.

Lemma repack_check_all (n0 n1 n2 : Z) :
  0 <= n0 < 16 -> 0 <= n1 < 16 -> 0 <= n2 < 16 -> repack_check n0 n1 n2 = true.
Proof.
  intros H0 H1 H2.
  pose proof (upto_forallb
    (fun a => forallb (fun b => forallb (repack_check a b) (upto 16)) (upto 16)) 16) as Hall.
  cbv beta in Hall.
  specialize (Hall ltac:(vm_compute; reflexivity) n0 H0).
  pose proof (upto_forallb _ _ Hall n1 H1) as Hall1. cbv beta in Hall1.
  exact (upto_forallb _ _ Hall1 n2 H2).
Qed.

(** The three writes of the plane loop, seen from one index. *)
Lemma rd_plane_writes (F : Z -> Z -> Z) (cb : list Z) (word : Z) :
  0 <= word < COLOUR_PLANE_SIZE_WORDS -> length cb = colourbuf_words ->
  let cb' := foldl (fun cb p =>
               wr cb (word + p * COLOUR_PLANE_SIZE_WORDS)
                 (F p (rd cb (word + p * COLOUR_PLANE_SIZE_WORDS)))) cb [0; 1; 2] in
  length cb' = length cb
  /\ (forall p, 0 <= p < 3 ->
        rd cb' (word + p * COLOUR_PLANE_SIZE_WORDS)
        = F p (rd cb (word + p * COLOUR_PLANE_SIZE_WORDS)))
  /\ (forall j, 0 <= j ->
        (forall p, 0 <= p < 3 -> j <> word + p * COLOUR_PLANE_SIZE_WORDS) ->
        rd cb' j = rd cb j).
Proof.
  unfold colourbuf_words, COLOUR_PLANE_SIZE_WORDS, COLOUR_PAD_WORDS.
  intros Hw Hlen. cbn [foldl]. cbv zeta.
  split; [by rewrite !length_wr|]. split.
  - intros p Hp.
    assert (Hc : p = 0 \/ p = 1 \/ p = 2) by lia.
    destruct Hc as [-> | [-> | ->]].
    + do 2 (rewrite rd_wr_ne by lia).
      rewrite rd_wr_eq by (rewrite Hlen; lia). reflexivity.
    + rewrite rd_wr_ne by lia.
      rewrite rd_wr_eq by (rewrite length_wr, Hlen; lia).
      rewrite rd_wr_ne by lia. reflexivity.
    + rewrite rd_wr_eq by (rewrite !length_wr, Hlen; lia).
      do 2 (rewrite rd_wr_ne by lia). reflexivity.
  - intros j Hj Hne.
    pose proof (Hne 0 ltac:(lia)). pose proof (Hne 1 ltac:(lia)).
    pose proof (Hne 2 ltac:(lia)).
    do 3 (rewrite rd_wr_ne by lia). reflexivity.
Qed.

Lemma uint8_idem (z : Z) : uint8 (uint8 z) = uint8 z.
Proof. unfold uint8. apply Z.mod_mod. lia. Qed.

Lemma uint8_range (z : Z) : 0 <= uint8 z < 256.
Proof. unfold uint8. apply Z.mod_pos_bound. lia. Qed.

Lemma packed_nibble_uint8 (p fg bg : Z) :
  packed_nibble p (uint8 fg) (uint8 bg) = packed_nibble p fg bg.
Proof. unfold packed_nibble. by rewrite !uint8_idem. Qed.

Lemma packed_nibble_range (p fg bg : Z) :
  0 <= p < 3 -> 0 <= packed_nibble p fg bg < 16.
Proof.
  intros Hp. rewrite <- packed_nibble_uint8.
  pose proof (plane_values_check_all (uint8 fg) (uint8 bg)
                (uint8_range fg) (uint8_range bg)) as Hc.
  unfold plane_values_check in Hc. cbv zeta in Hc.
  repeat (apply andb_prop in Hc; destruct Hc as [Hc ?]).
  assert (Hq : p = 0 \/ p = 1 \/ p = 2) by lia.
  destruct Hq as [-> | [-> | ->]]; lia.
Qed.

(** The colour array after [set_colour] on a cell of the grid. *)
Lemma set_colour_in_grid (x y fg bg : Z) (s : screen_t) :
  in_grid x y ->
  set_colour x y fg bg s
  = set_colourbuf_back
      (foldl (fun cb p =>
         wr cb ((x + y * CHAR_COLS) / 8 + p * COLOUR_PLANE_SIZE_WORDS)
           (write_nibble (rd cb ((x + y * CHAR_COLS) / 8 + p * COLOUR_PLANE_SIZE_WORDS))
              ((x + y * CHAR_COLS) mod 8 * 4) (packed_nibble p fg bg)))
         (colourbuf_back s) [0; 1; 2]) s.
Proof.
  intros (Hx & Hy). unfold CHAR_COLS, CHAR_ROWS in Hx, Hy. unfold set_colour.
  rewrite !uint32_small by lia.
  replace ((x >=? CHAR_COLS) || (y >=? CHAR_ROWS)) with false
    by (symmetry; apply orb_false_iff; unfold CHAR_COLS, CHAR_ROWS; lia).
  pose proof (plane_values_check_all (uint8 fg) (uint8 bg)
                (uint8_range fg) (uint8_range bg)) as Hc.
  unfold plane_values_check in Hc. cbv zeta in Hc.
  repeat (apply andb_prop in Hc; destruct Hc as [Hc ?]).
  rewrite !packed_nibble_uint8 in *.
  cbv zeta. cbn [foldl set_colour_plane].
  unfold write_nibble.
  repeat match goal with
         | E : (_ =? _) = true |- _ => apply Z.eqb_eq in E; rewrite E
         end.
  reflexivity.
Qed.

(** *** One cell written, seen from a cell *)

Lemma cell_word_range (x y : Z) :
  in_grid x y ->
  0 <= (x + y * CHAR_COLS) / 8 < COLOUR_PLANE_SIZE_WORDS
  /\ 0 <= (x + y * CHAR_COLS) mod 8 < 8.
Proof.
  intros Hg. pose proof (cell_index_range x y Hg).
  unfold COLOUR_PLANE_SIZE_WORDS. split; [|apply Z.mod_pos_bound; lia].
  split; [apply Z.div_pos; lia | apply Z.div_lt_upper_bound; lia].
Qed.

Lemma set_colour_length (x y fg bg : Z) (s : screen_t) :
  length (colourbuf_back (set_colour x y fg bg s)) = length (colourbuf_back s).
Proof.
  unfold set_colour. destruct (_ || _); [reflexivity|].
  cbn [foldl set_colour_plane]. cbn [colourbuf_back set_colourbuf_back].
  by rewrite !length_wr.
Qed.

Lemma nibble_set_colour_same (p x y fg bg : Z) (s : screen_t) :
  length (colourbuf_back s) = colourbuf_words -> in_grid x y -> 0 <= p < 3 ->
  nibble_at p x y (set_colour x y fg bg s) = packed_nibble p fg bg.
Proof.
  intros Hlen Hg Hp. rewrite set_colour_in_grid by exact Hg.
  unfold nibble_at. cbv zeta. cbn [colourbuf_back set_colourbuf_back].
  destruct (cell_word_range x y Hg) as (Hw & Hb).
  destruct (rd_plane_writes
              (fun p w => write_nibble w ((x + y * CHAR_COLS) mod 8 * 4)
                            (packed_nibble p fg bg))
              (colourbuf_back s) _ Hw Hlen) as (_ & Hsame & _).
  cbv beta in Hsame. rewrite (Hsame p Hp).
  apply write_nibble_same; [by apply packed_nibble_range | lia].
Qed.

Lemma nibble_set_colour_other (p x y x' y' fg bg : Z) (s : screen_t) :
  length (colourbuf_back s) = colourbuf_words ->
  in_grid x y -> in_grid x' y' -> (x', y') <> (x, y) -> 0 <= p < 3 ->
  nibble_at p x' y' (set_colour x y fg bg s) = nibble_at p x' y' s.
Proof.
  intros Hlen Hg Hg' Hne Hp. rewrite set_colour_in_grid by exact Hg.
  unfold nibble_at. cbv zeta. cbn [colourbuf_back set_colourbuf_back].
  destruct (cell_word_range x y Hg) as (Hw & Hb).
  destruct (cell_word_range x' y' Hg') as (Hw' & Hb').
  destruct (rd_plane_writes
              (fun p w => write_nibble w ((x + y * CHAR_COLS) mod 8 * 4)
                            (packed_nibble p fg bg))
              (colourbuf_back s) _ Hw Hlen) as (_ & Hsame & Hother).
  cbv beta in Hsame, Hother.
  destruct (Z.eq_dec ((x' + y' * CHAR_COLS) / 8) ((x + y * CHAR_COLS) / 8)) as [Heq | Hd].
  - rewrite Heq, (Hsame p Hp).
    apply write_nibble_other; [by apply packed_nibble_range | lia | lia |].
    intros Hm. apply Hne.
    assert (Hi : x' + y' * CHAR_COLS = x + y * CHAR_COLS).
    { rewrite (Z.div_mod (x' + y' * CHAR_COLS) 8), (Z.div_mod (x + y * CHAR_COLS) 8) by lia.
      rewrite Heq, Hm. reflexivity. }
    destruct (cell_index_inj x' y' x y Hg' Hg Hi) as (-> & ->). reflexivity.
  - rewrite Hother; [reflexivity | unfold COLOUR_PLANE_SIZE_WORDS in *; lia |].
    intros q Hq. unfold COLOUR_PLANE_SIZE_WORDS in *. lia.
Qed.

Lemma get_colour_nibbles (x y : Z) (s : screen_t) :
  get_colour x y s
  = nibbles_decode (nibble_at 0 x y s) (nibble_at 1 x y s) (nibble_at 2 x y s).
Proof.
  unfold get_colour, nibbles_decode, nibble_at. cbv zeta.
  cbn [foldl get_colour_plane fst snd].
  assert (Hu : forall a, uint8 (Z.land a 15) = Z.land a 15).
  { intros a. unfold uint8. apply Z.mod_small. pose proof (land15_range a). lia. }
  rewrite !Hu. reflexivity.
Qed.

Lemma glyph_set_char_same (x y c : Z) (s : screen_t) :
  length (charbuf_back s) = Z.to_nat (CHAR_ROWS * CHAR_COLS) -> in_grid x y ->
  glyph_at x y (set_char x y c s) = uint8 c.
Proof.
  intros Hlen Hg. rewrite set_char_in_grid by exact Hg.
  unfold glyph_at. cbn [charbuf_back set_charbuf_back].
  pose proof (cell_index_range x y Hg).
  apply rd_wr_eq. rewrite Hlen. unfold CHAR_ROWS, CHAR_COLS in *. lia.
Qed.

Lemma glyph_set_char_other (x y x' y' c : Z) (s : screen_t) :
  in_grid x y -> in_grid x' y' -> (x', y') <> (x, y) ->
  glyph_at x' y' (set_char x y c s) = glyph_at x' y' s.
Proof.
  intros Hg Hg' Hne. rewrite set_char_in_grid by exact Hg.
  unfold glyph_at. cbn [charbuf_back set_charbuf_back].
  pose proof (cell_index_range x y Hg). pose proof (cell_index_range x' y' Hg').
  apply rd_wr_ne. intros Hi. apply Hne.
  destruct (cell_index_inj x' y' x y Hg' Hg) as (-> & ->); [|reflexivity].
  unfold CHAR_COLS in *. lia.
Qed.

Lemma glyph_set_colour (x y x' y' fg bg : Z) (s : screen_t) :
  glyph_at x' y' (set_colour x y fg bg s) = glyph_at x' y' s.
Proof. unfold glyph_at. by rewrite set_colour_charbuf. Qed.

Lemma nibble_set_char (p x y x' y' c : Z) (s : screen_t) :
  nibble_at p x' y' (set_char x y c s) = nibble_at p x' y' s.
Proof. unfold nibble_at. by rewrite set_char_colourbuf. Qed.

(** Coordinates outside the grid write nothing. *)
Lemma set_char_off_grid (x y c : Z) (s : screen_t) :
  0 <= x < 4294967296 -> 0 <= y < 4294967296 -> ~ in_grid x y ->
  set_char x y c s = s.
Proof.
  intros Hx Hy Hg. unfold set_char. rewrite !uint32_small by lia.
  destruct (Z.ltb_spec x CHAR_COLS); [|reflexivity].
  destruct (Z.ltb_spec y CHAR_ROWS); [|reflexivity].
  exfalso. apply Hg. unfold in_grid. lia.
Qed.

Lemma set_colour_off_grid (x y fg bg : Z) (s : screen_t) :
  0 <= x < 4294967296 -> 0 <= y < 4294967296 -> ~ in_grid x y ->
  set_colour x y fg bg s = s.
Proof.
  intros Hx Hy Hg. unfold set_colour. rewrite !uint32_small by lia.
  destruct (Z.geb_spec x CHAR_COLS); [reflexivity|].
  destruct (Z.geb_spec y CHAR_ROWS); [reflexivity|].
  exfalso. apply Hg. unfold in_grid. lia.
Qed.

Lemma screen_ok_set_char (x y c : Z) (s : screen_t) :
  screen_ok s -> screen_ok (set_char x y c s).
Proof.
  intros (Hc & Hk). split; [by rewrite set_char_length | by rewrite set_char_colourbuf].
Qed.

Lemma screen_ok_set_colour (x y fg bg : Z) (s : screen_t) :
  screen_ok s -> screen_ok (set_colour x y fg bg s).
Proof.
  intros (Hc & Hk). split; [by rewrite set_colour_charbuf | by rewrite set_colour_length].
Qed.

Lemma decode_packed (fg bg : Z) :
  nibbles_decode (packed_nibble 0 fg bg) (packed_nibble 1 fg bg) (packed_nibble 2 fg bg)
  = (uint8 fg mod 64, uint8 bg mod 64).
Proof.
  pose proof (plane_values_check_all (uint8 fg) (uint8 bg)
                (uint8_range fg) (uint8_range bg)) as Hc.
  unfold plane_values_check in Hc. cbv zeta in Hc.
  repeat (apply andb_prop in Hc; destruct Hc as [Hc ?]).
  rewrite !packed_nibble_uint8 in *.
  repeat match goal with
         | E : (_ =? _) = true |- _ => apply Z.eqb_eq in E; rewrite E in *
         end.
  match goal with E : bool_decide _ = true |- _ => apply bool_decide_eq_true_1 in E; exact E end.
Qed.

Lemma get_set_colour_same (x y fg bg : Z) (s : screen_t) :
  length (colourbuf_back s) = colourbuf_words -> in_grid x y ->
  get_colour x y (set_colour x y fg bg s) = (uint8 fg mod 64, uint8 bg mod 64).
Proof.
  intros Hlen Hg. rewrite get_colour_nibbles.
  rewrite !nibble_set_colour_same by (done || lia).
  apply decode_packed.
Qed.

Lemma get_set_colour_other (x y x' y' fg bg : Z) (s : screen_t) :
  length (colourbuf_back s) = colourbuf_words ->
  in_grid x y -> in_grid x' y' -> (x', y') <> (x, y) ->
  get_colour x' y' (set_colour x y fg bg s) = get_colour x' y' s.
Proof.
  intros Hlen Hg Hg' Hne. rewrite !get_colour_nibbles.
  by rewrite !nibble_set_colour_other by (done || lia).
Qed.

(** *** A loop of cell writes *)

Lemma same_cell_refl (x y : Z) (s : screen_t) : same_cell x y s s.
Proof. by split. Qed.

Lemma same_cell_trans (x y : Z) (s1 s2 s3 : screen_t) :
  same_cell x y s1 s2 -> same_cell x y s2 s3 -> same_cell x y s1 s3.
Proof.
  intros (Hg1 & Hn1) (Hg2 & Hn2). split; [congruence|].
  intros p Hp. rewrite Hn2, Hn1; done.
Qed.

Lemma same_cell_colour (x y : Z) (s s' : screen_t) :
  same_cell x y s s' -> get_colour x y s' = get_colour x y s.
Proof.
  intros (_ & Hn). rewrite !get_colour_nibbles. by rewrite !Hn by lia.
Qed.

(** One write, seen from any cell of the grid. *)
Lemma write_cell_other (x y c fg bg x' y' : Z) (s : screen_t) :
  screen_ok s -> in_grid x y -> in_grid x' y' -> (x, y) <> (x', y') ->
  same_cell x' y' s (set_colour x y fg bg (set_char x y c s)).
Proof.
  intros (Hc & Hk) Hg Hg' Hne. split.
  - rewrite glyph_set_colour. apply glyph_set_char_other; congruence.
  - intros p Hp.
    rewrite nibble_set_colour_other;
      [apply nibble_set_char | by rewrite set_char_colourbuf | done | done
      | congruence | done].
Qed.

Lemma write_cell_same (x y c fg bg : Z) (s : screen_t) :
  screen_ok s -> in_grid x y ->
  glyph_at x y (set_colour x y fg bg (set_char x y c s)) = uint8 c
  /\ forall p, 0 <= p < 3 ->
       nibble_at p x y (set_colour x y fg bg (set_char x y c s)) = packed_nibble p fg bg.
Proof.
  intros (Hc & Hk) Hg. split.
  - rewrite glyph_set_colour. by apply glyph_set_char_same.
  - intros p Hp.
    apply nibble_set_colour_same; [by rewrite set_char_colourbuf | done | done].
Qed.

Lemma write_cell_frame (x y c fg bg : Z) (s : screen_t) :
  screen_ok s ->
  let s' := set_colour x y fg bg (set_char x y c s) in
  screen_ok s' /\ charbuf_front s' = charbuf_front s
  /\ colourbuf_front s' = colourbuf_front s.
Proof.
  intros Hok. cbv zeta. split; [by apply screen_ok_set_colour, screen_ok_set_char|].
  destruct (set_colour_front x y fg bg (set_char x y c s)) as (-> & ->).
  apply set_char_front.
Qed.

(** A loop that writes the cell [cellof i] with the glyph and colours
    [val i] for each [i] of a list: a cell that no [i] names is left as it
    was, and a cell that some [i] names, all with the same value, holds
    that value. *)
Lemma fold_writes {A : Type} (cellof : A -> Z * Z) (val : A -> Z * Z * Z)
    (l : list A) (s : screen_t) :
  screen_ok s ->
  (forall i, i ∈ l -> in_grid (cellof i).1 (cellof i).2) ->
  let s' := foldl (fun s i =>
              set_colour (cellof i).1 (cellof i).2 (val i).1.2 (val i).2
                (set_char (cellof i).1 (cellof i).2 (val i).1.1 s)) s l in
  screen_ok s' /\ charbuf_front s' = charbuf_front s
  /\ colourbuf_front s' = colourbuf_front s
  /\ forall x y, in_grid x y ->
       ((forall i, i ∈ l -> cellof i <> (x, y)) -> same_cell x y s s')
       /\ (forall i, i ∈ l -> cellof i = (x, y) ->
           (forall j, j ∈ l -> cellof j = (x, y) -> val j = val i) ->
           glyph_at x y s' = uint8 (val i).1.1
           /\ forall p, 0 <= p < 3 ->
                nibble_at p x y s' = packed_nibble p (val i).1.2 (val i).2).
Proof.
  revert s. induction l as [|a l IH]; intros s Hok Hin; cbv zeta.
  - cbn [foldl]. do 3 (split; [done|]). intros x y Hg. split.
    + intros _. apply same_cell_refl.
    + intros i Hi. by apply elem_of_nil in Hi.
  - cbn [foldl].
    assert (Hga : in_grid (cellof a).1 (cellof a).2) by (apply Hin; left).
    destruct (write_cell_frame (cellof a).1 (cellof a).2 (val a).1.1 (val a).1.2
                (val a).2 s Hok) as (Hok1 & Hf1 & Hf2).
    destruct (IH _ Hok1 (fun i Hi => Hin i (list_elem_of_further _ _ _ Hi)))
      as (Hok' & Hf1' & Hf2' & Hcells).
    split; [exact Hok'|]. split; [congruence|]. split; [congruence|].
    intros x y Hg. destruct (Hcells x y Hg) as (Hnone & Hsome). split.
    + intros Hno. eapply same_cell_trans.
      * apply (write_cell_other (cellof a).1 (cellof a).2); try done.
        intros Heq. apply (Hno a); [left|].
        rewrite (surjective_pairing (cellof a)). exact Heq.
      * apply Hnone. intros i Hi. apply Hno. by right.
    + intros i Hi Hcell Hagree.
      destruct (decide (Exists (fun j => cellof j = (x, y)) l)) as [Hex | Hnex].
      * apply Exists_exists in Hex. destruct Hex as (j & Hj & Hjc).
        apply list_elem_of_In in Hj.
        rewrite <- (Hagree j (list_elem_of_further _ _ _ Hj) Hjc).
        apply Hsome; try done.
        intros k Hk Hkc. rewrite (Hagree j), (Hagree k); try done; by right.
      * assert (Hnone' : forall j, j ∈ l -> cellof j <> (x, y)).
        { intros j Hj Hjc. apply Hnex, Exists_exists. exists j.
          split; [by apply list_elem_of_In | done]. }
        assert (i = a) as ->.
        { apply elem_of_cons in Hi. destruct Hi as [-> | Hi]; [done|].
          by destruct (Hnone' i Hi). }
        destruct (Hnone Hnone') as (Hgl & Hnb).
        assert (Hxy : (cellof a).1 = x /\ (cellof a).2 = y) by (by rewrite Hcell).
        destruct Hxy as (Hx1 & Hy1).
        destruct (write_cell_same (cellof a).1 (cellof a).2 (val a).1.1 (val a).1.2
                    (val a).2 s Hok Hga) as (Hga1 & Hna1).
        clear Hcell Hagree Hsome Hnone Hnone' Hnex Hcells. subst x y.
        split; [rewrite Hgl; exact Hga1|].
        intros p Hp. rewrite Hnb by done. by apply Hna1.
Qed.

(** *** Loop nests *)

Lemma foldl_ext_in {A B : Type} (f g : A -> B -> A) (l : list B) (a : A) :
  (forall a i, i ∈ l -> f a i = g a i) -> foldl f a l = foldl g a l.
Proof.
  revert a. induction l as [|b l IH]; intros a Hfg; [reflexivity|].
  cbn [foldl]. rewrite Hfg by left. apply IH.
  intros a' i Hi. apply Hfg. by right.
Qed.

Lemma foldl_cells_of {A : Type} (f : A -> Z -> Z -> A) (outer inner : list Z) (a : A) :
  foldl (fun a r => foldl (fun a c => f a r c) a inner) a outer
  = foldl (fun a p => f a p.1 p.2) a (cells_of outer inner).
Proof.
  unfold cells_of. revert a. induction outer as [|r outer IH]; intros a; [reflexivity|].
  cbn [foldl mbind list_bind]. rewrite foldl_app, foldl_fmap. cbn [fst snd].
  apply IH.
Qed.

Lemma elem_of_cells_of (outer inner : list Z) (r c : Z) :
  (r, c) ∈ cells_of outer inner <-> r ∈ outer /\ c ∈ inner.
Proof.
  unfold cells_of. rewrite list_elem_of_bind. split.
  - intros (r' & Hin & Hr). apply list_elem_of_fmap_1 in Hin.
    destruct Hin as (c' & Heq & Hc). by simplify_eq.
  - intros (Hr & Hc). exists r. split; [|done].
    by apply (list_elem_of_fmap_2 (fun c => (r, c))).
Qed.

Lemma elem_of_upto (n i : Z) : i ∈ upto n <-> 0 <= i < n.
Proof. unfold upto. rewrite elem_of_seqZ. lia. Qed.

Lemma foldl_preserves_in {A B : Type} (P : A -> Prop) (f : A -> B -> A) (l : list B) (a : A) :
  P a -> (forall a x, x ∈ l -> P a -> P (f a x)) -> P (foldl f a l).
Proof.
  revert a. induction l as [|b l IH]; intros a Ha Hstep; [exact Ha|].
  cbn [foldl]. apply IH.
  - apply Hstep; [left | exact Ha].
  - intros a' x Hx. apply Hstep. by right.
Qed.

(** A loop of [set_colour] calls with one colour pair. *)
Lemma fold_colours {A : Type} (cellof : A -> Z * Z) (fg bg : Z) (l : list A) (s : screen_t) :
  screen_ok s ->
  (forall i, i ∈ l -> in_grid (cellof i).1 (cellof i).2) ->
  let s' := foldl (fun s i => set_colour (cellof i).1 (cellof i).2 fg bg s) s l in
  screen_ok s' /\ charbuf_back s' = charbuf_back s
  /\ charbuf_front s' = charbuf_front s /\ colourbuf_front s' = colourbuf_front s
  /\ forall x y p, in_grid x y -> 0 <= p < 3 ->
       ((forall i, i ∈ l -> cellof i <> (x, y)) ->
        nibble_at p x y s' = nibble_at p x y s)
       /\ (forall i, i ∈ l -> cellof i = (x, y) ->
           nibble_at p x y s' = packed_nibble p fg bg).
Proof.
  intros Hok. induction l as [|a l IH] using rev_ind; intros Hin; cbv zeta.
  - cbn [foldl]. do 4 (split; [done|]). intros x y p Hg Hp. split; [done|].
    intros i Hi. by apply elem_of_nil in Hi.
  - rewrite foldl_snoc.
    destruct IH as (Hok' & Hcb & Hf1 & Hf2 & Hcells).
    { intros i Hi. apply Hin, elem_of_app. by left. }
    assert (Hga : in_grid (cellof a).1 (cellof a).2).
    { apply Hin, elem_of_app. right. by apply list_elem_of_singleton. }
    split; [by apply screen_ok_set_colour|].
    split; [by rewrite set_colour_charbuf|].
    destruct (set_colour_front (cellof a).1 (cellof a).2 fg bg
                (foldl (fun s i => set_colour (cellof i).1 (cellof i).2 fg bg s) s l))
      as (-> & ->).
    do 2 (split; [done|]).
    intros x y p Hg Hp. destruct (Hcells x y p Hg Hp) as (Hnone & Hsome).
    destruct (decide (cellof a = (x, y))) as [Ha | Ha].
    + assert (Hxy : (cellof a).1 = x /\ (cellof a).2 = y) by (by rewrite Ha).
      destruct Hxy as (Hx1 & Hy1). split.
      * intros Hno. destruct (Hno a); [|done]. apply elem_of_app. right.
        by apply list_elem_of_singleton.
      * intros _ _ _. rewrite Hx1, Hy1.
        apply nibble_set_colour_same; [apply Hok' | done | done].
    + assert (Hne : (x, y) <> ((cellof a).1, (cellof a).2))
        by (rewrite <- surjective_pairing; congruence).
      rewrite nibble_set_colour_other by (done || apply Hok').
      split.
      * intros Hno. apply Hnone. intros i Hi. apply Hno, elem_of_app. by left.
      * intros i Hi Hc. apply elem_of_app in Hi. destruct Hi as [Hi | Hi].
        -- by apply (Hsome i).
        -- apply list_elem_of_singleton in Hi. by subst i.
Qed.

(** Loops of array writes. *)
Lemma rd_fold_wr_other {A : Type} (idx : A -> Z) (val : list Z -> A -> Z)
    (l : list A) (a : list Z) (j : Z) :
  (forall i, i ∈ l -> Z.to_nat (idx i) <> Z.to_nat j) ->
  rd (foldl (fun a i => wr a (idx i) (val a i)) a l) j = rd a j.
Proof.
  intros Hne.
  apply (foldl_preserves_in (fun a' => rd a' j = rd a j)); [reflexivity|].
  intros a' i Hi Ha'. rewrite rd_wr_ne by (by apply Hne). exact Ha'.
Qed.

Lemma length_fold_wr {A : Type} (idx : A -> Z) (val : list Z -> A -> Z)
    (l : list A) (a : list Z) :
  length (foldl (fun a i => wr a (idx i) (val a i)) a l) = length a.
Proof.
  apply (foldl_preserves (fun a' => length a' = length a)); [reflexivity|].
  intros a' i Ha'. by rewrite length_wr.
Qed.

Lemma rd_fold_wr_const {A : Type} (idx : A -> Z) (v : Z)
    (l : list A) (a : list Z) (i : A) :
  i ∈ l -> (Z.to_nat (idx i) < length a)%nat ->
  rd (foldl (fun a i => wr a (idx i) v) a l) (idx i) = v.
Proof.
  intros Hi Hlen. induction l as [|b l IH] using rev_ind.
  - by apply elem_of_nil in Hi.
  - rewrite foldl_snoc. destruct (decide (Z.to_nat (idx b) = Z.to_nat (idx i))) as [He | Hne].
    + unfold rd, wr. rewrite He, list_lookup_insert_eq; [reflexivity|].
      by rewrite (length_fold_wr idx (fun _ _ => v)).
    + rewrite rd_wr_ne by done. apply IH.
      apply elem_of_app in Hi. destruct Hi as [Hi | Hi]; [done|].
      apply list_elem_of_singleton in Hi. by subst.
Qed.

(** *** The bulk copy *)

Lemma copy_back_to_front_fields (s : screen_t) :
  charbuf_front (copy_back_to_front s) = charbuf_back s
  /\ colourbuf_front (copy_back_to_front s) = colourbuf_back s
  /\ charbuf_back (copy_back_to_front s) = charbuf_back s
  /\ colourbuf_back (copy_back_to_front s) = colourbuf_back s.
Proof. by destruct s. Qed.

Lemma glyph_at_copy (x y : Z) (s : screen_t) :
  glyph_at x y (copy_back_to_front s) = glyph_at x y s.
Proof. by destruct s. Qed.

Lemma nibble_at_copy (p x y : Z) (s : screen_t) :
  nibble_at p x y (copy_back_to_front s) = nibble_at p x y s.
Proof. by destruct s. Qed.

Lemma get_colour_copy (x y : Z) (s : screen_t) :
  get_colour x y (copy_back_to_front s) = get_colour x y s.
Proof. by destruct s. Qed.

Lemma screen_ok_copy (s : screen_t) : screen_ok s -> screen_ok (copy_back_to_front s).
Proof. by destruct s. Qed.

Lemma same_cell_copy (x y : Z) (s : screen_t) : same_cell x y s (copy_back_to_front s).
Proof. by destruct s. Qed.

(** X1.  Writing a cell is local.  [set_char] followed by [set_colour] on
    a cell of the grid leaves there the glyph as a byte and the colours
    reduced to six bits; every other cell of the grid keeps its glyph and
    its colours; the front arrays and the array sizes are untouched.
    Coordinates outside the grid write nothing at all. *)
Theorem cell_write_is_local (s : screen_t) (x y c fg bg : Z) :
  screen_ok s -> 0 <= x < 4294967296 -> 0 <= y < 4294967296 ->
  let s' := set_colour x y fg bg (set_char x y c s) in
  (in_grid x y ->
   glyph_at x y s' = c mod 256
   /\ get_colour x y s' = ((fg mod 256) mod 64, (bg mod 256) mod 64))
  /\ (~ in_grid x y -> s' = s)
  /\ (forall x' y', in_grid x' y' -> (x', y') <> (x, y) ->
      glyph_at x' y' s' = glyph_at x' y' s /\ get_colour x' y' s' = get_colour x' y' s)
  /\ charbuf_front s' = charbuf_front s /\ colourbuf_front s' = colourbuf_front s
  /\ screen_ok s'.
Proof.
  intros Hok Hx Hy. cbv zeta. destruct Hok as (Hc & Hk).
  split; [|split; [|split; [|split; [|split]]]].
  - intros Hg. split.
    + rewrite glyph_set_colour. by apply glyph_set_char_same.
    + apply get_set_colour_same; [by rewrite set_char_colourbuf | done].
  - intros Hg. rewrite set_colour_off_grid by done. by apply set_char_off_grid.
  - intros x' y' Hg' Hne.
    destruct (decide (in_grid x y)) as [Hg | Hg].
    + split.
      * rewrite glyph_set_colour. by apply glyph_set_char_other.
      * rewrite get_set_colour_other by (done || by rewrite set_char_colourbuf).
        rewrite !get_colour_nibbles. by rewrite !nibble_set_char.
    + rewrite set_colour_off_grid, set_char_off_grid by done. done.
  - destruct (set_colour_front x y fg bg (set_char x y c s)) as (-> & _).
    by destruct (set_char_front x y c s) as (-> & _).
  - destruct (set_colour_front x y fg bg (set_char x y c s)) as (_ & ->).
    by destruct (set_char_front x y c s) as (_ & ->).
  - apply screen_ok_set_colour, screen_ok_set_char. by split.
Qed.

Lemma init_screen_ok : screen_ok (scr init_globals).
Proof. split; reflexivity. Qed.

Lemma cell_write_is_local_witness :
  let s' := set_colour 3 2 12 5 (set_char 3 2 65 (scr init_globals)) in
  glyph_at 3 2 s' = 65 mod 256
  /\ get_colour 3 2 s' = ((12 mod 256) mod 64, (5 mod 256) mod 64).
Proof.
  cbv zeta.
  destruct (cell_write_is_local (scr init_globals) 3 2 65 12 5) as (Hin & _).
  - split; reflexivity.
  - lia.
  - lia.
  - apply Hin. unfold in_grid, CHAR_COLS, CHAR_ROWS. lia.
Defined.

(** ** Clearing and erasing *)

Lemma clear_screen_scr (g : globals) :
  scr (clear_screen g)
  = foldl (fun s p =>
      set_colour p.2 p.1 (current_fg (thm g)) (current_bg (thm g))
        (set_char p.2 p.1 32 s))
      (set_colourbuf_back (replicate (length (colourbuf_back (scr g))) 0) (scr g))
      (cells_of (upto CHAR_ROWS) (upto CHAR_COLS)).
Proof.
  unfold clear_screen. cbv zeta. rewrite request_swap_scr.
  autorewrite with frame.
  rewrite (foldl_cells_of
    (fun s y x => set_colour x y (current_fg (thm g)) (current_bg (thm g))
                    (set_charbuf_back (wr (charbuf_back s) (x + y * CHAR_COLS) 32) s))).
  apply foldl_ext_in. intros s [y x] Hin.
  apply elem_of_cells_of in Hin. destruct Hin as (Hy & Hx).
  apply elem_of_upto in Hy, Hx. cbn [fst snd].
  rewrite set_char_in_grid by (by split). reflexivity.
Qed.

(** X2.  [clear_screen] blanks the whole grid: afterwards every cell of
    the back buffer holds a space in the current colours (reduced to six
    bits), the cursor is at the origin and a swap is queued; the front
    arrays are not touched, so the cleared screen is shown only once the
    swap is performed. *)
Theorem clear_screen_blanks_grid (g : globals) :
  screen_ok (scr g) ->
  let g' := clear_screen g in
  (forall x y, in_grid x y ->
     glyph_at x y (scr g') = 32
     /\ get_colour x y (scr g')
        = ((current_fg (thm g) mod 256) mod 64, (current_bg (thm g) mod 256) mod 64))
  /\ cursor_x (term g') = 0 /\ cursor_y (term g') = 0
  /\ swap_queued (swp g') = true
  /\ charbuf_front (scr g') = charbuf_front (scr g)
  /\ colourbuf_front (scr g') = colourbuf_front (scr g)
  /\ screen_ok (scr g').
Proof.
  intros (Hc & Hk). cbv zeta. rewrite clear_screen_scr.
  remember (cells_of (upto CHAR_ROWS) (upto CHAR_COLS)) as l eqn:El.
  assert (Hok0 : screen_ok (set_colourbuf_back
                   (replicate (length (colourbuf_back (scr g))) 0) (scr g))).
  { split; [exact Hc|]. cbn [colourbuf_back set_colourbuf_back].
    by rewrite length_replicate. }
  pose proof (fold_writes (fun p : Z * Z => (p.2, p.1))
                (fun _ => (32, current_fg (thm g), current_bg (thm g))) l _ Hok0) as Hw.
  cbn [fst snd] in Hw.
  destruct Hw as (Hok' & Hf1 & Hf2 & Hcells).
  { intros [y x] Hin. rewrite El in Hin. apply elem_of_cells_of in Hin.
    destruct Hin as (Hy & Hx). apply elem_of_upto in Hy, Hx. by split. }
  split; [|split; [|split; [|split; [|split; [|split]]]]].
  - intros x y Hg. destruct (Hcells x y Hg) as (_ & Hsome).
    destruct (Hsome (y, x)) as (Hgl & Hnb).
    + rewrite El. apply elem_of_cells_of. destruct Hg as (Hx & Hy).
      split; apply elem_of_upto; assumption.
    + reflexivity.
    + intros j _ _. reflexivity.
    + split; [exact Hgl|].
      rewrite get_colour_nibbles, !Hnb by lia. apply decode_packed.
  - unfold clear_screen. cbv zeta. rewrite request_swap_term. by autorewrite with frame.
  - unfold clear_screen. cbv zeta. rewrite request_swap_term. by autorewrite with frame.
  - unfold clear_screen, request_swap. cbv zeta.
    match goal with |- context [if ?b then _ else _] => destruct b eqn:Hq end;
      autorewrite with frame.
    + reflexivity.
    + by apply negb_false_iff in Hq.
  - exact Hf1.
  - exact Hf2.
  - exact Hok'.
Qed.

Lemma clear_screen_blanks_grid_witness :
  glyph_at 7 3 (scr (clear_screen init_globals)) = 32
  /\ cursor_x (term (clear_screen init_globals)) = 0.
Proof.
  destruct (clear_screen_blanks_grid init_globals) as (Hcells & Hx & _).
  - split; reflexivity.
  - split; [|exact Hx].
    assert (Hg : in_grid 7 3) by (unfold in_grid, CHAR_COLS, CHAR_ROWS; lia).
    exact (proj1 (Hcells 7 3 Hg)).
Defined.

Lemma foldl_id_in {A B : Type} (f : A -> B -> A) (l : list B) (a : A) :
  (forall a i, i ∈ l -> f a i = a) -> foldl f a l = a.
Proof.
  revert a. induction l as [|b l IH]; intros a Hf; [reflexivity|].
  cbn [foldl]. rewrite Hf by left. apply IH. intros a' i Hi. apply Hf. by right.
Qed.

(** X3.  CSI K erases from the cursor to the end of its line, whatever the
    parameters: the cells of the cursor row from the cursor column on hold
    a space in the current colours, every other cell of the grid is left
    as it was, and the cursor does not move.  With the cursor outside the
    grid no cell changes. *)
Theorem erase_to_end_of_line (g : globals) (params : list Z) (count : Z) :
  screen_ok (scr g) ->
  0 <= cursor_x (term g) < 65536 -> 0 <= cursor_y (term g) < 65536 ->
  let g' := process_ansi_sequence params count 75 g in
  (forall x y, in_grid x y ->
     (y = cursor_y (term g) -> cursor_x (term g) <= x ->
      glyph_at x y (scr g') = 32
      /\ get_colour x y (scr g')
         = ((current_fg (thm g) mod 256) mod 64, (current_bg (thm g) mod 256) mod 64))
     /\ (y <> cursor_y (term g) \/ x < cursor_x (term g) ->
         glyph_at x y (scr g') = glyph_at x y (scr g)
         /\ get_colour x y (scr g') = get_colour x y (scr g)))
  /\ term g' = term g /\ thm g' = thm g
  /\ buffer_dirty (swp g') = true.
Proof.
  intros Hok Hcx Hcy. cbv zeta.
  unfold process_ansi_sequence. cbn [Z.eqb Pos.eqb]. cbv zeta.
  autorewrite with frame.
  split; [|by repeat split].
  remember (seqZ (cursor_x (term g)) (CHAR_COLS - cursor_x (term g))) as l eqn:El.
  destruct (Z.lt_ge_cases (cursor_y (term g)) CHAR_ROWS) as [Hrow | Hrow].
  - pose proof (fold_writes (fun x : Z => (x, cursor_y (term g)))
                  (fun _ => (32, current_fg (thm g), current_bg (thm g))) l _ Hok) as Hw.
    cbn [fst snd] in Hw.
    destruct Hw as (_ & _ & _ & Hcells).
    { intros x Hin. rewrite El in Hin. apply elem_of_seqZ in Hin.
      unfold in_grid. lia. }
    intros x y Hg. destruct (Hcells x y Hg) as (Hnone & Hsome). split.
    + intros -> Hx. destruct (Hsome x) as (Hgl & Hnb).
      * rewrite El. apply elem_of_seqZ. destruct Hg. lia.
      * reflexivity.
      * intros j _ _. reflexivity.
      * split; [exact Hgl|].
        rewrite get_colour_nibbles, !Hnb by lia. apply decode_packed.
    + intros Hout.
      assert (Hsc : same_cell x y (scr g)
                (foldl (fun s i =>
                   set_colour i (cursor_y (term g)) (current_fg (thm g))
                     (current_bg (thm g)) (set_char i (cursor_y (term g)) 32 s))
                   (scr g) l)).
      { apply Hnone. intros i Hi Heq. rewrite El in Hi. apply elem_of_seqZ in Hi.
        injection Heq as Hi1 Hy1. lia. }
      split; [apply Hsc | by apply same_cell_colour].
  - rewrite foldl_id_in.
    + intros x y Hg. split; [|done].
      intros -> _. destruct Hg as (_ & Hy). lia.
    + intros s i Hi. rewrite El in Hi. apply elem_of_seqZ in Hi.
      assert (Hoff : ~ in_grid i (cursor_y (term g))) by (unfold in_grid; lia).
      unfold CHAR_COLS, CHAR_ROWS in *.
      rewrite set_char_off_grid by (done || lia).
      apply set_colour_off_grid; (done || lia).
Qed.

Lemma erase_to_end_of_line_witness :
  let g := set_input_active true init_globals in
  glyph_at 5 0 (scr (process_ansi_sequence [0; 0; 0; 0] 0 75 g)) = 32
  /\ term (process_ansi_sequence [0; 0; 0; 0] 0 75 g) = term g.
Proof.
  cbv zeta.
  destruct (erase_to_end_of_line (set_input_active true init_globals) [0; 0; 0; 0] 0)
    as (Hcells & Ht & _).
  - split; reflexivity.
  - cbn. lia.
  - cbn. lia.
  - split; [|exact Ht].
    assert (Hg : in_grid 5 0) by (unfold in_grid, CHAR_COLS, CHAR_ROWS; lia).
    destruct (Hcells 5 0 Hg) as (Herased & _).
    apply Herased; [reflexivity | cbn; lia].
Defined.

(** ** Scrolling *)

Lemma scroll_up_scr (g : globals) :
  scr (scroll_up g)
  = copy_back_to_front
      (scroll_paint_last (current_fg (thm g)) (current_bg (thm g))
         (scroll_clear_last (scroll_planes (scroll_glyphs (scr g))))).
Proof.
  unfold scroll_up. cbv zeta.
  rewrite safe_request_swap_scr by reflexivity.
  autorewrite with frame.
  unfold scroll_paint_last, scroll_clear_last, scroll_planes, scroll_glyphs.
  cbv zeta. reflexivity.
Qed.

Lemma rd_memmove (a : list Z) (dst src n i : Z) :
  0 <= dst -> 0 <= src -> 0 <= n ->
  dst + n <= Z.of_nat (length a) -> src + n <= Z.of_nat (length a) -> 0 <= i ->
  rd (memmove a dst src n) i
  = if (dst <=? i) && (i <? dst + n) then rd a (i - dst + src) else rd a i.
Proof.
  intros Hd Hs Hn Hdl Hsl Hi. unfold rd, memmove.
  destruct (Z.leb_spec dst i) as [Hle | Hlt]; cbn [andb].
  - rewrite lookup_app_r by (rewrite length_take; lia).
    rewrite length_take, Nat.min_l by lia.
    destruct (Z.ltb_spec i (dst + n)) as [Hin | Hout].
    + rewrite lookup_app_l by (rewrite length_take, length_drop; lia).
      rewrite lookup_take_lt by lia. rewrite lookup_drop. do 2 f_equal. lia.
    + rewrite lookup_app_r by (rewrite length_take, length_drop; lia).
      rewrite length_take, length_drop, Nat.min_l by lia.
      rewrite lookup_drop. do 2 f_equal. lia.
  - rewrite lookup_app_l by (rewrite length_take; lia).
    rewrite lookup_take_lt by lia. reflexivity.
Qed.

Lemma length_memmove (a : list Z) (dst src n : Z) :
  0 <= dst -> 0 <= src -> 0 <= n ->
  dst + n <= Z.of_nat (length a) -> src + n <= Z.of_nat (length a) ->
  length (memmove a dst src n) = length a.
Proof.
  intros Hd Hs Hn Hdl Hsl. unfold memmove.
  rewrite !length_app, !length_take, length_drop, length_drop. lia.
Qed.

(** The glyph stage. *)
Lemma charbuf_fold_wr (idx : Z -> Z) (v : Z) (l : list Z) (s : screen_t) :
  foldl (fun s x => set_charbuf_back (wr (charbuf_back s) (idx x) v) s) s l
  = set_charbuf_back (foldl (fun a x => wr a (idx x) v) (charbuf_back s) l) s.
Proof.
  revert s. induction l as [|x l IH]; intros s; [by destruct s|].
  cbn [foldl]. rewrite IH. reflexivity.
Qed.

Lemma scroll_glyphs_spec (s : screen_t) :
  screen_ok s ->
  let s' := scroll_glyphs s in
  screen_ok s' /\ colourbuf_back s' = colourbuf_back s
  /\ charbuf_front s' = charbuf_front s /\ colourbuf_front s' = colourbuf_front s
  /\ forall x y, in_grid x y ->
       glyph_at x y s' = if y <? CHAR_ROWS - 1 then glyph_at x (y + 1) s else 32.
Proof.
  intros (Hc & Hk). unfold scroll_glyphs. cbv zeta.
  rewrite charbuf_fold_wr. cbn [charbuf_back set_charbuf_back].
  unfold CHAR_ROWS, CHAR_COLS in *.
  assert (Hlen : length (memmove (charbuf_back s) 0 80 ((30 - 1) * 80))
                 = length (charbuf_back s))
    by (apply length_memmove; lia).
  split; [|split; [done|split; [done|split; [done|]]]].
  - split; [|exact Hk]. cbn [charbuf_back set_charbuf_back].
    unfold CHAR_ROWS, CHAR_COLS.
    rewrite (length_fold_wr (fun x => x + (30 - 1) * 80) (fun _ _ => 32)).
    by rewrite Hlen.
  - intros x y (Hx & Hy). unfold glyph_at. cbn [charbuf_back set_charbuf_back].
    unfold CHAR_COLS, CHAR_ROWS in *.
    destruct (Z.ltb_spec y (30 - 1)) as [Hlt | Hge].
    + rewrite (rd_fold_wr_other (fun x => x + (30 - 1) * 80) (fun _ _ => 32)).
      * rewrite rd_memmove by lia.
        destruct (Z.leb_spec 0 (x + y * 80)); [|lia].
        destruct (Z.ltb_spec (x + y * 80) (0 + (30 - 1) * 80)); [|lia].
        cbn [andb]. f_equal. lia.
      * intros i Hi. apply elem_of_upto in Hi. lia.
    + replace y with (30 - 1) by lia.
      apply (rd_fold_wr_const (fun x => x + (30 - 1) * 80) 32).
      * apply elem_of_upto. lia.
      * rewrite Hlen, Hc. lia.
Qed.

(** The plane stage: every plane moves up by one row of words. *)
Lemma scroll_planes_spec (s : screen_t) :
  screen_ok s ->
  let s' := scroll_planes s in
  screen_ok s' /\ charbuf_back s' = charbuf_back s
  /\ charbuf_front s' = charbuf_front s /\ colourbuf_front s' = colourbuf_front s
  /\ forall w p, 0 <= w < COLOUR_PLANE_SIZE_WORDS - CHAR_COLS / 8 -> 0 <= p < 3 ->
       rd (colourbuf_back s') (w + p * COLOUR_PLANE_SIZE_WORDS)
       = rd (colourbuf_back s) (w + CHAR_COLS / 8 + p * COLOUR_PLANE_SIZE_WORDS).
Proof.
  intros (Hc & Hk). unfold scroll_planes. cbv zeta. cbn [foldl].
  cbn [colourbuf_back set_colourbuf_back charbuf_back charbuf_front colourbuf_front].
  unfold colourbuf_words, COLOUR_PLANE_SIZE_WORDS, COLOUR_PAD_WORDS, CHAR_ROWS, CHAR_COLS in *.
  change (80 / 8) with 10.
  set (a0 := colourbuf_back s) in *.
  set (a1 := memmove a0 (0 * 300) (0 * 300 + 10) ((30 - 1) * 10)).
  set (a2 := memmove a1 (1 * 300) (1 * 300 + 10) ((30 - 1) * 10)).
  assert (H1 : length a1 = length a0) by (apply length_memmove; lia).
  assert (H2 : length a2 = length a0)
    by (unfold a2; rewrite length_memmove; lia).
  split; [|split; [done|split; [done|split; [done|]]]].
  - split; [exact Hc|]. cbn [colourbuf_back set_colourbuf_back].
    unfold colourbuf_words, COLOUR_PLANE_SIZE_WORDS, COLOUR_PAD_WORDS.
    rewrite length_memmove; lia.
  - intros w p Hw Hp.
    assert (Hq : p = 0 \/ p = 1 \/ p = 2) by lia.
    rewrite rd_memmove by lia. unfold a2 at 1 2. rewrite !rd_memmove by lia.
    unfold a1. rewrite !rd_memmove by lia.
    destruct Hq as [-> | [-> | ->]];
      repeat match goal with
             | |- context [?a <=? ?b] => destruct (Z.leb_spec a b); try lia
             | |- context [?a <? ?b] => destruct (Z.ltb_spec a b); try lia
             end;
      cbn [andb]; f_equal; lia.
Qed.

(** The stage that clears the nibbles of the last row leaves the words of
    the other rows alone. *)
Lemma scroll_clear_last_frame (s : screen_t) :
  screen_ok s ->
  let s' := scroll_clear_last s in
  screen_ok s' /\ charbuf_back s' = charbuf_back s
  /\ charbuf_front s' = charbuf_front s /\ colourbuf_front s' = colourbuf_front s.
Proof.
  intros Hok. unfold scroll_clear_last. cbv zeta.
  apply (foldl_preserves (fun s' =>
           screen_ok s' /\ charbuf_back s' = charbuf_back s
           /\ charbuf_front s' = charbuf_front s /\ colourbuf_front s' = colourbuf_front s));
    [done|].
  intros s1 x H1.
  apply (foldl_preserves (fun s' =>
           screen_ok s' /\ charbuf_back s' = charbuf_back s
           /\ charbuf_front s' = charbuf_front s /\ colourbuf_front s' = colourbuf_front s));
    [done|].
  intros s2 p ((Hc & Hk) & Hcb & Hf1 & Hf2).
  split; [|done]. split; [exact Hc|].
  cbn [colourbuf_back set_colourbuf_back]. by rewrite length_wr.
Qed.

Lemma scroll_clear_last_words (s : screen_t) (j : Z) :
  0 <= j ->
  (forall w p, COLOUR_PLANE_SIZE_WORDS - CHAR_COLS / 8 <= w < COLOUR_PLANE_SIZE_WORDS ->
     0 <= p < 3 -> j <> w + p * COLOUR_PLANE_SIZE_WORDS) ->
  rd (colourbuf_back (scroll_clear_last s)) j = rd (colourbuf_back s) j.
Proof.
  intros Hj Hne. unfold scroll_clear_last. cbv zeta.
  apply (foldl_preserves_in (fun s' => rd (colourbuf_back s') j = rd (colourbuf_back s) j));
    [done|].
  intros s1 x Hx H1.
  apply (foldl_preserves_in (fun s' => rd (colourbuf_back s') j = rd (colourbuf_back s) j));
    [done|].
  intros s2 p Hp H2. cbn [colourbuf_back set_colourbuf_back].
  rewrite rd_wr_ne; [exact H2|].
  apply elem_of_upto in Hx.
  assert (Hp3 : 0 <= p < 3).
  { apply elem_of_cons in Hp. destruct Hp as [-> | Hp]; [lia|].
    apply elem_of_cons in Hp. destruct Hp as [-> | Hp]; [lia|].
    apply list_elem_of_singleton in Hp. lia. }
  specialize (Hne ((x + (CHAR_ROWS - 1) * CHAR_COLS) / 8) p).
  unfold COLOUR_PLANE_SIZE_WORDS, CHAR_ROWS, CHAR_COLS in *.
  change (80 / 8) with 10 in Hne.
  assert (Hw : 300 - 10 <= (x + (30 - 1) * 80) / 8 < 300).
  { split; [apply Z.div_le_lower_bound; lia | apply Z.div_lt_upper_bound; lia]. }
  specialize (Hne Hw Hp3). lia.
Qed.

Lemma cell_word_next_row (x y : Z) :
  in_grid x y ->
  (x + (y + 1) * CHAR_COLS) / 8 = (x + y * CHAR_COLS) / 8 + CHAR_COLS / 8
  /\ (x + (y + 1) * CHAR_COLS) mod 8 = (x + y * CHAR_COLS) mod 8.
Proof.
  intros (Hx & Hy). unfold CHAR_COLS in *. change (80 / 8) with 10.
  replace (x + (y + 1) * 80) with (x + y * 80 + 10 * 8) by lia.
  rewrite Z.div_add, Z.mod_add by lia. done.
Qed.

Lemma scroll_paint_last_spec (fg bg : Z) (s : screen_t) :
  screen_ok s ->
  let s' := scroll_paint_last fg bg s in
  screen_ok s' /\ charbuf_back s' = charbuf_back s
  /\ forall x y p, in_grid x y -> 0 <= p < 3 ->
       (y < CHAR_ROWS - 1 -> nibble_at p x y s' = nibble_at p x y s)
       /\ (y = CHAR_ROWS - 1 -> nibble_at p x y s' = packed_nibble p fg bg).
Proof.
  intros Hok. unfold scroll_paint_last.
  destruct (fold_colours (fun x : Z => (x, CHAR_ROWS - 1)) fg bg (upto CHAR_COLS) s Hok)
    as (Hok4 & Hc4 & _ & _ & Hn4).
  { intros i Hi. apply elem_of_upto in Hi. split; cbn [fst snd]; [done|]. unfold CHAR_ROWS. lia. }
  cbv zeta. split; [exact Hok4|]. split; [exact Hc4|].
  intros x y p Hg Hp. destruct (Hn4 x y p Hg Hp) as (Hnone & Hsome). split.
  - intros Hy. apply Hnone. intros i _ Heq. cbv beta in Heq. injection Heq as Hx' Hy'. lia.
  - intros ->. apply (Hsome x); [|reflexivity]. apply elem_of_upto. apply Hg.
Qed.

Lemma scroll_stages_spec (fg bg : Z) (s : screen_t) :
  screen_ok s ->
  let s4 := scroll_paint_last fg bg (scroll_clear_last (scroll_planes (scroll_glyphs s))) in
  screen_ok s4
  /\ (forall x y, in_grid x y ->
      glyph_at x y s4 = if y <? CHAR_ROWS - 1 then glyph_at x (y + 1) s else 32)
  /\ (forall x y p, in_grid x y -> 0 <= p < 3 ->
      nibble_at p x y s4
      = if y <? CHAR_ROWS - 1 then nibble_at p x (y + 1) s else packed_nibble p fg bg).
Proof.
  intros Hok. cbv zeta.
  destruct (scroll_glyphs_spec s Hok) as (Hok1 & Hk1 & _ & _ & Hgl1).
  remember (scroll_glyphs s) as s1 eqn:E1. clear E1.
  destruct (scroll_planes_spec s1 Hok1) as (Hok2 & Hc2 & _ & _ & Hw2).
  remember (scroll_planes s1) as s2 eqn:E2. clear E2.
  destruct (scroll_clear_last_frame s2 Hok2) as (Hok3 & Hc3 & _ & _).
  pose proof (scroll_clear_last_words s2) as Hw3.
  remember (scroll_clear_last s2) as s3 eqn:E3. clear E3.
  destruct (scroll_paint_last_spec fg bg s3 Hok3) as (Hok4 & Hc4 & Hn4).
  remember (scroll_paint_last fg bg s3) as s4 eqn:E4. clear E4.
  split; [exact Hok4|]. split.
  - intros x y Hg. rewrite <- Hgl1 by done. unfold glyph_at. congruence.
  - intros x y p Hg Hp. destruct (Hn4 x y p Hg Hp) as (Hnone & Hsome).
    destruct (Z.ltb_spec y (CHAR_ROWS - 1)) as [Hy | Hy].
    + rewrite Hnone by done.
      unfold nibble_at. cbv zeta.
      destruct (cell_word_next_row x y Hg) as (-> & ->).
      destruct (cell_word_range x y Hg) as (Hw & _).
      assert (Hrow : (x + y * CHAR_COLS) / 8 < COLOUR_PLANE_SIZE_WORDS - CHAR_COLS / 8).
      { destruct Hg as (Hx & _). unfold COLOUR_PLANE_SIZE_WORDS, CHAR_COLS, CHAR_ROWS in *.
        change (80 / 8) with 10. apply Z.div_lt_upper_bound; lia. }
      rewrite Hw3.
      * rewrite Hw2 by lia. by rewrite Hk1.
      * unfold COLOUR_PLANE_SIZE_WORDS in *. lia.
      * intros w q Hwq Hq. unfold COLOUR_PLANE_SIZE_WORDS in *. lia.
    + apply Hsome. destruct Hg as (_ & Hy'). lia.
Qed.

(** X4.  [scroll_up] moves every row up by one: each cell above the last
    row shows the glyph and the colours that the cell below it had, the
    last row holds spaces in the current colours, and the function ends
    with the front arrays equal to the back arrays.  The cursor is not
    moved. *)
Theorem scroll_up_shifts_rows (g : globals) :
  screen_ok (scr g) ->
  let g' := scroll_up g in
  (forall x y, in_grid x y -> y < CHAR_ROWS - 1 ->
     glyph_at x y (scr g') = glyph_at x (y + 1) (scr g)
     /\ get_colour x y (scr g') = get_colour x (y + 1) (scr g))
  /\ (forall x, 0 <= x < CHAR_COLS ->
      glyph_at x (CHAR_ROWS - 1) (scr g') = 32
      /\ get_colour x (CHAR_ROWS - 1) (scr g')
         = ((current_fg (thm g) mod 256) mod 64, (current_bg (thm g) mod 256) mod 64))
  /\ charbuf_front (scr g') = charbuf_back (scr g')
  /\ colourbuf_front (scr g') = colourbuf_back (scr g')
  /\ term g' = term g /\ screen_ok (scr g').
Proof.
  intros Hok. cbv zeta. rewrite scroll_up_scr, scroll_up_term.
  destruct (scroll_stages_spec (current_fg (thm g)) (current_bg (thm g)) (scr g) Hok)
    as (Hok4 & Hgl & Hnb).
  remember (scroll_paint_last (current_fg (thm g)) (current_bg (thm g))
              (scroll_clear_last (scroll_planes (scroll_glyphs (scr g))))) as s4 eqn:E4.
  clear E4.
  destruct (copy_back_to_front_fields s4) as (Hf1 & Hf2 & Hb1 & Hb2).
  split; [|split; [|split; [|split; [|split]]]].
  - intros x y Hg Hy. rewrite glyph_at_copy, get_colour_copy, Hgl by done.
    destruct (Z.ltb_spec y (CHAR_ROWS - 1)); [|lia]. split; [reflexivity|].
    rewrite !get_colour_nibbles, !Hnb by (done || lia).
    destruct (Z.ltb_spec y (CHAR_ROWS - 1)); [reflexivity | lia].
  - intros x Hx.
    assert (Hg : in_grid x (CHAR_ROWS - 1)) by (split; [done | unfold CHAR_ROWS; lia]).
    rewrite glyph_at_copy, get_colour_copy, Hgl by done.
    destruct (Z.ltb_spec (CHAR_ROWS - 1) (CHAR_ROWS - 1)); [lia|].
    split; [reflexivity|].
    rewrite get_colour_nibbles, !Hnb by (done || lia).
    destruct (Z.ltb_spec (CHAR_ROWS - 1) (CHAR_ROWS - 1)); [lia|].
    apply decode_packed.
  - congruence.
  - congruence.
  - reflexivity.
  - by apply screen_ok_copy.
Qed.

Lemma scroll_up_shifts_rows_witness :
  glyph_at 4 28 (scr (scroll_up init_globals)) = glyph_at 4 (28 + 1) (scr init_globals)
  /\ glyph_at 4 (CHAR_ROWS - 1) (scr (scroll_up init_globals)) = 32.
Proof.
  destruct (scroll_up_shifts_rows init_globals) as (Hup & Hlast & _).
  - split; reflexivity.
  - split.
    + assert (Hg : in_grid 4 28) by (unfold in_grid, CHAR_COLS, CHAR_ROWS; lia).
      assert (Hy : 28 < CHAR_ROWS - 1) by (unfold CHAR_ROWS; lia).
      exact (proj1 (Hup 4 28 Hg Hy)).
    + assert (Hx : 0 <= 4 < CHAR_COLS) by (unfold CHAR_COLS; lia).
      exact (proj1 (Hlast 4 Hx)).
Defined.

(** ** Invariants of [handle_char] *)

Lemma line_ending_filter_rest (c : Z) (g : globals) :
  let g' := fst (line_ending_filter c g) in
  ansi g' = ansi g /\ thm g' = thm g /\ swp g' = swp g
  /\ cursor_x (term g') = cursor_x (term g) /\ cursor_y (term g') = cursor_y (term g)
  /\ ansi_mode (term g') = ansi_mode (term g).
Proof.
  unfold line_ending_filter. cbv zeta.
  destruct g as [[x y v e a lf cr sup] sc w k an h m i].
  cbn. destruct sup, lf, cr, (c =? 13), (c =? 10); cbn; repeat split.
Qed.

Lemma handle_normal_ansi (c : Z) (g : globals) : ansi (handle_normal c g) = ansi g.
Proof.
  unfold handle_normal, open_color_menu. cbv zeta.
  split_ifs; autorewrite with frame; try reflexivity.
  - match goal with |- context [draw_color_menu ?t ?p ?g0] =>
      destruct (draw_color_menu_frame t p g0) as (_ & _ & -> & _) end.
    by autorewrite with frame.
  - match goal with |- context [draw_color_menu ?t ?p ?g0] =>
      destruct (draw_color_menu_frame t p g0) as (_ & _ & -> & _) end.
    by autorewrite with frame.
  - match goal with |- context [draw_cursor_menu ?g0] =>
      destruct (draw_cursor_menu_frame g0) as (_ & _ & -> & _) end.
    by autorewrite with frame.
Qed.

Lemma handle_normal_thm (c : Z) (g : globals) : thm (handle_normal c g) = thm g.
Proof.
  unfold handle_normal, open_color_menu. cbv zeta.
  split_ifs; autorewrite with frame; try reflexivity.
  - match goal with |- context [draw_color_menu ?t ?p ?g0] =>
      destruct (draw_color_menu_frame t p g0) as (_ & _ & _ & -> & _) end.
    by autorewrite with frame.
  - match goal with |- context [draw_color_menu ?t ?p ?g0] =>
      destruct (draw_color_menu_frame t p g0) as (_ & _ & _ & -> & _) end.
    by autorewrite with frame.
  - match goal with |- context [draw_cursor_menu ?g0] =>
      destruct (draw_cursor_menu_frame g0) as (_ & _ & _ & -> & _) end.
    by autorewrite with frame.
Qed.

Lemma color_menu_char_ansi set_color set_mode (c : Z) (g : globals) :
  ansi (color_menu_char set_color set_mode c g) = ansi g.
Proof. unfold color_menu_char. cbv zeta. split_ifs; by autorewrite with frame. Qed.

Lemma cursor_menu_char_rest (c : Z) (g : globals) :
  ansi (cursor_menu_char c g) = ansi g
  /\ current_fg (thm (cursor_menu_char c g)) = current_fg (thm g)
  /\ current_bg (thm (cursor_menu_char c g)) = current_bg (thm g).
Proof.
  unfold cursor_menu_char. destruct (cursor_style_of_key c); [|done].
  cbv zeta. by autorewrite with frame.
Qed.

Lemma theme_char_ansi (c : Z) (g : globals) : ansi (theme_char c g) = ansi g.
Proof. unfold theme_char. destruct (theme_of_key c) as [[fg bg]|]; reflexivity. Qed.

Section Invariants.
Context `{LibC}.

(** The paths of [handle_char]: the byte is swallowed by the line-ending
  filter, or one of the six branches of the dispatch handles it, on a
  state that differs from the incoming one in the cursor glyph and the
  line-ending flags only. *)
Lemma handle_char_cases (c : Z) (g : globals) :
exists g',
  (ansi g' = ansi g /\ thm g' = thm g /\ menu g' = menu g)
  /\ (handle_char c g = g'
      \/ handle_char c g = handle_escape c g'
      \/ handle_char c g = color_menu_char set_current_fg set_fg_color_menu_mode c g'
      \/ handle_char c g = color_menu_char set_current_bg set_bg_color_menu_mode c g'
      \/ handle_char c g = cursor_menu_char c g'
      \/ handle_char c g = theme_char c g'
      \/ handle_char c g = safe_request_swap (redraw_cursor (handle_normal c g'))).
Proof.
rewrite handle_char_unfold.
pose proof (line_ending_filter_frame c (prologue g)) as Hfr. cbv zeta in Hfr.
pose proof (line_ending_filter_rest c (prologue g)) as Hre. cbv zeta in Hre.
destruct (line_ending_filter c (prologue g)) as [g' sw]. cbn [fst] in Hfr, Hre.
destruct Hfr as (_ & _ & Hmenu & _). destruct Hre as (Hansi & Hthm & _).
rewrite prologue_menu in Hmenu. rewrite prologue_ansi in Hansi.
rewrite prologue_thm in Hthm.
exists g'. split; [done|].
destruct sw; [by left|]. right. unfold dispatch_char.
destruct (escape_mode (term g')); [by left|]. right.
destruct (fg_color_menu_mode (menu g')); [by left|]. right.
destruct (bg_color_menu_mode (menu g')); [by left|]. right.
destruct (cursor_menu_mode (menu g')); [by left|]. right.
destruct (theme_select_mode (menu g')); [by left|]. by right.
Qed.

Lemma handle_escape_parser_ok (c : Z) (g : globals) :
parser_ok g -> parser_ok (handle_escape c g).
Proof.
intros ((Hbuf & Hpar) & Hlen & Hcnt).
unfold parser_ok, ansi_arrays_ok, handle_escape in *. cbv zeta.
unfold ANSI_BUFFER_SIZE, ANSI_PARAM_MAX in *.
destruct (c =? 91).
{ autorewrite with frame. cbn. lia. }
destruct (ansi_mode (term g)); [|by autorewrite with frame].
destruct (is_digit c).
{ destruct (Z.ltb_spec (ansi_buf_len (ansi g)) (16 - 1)); [|done].
  autorewrite with frame.
  cbn [ansi_buffer ansi_params ansi_buf_len ansi_param_count
       set_ansi_buf_len set_ansi_buffer].
  rewrite length_wr. unfold uint8. rewrite Z.mod_small by lia. lia. }
destruct (c =? 59).
{ autorewrite with frame.
  cbn [ansi_buffer ansi_params ansi_buf_len ansi_param_count terminate_ansi_buffer
       set_ansi_buf_len set_ansi_buffer].
  destruct (Z.ltb_spec (ansi_param_count (ansi g)) 4); autorewrite with frame;
    unfold commit_param;
    cbn [ansi_buffer ansi_params ansi_buf_len ansi_param_count terminate_ansi_buffer
         set_ansi_buf_len set_ansi_buffer set_ansi_params set_ansi_param_count];
    rewrite ?length_wr; unfold uint8; rewrite ?Z.mod_small by lia; lia. }
autorewrite with frame.
match goal with
| |- context [process_ansi_sequence ?p ?n ?f ?g0] =>
  destruct (process_ansi_sequence_frame p n f g0) as (-> & _)
end.
cbn [ansi_buffer ansi_params ansi_buf_len ansi_param_count terminate_ansi_buffer
     set_ansi_buf_len set_ansi_buffer].
destruct (_ && _) eqn:E; autorewrite with frame; unfold commit_param;
  cbn [ansi_buffer ansi_params ansi_buf_len ansi_param_count terminate_ansi_buffer
       set_ansi_buf_len set_ansi_buffer set_ansi_params set_ansi_param_count];
  rewrite ?length_wr; [|lia].
apply andb_prop in E. destruct E as (_ & E). apply Z.ltb_lt in E.
unfold uint8. rewrite Z.mod_small by lia. lia.
Qed.

Lemma handle_char_parser_ok (c : Z) (g : globals) :
parser_ok g -> parser_ok (handle_char c g).
Proof.
intros Hok.
destruct (handle_char_cases c g) as (g' & (Hansi & _ & _) & Hcase).
assert (Hok' : parser_ok g')
  by (unfold parser_ok, ansi_arrays_ok in *; by rewrite Hansi).
assert (Hcarry : forall s, ansi s = ansi g' -> parser_ok s)
  by (intros s Hs; unfold parser_ok, ansi_arrays_ok in *; by rewrite Hs).
destruct Hcase as [-> | [-> | [-> | [-> | [-> | [-> | ->]]]]]].
- exact Hok'.
- by apply handle_escape_parser_ok.
- apply Hcarry, color_menu_char_ansi.
- apply Hcarry, color_menu_char_ansi.
- apply Hcarry, cursor_menu_char_rest.
- apply Hcarry, theme_char_ansi.
- apply Hcarry. autorewrite with frame. apply handle_normal_ansi.
Qed.

(** X5.  The escape-sequence parser never leaves its arrays: whatever
  bytes are fed, [ansi_buf_len] stays below the size of [ansi_buffer]
  (so the digit stored at that index and the NUL written there before
  [atoi] are inside the array) and [ansi_param_count] never exceeds
  [ANSI_PARAM_MAX]; the arrays keep their sizes. *)
Theorem parser_stays_in_bounds (bs : list Z) (g : globals) :
parser_ok g -> parser_ok (feed bs g).
Proof.
revert g. induction bs as [|c bs IH]; intros g Hok; [exact Hok|].
rewrite feed_cons. by apply IH, handle_char_parser_ok.
Qed.
End Invariants.

Lemma parser_stays_in_bounds_witness :
  parser_ok (@feed newlib [27; 91; 49; 50; 59; 51; 72; 65] init_globals).
Proof.
  apply parser_stays_in_bounds.
  split; [split; reflexivity|]. vm_compute. repeat split; discriminate.
Defined.

(** ** The current colours *)

Lemma palette_range (k : Z) : 0 <= k < 8 -> 0 <= rd ansi_colors k < 64.
Proof.
  intros Hk.
  pose proof (upto_forallb (fun k => (0 <=? rd ansi_colors k) && (rd ansi_colors k <? 64)) 8
                ltac:(vm_compute; reflexivity) k Hk) as Hc.
  cbv beta in Hc. apply andb_prop in Hc. lia.
Qed.

Lemma process_ansi_code_ok (param : Z) (h : theme_t) :
  colours_ok h -> colours_ok (process_ansi_code param h).
Proof.
  intros (Hf & Hb). unfold process_ansi_code, colours_ok.
  destruct (param =? 0); [cbn; lia|].
  destruct (Z.geb_spec param 30), (Z.leb_spec param 37), (Z.geb_spec param 40),
    (Z.leb_spec param 47); cbn [andb]; try lia; try done;
    cbn [current_fg current_bg set_current_fg set_current_bg];
    (split; [try done | try done]); apply palette_range; lia.
Qed.

Lemma process_ansi_sequence_colours (params : list Z) (count final : Z) (g : globals) :
  colours_ok (thm g) -> colours_ok (thm (process_ansi_sequence params count final g)).
Proof.
  intros Hok. unfold process_ansi_sequence. cbv zeta.
  split_ifs; autorewrite with frame; try exact Hok.
  apply (foldl_preserves colours_ok); [exact Hok|].
  intros h i Hh. by apply process_ansi_code_ok.
Qed.

Section Colours.
Context `{LibC}.

Lemma handle_escape_colours (c : Z) (g : globals) :
colours_ok (thm g) -> colours_ok (thm (handle_escape c g)).
Proof.
intros Hok. unfold handle_escape. cbv zeta.
split_ifs; autorewrite with frame; try exact Hok.
all: apply process_ansi_sequence_colours; by autorewrite with frame.
Qed.

Lemma color_menu_char_colours (k : color_menu) (c : Z) (g : globals) :
colours_ok (thm g) ->
colours_ok (thm (color_menu_char (menu_set_color k) (menu_set_mode k) c g)).
Proof.
intros (Hf & Hb). unfold color_menu_char. cbv zeta.
destruct (_ && _).
- destruct (_ =? 2); [|by autorewrite with frame].
  autorewrite with frame.
  match goal with |- context [if uint8 ?e <? 64 then _ else _] =>
    pose proof (uint8_range e) as Hr;
    destruct (Z.ltb_spec (uint8 e) 64) as [Hlt | Hge]
  end; autorewrite with frame.
  + destruct k; split; cbn [menu_set_color current_fg current_bg set_current_fg
                             set_current_bg]; (done || lia).
  + by split.
- split_ifs; autorewrite with frame; by split.
Qed.

Lemma theme_char_colours (c : Z) (g : globals) :
colours_ok (thm g) -> colours_ok (thm (theme_char c g)).
Proof.
intros Hok. unfold theme_char, theme_of_key.
split_ifs; try exact Hok; split; cbn; lia.
Qed.

Lemma handle_char_colours (c : Z) (g : globals) :
colours_ok (thm g) -> colours_ok (thm (handle_char c g)).
Proof.
intros Hok.
destruct (handle_char_cases c g) as (g' & (_ & Hthm & _) & Hcase).
rewrite <- Hthm in Hok.
destruct Hcase as [-> | [-> | [-> | [-> | [-> | [-> | ->]]]]]].
- exact Hok.
- by apply handle_escape_colours.
- by apply (color_menu_char_colours FgMenu).
- by apply (color_menu_char_colours BgMenu).
- destruct (cursor_menu_char_rest c g') as (_ & Hf & Hb).
  unfold colours_ok. by rewrite Hf, Hb.
- by apply theme_char_colours.
- autorewrite with frame. by rewrite handle_normal_thm.
Qed.

(** X6.  The current colours stay 6-bit values: the SGR codes take them
  from the palette, the colour menus accept a code below 64 only, and
  the theme presets are in range; no byte sequence ever assigns a
  colour of 64 or more. *)
Theorem colours_stay_6_bit (bs : list Z) (g : globals) :
colours_ok (thm g) -> colours_ok (thm (feed bs g)).
Proof.
revert g. induction bs as [|c bs IH]; intros g Hok; [exact Hok|].
rewrite feed_cons. by apply IH, handle_char_colours.
Qed.
End Colours.

Lemma colours_stay_6_bit_witness :
  colours_ok (thm (@feed newlib [6; 57; 57; 27; 91; 51; 49; 109; 20; 52] init_globals)).
Proof.
  apply colours_stay_6_bit. vm_compute. repeat split; discriminate.
Defined.

(** ** Line endings that start with LF *)

Lemma line_ending_filter_lf (g : globals) :
  skip_next_lf (term g) = false ->
  line_ending_filter 10 g = (on_term clear_line_flags g, false).
Proof.
  unfold line_ending_filter.
  destruct g as [[x y v e a lf cr sup] sc w k an h m i]. cbn.
  intros ->. destruct cr, sup; reflexivity.
Qed.

Lemma line_ending_filter_lf_cr (g : globals) :
  suppress_next_cr (term g) = false -> skip_next_lf (term g) = false ->
  skip_next_cr (term g) = true ->
  line_ending_filter 13 g = (on_term clear_line_flags g, true).
Proof.
  unfold line_ending_filter.
  destruct g as [[x y v e a lf cr sup] sc w k an h m i]. cbn.
  intros -> -> ->. reflexivity.
Qed.

Section LineFeed.
Context `{LibC}.

Lemma handle_char_lf (g : globals) :
in_normal g = true -> skip_next_lf (term g) = false ->
term (handle_char 10 g)
= set_skip_next_cr true
    (set_cursor_y (next_row (cursor_y (term g)))
       (set_cursor_x 0 (clear_line_flags (term g))))
/\ menu (handle_char 10 g) = menu g.
Proof.
intros Hn Hlf. rewrite handle_char_unfold.
rewrite line_ending_filter_lf by (by rewrite prologue_term).
fold (filtered g).
rewrite dispatch_char_normal by (by rewrite filtered_in_normal).
autorewrite with frame.
change (handle_normal 10 (filtered g))
  with (on_term (set_skip_next_cr true) (new_line (filtered g))).
autorewrite with frame. by rewrite filtered_term, filtered_menu.
Qed.
End LineFeed.


(** ** The escape-sequence parser *)

Section Parser.
Context `{LibC}.

(** X8.  The parser cannot get stuck in an escape sequence.  A byte other
  than '[' that follows ESC ends the escape and is dropped: nothing is
  printed and the cursor stays.  Inside a CSI sequence every byte that
  is not a digit, ';' or '[' is a final byte, after which both mode
  flags are clear, whether or not the byte names a known command; '['
  restarts the sequence with no parameters. *)
Theorem escape_sequence_ends (g : globals) (c : Z) :
escape_mode (term g) = true -> line_flags_clear g = true ->
let s := handle_char c g in
(c = 91 ->
 escape_mode (term s) = true /\ ansi_mode (term s) = true
 /\ ansi_buf_len (ansi s) = 0 /\ ansi_param_count (ansi s) = 0)
/\ (c <> 91 -> ansi_mode (term g) = false ->
    escape_mode (term s) = false /\ ansi_mode (term s) = false
    /\ scr s = scr (remove_cursor g)
    /\ cursor_x (term s) = cursor_x (term g) /\ cursor_y (term s) = cursor_y (term g)
    /\ thm s = thm g /\ menu s = menu g)
/\ (c <> 91 -> c <> 59 -> is_digit c = false ->
    escape_mode (term s) = false /\ ansi_mode (term s) = false).
Proof.
intros He Hf. cbv zeta. rewrite handle_char_escape by done.
unfold handle_escape. cbv zeta. rewrite filtered_term. proj.
split; [|split].
- intros ->. cbn [Z.eqb Pos.eqb]. autorewrite with frame.
  rewrite filtered_term. proj. rewrite He. repeat split; reflexivity.
- intros H91 Ha. apply Z.eqb_neq in H91. rewrite H91, Ha.
  autorewrite with frame. rewrite filtered_term, filtered_scr, filtered_thm, filtered_menu.
  proj. rewrite Ha. repeat split; reflexivity.
- intros H91 H59 Hd. apply Z.eqb_neq in H91, H59. rewrite H91, H59, Hd.
  destruct (ansi_mode (term g)) eqn:Ha.
  + autorewrite with frame. proj. split; reflexivity.
  + autorewrite with frame. rewrite filtered_term. proj. rewrite Ha. split; reflexivity.
Qed.
End Parser.

Lemma escape_sequence_ends_witness :
  let g := @feed newlib [27; 91; 49] init_globals in
  let s := @handle_char newlib 90 g in
  escape_mode (term s) = false /\ ansi_mode (term s) = false.
Proof.
  destruct (@escape_sequence_ends newlib (@feed newlib [27; 91; 49] init_globals) 90)
    as (_ & _ & Hend); [reflexivity | reflexivity |].
  apply Hend; [lia | lia | reflexivity].
Defined.

Section Sgr.
Context `{LibC}.

Lemma process_ansi_sequence_m (params : list Z) (count : Z) (g : globals) :
process_ansi_sequence params count 109 g
= on_thm (fun h => foldl (fun h i => process_ansi_code (rd params i) h) h (upto count)) g.
Proof. reflexivity. Qed.

(** ESC [ digits m with at most one parameter. *)
Lemma csi_sgr_one (g : globals) (ds : list Z) :
in_normal g = true -> ansi_arrays_ok g -> all_digits ds -> (length ds <= 15)%nat ->
thm (feed ([27; 91] ++ ds ++ [109]) g)
= if decide (ds = []) then thm g else process_ansi_code (csi_param ds) (thm g).
Proof.
intros Hn Hok Hds Hlen. rewrite feed_app.
destruct (csi_enter g Hn Hok) as (Hc & Hk & _ & _ & Hth & _).
remember (feed [27; 91] g) as s2 eqn:E. clear E.
rewrite feed_app.
destruct (csi_digits ds [] s2 Hc Hds) as (Hc3 & Hr3); [cbn; lia|].
cbn [app] in Hc3. unfold csi_rest in Hr3.
injection Hr3 as _ _ _ Hp3 Hk3 Hth3 _.
remember (feed ds s2) as s3 eqn:E. clear E.
change (feed [109] s3) with (handle_char 109 s3).
assert (Hlenp : length (ansi_params (ansi s3)) = 4%nat)
  by (destruct Hc3 as (_ & _ & _ & _ & _ & _ & _ & _ & Hq); exact Hq).
destruct (csi_final s3 ds 0 109 Hc3) as (G & -> & _ & _ & _ & HthG & _);
  [congruence | unfold ANSI_PARAM_MAX; lia | done | lia | lia |].
autorewrite with frame. rewrite process_ansi_sequence_m. autorewrite with frame.
rewrite HthG, Hth3, Hth.
destruct (decide (ds = [])) as [Hnil | Hne]; [reflexivity|].
change (upto (0 + 1)) with [0]. cbn [foldl].
by rewrite rd_wr_eq by (rewrite Hlenp; lia).
Qed.

Lemma csi_param_two_digits (a b : Z) :
0 <= a <= 9 -> 0 <= b <= 9 -> csi_param [48 + a; 48 + b] = 10 * a + b.
Proof.
intros Ha Hb. unfold csi_param.
rewrite atoi_in_range.
- unfold decimal. cbn [foldl]. unfold uint8. rewrite Z.mod_small; lia.
- repeat constructor; unfold is_digit; lia.
- unfold decimal, INT_MAX. cbn [foldl]. lia.
Qed.

(** X9.  SGR colours.  From normal mode, ESC [ 3k m sets the foreground
  to entry [k] of the eight-colour palette and leaves the background;
  ESC [ 4k m does the same for the background; ESC [ 0 m resets to
  white on black; a parameter outside these ranges changes nothing, and
  ESC [ m without a parameter changes nothing either. *)
Theorem sgr_sets_colours (g : globals) (a b : Z) :
in_normal g = true -> ansi_arrays_ok g -> 0 <= a <= 9 -> 0 <= b <= 9 ->
let h := thm (feed [27; 91; 48 + a; 48 + b; 109] g) in
(a = 3 -> b <= 7 -> h = set_current_fg (rd ansi_colors b) (thm g))
/\ (a = 4 -> b <= 7 -> h = set_current_bg (rd ansi_colors b) (thm g))
/\ (a = 0 -> b = 0 -> h = set_current_bg 0 (set_current_fg 63 (thm g)))
/\ (10 * a + b <> 0 -> ~ 30 <= 10 * a + b <= 37 -> ~ 40 <= 10 * a + b <= 47 ->
    h = thm g)
/\ thm (feed [27; 91; 48; 109] g) = set_current_bg 0 (set_current_fg 63 (thm g))
/\ thm (feed [27; 91; 109] g) = thm g.
Proof.
intros Hn Hok Ha Hb. cbv zeta.
pose proof (csi_sgr_one g [48 + a; 48 + b] Hn Hok) as H2.
rewrite decide_False, csi_param_two_digits in H2 by done.
change ([27; 91] ++ [48 + a; 48 + b] ++ [109]) with [27; 91; 48 + a; 48 + b; 109] in H2.
rewrite H2 by (repeat constructor; (unfold is_digit; lia) || (cbn; lia)).
pose proof (csi_sgr_one g [48] Hn Hok) as H1.
rewrite decide_False in H1 by done.
change ([27; 91] ++ [48] ++ [109]) with [27; 91; 48; 109] in H1.
rewrite H1 by (repeat constructor; cbn; lia).
pose proof (csi_sgr_one g [] Hn Hok) as H0.
rewrite decide_True in H0 by done.
change ([27; 91] ++ [] ++ [109]) with [27; 91; 109] in H0.
rewrite H0 by (repeat constructor; cbn; lia).
unfold process_ansi_code.
split; [|split; [|split; [|split; [|split]]]].
- intros -> Hb7.
  destruct (Z.eqb_spec (10 * 3 + b) 0); [lia|].
  destruct (Z.geb_spec (10 * 3 + b) 30); [|lia].
  destruct (Z.leb_spec (10 * 3 + b) 37); [|lia].
  cbn [andb]. do 2 f_equal. lia.
- intros -> Hb7.
  destruct (Z.eqb_spec (10 * 4 + b) 0); [lia|].
  destruct (Z.geb_spec (10 * 4 + b) 30); [|lia].
  destruct (Z.leb_spec (10 * 4 + b) 37); [lia|].
  destruct (Z.geb_spec (10 * 4 + b) 40); [|lia].
  destruct (Z.leb_spec (10 * 4 + b) 47); [|lia].
  cbn [andb]. do 2 f_equal. lia.
- intros -> ->. reflexivity.
- intros H0' H3 H4.
  destruct (Z.eqb_spec (10 * a + b) 0); [lia|].
  destruct (Z.geb_spec (10 * a + b) 30), (Z.leb_spec (10 * a + b) 37),
    (Z.geb_spec (10 * a + b) 40), (Z.leb_spec (10 * a + b) 47);
    cbn [andb]; (reflexivity || lia).
- unfold csi_param. rewrite atoi_in_range; [reflexivity | repeat constructor | done].
- reflexivity.
Qed.
End Sgr.

Lemma sgr_sets_colours_witness :
  thm (@feed newlib [27; 91; 48 + 3; 48 + 1; 109] init_globals)
  = set_current_fg (rd ansi_colors 1) (thm init_globals).
Proof.
  destruct (@sgr_sets_colours newlib init_globals 3 1) as (Hfg & _);
    [reflexivity | split; reflexivity | lia | lia |].
  apply Hfg; [reflexivity | lia].
Defined.

Section SaveRestore.
Context `{LibC}.

(** The final byte of a CSI sequence, with the whole state on which the
  sequence is dispatched. *)
Lemma csi_final_state (g : globals) (ds : list Z) (k c : Z) :
csi_collecting g ds -> ansi_param_count (ansi g) = k -> 0 <= k < ANSI_PARAM_MAX ->
is_digit c = false -> c <> 59 -> c <> 91 ->
let params := if decide (ds = []) then ansi_params (ansi g)
              else wr (ansi_params (ansi g)) k (csi_param ds) in
let count := if decide (ds = []) then k else k + 1 in
exists G,
  handle_char c g
  = on_term (fun t => set_ansi_mode false (set_escape_mode false t))
      (process_ansi_sequence params count c G)
  /\ term G = clear_line_flags (term g)
  /\ thm G = thm g /\ menu G = menu g
  /\ scr G = scr (filtered g) /\ cur G = cur (filtered g) /\ swp G = swp (filtered g).
Proof.
intros Hc Hk Hkr Hnd H59 H91. cbv zeta.
pose proof (csi_atoi g ds Hc) as Hatoi.
destruct Hc as (He & Ha & Hf & Hlen & Htake & Hle & Hds & Hbuf & Hpar).
rewrite handle_char_escape by done.
unfold handle_escape. cbv zeta.
apply Z.eqb_neq in H59, H91. rewrite H91, H59, Hnd.
rewrite filtered_term. proj. rewrite Ha.
autorewrite with frame. rewrite filtered_ansi.
change (ansi_buf_len (terminate_ansi_buffer (ansi g))) with (ansi_buf_len (ansi g)).
change (ansi_param_count (terminate_ansi_buffer (ansi g)))
  with (ansi_param_count (ansi g)).
rewrite Hlen, Hk.
match goal with |- context [?x <? ANSI_PARAM_MAX] =>
  replace (x <? ANSI_PARAM_MAX) with true
    by (symmetry; apply Z.ltb_lt; unfold ANSI_PARAM_MAX in *; lia) end.
rewrite andb_true_r.
destruct (decide (ds = [])) as [-> | Hne].
- destruct (Z.of_nat (length (@nil Z)) >? 0) eqn:E; [discriminate E|].
  autorewrite with frame. rewrite filtered_ansi.
  change (ansi_params (terminate_ansi_buffer (ansi g))) with (ansi_params (ansi g)).
  change (ansi_param_count (terminate_ansi_buffer (ansi g)))
    with (ansi_param_count (ansi g)).
  rewrite Hk.
  eexists. split; [reflexivity|].
  autorewrite with frame.
  rewrite filtered_term, filtered_thm, filtered_menu.
  repeat split; try done.
- destruct (Z.gtb_spec (Z.of_nat (length ds)) 0) as [Hpos|Hz];
    [| exfalso; destruct ds; [done | cbn [length] in Hz; lia]].
  autorewrite with frame. rewrite filtered_ansi.
  unfold commit_param. rewrite Hatoi. fold (csi_param ds).
  cbn [ansi_params ansi_param_count set_ansi_params set_ansi_param_count
       terminate_ansi_buffer set_ansi_buffer].
  rewrite Hk.
  replace (uint8 (k + 1)) with (k + 1)
    by (unfold uint8, ANSI_PARAM_MAX in *; symmetry; apply Z.mod_small; lia).
  eexists. split; [reflexivity|].
  autorewrite with frame.
  rewrite filtered_term, filtered_thm, filtered_menu.
  repeat split; try done.
Qed.

Lemma filtered_saved (g : globals) :
saved_cursor_x (cur (filtered g)) = saved_cursor_x (cur g)
/\ saved_cursor_y (cur (filtered g)) = saved_cursor_y (cur g).
Proof. unfold filtered. autorewrite with frame. apply prologue_saved. Qed.

Lemma csi_enter_saved (g : globals) :
in_normal g = true ->
saved_cursor_x (cur (feed [27; 91] g)) = saved_cursor_x (cur g)
/\ saved_cursor_y (cur (feed [27; 91] g)) = saved_cursor_y (cur g).
Proof.
intros Hn. rewrite !feed_cons. change (feed [] ?x) with x.
assert (H1 : (saved_cursor_x (cur (handle_char 27 g)) = saved_cursor_x (cur g)
              /\ saved_cursor_y (cur (handle_char 27 g)) = saved_cursor_y (cur g))
             /\ escape_mode (term (handle_char 27 g)) = true
             /\ line_flags_clear (handle_char 27 g) = true).
{ rewrite handle_char_pass by lia.
  rewrite dispatch_char_normal by (by rewrite filtered_in_normal).
  rewrite handle_normal_esc. unfold line_flags_clear. autorewrite with frame.
  rewrite filtered_term. proj. split; [|done].
  destruct (redraw_cursor_saved (on_term (set_escape_mode true) (filtered g))) as (-> & ->).
  autorewrite with frame. apply filtered_saved. }
destruct H1 as ((Hx & Hy) & He & Hf).
remember (handle_char 27 g) as s1 eqn:E. clear E.
rewrite handle_char_escape by done. rewrite handle_escape_bracket.
autorewrite with frame. rewrite <- Hx, <- Hy. apply filtered_saved.
Qed.

(** X10.  Saving and restoring the cursor.  ESC [ s stores the cursor
  position and does not move the cursor.  ESC [ u puts the cursor on
  the stored position, whatever state it is issued in, unless one of
  the stored coordinates is -1, in which case the cursor stays. *)
Theorem cursor_save_restore (g g2 : globals) :
in_normal g = true -> ansi_arrays_ok g ->
in_normal g2 = true -> ansi_arrays_ok g2 ->
let s := feed [27; 91; 115] g in
let r := feed [27; 91; 117] g2 in
saved_cursor_x (cur s) = cursor_x (term g)
/\ saved_cursor_y (cur s) = cursor_y (term g)
/\ cursor_x (term s) = cursor_x (term g) /\ cursor_y (term s) = cursor_y (term g)
/\ (saved_cursor_x (cur g2) <> -1 -> saved_cursor_y (cur g2) <> -1 ->
    cursor_x (term r) = saved_cursor_x (cur g2) mod 65536
    /\ cursor_y (term r) = saved_cursor_y (cur g2) mod 65536)
/\ (saved_cursor_x (cur g2) = -1 \/ saved_cursor_y (cur g2) = -1 ->
    cursor_x (term r) = cursor_x (term g2) /\ cursor_y (term r) = cursor_y (term g2)).
Proof.
intros Hn Hok Hn2 Hok2. cbv zeta.
change [27; 91; 115] with ([27; 91] ++ [115]).
change [27; 91; 117] with ([27; 91] ++ [117]).
rewrite !feed_app.
destruct (csi_enter g Hn Hok) as (Hc & Hk & Hx & Hy & _).
destruct (csi_enter g2 Hn2 Hok2) as (Hc2 & Hk2 & Hx2 & Hy2 & _).
destruct (csi_enter_saved g2 Hn2) as (Hs2x & Hs2y).
remember (feed [27; 91] g) as e eqn:E. clear E.
remember (feed [27; 91] g2) as e2 eqn:E. clear E.
change (feed [115] e) with (handle_char 115 e).
change (feed [117] e2) with (handle_char 117 e2).
destruct (csi_final_state e [] 0 115 Hc Hk) as (G & -> & Ht & _ & _ & _ & _ & _);
  [unfold ANSI_PARAM_MAX; lia | done | lia | lia |].
destruct (csi_final_state e2 [] 0 117 Hc2 Hk2) as (G2 & -> & Ht2 & _ & _ & _ & Hcur2 & _);
  [unfold ANSI_PARAM_MAX; lia | done | lia | lia |].
assert (Hsx : saved_cursor_x (cur G2) = saved_cursor_x (cur e2)
              /\ saved_cursor_y (cur G2) = saved_cursor_y (cur e2))
  by (rewrite Hcur2; apply filtered_saved).
destruct Hsx as (Hsx & Hsy).
unfold process_ansi_sequence. cbn [Z.eqb Pos.eqb]. cbv zeta.
autorewrite with frame. rewrite Ht. proj.
cbn [saved_cursor_x saved_cursor_y set_saved_cursor_x set_saved_cursor_y].
do 4 (split; [congruence|]).
rewrite Hsx, Hsy, Hs2x, Hs2y. split.
- intros Hx1 Hy1. apply Z.eqb_neq in Hx1, Hy1. rewrite Hx1, Hy1. cbn [negb andb].
  autorewrite with frame. proj. unfold uint16. done.
- intros [Hm | Hm]; rewrite Hm; cbn [Z.eqb Pos.eqb negb andb]; rewrite ?andb_false_r;
    autorewrite with frame; rewrite Ht2; proj; done.
Qed.
End SaveRestore.

Lemma cursor_save_restore_witness :
  let g := @feed newlib [65; 66; 67] init_globals in
  let s := @feed newlib [27; 91; 115] g in
  let r := @feed newlib [27; 91; 117] (@feed newlib [27; 91; 72; 88] s) in
  saved_cursor_x (cur s) = cursor_x (term g)
  /\ cursor_x (term r) = cursor_x (term g) /\ cursor_y (term r) = cursor_y (term g).
Proof.
  destruct (@cursor_save_restore newlib (@feed newlib [65; 66; 67] init_globals)
              (@feed newlib [27; 91; 72; 88]
                 (@feed newlib [27; 91; 115] (@feed newlib [65; 66; 67] init_globals))))
    as (Hs & _ & _ & _ & Hr & _);
    [reflexivity | split; reflexivity | reflexivity | split; reflexivity |].
  split; [exact Hs|].
  destruct Hr as (Hx & Hy); [vm_compute; discriminate | vm_compute; discriminate |].
  split; [rewrite Hx | rewrite Hy]; vm_compute; reflexivity.
Defined.

Section Overlong.
Context `{LibC}.

(** A digit that arrives when the buffer holds 15 digits is ignored. *)
Lemma csi_digit_full (g : globals) (ds : list Z) (d : Z) :
csi_collecting g ds -> is_digit d = true -> length ds = 15%nat ->
csi_collecting (handle_char d g) ds
/\ csi_rest (handle_char d g) = csi_rest g.
Proof.
intros (He & Ha & Hf & Hlen & Htake & Hle & Hds & Hbuf & Hpar) Hd H15.
rewrite handle_char_escape by done.
pose proof (is_digit_range d Hd) as Hr.
unfold handle_escape.
replace (d =? 91) with false by (symmetry; apply Z.eqb_neq; lia).
rewrite filtered_term, filtered_ansi. proj. rewrite Ha, Hd, Hlen, H15.
change (Z.of_nat 15 <? ANSI_BUFFER_SIZE - 1) with false. cbv iota.
unfold csi_collecting, csi_rest, ansi_arrays_ok, line_flags_clear.
rewrite filtered_term, filtered_ansi, filtered_thm, filtered_menu.
proj. rewrite He, Ha, Hlen, H15.
repeat split; try done. by rewrite <- H15.
Qed.

Lemma csi_digits_full (es ds : list Z) (g : globals) :
csi_collecting g ds -> length ds = 15%nat -> all_digits es ->
csi_collecting (feed es g) ds /\ csi_rest (feed es g) = csi_rest g.
Proof.
revert g. induction es as [|d es IH]; intros g Hc H15 Hes; [done|].
inversion Hes as [|? ? Hd Hes']; subst.
destruct (csi_digit_full g ds d Hc Hd H15) as (Hc1 & Hr1).
rewrite feed_cons. destruct (IH _ Hc1 H15 Hes') as (Hc2 & Hr2).
split; [exact Hc2 | congruence].
Qed.

(** A semicolon that arrives when four parameters are committed commits
  nothing. *)
Lemma csi_semicolon_full (g : globals) (ds : list Z) :
csi_collecting g ds -> ansi_param_count (ansi g) = ANSI_PARAM_MAX ->
let s := handle_char 59 g in
csi_collecting s []
/\ ansi_param_count (ansi s) = ANSI_PARAM_MAX
/\ ansi_params (ansi s) = ansi_params (ansi g).
Proof.
intros Hc Hk. cbv zeta.
destruct Hc as (He & Ha & Hf & Hlen & Htake & Hle & Hds & Hbuf & Hpar).
rewrite handle_char_escape by done.
unfold handle_escape. cbn [Z.eqb Pos.eqb is_digit Z.leb Z.compare Pos.compare
  Pos.compare_cont andb].
rewrite filtered_term. proj. rewrite Ha.
autorewrite with frame. rewrite filtered_ansi.
change (ansi_param_count (terminate_ansi_buffer (ansi g)))
  with (ansi_param_count (ansi g)).
rewrite Hk. change (ANSI_PARAM_MAX <? ANSI_PARAM_MAX) with false. cbv iota.
unfold csi_collecting, ansi_arrays_ok, line_flags_clear.
autorewrite with frame.
rewrite filtered_term, filtered_ansi.
proj. rewrite He, Ha.
cbn [ansi_buf_len ansi_buffer ansi_params ansi_param_count set_ansi_buf_len
     set_ansi_buffer set_ansi_params set_ansi_param_count terminate_ansi_buffer].
unfold wr. rewrite !length_insert.
repeat split; try done.
- cbn. lia.
- constructor.
Qed.

(** X11.  Overlong sequences are cut, not wrapped.  A parameter written
  with more than 15 digits is committed as the value of its first 15
  digits, the further digits being ignored; and once four parameters
  are committed, a further parameter closed by ';' is dropped: the
  stored parameters and their count stay as they are. *)
Theorem csi_overlong_input_is_cut (g s : globals) (ds es d5 : list Z) :
in_normal g = true -> ansi_arrays_ok g ->
all_digits ds -> length ds = 15%nat -> all_digits es ->
csi_collecting s d5 -> ansi_param_count (ansi s) = ANSI_PARAM_MAX ->
rd (ansi_params (ansi (feed ([27; 91] ++ ds ++ es ++ [59]) g))) 0 = csi_param ds
/\ ansi_param_count (ansi (feed ([27; 91] ++ ds ++ es ++ [59]) g)) = 1
/\ ansi_params (ansi (handle_char 59 s)) = ansi_params (ansi s)
/\ ansi_param_count (ansi (handle_char 59 s)) = ANSI_PARAM_MAX
/\ ansi_buf_len (ansi (handle_char 59 s)) = 0.
Proof.
intros Hn Hok Hds H15 Hes Hcs Hks.
destruct (csi_semicolon_full s d5 Hcs Hks) as (Hc' & Hk' & Hp').
split; [|split; [|split; [exact Hp' | split; [exact Hk'|]]]].
3: { destruct Hc' as (_ & _ & _ & Hl & _). exact Hl. }
all: rewrite !app_assoc, feed_app, feed_app;
  destruct (csi_first_param g ds Hn Hok Hds) as (Hc & Hk & _); [lia|];
  remember (feed ([27; 91] ++ ds) g) as s3 eqn:E; clear E;
  destruct (csi_digits_full es ds s3 Hc H15 Hes) as (Hc4 & Hr4);
  unfold csi_rest in Hr4; injection Hr4 as _ _ _ Hp4 Hk4 _ _;
  remember (feed es s3) as s4 eqn:E; clear E;
  change (feed [59] s4) with (handle_char 59 s4);
  destruct (csi_semicolon s4 ds 0 Hc4) as (_ & Hk5 & Hp5 & _);
    [congruence | unfold ANSI_PARAM_MAX; lia |].
- rewrite Hp5. apply rd_wr_eq.
  destruct Hc4 as (_ & _ & _ & _ & _ & _ & _ & _ & Hq). rewrite Hq.
  unfold ANSI_PARAM_MAX. lia.
- exact Hk5.
Qed.
End Overlong.

Lemma csi_overlong_input_is_cut_witness :
  let ds := [49; 50; 51; 52; 53; 54; 55; 56; 57; 48; 49; 50; 51; 52; 53] in
  rd (ansi_params (ansi (@feed newlib ([27; 91] ++ ds ++ [54; 55] ++ [59]) init_globals))) 0
  = @csi_param newlib ds.
Proof.
  cbv zeta.
  destruct (@csi_overlong_input_is_cut newlib init_globals
              (@feed newlib [27; 91; 49; 59; 50; 59; 51; 59; 52; 59; 53] init_globals)
              [49; 50; 51; 52; 53; 54; 55; 56; 57; 48; 49; 50; 51; 52; 53] [54; 55] [53])
    as (Hp & _).
  - reflexivity.
  - split; reflexivity.
  - repeat constructor.
  - reflexivity.
  - repeat constructor.
  - unfold csi_collecting, line_flags_clear, ansi_arrays_ok.
    repeat split; try (vm_compute; reflexivity); try (cbn; lia); repeat constructor.
  - vm_compute. reflexivity.
  - exact Hp.
Defined.

(** ** The queue over several rounds *)

Section Rounds.
Context {A : Type} (handle : Z -> A -> A).

Lemma process_uart_byte_flag (q : uart_queue) (a : A) :
uart_overflow q = false ->
uart_overflow (fst (process_uart_byte handle (q, a))) = false.
Proof.
intros Hf. unfold process_uart_byte. cbv zeta. cbn [uart_overflow].
rewrite Hf. reflexivity.
Qed.

Lemma process_uart_loop_flag (fuel : nat) (q q' : uart_queue) (a a' : A) :
queue_ok q -> uart_overflow q = false ->
process_uart_loop handle fuel (q, a) = Some (q', a') ->
queue_ok q' /\ uart_overflow q' = false.
Proof.
revert q a. induction fuel as [|fuel IH]; intros q a Hok Hf; cbn [process_uart_loop fst].
- destruct (uart_tail q =? uart_head q); [|discriminate].
  intros [= <- <-]. done.
- destruct (Z.eqb_spec (uart_tail q) (uart_head q)) as [Hempty | Hne].
  + intros [= <- <-]. done.
  + destruct (process_uart_byte_pending handle q a Hok Hne) as (Hok' & _).
    pose proof (process_uart_byte_flag q a Hf) as Hf'.
    destruct (process_uart_byte handle (q, a)) as [q1 a1]. cbn [fst] in *.
    by apply IH.
Qed.
End Rounds.

(** X12.  No byte is lost while the consumer keeps up.  Starting from an
    empty queue with the overflow flag clear, let bursts of at most
    [UART_BUFFER_SIZE - 1] bytes arrive, each followed by a run of
    [process_uart_buffer]: the consumer receives all bytes of all bursts,
    in order and once each, every run ends with the queue empty, and the
    overflow flag is never raised. *)
Theorem rounds_deliver_every_byte (bursts : list (list Z)) (q : uart_queue) (got : list Z) :
  queue_ok q -> uart_head q = uart_tail q -> uart_overflow q = false ->
  Forall (fun bs => Forall (fun b => 0 <= b < 256) bs
                    /\ Z.of_nat (length bs) <= UART_BUFFER_SIZE - 1) bursts ->
  exists q',
    uart_rounds collect bursts (Some (q, got)) = Some (q', got ++ concat bursts)
    /\ uart_tail q' = uart_head q' /\ uart_overflow q' = false /\ queue_ok q'.
Proof.
  revert q got. induction bursts as [|bs bursts IH]; intros q got Hok Hempty Hf Hall.
  - exists q. cbn. by rewrite app_nil_r.
  - inversion Hall as [|? ? (Hbytes & Hlen) Hall']; subst.
    unfold uart_rounds. cbn [foldl uart_round].
    destruct (pending_empty q Hok Hempty) as (Hp & Hl).
    destruct (on_uart_rx_pending bs q Hok) as (Hok1 & Hp1 & Ho1).
    rewrite Hl, Z.sub_0_r, Hp, Hf in *. cbn [app orb] in *.
    rewrite take_ge in Hp1 by lia.
    rewrite map_uint8_bytes in Hp1 by done.
    rewrite bool_decide_eq_false_2 in Ho1 by lia.
    destruct (process_uart_buffer_drains collect (on_uart_rx bs q) got Hok1)
      as (q2 & Hrun & Ht).
    rewrite Hrun, Hp1, foldl_collect.
    destruct (process_uart_loop_flag collect _ _ _ _ _ Hok1 Ho1 Hrun) as (Hok2 & Hf2).
    destruct (IH q2 (got ++ bs) Hok2 (eq_sym Ht) Hf2 Hall') as (q' & Hr & Ht' & Hf' & Hok').
    exists q'. unfold uart_rounds in Hr. rewrite Hr. cbn [concat].
    by rewrite app_assoc.
Qed.

Lemma rounds_deliver_every_byte_witness :
  exists q',
    uart_rounds collect [[72; 73]; []; [13; 10; 65]] (Some (uart_init, []))
    = Some (q', [] ++ concat [[72; 73]; []; [13; 10; 65]])
    /\ uart_tail q' = uart_head q' /\ uart_overflow q' = false /\ queue_ok q'.
Proof.
  apply rounds_deliver_every_byte.
  - repeat split; vm_compute; (reflexivity || discriminate).
  - reflexivity.
  - reflexivity.
  - repeat constructor; (lia || (unfold UART_BUFFER_SIZE; cbn; lia)).
Defined.

(** ** Debug injection *)

Lemma inject_step_is_rx (q : uart_queue) (c : Z) :
  queue_ok q -> uart_level q < UART_BUFFER_SIZE - 1 ->
  mk_queue (wr (uart_buffer q) (uart_head q) (uint8 c))
    (uint16 ((uart_head q + 1) mod UART_BUFFER_SIZE)) (uart_tail q) (uart_overflow q)
  = uart_rx_byte q c.
Proof.
  intros (Hlen & Hh & Ht) Hroom. unfold uart_rx_byte.
  destruct (Z.eqb_spec (uint16 ((uart_head q + 1) mod UART_BUFFER_SIZE)) (uart_tail q))
    as [Heq | Hne]; [exfalso; ring_arith | reflexivity].
Qed.

Lemma inject_with_room (msg : list Z) (q : uart_queue) :
  queue_ok q -> Forall (fun c => 0 < c < 256) msg ->
  uart_level q + Z.of_nat (length msg) <= UART_BUFFER_SIZE - 1 ->
  queue_ok (inject_debug_to_uart msg q)
  /\ pending (inject_debug_to_uart msg q) = pending q ++ msg
  /\ uart_overflow (inject_debug_to_uart msg q) = uart_overflow q.
Proof.
  revert q. induction msg as [|c msg IH]; intros q Hok Hmsg Hroom.
  - cbn. by rewrite app_nil_r.
  - inversion Hmsg as [|? ? Hc Hmsg']; subst. cbn [length] in Hroom.
    cbn [inject_debug_to_uart].
    destruct (Z.eqb_spec c 0) as [-> | _]; [lia|].
    rewrite inject_step_is_rx by (done || lia).
    destruct (uart_rx_byte_room q c Hok ltac:(lia)) as (Hok1 & Hp1 & Hl1 & Ho1).
    destruct (IH _ Hok1 Hmsg' ltac:(lia)) as (Hok2 & Hp2 & Ho2).
    split; [exact Hok2|]. split; [|congruence].
    rewrite Hp2, Hp1, <- app_assoc. cbn [app]. do 2 f_equal.
    unfold uint8. apply Z.mod_small. lia.
Qed.

Lemma inject_head (msg : list Z) (q : uart_queue) :
  0 <= uart_head q < UART_BUFFER_SIZE -> Forall (fun c => c <> 0) msg ->
  uart_head (inject_debug_to_uart msg q)
  = (uart_head q + Z.of_nat (length msg)) mod UART_BUFFER_SIZE
  /\ uart_tail (inject_debug_to_uart msg q) = uart_tail q
  /\ uart_overflow (inject_debug_to_uart msg q) = uart_overflow q
  /\ length (uart_buffer (inject_debug_to_uart msg q)) = length (uart_buffer q).
Proof.
  revert q. induction msg as [|c msg IH]; intros q Hh Hmsg.
  - cbn. rewrite Z.add_0_r, Z.mod_small by done. done.
  - inversion Hmsg as [|? ? Hc Hmsg']; subst. cbn [inject_debug_to_uart].
    destruct (Z.eqb_spec c 0) as [-> | _]; [done|].
    destruct (IH (mk_queue (wr (uart_buffer q) (uart_head q) (uint8 c))
                    (uint16 ((uart_head q + 1) mod UART_BUFFER_SIZE))
                    (uart_tail q) (uart_overflow q))) as (Hh' & Ht' & Ho' & Hl');
      [cbn [uart_head]; ring_arith | done |].
    cbn [uart_head uart_tail uart_overflow uart_buffer] in *.
    rewrite Hh', Ht', Ho', Hl', length_wr. split; [|done].
    cbn [length]. unfold uint16, UART_BUFFER_SIZE in *.
    rewrite (Z.mod_small ((uart_head q + 1) mod 512)) by (Z.div_mod_to_equations; lia).
    rewrite Z.add_mod_idemp_l by lia. f_equal. lia.
Qed.

(** X13.  [inject_debug_to_uart] appends the bytes of its message up to the
    first NUL to the queue, like received bytes, as long as they fit.
    It makes no test for a full queue: a message that fills the free
    room and one slot more brings the head index back onto the tail, so
    the queue then counts as empty and every byte that was waiting is
    lost, with the overflow flag as it was. *)
Theorem inject_has_no_full_check (msg rest : list Z) (q : uart_queue) :
  queue_ok q -> Forall (fun c => 0 < c < 256) msg ->
  inject_debug_to_uart (msg ++ 0 :: rest) q = inject_debug_to_uart msg q
  /\ (uart_level q + Z.of_nat (length msg) <= UART_BUFFER_SIZE - 1 ->
      pending (inject_debug_to_uart msg q) = pending q ++ msg
      /\ uart_overflow (inject_debug_to_uart msg q) = uart_overflow q)
  /\ (uart_level q + Z.of_nat (length msg) = UART_BUFFER_SIZE ->
      pending (inject_debug_to_uart msg q) = []
      /\ uart_overflow (inject_debug_to_uart msg q) = uart_overflow q).
Proof.
  intros Hok Hmsg. split; [|split].
  - clear Hok. revert q. induction Hmsg as [|c msg Hc _ IH]; intros q.
    + reflexivity.
    + cbn [app inject_debug_to_uart].
      destruct (Z.eqb_spec c 0); [lia|]. apply IH.
  - intros Hroom. by destruct (inject_with_room msg q Hok Hmsg Hroom) as (_ & ? & ?).
  - intros Hfull. destruct Hok as (Hlen & Hh & Ht).
    destruct (inject_head msg q Hh) as (Hh' & Ht' & Ho' & Hl').
    { eapply Forall_impl; [|exact Hmsg]. cbn. lia. }
    split; [|exact Ho'].
    apply pending_empty.
    + split; [by rewrite Hl'|]. rewrite Hh', Ht'. split; [|done].
      unfold UART_BUFFER_SIZE. apply Z.mod_pos_bound. lia.
    + rewrite Hh', Ht'. ring_arith.
Qed.

Lemma inject_has_no_full_check_witness :
  let q := on_uart_rx [72; 73] uart_init in
  pending q = [72; 73]
  /\ pending (inject_debug_to_uart (replicate 510 65) q) = [].
Proof.
  split; [vm_compute; reflexivity|].
  destruct (inject_has_no_full_check (replicate 510 65) [] (on_uart_rx [72; 73] uart_init))
    as (_ & _ & Hfull).
  - repeat split; vm_compute; (reflexivity || discriminate).
  - apply Forall_replicate. lia.
  - apply Hfull. vm_compute. reflexivity.
Defined.

(** ** Font table and scan-out *)

Lemma reverse_byte_check_all (b : Z) : 0 <= b < 256 -> reverse_byte_check b = true.
Proof.
  intros Hb.
  exact (upto_forallb reverse_byte_check 256 ltac:(vm_compute; reflexivity) b Hb).
Qed.

Lemma reverse_byte_uint8 (b : Z) : reverse_byte (uint8 b) = reverse_byte b.
Proof. unfold reverse_byte. by rewrite uint8_idem. Qed.

(** X14.  [reverse_byte] mirrors the eight bits of its argument, taken as
    a byte: bit [i] of the result is bit [7 - i] of the argument, the
    result is a byte, and mirroring twice gives the byte back. *)
Theorem reverse_byte_mirrors (b i : Z) :
  0 <= i < 8 ->
  Z.testbit (reverse_byte b) i = Z.testbit (b mod 256) (7 - i)
  /\ 0 <= reverse_byte b < 256
  /\ reverse_byte (reverse_byte b) = b mod 256.
Proof.
  intros Hi. rewrite <- reverse_byte_uint8. fold (uint8 b).
  pose proof (reverse_byte_check_all (uint8 b) (uint8_range b)) as Hc.
  unfold reverse_byte_check in Hc.
  do 3 (apply andb_prop in Hc; destruct Hc as [Hc ?]).
  split; [|split; [lia|lia]].
  apply eqb_prop. exact (upto_forallb _ 8 Hc i Hi).
Qed.

Lemma reverse_byte_mirrors_witness :
  Z.testbit (reverse_byte 1) 7 = Z.testbit (1 mod 256) (7 - 7)
  /\ 0 <= reverse_byte 1 < 256
  /\ reverse_byte (reverse_byte 1) = 1 mod 256.
Proof. apply reverse_byte_mirrors. lia. Defined.

Lemma rd_fold_wr_last {A : Type} (idx val : A -> Z) (l : list A) (a : list Z) (i : A) :
  i ∈ l -> (Z.to_nat (idx i) < length a)%nat ->
  (forall j, j ∈ l -> Z.to_nat (idx j) = Z.to_nat (idx i) -> val j = val i) ->
  rd (foldl (fun a j => wr a (idx j) (val j)) a l) (idx i) = val i.
Proof.
  intros Hi Hlen Hagree. induction l as [|b l IH] using rev_ind.
  - by apply elem_of_nil in Hi.
  - rewrite foldl_snoc.
    destruct (decide (Z.to_nat (idx b) = Z.to_nat (idx i))) as [He | Hne].
    + unfold rd, wr. rewrite He, list_lookup_insert_eq.
      * cbn. apply Hagree; [|done]. apply elem_of_app. right.
        by apply list_elem_of_singleton.
      * by rewrite (length_fold_wr idx (fun _ j => val j)).
    + rewrite rd_wr_ne by done.
      apply elem_of_app in Hi. destruct Hi as [Hi | Hi].
      * apply IH; [done|]. intros j Hj. apply Hagree, elem_of_app. by left.
      * apply list_elem_of_singleton in Hi. by subst.
Qed.

(** X15.  The font table is the transposed and mirrored font: after the
    start-up loop, entry [row * FONT_N_CHARS + ch] of [font_scanline] is
    the mirror of [font_8x16[ch][row]], for each of the 256 glyphs and 16
    glyph lines; the table keeps its size. *)
Theorem font_table_is_transposed (font_8x16 : list (list Z)) (t : list Z) (ch row : Z) :
  length t = Z.to_nat (FONT_N_CHARS * FONT_CHAR_HEIGHT) ->
  0 <= ch < FONT_N_CHARS -> 0 <= row < FONT_CHAR_HEIGHT ->
  rd (build_font_scanline font_8x16 t) (row * FONT_N_CHARS + ch)
  = reverse_byte (rd (nth (Z.to_nat ch) font_8x16 []) row)
  /\ length (build_font_scanline font_8x16 t) = length t.
Proof.
  intros Hlen Hch Hrow. unfold build_font_scanline. cbv zeta.
  rewrite (foldl_cells_of
    (fun t ch row => wr t (row * FONT_N_CHARS + ch)
                       (reverse_byte (uint8 (rd (nth (Z.to_nat ch) font_8x16 []) row))))).
  remember (cells_of (upto FONT_N_CHARS) (upto FONT_CHAR_HEIGHT)) as l eqn:El.
  split.
  - pose proof (rd_fold_wr_last
                  (fun p : Z * Z => p.2 * FONT_N_CHARS + p.1)
                  (fun p : Z * Z =>
                     reverse_byte (uint8 (rd (nth (Z.to_nat p.1) font_8x16 []) p.2)))
                  l t (ch, row)) as Hrd.
    cbn [fst snd] in Hrd. rewrite Hrd; [apply reverse_byte_uint8 | | |].
    + rewrite El. apply elem_of_cells_of. split; by apply elem_of_upto.
    + rewrite Hlen. unfold FONT_N_CHARS, FONT_CHAR_HEIGHT in *. lia.
    + intros [c r] Hj Heq. rewrite El in Hj. apply elem_of_cells_of in Hj.
      destruct Hj as (Hc & Hr). apply elem_of_upto in Hc, Hr. cbn [fst snd] in *.
      assert (c = ch /\ r = row) as (-> & ->)
        by (unfold FONT_N_CHARS, FONT_CHAR_HEIGHT in *; lia).
      reflexivity.
  - apply (length_fold_wr (fun p : Z * Z => p.2 * FONT_N_CHARS + p.1)
             (fun _ (p : Z * Z) =>
                reverse_byte (uint8 (rd (nth (Z.to_nat p.1) font_8x16 []) p.2)))).
Qed.

Lemma font_table_is_transposed_witness :
  let font := replicate 256 [1; 2; 4; 8; 16; 32; 64; 128; 1; 2; 4; 8; 16; 32; 64; 128] in
  rd (build_font_scanline font (replicate 4096 0)) (3 * FONT_N_CHARS + 65)
  = reverse_byte (rd (nth (Z.to_nat 65) font []) 3).
Proof.
  cbv zeta. apply font_table_is_transposed.
  - reflexivity.
  - unfold FONT_N_CHARS. lia.
  - unfold FONT_CHAR_HEIGHT. lia.
Defined.

(** X16.  The offsets that the render loop hands to the encoder stay
    inside the arrays, and they agree with the layout that [set_colour]
    writes.  For every display line the text row is below [CHAR_ROWS]
    (the clamp is never taken), the 80 glyphs and, in each plane, the 10
    colour words of the row and the 256 entries of the font line lie in
    their arrays; and after the bulk copy the glyph of cell [x] of that
    row is entry [x] of the row's glyphs in the front array, and its
    nibble is nibble [x mod 8] of word [x / 8] of the row's colour words
    there. *)
Theorem scan_offsets_match_layout (y plane x : Z) (s : screen_t) :
  0 <= y < FRAME_HEIGHT -> 0 <= plane < 3 -> 0 <= x < CHAR_COLS ->
  scan_row y = y / FONT_CHAR_HEIGHT /\ 0 <= scan_row y < CHAR_ROWS
  /\ 0 <= scan_chars y /\ scan_chars y + CHAR_COLS <= CHAR_ROWS * CHAR_COLS
  /\ 0 <= scan_colours y plane
  /\ scan_colours y plane + CHAR_COLS / 8 <= 3 * COLOUR_PLANE_SIZE_WORDS
  /\ 0 <= scan_font y
  /\ scan_font y + FONT_N_CHARS <= FONT_N_CHARS * FONT_CHAR_HEIGHT
  /\ rd (charbuf_front (copy_back_to_front s)) (scan_chars y + x)
     = glyph_at x (scan_row y) s
  /\ Z.land (Z.shiftr (rd (colourbuf_front (copy_back_to_front s))
                         (scan_colours y plane + x / 8)) (x mod 8 * 4)) 15
     = nibble_at plane x (scan_row y) s.
Proof.
  intros Hy Hp Hx.
  destruct (copy_back_to_front_fields s) as (-> & -> & _ & _).
  unfold scan_chars, scan_colours, scan_font, scan_font_y, scan_row, glyph_at, nibble_at.
  unfold FRAME_HEIGHT, FONT_CHAR_HEIGHT, FONT_N_CHARS, CHAR_ROWS, CHAR_COLS,
    COLOUR_PLANE_SIZE_WORDS in *.
  cbv zeta. change (300 / 30) with 10. change (80 / 8) with 10.
  assert (Hr : 0 <= y / 16 < 30)
    by (split; [apply Z.div_pos; lia | apply Z.div_lt_upper_bound; lia]).
  rewrite uint32_small by lia.
  destruct (Z.geb_spec (y / 16) 30); [lia|].
  pose proof (Z.mod_pos_bound y 16 ltac:(lia)).
  replace (x + y / 16 * 80) with (x + (y / 16 * 10) * 8) by lia.
  rewrite Z.div_add, Z.mod_add by lia.
  repeat split; try lia.
  - f_equal. lia.
  - do 3 f_equal. lia.
Qed.

Lemma scan_offsets_match_layout_witness :
  scan_row 479 = 479 / FONT_CHAR_HEIGHT /\ 0 <= scan_row 479 < CHAR_ROWS.
Proof.
  destruct (scan_offsets_match_layout 479 2 79 (scr init_globals)) as (H1 & H2 & _);
    [unfold FRAME_HEIGHT; lia | lia | unfold CHAR_COLS; lia |].
  split; [exact H1 | exact H2].
Defined.

(** ** The modes exclude each other *)

Lemma menu_modes_fields (m m' : menu_t) :
  menu_modes m' = menu_modes m ->
  theme_select_mode m' = theme_select_mode m
  /\ cursor_menu_mode m' = cursor_menu_mode m
  /\ bg_color_menu_mode m' = bg_color_menu_mode m
  /\ fg_color_menu_mode m' = fg_color_menu_mode m.
Proof. unfold menu_modes. intros Hm. injection Hm as H1 H2 H3 H4 _ _. done. Qed.

Lemma active_modes_eq (g g' : globals) :
  escape_mode (term g') = escape_mode (term g) ->
  menu_modes (menu g') = menu_modes (menu g) ->
  active_modes g' = active_modes g.
Proof.
  intros He Hm. destruct (menu_modes_fields _ _ Hm) as (H1 & H2 & H3 & H4).
  unfold active_modes. by rewrite He, H1, H2, H3, H4.
Qed.

Lemma in_normal_active_modes (g : globals) :
  in_normal g = true <-> active_modes g = 0.
Proof.
  unfold in_normal, active_modes.
  destruct (escape_mode (term g)), (fg_color_menu_mode (menu g)),
    (bg_color_menu_mode (menu g)), (cursor_menu_mode (menu g)),
    (theme_select_mode (menu g)); cbn; split; (done || lia).
Qed.

Lemma handle_normal_modes (c : Z) (g : globals) :
  in_normal g = true -> active_modes (handle_normal c g) <= 1.
Proof.
  intros Hn. apply in_normal_active_modes in Hn.
  unfold handle_normal, open_color_menu. cbv zeta.
  assert (Hb : forall b : bool, 0 <= Z.b2z b <= 1) by (intros []; cbn; lia).
  assert (Hstay : forall s, escape_mode (term s) = escape_mode (term g) ->
                    menu_modes (menu s) = menu_modes (menu g) -> active_modes s <= 1).
  { intros s He Hm. rewrite (active_modes_eq g s He Hm). lia. }
  unfold active_modes in Hn.
  pose proof (Hb (escape_mode (term g))). pose proof (Hb (fg_color_menu_mode (menu g))).
  pose proof (Hb (bg_color_menu_mode (menu g))).
  pose proof (Hb (cursor_menu_mode (menu g))). pose proof (Hb (theme_select_mode (menu g))).
  destruct (c =? 6).
  { match goal with |- context [draw_color_menu ?t ?p ?g0] =>
      destruct (draw_color_menu_frame t p g0) as (Ht & _ & _ & _ & Hm) end.
    destruct (menu_modes_fields _ _ Hm) as (M1 & M2 & M3 & M4).
    unfold active_modes. rewrite Ht, M1, M2, M3, M4. autorewrite with frame.
    cbn [theme_select_mode cursor_menu_mode bg_color_menu_mode fg_color_menu_mode
         set_color_menu_buf set_color_menu_buf_len set_fg_color_menu_mode]. cbn [Z.b2z]. lia. }
  destruct (c =? 2).
  { match goal with |- context [draw_color_menu ?t ?p ?g0] =>
      destruct (draw_color_menu_frame t p g0) as (Ht & _ & _ & _ & Hm) end.
    destruct (menu_modes_fields _ _ Hm) as (M1 & M2 & M3 & M4).
    unfold active_modes. rewrite Ht, M1, M2, M3, M4. autorewrite with frame.
    cbn [theme_select_mode cursor_menu_mode bg_color_menu_mode fg_color_menu_mode
         set_color_menu_buf set_color_menu_buf_len set_bg_color_menu_mode]. cbn [Z.b2z]. lia. }
  destruct (c =? 20).
  { unfold active_modes. autorewrite with frame.
    cbn [theme_select_mode cursor_menu_mode bg_color_menu_mode fg_color_menu_mode
         set_theme_select_mode]. cbn [Z.b2z]. lia. }
  destruct (c =? 14).
  { match goal with |- context [draw_cursor_menu ?g0] =>
      destruct (draw_cursor_menu_frame g0) as (Ht & _ & _ & _ & Hm) end.
    destruct (menu_modes_fields _ _ Hm) as (M1 & M2 & M3 & M4).
    unfold active_modes. rewrite Ht, M1, M2, M3, M4. autorewrite with frame.
    cbn [theme_select_mode cursor_menu_mode bg_color_menu_mode fg_color_menu_mode
         set_cursor_menu_mode]. cbn [Z.b2z]. lia. }
  destruct (c =? 27).
  { unfold active_modes. autorewrite with frame. proj. cbn [Z.b2z]. lia. }
  destruct (c =? 13).
  { apply Hstay; autorewrite with frame; proj; reflexivity. }
  destruct (c =? 10).
  { apply Hstay; autorewrite with frame; proj; reflexivity. }
  destruct (c =? 8).
  { destruct (_ >? 0); [|unfold active_modes; lia]. apply Hstay; autorewrite with frame; proj; reflexivity. }
  cbv zeta. destruct (_ >=? CHAR_COLS); apply Hstay; autorewrite with frame; proj; reflexivity.
Qed.

Lemma color_menu_char_modes (k : color_menu) (c : Z) (g : globals) :
  active_modes (color_menu_char (menu_set_color k) (menu_set_mode k) c g) <= active_modes g.
Proof.
  assert (Hb : forall b : bool, 0 <= Z.b2z b <= 1) by (intros []; cbn; lia).
  pose proof (Hb (fg_color_menu_mode (menu g))).
  pose proof (Hb (bg_color_menu_mode (menu g))).
  unfold color_menu_char, active_modes. cbv zeta.
  split_ifs; autorewrite with frame;
    destruct k;
    cbn [menu_set_mode theme_select_mode cursor_menu_mode bg_color_menu_mode
         fg_color_menu_mode set_color_menu_buf set_color_menu_buf_len
         set_fg_color_menu_mode set_bg_color_menu_mode];
    cbn [Z.b2z]; lia.
Qed.

Lemma cursor_menu_char_modes (c : Z) (g : globals) :
  active_modes (cursor_menu_char c g) <= active_modes g.
Proof.
  assert (Hb : forall b : bool, 0 <= Z.b2z b <= 1) by (intros []; cbn; lia).
  pose proof (Hb (cursor_menu_mode (menu g))).
  unfold cursor_menu_char, active_modes.
  destruct (cursor_style_of_key c); [|lia]. cbv zeta. autorewrite with frame. proj.
  cbn [theme_select_mode cursor_menu_mode bg_color_menu_mode fg_color_menu_mode
       set_cursor_menu_mode]. cbn [Z.b2z]. lia.
Qed.

Lemma theme_char_modes (c : Z) (g : globals) :
  active_modes (theme_char c g) <= active_modes g.
Proof.
  assert (Hb : forall b : bool, 0 <= Z.b2z b <= 1) by (intros []; cbn; lia).
  pose proof (Hb (theme_select_mode (menu g))).
  unfold theme_char, active_modes.
  destruct (theme_of_key c) as [[fg bg]|]; [|lia]. autorewrite with frame.
  cbn [theme_select_mode cursor_menu_mode bg_color_menu_mode fg_color_menu_mode
       set_theme_select_mode]. cbn [Z.b2z]. lia.
Qed.

Section Modes.
Context `{LibC}.

Lemma handle_escape_menu (c : Z) (g : globals) : menu (handle_escape c g) = menu g.
Proof.
unfold handle_escape. cbv zeta.
split_ifs; autorewrite with frame; try reflexivity.
all: match goal with
     | |- context [process_ansi_sequence ?p ?n ?f ?g0] =>
       destruct (process_ansi_sequence_frame p n f g0) as (_ & -> & _)
     end; by autorewrite with frame.
Qed.

Lemma handle_escape_modes (c : Z) (g : globals) :
escape_mode (term g) = true -> active_modes (handle_escape c g) <= active_modes g.
Proof.
intros He. unfold active_modes. rewrite handle_escape_menu, He.
destruct (escape_mode (term (handle_escape c g))); cbn [Z.b2z]; lia.
Qed.

(** The paths of [handle_char] with the condition under which each is
  taken. *)
Lemma handle_char_paths (c : Z) (g : globals) :
exists g',
  (menu g' = menu g /\ escape_mode (term g') = escape_mode (term g)
   /\ cursor_x (term g') = cursor_x (term g) /\ cursor_y (term g') = cursor_y (term g)
   /\ ansi g' = ansi g /\ thm g' = thm g)
  /\ (handle_char c g = g'
      \/ (escape_mode (term g') = true /\ handle_char c g = handle_escape c g')
      \/ handle_char c g
         = color_menu_char (menu_set_color FgMenu) (menu_set_mode FgMenu) c g'
      \/ handle_char c g
         = color_menu_char (menu_set_color BgMenu) (menu_set_mode BgMenu) c g'
      \/ handle_char c g = cursor_menu_char c g'
      \/ handle_char c g = theme_char c g'
      \/ (in_normal g' = true
          /\ handle_char c g = safe_request_swap (redraw_cursor (handle_normal c g')))).
Proof.
rewrite handle_char_unfold.
pose proof (line_ending_filter_frame c (prologue g)) as Hfr. cbv zeta in Hfr.
pose proof (line_ending_filter_rest c (prologue g)) as Hre. cbv zeta in Hre.
destruct (line_ending_filter c (prologue g)) as [g' sw]. cbn [fst] in Hfr, Hre.
destruct Hfr as (_ & _ & Hmenu & Hesc & _).
destruct Hre as (Hansi & Hthm & _ & Hcx & Hcy & _).
rewrite prologue_menu in Hmenu. rewrite prologue_term in Hesc, Hcx, Hcy.
rewrite prologue_ansi in Hansi. rewrite prologue_thm in Hthm.
exists g'. split; [done|].
destruct sw; [by left|]. right. unfold dispatch_char, in_normal.
destruct (escape_mode (term g')); [by left|]. right.
destruct (fg_color_menu_mode (menu g')); [by left|]. right.
destruct (bg_color_menu_mode (menu g')); [by left|]. right.
destruct (cursor_menu_mode (menu g')); [by left|]. right.
destruct (theme_select_mode (menu g')); [by left|]. by right.
Qed.

Lemma handle_char_modes (c : Z) (g : globals) :
active_modes g <= 1 -> active_modes (handle_char c g) <= 1.
Proof.
intros Hone.
destruct (handle_char_paths c g) as (g' & (Hmenu & Hesc & _) & Hcase).
assert (Heq : active_modes g' = active_modes g)
  by (unfold active_modes; by rewrite Hmenu, Hesc).
destruct Hcase as [-> | [(He & ->) | [-> | [-> | [-> | [-> | (Hn & ->)]]]]]].
- lia.
- pose proof (handle_escape_modes c g' He). lia.
- pose proof (color_menu_char_modes FgMenu c g'). lia.
- pose proof (color_menu_char_modes BgMenu c g'). lia.
- pose proof (cursor_menu_char_modes c g'). lia.
- pose proof (theme_char_modes c g'). lia.
- pose proof (handle_normal_modes c g' Hn) as Hm.
  unfold active_modes in *. autorewrite with frame. exact Hm.
Qed.

(** X17.  The modes exclude each other: at most one of the escape parser
  and the four menus (foreground colour, background colour, cursor
  style, theme) is active, after whatever bytes are fed from a state
  in which this holds. *)
Theorem modes_are_exclusive (bs : list Z) (g : globals) :
active_modes g <= 1 -> active_modes (feed bs g) <= 1.
Proof.
revert g. induction bs as [|c bs IH]; intros g Hone; [exact Hone|].
rewrite feed_cons. by apply IH, handle_char_modes.
Qed.
End Modes.

Lemma modes_are_exclusive_witness :
  active_modes (@feed newlib [6; 20; 14; 27; 2; 49; 50] init_globals) <= 1.
Proof. apply modes_are_exclusive. vm_compute. discriminate. Defined.

(** ** The cursor and the grid *)



Lemma rd_byte (a : list Z) (i : Z) :
  Forall (fun p => 0 <= p < 256) a -> 0 <= rd a i < 256.
Proof.
  intros Ha. unfold rd. destruct (a !! Z.to_nat i) as [v|] eqn:E; cbn; [|lia].
  by apply (Forall_lookup_1 _ _ _ _ Ha E).
Qed.

Lemma process_ansi_sequence_in_grid (params : list Z) (count final : Z) (g : globals) :
  final <> 72 -> final <> 117 -> 0 <= rd params 0 < 256 ->
  cursor_in_grid g -> cursor_in_grid (process_ansi_sequence params count final g).
Proof.
  intros H72 H117 Hp Hg.
  destruct (decide (final = 65 \/ final = 66 \/ final = 67 \/ final = 68)) as [Hm | Hm].
  { by apply csi_move_in_grid. }
  unfold process_ansi_sequence. cbv zeta.
  apply Z.eqb_neq in H72, H117. rewrite H72, H117.
  destruct (final =? 74).
  { destruct (_ && _); [|done]. unfold cursor_in_grid. rewrite clear_screen_term. proj.
    unfold CHAR_COLS, CHAR_ROWS. lia. }
  destruct (final =? 75); [unfold cursor_in_grid; by autorewrite with frame|].
  destruct (final =? 109); [unfold cursor_in_grid; by autorewrite with frame|].
  destruct (final =? 115); [unfold cursor_in_grid; by autorewrite with frame|].
  destruct (Z.eqb_spec final 65); [lia|]. destruct (Z.eqb_spec final 66); [lia|].
  destruct (Z.eqb_spec final 67); [lia|]. destruct (Z.eqb_spec final 68); [lia|].
  exact Hg.
Qed.

Lemma new_line_row_in_grid (g : globals) :
  0 <= cursor_y (term g) < CHAR_ROWS -> cursor_in_grid (new_line g).
Proof.
  unfold cursor_in_grid. intros Hy. rewrite new_line_term.
  cbn [cursor_x cursor_y set_cursor_x set_cursor_y].
  unfold next_row, uint16, CHAR_COLS, CHAR_ROWS in *.
  rewrite Z.mod_small by lia.
  destruct (Z.geb_spec (cursor_y (term g) + 1) 30); lia.
Qed.

Lemma handle_normal_in_grid (c : Z) (g : globals) :
  cursor_in_grid g -> cursor_in_grid (handle_normal c g).
Proof.
  intros Hg.
  assert (Hstay : forall s, term s = term g -> cursor_in_grid s)
    by (intros s Hs; unfold cursor_in_grid; by rewrite Hs).
  assert (Hflag : forall (f : terminal_state_t -> terminal_state_t) s,
            (forall t, cursor_x (f t) = cursor_x t /\ cursor_y (f t) = cursor_y t) ->
            cursor_in_grid s -> cursor_in_grid (on_term f s)).
  { intros f s Hf Hs. unfold cursor_in_grid. autorewrite with frame.
    destruct (Hf (term s)) as (-> & ->). exact Hs. }
  unfold handle_normal, open_color_menu. cbv zeta.
  destruct (c =? 6).
  { apply Hstay.
    match goal with |- context [draw_color_menu ?t ?p ?g0] =>
      destruct (draw_color_menu_frame t p g0) as (-> & _) end.
    by autorewrite with frame. }
  destruct (c =? 2).
  { apply Hstay.
    match goal with |- context [draw_color_menu ?t ?p ?g0] =>
      destruct (draw_color_menu_frame t p g0) as (-> & _) end.
    by autorewrite with frame. }
  destruct (c =? 20); [by apply Hstay|].
  destruct (c =? 14).
  { apply Hstay.
    match goal with |- context [draw_cursor_menu ?g0] =>
      destruct (draw_cursor_menu_frame g0) as (-> & _) end.
    by autorewrite with frame. }
  destruct (c =? 27); [by apply Hflag|].
  destruct (c =? 13); [apply Hflag; [done | by apply new_line_in_grid]|].
  destruct (c =? 10); [apply Hflag; [done | by apply new_line_in_grid]|].
  destruct Hg as (Hx & Hy).
  destruct (c =? 8).
  { destruct (Z.gtb_spec (cursor_x (term g)) 0); [|done].
    unfold cursor_in_grid. autorewrite with frame. proj.
    unfold uint16, CHAR_COLS in *. rewrite Z.mod_small by lia. lia. }
  match goal with |- cursor_in_grid (if cursor_x (term ?g3) >=? _ then _ else _) =>
    assert (Ht : term g3 = set_cursor_x (uint16 (cursor_x (term g) + 1)) (term g))
      by (by autorewrite with frame);
    remember g3 as G eqn:E; clear E
  end.
  rewrite Ht. proj. unfold uint16.
  rewrite Z.mod_small by (unfold CHAR_COLS in *; lia).
  destruct (Z.geb_spec (cursor_x (term g) + 1) CHAR_COLS).
  - apply new_line_row_in_grid. by rewrite Ht.
  - unfold cursor_in_grid. rewrite Ht. proj. unfold uint16.
    rewrite Z.mod_small by (unfold CHAR_COLS in *; lia). lia.
Qed.

Lemma color_menu_char_term set_color set_mode (c : Z) (g : globals) :
  term (color_menu_char set_color set_mode c g) = term g.
Proof. unfold color_menu_char. cbv zeta. split_ifs; by autorewrite with frame. Qed.

Lemma cursor_menu_char_cursor (c : Z) (g : globals) :
  cursor_x (term (cursor_menu_char c g)) = cursor_x (term g)
  /\ cursor_y (term (cursor_menu_char c g)) = cursor_y (term g).
Proof.
  unfold cursor_menu_char. destruct (cursor_style_of_key c); [|done].
  cbv zeta. by autorewrite with frame.
Qed.

Lemma theme_char_term (c : Z) (g : globals) : term (theme_char c g) = term g.
Proof. unfold theme_char. destruct (theme_of_key c) as [[fg bg]|]; reflexivity. Qed.

Section Grid.
Context `{LibC}.

Lemma handle_escape_in_grid (c : Z) (g : globals) :
cursor_in_grid g -> params_ok g -> c <> 72 -> c <> 117 ->
cursor_in_grid (handle_escape c g) /\ params_ok (handle_escape c g).
Proof.
intros Hg Hp H72 H117.
assert (Hstay : forall s, cursor_x (term s) = cursor_x (term g) ->
                  cursor_y (term s) = cursor_y (term g) -> cursor_in_grid s)
  by (intros s Hx Hy; unfold cursor_in_grid; by rewrite Hx, Hy).
assert (Hcommit : forall a, Forall (fun p => 0 <= p < 256) (ansi_params a) ->
                    Forall (fun p => 0 <= p < 256) (ansi_params (commit_param a))).
{ intros a Ha. unfold commit_param.
  cbn [ansi_params set_ansi_params set_ansi_param_count]. unfold wr.
  apply Forall_insert; [exact Ha | apply uint8_range]. }
unfold handle_escape, params_ok in *. cbv zeta.
destruct (c =? 91).
{ split; [apply Hstay|]; by autorewrite with frame. }
destruct (ansi_mode (term g)).
2: { split; [apply Hstay|]; by autorewrite with frame. }
destruct (is_digit c).
{ destruct (_ <? _); [|done]. split; [apply Hstay|]; by autorewrite with frame. }
destruct (c =? 59).
{ destruct (_ <? _); (split; [apply Hstay; by autorewrite with frame|]);
    autorewrite with frame; cbn [ansi_params set_ansi_buf_len];
    [apply Hcommit|]; exact Hp. }
match goal with
| |- context [process_ansi_sequence ?pp ?nn c ?g0] =>
  assert (Hq : Forall (fun v => 0 <= v < 256) (ansi_params (ansi g0))
               /\ cursor_in_grid g0);
  [|remember g0 as G eqn:E; clear E]
end.
{ split.
  - destruct (_ && _); autorewrite with frame; [apply Hcommit|]; exact Hp.
  - apply Hstay; destruct (_ && _); by autorewrite with frame. }
destruct Hq as (HpG & HgG).
destruct (process_ansi_sequence_frame (ansi_params (ansi G)) (ansi_param_count (ansi G)) c G)
  as (Ha & _).
split.
- pose proof (process_ansi_sequence_in_grid (ansi_params (ansi G))
                (ansi_param_count (ansi G)) c G H72 H117 (rd_byte _ 0 HpG) HgG) as Hr.
  unfold cursor_in_grid in *. autorewrite with frame. proj. exact Hr.
- autorewrite with frame. by rewrite Ha.
Qed.

(** X18.  Only CSI H and CSI u can take the cursor out of the grid.  A
  byte that is handled with the cursor in the grid leaves it in the
  grid, unless the byte is 'H' or 'u' and is read while the escape flag
  is set: printing, wrapping, backspace, CR and LF, the menus, and the
  CSI commands J, K, m, s, A, B, C and D all keep the cursor on a cell
  of the screen.  (The stored parameters are bytes, and stay bytes.) *)
Theorem cursor_stays_in_grid (c : Z) (g : globals) :
cursor_in_grid g -> params_ok g ->
escape_mode (term g) = false \/ (c <> 72 /\ c <> 117) ->
cursor_in_grid (handle_char c g) /\ params_ok (handle_char c g).
Proof.
intros Hg Hp Hc.
destruct (handle_char_paths c g) as (g' & (Hmenu & Hesc & Hx & Hy & Hansi & _) & Hcase).
assert (Hg' : cursor_in_grid g') by (unfold cursor_in_grid; by rewrite Hx, Hy).
assert (Hp' : params_ok g') by (unfold params_ok; by rewrite Hansi).
assert (Hstay : forall s, cursor_x (term s) = cursor_x (term g') ->
                  cursor_y (term s) = cursor_y (term g') -> ansi s = ansi g' ->
                  cursor_in_grid s /\ params_ok s).
{ intros s Hsx Hsy Hsa. unfold cursor_in_grid, params_ok. by rewrite Hsx, Hsy, Hsa. }
destruct Hcase as [-> | [(He & ->) | [-> | [-> | [-> | [-> | (Hn & ->)]]]]]].
- done.
- destruct Hc as [Hc | (H72 & H117)]; [congruence|].
  by apply handle_escape_in_grid.
- apply Hstay; by rewrite ?color_menu_char_term, ?color_menu_char_ansi.
- apply Hstay; by rewrite ?color_menu_char_term, ?color_menu_char_ansi.
- apply Hstay; apply cursor_menu_char_cursor || apply cursor_menu_char_rest.
- apply Hstay; by rewrite ?theme_char_term, ?theme_char_ansi.
- pose proof (handle_normal_in_grid c g' Hg') as Hr.
  unfold cursor_in_grid, params_ok in *. autorewrite with frame.
  rewrite handle_normal_ansi. done.
Qed.
End Grid.

Lemma cursor_stays_in_grid_witness :
  let g := @feed newlib (replicate 79 65) init_globals in
  cursor_in_grid (@handle_char newlib 72 g).
Proof.
  cbv zeta.
  destruct (@cursor_stays_in_grid newlib 72 (@feed newlib (replicate 79 65) init_globals))
    as (Hin & _).
  - unfold cursor_in_grid, CHAR_COLS, CHAR_ROWS. vm_compute. repeat split; discriminate.
  - unfold params_ok. vm_compute. repeat constructor; discriminate.
  - left. vm_compute. reflexivity.
  - exact Hin.
Defined.

(** ** The blinking cursor *)

Ltac cur_fields :=
  cbn [cursor_drawn saved_cursor_x saved_cursor_y cursor_draw_x cursor_draw_y
       saved_cursor_char saved_cursor_fg cursor_blink_counter
       set_cursor_drawn set_saved_cursor_x set_saved_cursor_y set_cursor_draw_x
       set_cursor_draw_y set_saved_cursor_char set_saved_cursor_fg
       set_cursor_blink_counter] in *.

(** A tick below the threshold only counts. *)
Lemma cursor_blink_idle (g : globals) :
  cursor_visible (term g) = true -> cursor_menu_mode (menu g) = false ->
  0 <= cursor_blink_counter (cur g) < CURSOR_BLINK_MS / MAIN_LOOP_MIN_MS - 1 ->
  cursor_blink g
  = on_cur (set_cursor_blink_counter (cursor_blink_counter (cur g) + 1)) g.
Proof.
  intros Hv Hm Hc. unfold cursor_blink. rewrite Hv, Hm. cbn [andb negb]. cbv zeta.
  autorewrite with frame. cur_fields.
  change (CURSOR_BLINK_MS / MAIN_LOOP_MIN_MS) with 50 in *.
  unfold on_cur. cbv beta. unfold uint32. rewrite !Z.mod_small by lia.
  destruct (Z.geb_spec (cursor_blink_counter (cur g) + 1) 50); [lia | reflexivity].
Qed.

Lemma on_cur_counter_twice (a b : Z) (g : globals) :
  on_cur (set_cursor_blink_counter a) (on_cur (set_cursor_blink_counter b) g)
  = on_cur (set_cursor_blink_counter a) g.
Proof. reflexivity. Qed.

Lemma on_cur_counter_same (g : globals) :
  on_cur (set_cursor_blink_counter (cursor_blink_counter (cur g))) g = g.
Proof. by destruct g as [t s w [] a h m i]. Qed.

Lemma cursor_blink_idle_run (k : nat) (g : globals) :
  cursor_visible (term g) = true -> cursor_menu_mode (menu g) = false ->
  0 <= cursor_blink_counter (cur g) ->
  cursor_blink_counter (cur g) + Z.of_nat k <= CURSOR_BLINK_MS / MAIN_LOOP_MIN_MS - 1 ->
  Nat.iter k cursor_blink g
  = on_cur (set_cursor_blink_counter (cursor_blink_counter (cur g) + Z.of_nat k)) g.
Proof.
  intros Hv Hm H0. induction k as [|k IH]; intros Hk.
  - change (Nat.iter 0 cursor_blink g) with g.
    rewrite Z.add_0_r. symmetry. apply on_cur_counter_same.
  - change (Nat.iter (S k) cursor_blink g) with (cursor_blink (Nat.iter k cursor_blink g)).
    rewrite IH by lia.
    rewrite cursor_blink_idle; autorewrite with frame; cur_fields; try done; [|lia].
    rewrite on_cur_counter_twice. do 2 f_equal. lia.
Qed.

(** The tick that reaches the threshold toggles the cursor. *)
Lemma cursor_blink_toggle (g : globals) :
  cursor_visible (term g) = true -> cursor_menu_mode (menu g) = false ->
  cursor_blink_counter (cur g) = CURSOR_BLINK_MS / MAIN_LOOP_MIN_MS - 1 ->
  let g' := cursor_blink g in
  cursor_drawn (cur g') = negb (cursor_drawn (cur g))
  /\ cursor_blink_counter (cur g') = 0
  /\ term g' = term g /\ menu g' = menu g /\ thm g' = thm g.
Proof.
  intros Hv Hm Hc. cbv zeta. unfold cursor_blink. rewrite Hv, Hm. cbn [andb negb]. cbv zeta.
  autorewrite with frame. cur_fields. rewrite Hc.
  change (uint32 (CURSOR_BLINK_MS / MAIN_LOOP_MIN_MS - 1 + 1)
          >=? CURSOR_BLINK_MS / MAIN_LOOP_MIN_MS) with true. cbv iota.
  autorewrite with frame. cur_fields.
  destruct (cursor_drawn (cur g)); autorewrite with frame; cur_fields.
  - unfold restore_cursor_cell. autorewrite with frame. cur_fields. done.
  - unfold paint_cursor_cell. cbv zeta. autorewrite with frame. cur_fields. done.
Qed.

Lemma blink_turns : Z.to_nat (CURSOR_BLINK_MS / MAIN_LOOP_MIN_MS) = 50%nat.
Proof. reflexivity. Qed.

Lemma cursor_blink_idle_from_0 (k : nat) (g : globals) :
  cursor_visible (term g) = true -> cursor_menu_mode (menu g) = false ->
  cursor_blink_counter (cur g) = 0 -> (k < 50)%nat ->
  Nat.iter k cursor_blink g = on_cur (set_cursor_blink_counter (Z.of_nat k)) g.
Proof.
  intros Hv Hm Hc Hk.
  pose proof (cursor_blink_idle_run k g Hv Hm) as H.
  rewrite Hc in H. rewrite Z.add_0_l in H. apply H; [lia|].
  change (CURSOR_BLINK_MS / MAIN_LOOP_MIN_MS - 1) with 49. lia.
Qed.

Lemma cursor_blink_period (g : globals) :
  cursor_visible (term g) = true -> cursor_menu_mode (menu g) = false ->
  cursor_blink_counter (cur g) = 0 ->
  cursor_drawn (cur (Nat.iter 50 cursor_blink g)) = negb (cursor_drawn (cur g))
  /\ cursor_blink_counter (cur (Nat.iter 50 cursor_blink g)) = 0
  /\ term (Nat.iter 50 cursor_blink g) = term g
  /\ menu (Nat.iter 50 cursor_blink g) = menu g.
Proof.
  intros Hv Hm Hc.
  replace (Nat.iter 50 cursor_blink g)
    with (cursor_blink (Nat.iter 49 cursor_blink g))
    by (symmetry; apply (Nat.iter_succ 49)).
  rewrite (cursor_blink_idle_from_0 49 g Hv Hm Hc) by lia.
  remember (on_cur (set_cursor_blink_counter (Z.of_nat 49)) g) as g1 eqn:E.
  assert (Ht : term g1 = term g) by (rewrite E; autorewrite with frame; reflexivity).
  assert (Hn : menu g1 = menu g) by (rewrite E; autorewrite with frame; reflexivity).
  assert (Hd : cursor_drawn (cur g1) = cursor_drawn (cur g))
    by (rewrite E; autorewrite with frame; reflexivity).
  assert (Hk : cursor_blink_counter (cur g1) = CURSOR_BLINK_MS / MAIN_LOOP_MIN_MS - 1)
    by (rewrite E; autorewrite with frame; reflexivity).
  clear E.
  destruct (cursor_blink_toggle g1) as (Hd' & Hk' & Ht' & Hn' & _);
    [by rewrite Ht | by rewrite Hn | exact Hk |].
  rewrite Hd', Hk', Ht', Hn', Hd, Ht, Hn. repeat split; reflexivity.
Qed.

Lemma cursor_blink_periods (g : globals) (n : nat) :
  cursor_visible (term g) = true -> cursor_menu_mode (menu g) = false ->
  cursor_blink_counter (cur g) = 0 ->
  cursor_drawn (cur (Nat.iter (50 * n) cursor_blink g))
  = (if Nat.even n then cursor_drawn (cur g) else negb (cursor_drawn (cur g)))
  /\ cursor_blink_counter (cur (Nat.iter (50 * n) cursor_blink g)) = 0
  /\ term (Nat.iter (50 * n) cursor_blink g) = term g
  /\ menu (Nat.iter (50 * n) cursor_blink g) = menu g.
Proof.
  intros Hv Hm Hc. induction n as [|n IH].
  - rewrite Nat.mul_0_r. repeat split; first [reflexivity | exact Hc].
  - replace (50 * S n)%nat with (50 + 50 * n)%nat by lia.
    rewrite Nat.iter_add.
    destruct IH as (Hd & Hk & Ht & Hmn).
    remember (Nat.iter (50 * n) cursor_blink g) as gn eqn:E. clear E.
    destruct (cursor_blink_period gn) as (Hd' & Hk' & Ht' & Hmn');
      [by rewrite Ht | by rewrite Hmn | exact Hk |].
    rewrite Hd', Hk', Ht', Hmn', Hd, Nat.even_succ, <- Nat.negb_even.
    destruct (Nat.even n); rewrite ?negb_involutive; repeat split; done.
Qed.

(** X19.  The cursor blinks on a count of main-loop turns.  With the
    cursor visible, no cursor-style menu open and the counter at 0, a turn
    of the blink block only adds one to the counter until the 50th turn
    ([CURSOR_BLINK_MS / MAIN_LOOP_MIN_MS]), which toggles the cursor and
    resets the counter; so after [50 * n] turns the cursor has been
    toggled [n] times and the counter is 0 again. *)
Theorem cursor_blinks_every_50_turns (g : globals) (k n : nat) :
  cursor_visible (term g) = true -> cursor_menu_mode (menu g) = false ->
  cursor_blink_counter (cur g) = 0 ->
  ((k < Z.to_nat (CURSOR_BLINK_MS / MAIN_LOOP_MIN_MS))%nat ->
   Nat.iter k cursor_blink g = on_cur (set_cursor_blink_counter (Z.of_nat k)) g)
  /\ cursor_drawn (cur (Nat.iter (Z.to_nat (CURSOR_BLINK_MS / MAIN_LOOP_MIN_MS) * n)
                          cursor_blink g))
     = (if Nat.even n then cursor_drawn (cur g) else negb (cursor_drawn (cur g)))
  /\ cursor_blink_counter
       (cur (Nat.iter (Z.to_nat (CURSOR_BLINK_MS / MAIN_LOOP_MIN_MS) * n) cursor_blink g)) = 0.
Proof.
  intros Hv Hm Hc. rewrite blink_turns. split.
  - intros Hk. by apply cursor_blink_idle_from_0.
  - destruct (cursor_blink_periods g n Hv Hm Hc) as (Hd & Hk & _). by split.
Qed.

Lemma cursor_blinks_every_50_turns_witness :
  cursor_drawn (cur (Nat.iter (Z.to_nat (CURSOR_BLINK_MS / MAIN_LOOP_MIN_MS) * 3)
                       cursor_blink init_globals))
  = (if Nat.even 3 then cursor_drawn (cur init_globals)
     else negb (cursor_drawn (cur init_globals))).
Proof.
  destruct (cursor_blinks_every_50_turns init_globals 0 3) as (_ & Hd & _);
    [reflexivity | reflexivity | reflexivity |].
  exact Hd.
Defined.

(** ** What the blinking cursor does to the cell under it *)

Lemma get_colour_range (x y : Z) (s : screen_t) :
  0 <= fst (get_colour x y s) < 64 /\ 0 <= snd (get_colour x y s) < 64.
Proof.
  rewrite get_colour_nibbles.
  pose proof (repack_check_all _ _ _ (nibble_at_range 0 x y s) (nibble_at_range 1 x y s)
                (nibble_at_range 2 x y s)) as Hc.
  unfold repack_check in Hc.
  destruct (nibbles_decode _ _ _) as [fg bg]. cbn [fst snd].
  repeat (apply andb_prop in Hc; destruct Hc as [Hc ?]).
  repeat match goal with
         | E : (_ <=? _) = true |- _ => apply Z.leb_le in E
         | E : (_ <? _) = true |- _ => apply Z.ltb_lt in E
         end.
  lia.
Qed.

Lemma small_colour (c : Z) : 0 <= c < 64 -> uint8 c mod 64 = c.
Proof.
  intros Hc. unfold uint8. rewrite (Z.mod_small c 256) by lia. apply Z.mod_small. lia.
Qed.

Lemma cursor_glyph_byte (st : cursor_style) : uint8 (cursor_glyph st) = cursor_glyph st.
Proof. by destruct st. Qed.

(** The screen and the cursor record after the turn that removes the
    cursor. *)
Lemma cursor_blink_undraw (g : globals) :
  cursor_visible (term g) = true -> cursor_menu_mode (menu g) = false ->
  cursor_blink_counter (cur g) = CURSOR_BLINK_MS / MAIN_LOOP_MIN_MS - 1 ->
  cursor_drawn (cur g) = true ->
  scr (cursor_blink g)
  = copy_back_to_front
      (set_colour (cursor_draw_x (cur g)) (cursor_draw_y (cur g))
         (saved_cursor_fg (cur g)) (current_bg (thm g))
         (set_char (cursor_draw_x (cur g)) (cursor_draw_y (cur g))
            (saved_cursor_char (cur g)) (scr g))).
Proof.
  intros Hv Hm Hc Hd. unfold cursor_blink. rewrite Hv, Hm. cbn [andb negb]. cbv zeta.
  autorewrite with frame. cur_fields. rewrite Hc.
  change (uint32 (CURSOR_BLINK_MS / MAIN_LOOP_MIN_MS - 1 + 1)
          >=? CURSOR_BLINK_MS / MAIN_LOOP_MIN_MS) with true. cbv iota.
  autorewrite with frame. cur_fields. rewrite Hd.
  rewrite safe_request_swap_scr by (autorewrite with frame; reflexivity).
  unfold restore_cursor_cell. autorewrite with frame. cur_fields. reflexivity.
Qed.

(** The screen and the cursor record after the turn that draws the
    cursor. *)
Lemma cursor_blink_draw (g : globals) :
  cursor_visible (term g) = true -> cursor_menu_mode (menu g) = false ->
  cursor_blink_counter (cur g) = CURSOR_BLINK_MS / MAIN_LOOP_MIN_MS - 1 ->
  cursor_drawn (cur g) = false ->
  let x := cursor_x (term g) in
  let y := cursor_y (term g) in
  scr (cursor_blink g)
  = copy_back_to_front
      (set_colour x y (current_fg (thm g)) (current_bg (thm g))
         (set_char x y (cursor_glyph (current_cursor (thm g)))
            (set_colour x y 0 (current_bg (thm g)) (set_char x y 32 (scr g)))))
  /\ cursor_draw_x (cur (cursor_blink g)) = x
  /\ cursor_draw_y (cur (cursor_blink g)) = y
  /\ saved_cursor_char (cur (cursor_blink g)) = glyph_at x y (scr g)
  /\ saved_cursor_fg (cur (cursor_blink g)) = fst (get_colour x y (scr g)).
Proof.
  intros Hv Hm Hc Hd. cbv zeta. unfold cursor_blink. rewrite Hv, Hm.
  cbn [andb negb]. cbv zeta.
  autorewrite with frame. cur_fields. rewrite Hc.
  change (uint32 (CURSOR_BLINK_MS / MAIN_LOOP_MIN_MS - 1 + 1)
          >=? CURSOR_BLINK_MS / MAIN_LOOP_MIN_MS) with true. cbv iota.
  autorewrite with frame. cur_fields. rewrite Hd.
  rewrite safe_request_swap_scr by (autorewrite with frame; reflexivity).
  unfold paint_cursor_cell. cbv zeta. autorewrite with frame. cur_fields.
  repeat split; reflexivity.
Qed.

(** Two writes of one cell, seen from the grid. *)
Lemma write_cell_twice (x y c1 fg1 bg1 c2 fg2 bg2 : Z) (s : screen_t) :
  screen_ok s -> in_grid x y ->
  let s' := set_colour x y fg2 bg2 (set_char x y c2
              (set_colour x y fg1 bg1 (set_char x y c1 s))) in
  screen_ok s'
  /\ glyph_at x y s' = uint8 c2
  /\ get_colour x y s' = (uint8 fg2 mod 64, uint8 bg2 mod 64)
  /\ forall x' y', in_grid x' y' -> (x', y') <> (x, y) -> same_cell x' y' s s'.
Proof.
  intros Hok Hg. cbv zeta.
  destruct (write_cell_frame x y c1 fg1 bg1 s Hok) as (Hok1 & _). cbv zeta in Hok1.
  remember (set_colour x y fg1 bg1 (set_char x y c1 s)) as s1 eqn:E1.
  destruct (write_cell_frame x y c2 fg2 bg2 s1 Hok1) as (Hok2 & _). cbv zeta in Hok2.
  split; [exact Hok2|]. split; [|split].
  - apply write_cell_same; done.
  - apply get_set_colour_same; [|done].
    rewrite set_char_colourbuf. apply Hok1.
  - intros x' y' Hg' Hne.
    apply same_cell_trans with s1.
    + rewrite E1. apply write_cell_other; [done | done | done | congruence].
    + apply write_cell_other; [done | done | done | congruence].
Qed.

Lemma write_cell_once (x y c fg bg : Z) (s : screen_t) :
  screen_ok s -> in_grid x y ->
  let s' := set_colour x y fg bg (set_char x y c s) in
  screen_ok s'
  /\ glyph_at x y s' = uint8 c
  /\ get_colour x y s' = (uint8 fg mod 64, uint8 bg mod 64)
  /\ forall x' y', in_grid x' y' -> (x', y') <> (x, y) -> same_cell x' y' s s'.
Proof.
  intros Hok Hg. cbv zeta.
  destruct (write_cell_frame x y c fg bg s Hok) as (Hok1 & _). cbv zeta in Hok1.
  split; [exact Hok1|]. split; [|split].
  - apply write_cell_same; done.
  - apply get_set_colour_same; [|done].
    rewrite set_char_colourbuf. apply Hok.
  - intros x' y' Hg' Hne. apply write_cell_other; [done | done | done | congruence].
Qed.

(** The turns before a toggle leave everything but the counter. *)
Lemma blink_before_toggle (g : globals) :
  cursor_visible (term g) = true -> cursor_menu_mode (menu g) = false ->
  cursor_blink_counter (cur g) = 0 ->
  exists g1,
    Nat.iter 50 cursor_blink g = cursor_blink g1
    /\ term g1 = term g /\ menu g1 = menu g /\ thm g1 = thm g /\ scr g1 = scr g
    /\ cursor_blink_counter (cur g1) = CURSOR_BLINK_MS / MAIN_LOOP_MIN_MS - 1
    /\ cursor_drawn (cur g1) = cursor_drawn (cur g)
    /\ cursor_draw_x (cur g1) = cursor_draw_x (cur g)
    /\ cursor_draw_y (cur g1) = cursor_draw_y (cur g)
    /\ saved_cursor_char (cur g1) = saved_cursor_char (cur g)
    /\ saved_cursor_fg (cur g1) = saved_cursor_fg (cur g).
Proof.
  intros Hv Hm Hc.
  exists (on_cur (set_cursor_blink_counter (Z.of_nat 49)) g). split.
  - replace (Nat.iter 50 cursor_blink g)
      with (cursor_blink (Nat.iter 49 cursor_blink g))
      by (symmetry; apply (Nat.iter_succ 49)).
    by rewrite (cursor_blink_idle_from_0 49 g Hv Hm Hc) by lia.
  - autorewrite with frame. cur_fields. repeat split; reflexivity.
Qed.

(** X20.  What a blink does to the cell under the cursor.  From a state
    with the cursor not drawn, the 50th turn of the blink block shows the
    glyph of the cursor style in the current colours at the cursor cell,
    and the 100th turn puts back the glyph and the foreground that were
    there; the background of the cell is not put back, it becomes the
    current background.  No other cell of the grid changes. *)
Theorem blink_puts_back_glyph_and_foreground (g : globals) :
  cursor_visible (term g) = true -> cursor_menu_mode (menu g) = false ->
  cursor_blink_counter (cur g) = 0 -> cursor_drawn (cur g) = false ->
  cursor_in_grid g -> screen_ok (scr g) -> glyphs_ok (scr g) -> colours_ok (thm g) ->
  let T := Z.to_nat (CURSOR_BLINK_MS / MAIN_LOOP_MIN_MS) in
  let x := cursor_x (term g) in
  let y := cursor_y (term g) in
  let shown := scr (Nat.iter T cursor_blink g) in
  let hidden := scr (Nat.iter (T + T) cursor_blink g) in
  glyph_at x y shown = cursor_glyph (current_cursor (thm g))
  /\ get_colour x y shown = (current_fg (thm g), current_bg (thm g))
  /\ glyph_at x y hidden = glyph_at x y (scr g)
  /\ get_colour x y hidden = (fst (get_colour x y (scr g)), current_bg (thm g))
  /\ forall x' y', in_grid x' y' -> (x', y') <> (x, y) ->
       same_cell x' y' (scr g) shown /\ same_cell x' y' (scr g) hidden.
Proof.
  intros Hv Hm Hc Hd Hg Hok Hgl (Hfg & Hbg). cbv zeta.
  change (in_grid (cursor_x (term g)) (cursor_y (term g))) in Hg.
  rewrite Nat.iter_add, blink_turns.
  destruct (blink_before_toggle g Hv Hm Hc)
    as (g1 & -> & Ht1 & Hm1 & Hh1 & Hs1 & Hc1 & Hd1 & _).
  rewrite <- Ht1, <- Hh1, <- Hs1.
  rewrite <- Ht1 in Hv, Hg. rewrite <- Hm1 in Hm. rewrite <- Hd1 in Hd.
  rewrite <- Hs1 in Hok, Hgl. rewrite <- Hh1 in Hfg, Hbg.
  clear Hc Ht1 Hm1 Hh1 Hs1 Hd1 g.
  destruct (cursor_blink_toggle g1 Hv Hm Hc1) as (Hd2 & Hc2 & Ht2 & Hm2 & Hh2).
  destruct (cursor_blink_draw g1 Hv Hm Hc1 Hd) as (Hs2 & Hx2 & Hy2 & Hsc2 & Hsf2).
  cbv zeta in Hd2, Hc2, Ht2, Hm2, Hh2, Hs2, Hx2, Hy2, Hsc2, Hsf2.
  rewrite Hd in Hd2. cbn [negb] in Hd2.
  remember (cursor_blink g1) as g2 eqn:E2. clear E2.
  destruct (write_cell_twice (cursor_x (term g1)) (cursor_y (term g1))
              32 0 (current_bg (thm g1))
              (cursor_glyph (current_cursor (thm g1)))
              (current_fg (thm g1)) (current_bg (thm g1)) (scr g1) Hok Hg)
    as (Hok2 & Hglyph2 & Hcol2 & Hoth2).
  cbv zeta in Hok2, Hglyph2, Hcol2, Hoth2.
  remember (set_colour (cursor_x (term g1)) (cursor_y (term g1))
              (current_fg (thm g1)) (current_bg (thm g1))
              (set_char (cursor_x (term g1)) (cursor_y (term g1))
                 (cursor_glyph (current_cursor (thm g1)))
                 (set_colour (cursor_x (term g1)) (cursor_y (term g1)) 0
                    (current_bg (thm g1))
                    (set_char (cursor_x (term g1)) (cursor_y (term g1)) 32 (scr g1)))))
    as s2 eqn:Es2. clear Es2.
  rewrite cursor_glyph_byte in Hglyph2.
  rewrite !small_colour in Hcol2 by done.
  assert (Hshown : glyph_at (cursor_x (term g1)) (cursor_y (term g1)) (scr g2)
                   = cursor_glyph (current_cursor (thm g1))
                   /\ get_colour (cursor_x (term g1)) (cursor_y (term g1)) (scr g2)
                      = (current_fg (thm g1), current_bg (thm g1))
                   /\ forall x' y', in_grid x' y' ->
                        (x', y') <> (cursor_x (term g1), cursor_y (term g1)) ->
                        same_cell x' y' (scr g1) (scr g2)).
  { rewrite Hs2, glyph_at_copy, get_colour_copy. repeat split; try done.
    - apply (same_cell_trans _ _ _ s2); [by apply Hoth2 | apply same_cell_copy].
    - intros p Hp.
      destruct (same_cell_trans x' y' (scr g1) s2 (copy_back_to_front s2)) as (_ & Hn);
        [by apply Hoth2 | apply same_cell_copy | by apply Hn]. }
  destruct Hshown as (Hsg & Hsc & Hso).
  assert (Hok2' : screen_ok (scr g2)) by (rewrite Hs2; by apply screen_ok_copy).
  assert (Hv2 : cursor_visible (term g2) = true) by (by rewrite Ht2).
  assert (Hm2' : cursor_menu_mode (menu g2) = false) by (by rewrite Hm2).
  destruct (blink_before_toggle g2 Hv2 Hm2' Hc2)
    as (g3 & -> & Ht3 & Hm3 & Hh3 & Hs3 & Hc3 & Hd3 & Hx3 & Hy3 & Hsc3 & Hsf3).
  rewrite <- Ht3 in Hv2. rewrite <- Hm3 in Hm2'.
  rewrite Hd2 in Hd3.
  rewrite (cursor_blink_undraw g3 Hv2 Hm2' Hc3 Hd3).
  rewrite Hx3, Hy3, Hsc3, Hsf3, Hh3, Hs3, Hx2, Hy2, Hsc2, Hsf2, Hh2.
  destruct (write_cell_once (cursor_x (term g1)) (cursor_y (term g1))
              (glyph_at (cursor_x (term g1)) (cursor_y (term g1)) (scr g1))
              (fst (get_colour (cursor_x (term g1)) (cursor_y (term g1)) (scr g1)))
              (current_bg (thm g1)) (scr g2) Hok2' Hg)
    as (Hok4 & Hglyph4 & Hcol4 & Hoth4).
  cbv zeta in Hok4, Hglyph4, Hcol4, Hoth4.
  remember (set_colour (cursor_x (term g1)) (cursor_y (term g1))
              (fst (get_colour (cursor_x (term g1)) (cursor_y (term g1)) (scr g1)))
              (current_bg (thm g1))
              (set_char (cursor_x (term g1)) (cursor_y (term g1))
                 (glyph_at (cursor_x (term g1)) (cursor_y (term g1)) (scr g1)) (scr g2)))
    as s4 eqn:Es4. clear Es4.
  rewrite glyph_at_copy, get_colour_copy.
  rewrite !small_colour in Hcol4 by (done || apply get_colour_range).
  assert (Hbyte : uint8 (glyph_at (cursor_x (term g1)) (cursor_y (term g1)) (scr g1))
                  = glyph_at (cursor_x (term g1)) (cursor_y (term g1)) (scr g1)).
  { unfold uint8. apply Z.mod_small. unfold glyph_at.
    apply rd_byte. exact Hgl. }
  rewrite Hbyte in Hglyph4.
  split; [exact Hsg|]. split; [exact Hsc|]. split; [exact Hglyph4|].
  split; [exact Hcol4|].
  intros x' y' Hg' Hne. split; [by apply Hso|].
  apply (same_cell_trans _ _ _ (scr g2)); [by apply Hso|].
  apply (same_cell_trans _ _ _ s4); [by apply Hoth4 | apply same_cell_copy].
Qed.

Lemma init_glyphs_ok : glyphs_ok (scr init_globals).
Proof.
  unfold glyphs_ok.
  replace (charbuf_back (scr init_globals)) with (replicate 2400 32)
    by (vm_compute; reflexivity).
  apply Forall_replicate. lia.
Qed.

Lemma blink_puts_back_glyph_and_foreground_witness :
  let T := Z.to_nat (CURSOR_BLINK_MS / MAIN_LOOP_MIN_MS) in
  glyph_at 0 0 (scr (Nat.iter (T + T) cursor_blink init_globals)) = 32
  /\ get_colour 0 0 (scr (Nat.iter (T + T) cursor_blink init_globals))
     = (fst (get_colour 0 0 (scr init_globals)), current_bg (thm init_globals)).
Proof.
  cbv zeta.
  destruct (blink_puts_back_glyph_and_foreground init_globals)
    as (_ & _ & Hglyph & Hcol & _).
  - reflexivity.
  - reflexivity.
  - reflexivity.
  - reflexivity.
  - unfold cursor_in_grid, CHAR_COLS, CHAR_ROWS. vm_compute. repeat split; discriminate.
  - exact init_screen_ok.
  - exact init_glyphs_ok.
  - unfold colours_ok. vm_compute. repeat split; discriminate.
  - split; [exact Hglyph | exact Hcol].
Defined.

(** ** Where the cursor is drawn *)

(** The record of the drawn cursor after the redraw block has run. *)
Lemma redraw_cursor_cur (g : globals) :
  cursor_visible (term g) = true -> cursor_menu_mode (menu g) = false ->
  cursor_drawn (cur (redraw_cursor g)) = true
  /\ cursor_draw_x (cur (redraw_cursor g)) = cursor_x (term g)
  /\ cursor_draw_y (cur (redraw_cursor g)) = cursor_y (term g).
Proof.
  intros Hv Hm. unfold redraw_cursor. rewrite Hv, Hm. cbn [andb negb]. cbv zeta.
  unfold paint_cursor_cell. cbv zeta.
  destruct (cursor_drawn (cur g)); autorewrite with frame; cur_fields;
    unfold restore_cursor_cell; autorewrite with frame; done.
Qed.

Lemma redraw_cursor_skip (g : globals) :
  cursor_visible (term g) && negb (cursor_menu_mode (menu g)) = false ->
  redraw_cursor g = g.
Proof. intros Hc. unfold redraw_cursor. by rewrite Hc. Qed.

Lemma cursor_blink_drawn_at_cursor (g : globals) :
  drawn_at_cursor g -> drawn_at_cursor (cursor_blink g).
Proof.
  unfold drawn_at_cursor, cursor_blink. intros Hinv.
  destruct (cursor_visible (term g) && negb (cursor_menu_mode (menu g))); [|exact Hinv].
  cbv zeta. autorewrite with frame. cur_fields.
  destruct (uint32 (cursor_blink_counter (cur g) + 1)
            >=? CURSOR_BLINK_MS / MAIN_LOOP_MIN_MS).
  - autorewrite with frame. cur_fields.
    destruct (cursor_drawn (cur g)); autorewrite with frame; cur_fields.
    + unfold restore_cursor_cell. autorewrite with frame. cur_fields. discriminate.
    + unfold paint_cursor_cell. cbv zeta. autorewrite with frame. cur_fields. done.
  - autorewrite with frame. cur_fields. exact Hinv.
Qed.

Section Drawn.
Context `{LibC}.

Lemma handle_char_drawn_at_cursor (c : Z) (g : globals) :
drawn_at_cursor (handle_char c g).
Proof.
unfold drawn_at_cursor. rewrite handle_char_unfold.
pose proof (line_ending_filter_frame c (prologue g)) as Hfr. cbv zeta in Hfr.
destruct (line_ending_filter c (prologue g)) as [g' sw]. cbn [fst] in Hfr.
destruct Hfr as (_ & Hcur & _).
assert (Hd : cursor_drawn (cur g') = false) by (rewrite Hcur; apply prologue_drawn).
clear Hcur.
destruct sw; [congruence|]. unfold dispatch_char.
destruct (escape_mode (term g')); [rewrite handle_escape_drawn; congruence|].
destruct (fg_color_menu_mode (menu g')); [rewrite color_menu_char_cur; congruence|].
destruct (bg_color_menu_mode (menu g')); [rewrite color_menu_char_cur; congruence|].
destruct (cursor_menu_mode (menu g')) eqn:Hm; [rewrite cursor_menu_char_drawn; congruence|].
destruct (theme_select_mode (menu g')); [rewrite theme_char_cur; congruence|].
autorewrite with frame.
remember (handle_normal c g') as h eqn:Eh.
assert (Hdh : cursor_drawn (cur h) = false) by (rewrite Eh, handle_normal_cur; exact Hd).
clear Eh.
destruct (cursor_visible (term h) && negb (cursor_menu_mode (menu h))) eqn:Hguard.
- apply andb_prop in Hguard. destruct Hguard as (Hv & Hnm).
  apply negb_true_iff in Hnm.
  destruct (redraw_cursor_cur h Hv Hnm) as (_ & -> & ->). done.
- rewrite redraw_cursor_skip by exact Hguard. congruence.
Qed.

(** X21.  A drawn cursor is always on the cursor position.  Whatever the
  two cores do, in whatever order (a display line rendered, a byte
  handled, a turn of the blink block), when the cursor is drawn the cell
  it was drawn on is the cell of the cursor; the cell that a later
  removal restores is therefore the cell that shows the cursor. *)
Theorem drawn_cursor_is_on_cursor_position (acts : list actor) (s : system) :
drawn_at_cursor (globals_of s) ->
drawn_at_cursor (globals_of (foldl (fun s a => run a s) s acts)).
Proof.
revert s. induction acts as [|a acts IH]; intros s Hinv; [exact Hinv|].
cbn [foldl]. apply IH. destruct s as [g y]. destruct a as [|c|]; cbn [run globals_of line].
- unfold core1_line. destruct (_ && _); [|exact Hinv].
  unfold drawn_at_cursor, perform_swap in *. by autorewrite with frame.
- apply handle_char_drawn_at_cursor.
- by apply cursor_blink_drawn_at_cursor.
Qed.
End Drawn.

Lemma drawn_cursor_is_on_cursor_position_witness :
  drawn_at_cursor
    (globals_of (foldl (fun s a => @run newlib a s) (mk_system init_globals 0)
                   [Terminal 65; Blink; Render; Terminal 10; Blink])).
Proof.
  apply drawn_cursor_is_on_cursor_position.
  unfold drawn_at_cursor. cbn [globals_of]. vm_compute. discriminate.
Defined.

(** ** Typing *)

Lemma glyph_at_back (x y : Z) (s s' : screen_t) :
  charbuf_back s' = charbuf_back s -> glyph_at x y s' = glyph_at x y s.
Proof. unfold glyph_at. by intros ->. Qed.

Lemma get_colour_back (x y : Z) (s s' : screen_t) :
  colourbuf_back s' = colourbuf_back s -> get_colour x y s' = get_colour x y s.
Proof. unfold get_colour. by intros ->. Qed.

Lemma screen_ok_back (s s' : screen_t) :
  charbuf_back s' = charbuf_back s -> colourbuf_back s' = colourbuf_back s ->
  screen_ok s -> screen_ok s'.
Proof. unfold screen_ok. by intros -> ->. Qed.

Lemma text_at_off_cursor (g : globals) (x y : Z) :
  drawn_at_cursor g -> (x, y) <> (cursor_x (term g), cursor_y (term g)) ->
  text_at g x y = glyph_at x y (scr g).
Proof.
  intros Hinv Hne. unfold text_at.
  destruct (cursor_drawn (cur g)) eqn:Hd; [|reflexivity].
  destruct (Hinv Hd) as (Hx & Hy). rewrite Hx, Hy. cbn [andb].
  destruct (Z.eqb_spec x (cursor_x (term g))) as [-> |]; [|reflexivity].
  destruct (Z.eqb_spec y (cursor_y (term g))) as [-> |]; [|reflexivity].
  by destruct Hne.
Qed.

(** The head of [handle_char] leaves on the screen the text without the
    cursor, apart from the cell of the cursor. *)
Lemma prologue_text (g : globals) :
  drawn_at_cursor g -> cursor_in_grid g -> screen_ok (scr g) ->
  screen_ok (scr (prologue g))
  /\ forall x y, in_grid x y -> (x, y) <> (cursor_x (term g), cursor_y (term g)) ->
       glyph_at x y (scr (prologue g)) = text_at g x y.
Proof.
  intros Hinv Hg Hok. rewrite prologue_scr.
  assert (Hoff : forall x y, (x, y) <> (cursor_x (term g), cursor_y (term g)) ->
                   text_at g x y = glyph_at x y (scr g))
    by (intros; by apply text_at_off_cursor).
  unfold remove_cursor. destruct (cursor_drawn (cur g)) eqn:Hd.
  - destruct (Hinv Hd) as (Hx & Hy).
    autorewrite with frame. unfold restore_cursor_cell. autorewrite with frame.
    rewrite Hx, Hy.
    destruct (write_cell_once (cursor_x (term g)) (cursor_y (term g))
                (saved_cursor_char (cur g)) (saved_cursor_fg (cur g))
                (current_bg (thm g)) (scr g) Hok Hg) as (Hok1 & _ & _ & Hoth).
    cbv zeta in Hok1, Hoth. split; [exact Hok1|].
    intros x y Hgxy Hne. rewrite Hoff by done.
    by destruct (Hoth x y Hgxy Hne) as (-> & _).
  - split; [exact Hok|]. intros x y _ Hne. by rewrite Hoff.
Qed.

(** The redraw block on a state without a drawn cursor: the text of every
    cell is the glyph that the cell had, and the colours of every cell but
    the cursor's are kept. *)
Lemma text_after_redraw (h : globals) :
  cursor_visible (term h) = true -> cursor_menu_mode (menu h) = false ->
  cursor_drawn (cur h) = false -> cursor_in_grid h -> screen_ok (scr h) ->
  let g' := safe_request_swap (redraw_cursor h) in
  (forall x y, in_grid x y -> text_at g' x y = glyph_at x y (scr h))
  /\ (forall x y, in_grid x y -> (x, y) <> (cursor_x (term h), cursor_y (term h)) ->
        get_colour x y (scr g') = get_colour x y (scr h))
  /\ term g' = term h /\ thm g' = thm h /\ menu g' = menu h
  /\ screen_ok (scr g').
Proof.
  intros Hv Hm Hd Hg Hok. cbv zeta.
  destruct (safe_request_swap_back (redraw_cursor h)) as (Hcb & Hkb).
  unfold text_at. autorewrite with frame.
  assert (Hscr : scr (redraw_cursor h)
                 = set_colour (cursor_x (term h)) (cursor_y (term h))
                     (current_fg (thm h)) (current_bg (thm h))
                     (set_char (cursor_x (term h)) (cursor_y (term h))
                        (cursor_glyph (current_cursor (thm h)))
                        (set_colour (cursor_x (term h)) (cursor_y (term h)) 0
                           (current_bg (thm h))
                           (set_char (cursor_x (term h)) (cursor_y (term h)) 32 (scr h))))
                 /\ cursor_drawn (cur (redraw_cursor h)) = true
                 /\ cursor_draw_x (cur (redraw_cursor h)) = cursor_x (term h)
                 /\ cursor_draw_y (cur (redraw_cursor h)) = cursor_y (term h)
                 /\ saved_cursor_char (cur (redraw_cursor h))
                    = glyph_at (cursor_x (term h)) (cursor_y (term h)) (scr h)).
  { unfold redraw_cursor. rewrite Hv, Hm, Hd. cbn [andb negb]. cbv zeta.
    unfold paint_cursor_cell. cbv zeta. autorewrite with frame. cur_fields.
    repeat split; reflexivity. }
  destruct Hscr as (Hscr & Hdr & Hdx & Hdy & Hsc).
  rewrite Hdr, Hdx, Hdy, Hsc. cbn [andb].
  change (in_grid (cursor_x (term h)) (cursor_y (term h))) in Hg.
  destruct (write_cell_twice (cursor_x (term h)) (cursor_y (term h))
              32 0 (current_bg (thm h)) (cursor_glyph (current_cursor (thm h)))
              (current_fg (thm h)) (current_bg (thm h)) (scr h) Hok Hg)
    as (Hok2 & _ & _ & Hoth).
  cbv zeta in Hok2, Hoth. rewrite <- Hscr in Hok2, Hoth.
  remember (scr (redraw_cursor h)) as s2 eqn:E2. clear E2 Hscr.
  remember (scr (safe_request_swap (redraw_cursor h))) as s3 eqn:E3. clear E3.
  split; [|split].
  - intros x y Hgxy.
    destruct (Z.eqb_spec x (cursor_x (term h))) as [-> | Hx].
    + destruct (Z.eqb_spec y (cursor_y (term h))) as [-> | Hy]; [reflexivity|].
      cbn [andb]. rewrite (glyph_at_back _ _ s2 s3 Hcb).
      destruct (Hoth (cursor_x (term h)) y Hgxy) as (-> & _); [congruence | reflexivity].
    + cbn [andb]. rewrite (glyph_at_back _ _ s2 s3 Hcb).
      destruct (Hoth x y Hgxy) as (-> & _); [congruence | reflexivity].
  - intros x y Hgxy Hne. rewrite (get_colour_back _ _ s2 s3 Hkb).
    apply same_cell_colour. by apply Hoth.
  - split; [reflexivity|]. split; [reflexivity|]. split; [reflexivity|].
    by apply (screen_ok_back s2 s3).
Qed.

(** A line advance above the last row does not touch the back buffer. *)
Lemma new_line_no_scroll (g : globals) :
  0 <= cursor_y (term g) < CHAR_ROWS - 1 ->
  charbuf_back (scr (new_line g)) = charbuf_back (scr g)
  /\ colourbuf_back (scr (new_line g)) = colourbuf_back (scr g).
Proof.
  intros Hy. unfold new_line. cbv zeta. autorewrite with frame. proj.
  unfold uint16, CHAR_ROWS in *. rewrite Z.mod_small by lia.
  destruct (Z.geb_spec (cursor_y (term g) + 1) 30); [lia|].
  match goal with
  | |- context [safe_request_swap ?g0] => destruct (safe_request_swap_back g0) as (-> & ->)
  end.
  by autorewrite with frame.
Qed.

(** The [default] case of the [switch] of [handle_char]. *)
Lemma handle_normal_default (c : Z) (g : globals) :
  c <> 6 -> c <> 2 -> c <> 20 -> c <> 14 -> c <> 27 -> c <> 13 -> c <> 10 -> c <> 8 ->
  handle_normal c g
  = let g1 := on_swp (set_buffer_dirty true)
                (on_term (set_cursor_x (uint16 (cursor_x (term g) + 1)))
                   (on_scr (fun sc =>
                      set_colour (cursor_x (term g)) (cursor_y (term g))
                        (current_fg (thm g)) (current_bg (thm g))
                        (set_char (cursor_x (term g)) (cursor_y (term g)) c sc)) g)) in
    if uint16 (cursor_x (term g) + 1) >=? CHAR_COLS then new_line g1 else g1.
Proof.
  intros H6 H2 H20 H14 H27 H13 H10 H8. unfold handle_normal.
  apply Z.eqb_neq in H6, H2, H20, H14, H27, H13, H10, H8.
  rewrite H6, H2, H20, H14, H27, H13, H10, H8. cbv zeta.
  autorewrite with frame. proj. reflexivity.
Qed.

Section Typing.
Context `{LibC}.

(** The state after the [switch] for an ordinary byte that does not make
  the screen scroll: the cell of the cursor is written and the cursor
  advances, to the start of the next row from the last column. *)
Lemma handle_normal_types (c : Z) (g : globals) :
c <> 6 -> c <> 2 -> c <> 20 -> c <> 14 -> c <> 27 -> c <> 13 -> c <> 10 -> c <> 8 ->
cursor_in_grid g ->
cursor_x (term g) < CHAR_COLS - 1 \/ cursor_y (term g) < CHAR_ROWS - 1 ->
let h := handle_normal c g in
let written := set_colour (cursor_x (term g)) (cursor_y (term g))
                 (current_fg (thm g)) (current_bg (thm g))
                 (set_char (cursor_x (term g)) (cursor_y (term g)) c (scr g)) in
charbuf_back (scr h) = charbuf_back written
/\ colourbuf_back (scr h) = colourbuf_back written
/\ (cursor_x (term h), cursor_y (term h))
   = (if cursor_x (term g) <? CHAR_COLS - 1
      then (cursor_x (term g) + 1, cursor_y (term g))
      else (0, cursor_y (term g) + 1))
/\ cursor_visible (term h) = cursor_visible (term g)
/\ menu h = menu g /\ thm h = thm g /\ cur h = cur g.
Proof.
intros H6 H2 H20 H14 H27 H13 H10 H8 (Hx & Hy) Hroom. cbv zeta.
rewrite handle_normal_visible, handle_normal_thm, handle_normal_cur.
rewrite handle_normal_default by done. cbv zeta.
unfold uint16, CHAR_COLS, CHAR_ROWS in *. rewrite Z.mod_small by lia.
destruct (Z.geb_spec (cursor_x (term g) + 1) 80) as [Hlast | Hin];
  destruct (Z.ltb_spec (cursor_x (term g)) (80 - 1)); try lia.
- match goal with
  | |- context [new_line ?g0] =>
    destruct (new_line_no_scroll g0) as (-> & ->);
      [autorewrite with frame; proj; unfold CHAR_ROWS; lia|]
  end.
  autorewrite with frame. proj. unfold next_row, uint16, CHAR_ROWS.
  rewrite Z.mod_small by lia.
  destruct (Z.geb_spec (cursor_y (term g) + 1) 30); [lia|].
  repeat split; reflexivity.
- autorewrite with frame. proj. repeat split; reflexivity.
Qed.

(** X22.  Typing.  In normal mode a byte that is not one of the eight
  bytes with a case of their own (Ctrl+B, Ctrl+F, BS, LF, CR, Ctrl+N,
  Ctrl+T, ESC) is put on the cell of the cursor in the current colours,
  and the cursor moves one cell to the right, or to the start of the
  next row from the last column; control bytes and bytes above 126 are
  printed like any other.  The text of every other cell is unchanged.
  (Away from the last cell of the screen, where the screen scrolls.) *)
Theorem typed_byte_lands_on_cursor_cell (c : Z) (g : globals) :
in_normal g = true -> cursor_visible (term g) = true ->
drawn_at_cursor g -> cursor_in_grid g -> screen_ok (scr g) -> colours_ok (thm g) ->
0 <= c < 256 ->
c <> 6 -> c <> 2 -> c <> 20 -> c <> 14 -> c <> 27 -> c <> 13 -> c <> 10 -> c <> 8 ->
cursor_x (term g) < CHAR_COLS - 1 \/ cursor_y (term g) < CHAR_ROWS - 1 ->
let x := cursor_x (term g) in
let y := cursor_y (term g) in
let g' := handle_char c g in
(cursor_x (term g'), cursor_y (term g'))
= (if x <? CHAR_COLS - 1 then (x + 1, y) else (0, y + 1))
/\ text_at g' x y = c
/\ get_colour x y (scr g') = (current_fg (thm g), current_bg (thm g))
/\ forall x' y', in_grid x' y' -> (x', y') <> (x, y) ->
     text_at g' x' y' = text_at g x' y'.
Proof.
intros Hn Hv Hinv Hg Hok (Hfg & Hbg) Hc H6 H2 H20 H14 H27 H13 H10 H8 Hroom. cbv zeta.
rewrite handle_char_pass by done.
rewrite dispatch_char_normal by (by rewrite filtered_in_normal).
destruct (prologue_text g Hinv Hg Hok) as (Hok1 & Htext).
assert (Hm : cursor_menu_mode (menu g) = false).
{ unfold in_normal in Hn. repeat (apply andb_prop in Hn; destruct Hn as [Hn ?]).
  by apply negb_true_iff. }
assert (Hf : scr (filtered g) = scr (prologue g)
             /\ cursor_x (term (filtered g)) = cursor_x (term g)
             /\ cursor_y (term (filtered g)) = cursor_y (term g)
             /\ cursor_visible (term (filtered g)) = cursor_visible (term g)).
{ rewrite filtered_term. unfold filtered. autorewrite with frame. proj. done. }
destruct Hf as (Hfs & Hfx & Hfy & Hfv).
assert (Hg1 : cursor_in_grid (filtered g)).
{ unfold cursor_in_grid. by rewrite Hfx, Hfy. }
destruct (handle_normal_types c (filtered g)) as (Hcb & Hkb & Hpos & Hvis & Hmenu & Hthm & Hcur);
  [done | done | done | done | done | done | done | done | done
  | by rewrite Hfx, Hfy |].
cbv zeta in Hcb, Hkb, Hpos, Hvis, Hmenu, Hthm, Hcur.
rewrite Hfs, Hfx, Hfy, filtered_thm in Hcb, Hkb.
rewrite Hfx, Hfy in Hpos. rewrite Hfv in Hvis.
rewrite filtered_menu in Hmenu. rewrite filtered_thm in Hthm.
change (in_grid (cursor_x (term g)) (cursor_y (term g))) in Hg.
destruct (write_cell_once (cursor_x (term g)) (cursor_y (term g)) c
            (current_fg (thm g)) (current_bg (thm g)) (scr (prologue g)) Hok1 Hg)
  as (Hok2 & Hglyph & Hcol & Hoth).
cbv zeta in Hok2, Hglyph, Hcol, Hoth.
remember (set_colour (cursor_x (term g)) (cursor_y (term g))
            (current_fg (thm g)) (current_bg (thm g))
            (set_char (cursor_x (term g)) (cursor_y (term g)) c (scr (prologue g))))
  as written eqn:Ew. clear Ew.
remember (handle_normal c (filtered g)) as h eqn:Eh.
assert (Hdh : cursor_drawn (cur h) = false) by (rewrite Hcur; apply filtered_drawn).
clear Eh Hcur.
assert (Hgh : cursor_in_grid h).
{ unfold cursor_in_grid. destruct Hg as (Hx & Hy).
  unfold CHAR_COLS, CHAR_ROWS in *.
  destruct (Z.ltb_spec (cursor_x (term g)) (80 - 1));
    injection Hpos as Hpx Hpy; rewrite Hpx, Hpy; lia. }
assert (Hokh : screen_ok (scr h)) by (by apply (screen_ok_back written)).
destruct (text_after_redraw h) as (Htx & Hcl & Hterm & _);
  [by rewrite Hvis | by rewrite Hmenu | done | done | done |].
cbv zeta in Htx, Hcl, Hterm.
remember (safe_request_swap (redraw_cursor h)) as g' eqn:Eg'. clear Eg'.
rewrite Hterm. split; [exact Hpos|]. split; [|split].
- rewrite Htx by done. rewrite (glyph_at_back _ _ written (scr h) Hcb), Hglyph.
  unfold uint8. apply Z.mod_small. lia.
- rewrite Hcl; [|done|].
  + rewrite (get_colour_back _ _ written (scr h) Hkb), Hcol.
    by rewrite !small_colour.
  + rewrite Hpos. destruct (Z.ltb_spec (cursor_x (term g)) (CHAR_COLS - 1));
      intros Heq; pose proof (f_equal fst Heq) as Hex;
        pose proof (f_equal snd Heq) as Hey; cbn [fst snd] in Hex, Hey; lia.
- intros x' y' Hg' Hne. rewrite Htx by done.
  rewrite (glyph_at_back _ _ written (scr h) Hcb).
  destruct (Hoth x' y' Hg' Hne) as (-> & _). by apply Htext.
Qed.
End Typing.

Lemma init_drawn_at_cursor : drawn_at_cursor init_globals.
Proof. unfold drawn_at_cursor. vm_compute. discriminate. Qed.

Lemma init_cursor_in_grid : cursor_in_grid init_globals.
Proof. unfold cursor_in_grid, CHAR_COLS, CHAR_ROWS. vm_compute. repeat split; discriminate. Qed.

Lemma init_colours_ok : colours_ok (thm init_globals).
Proof. unfold colours_ok. vm_compute. repeat split; discriminate. Qed.

Lemma typed_byte_lands_on_cursor_cell_witness :
  text_at (@handle_char newlib 65 init_globals) 0 0 = 65
  /\ cursor_x (term (@handle_char newlib 65 init_globals)) = 1.
Proof.
  destruct (@typed_byte_lands_on_cursor_cell newlib 65 init_globals)
    as (Hpos & Htext & _).
  - reflexivity.
  - reflexivity.
  - exact init_drawn_at_cursor.
  - exact init_cursor_in_grid.
  - exact init_screen_ok.
  - exact init_colours_ok.
  - lia.
  - lia.
  - lia.
  - lia.
  - lia.
  - lia.
  - lia.
  - lia.
  - lia.
  - left. vm_compute. reflexivity.
  - split; [exact Htext|]. exact (f_equal fst Hpos).
Defined.

(** ** Typing on the last cell of the screen *)

(** A line advance on the last row scrolls. *)
Lemma new_line_scrolls (g : globals) :
  cursor_y (term g) = CHAR_ROWS - 1 ->
  let s4 := scroll_paint_last (current_fg (thm g)) (current_bg (thm g))
              (scroll_clear_last (scroll_planes (scroll_glyphs (scr g)))) in
  charbuf_back (scr (new_line g)) = charbuf_back s4
  /\ colourbuf_back (scr (new_line g)) = colourbuf_back s4.
Proof.
  intros Hy. cbv zeta. unfold new_line. cbv zeta. autorewrite with frame. proj.
  rewrite Hy.
  change (uint16 (CHAR_ROWS - 1 + 1) >=? CHAR_ROWS) with true. cbv iota.
  match goal with
  | |- context [safe_request_swap ?g0] => destruct (safe_request_swap_back g0) as (-> & ->)
  end.
  autorewrite with frame. rewrite scroll_up_scr. autorewrite with frame.
  remember (scroll_paint_last (current_fg (thm g)) (current_bg (thm g))
              (scroll_clear_last (scroll_planes (scroll_glyphs (scr g))))) as s4 eqn:E4.
  clear E4.
  by destruct (copy_back_to_front_fields s4) as (_ & _ & -> & ->).
Qed.

Section LastCell.
Context `{LibC}.

(** X23.  Typing on the last cell of the screen scrolls.  In normal mode
  an ordinary byte typed with the cursor on column 79 of row 29 ends on
  column 79 of row 28: the byte is written, the cursor wraps, and the
  line advance scrolls the screen.  Every row shows the text of the row
  below it, the last row is blank, and the cursor is at the start of the
  last row. *)
Theorem typing_on_last_cell_scrolls (c : Z) (g : globals) :
in_normal g = true -> cursor_visible (term g) = true ->
drawn_at_cursor g -> screen_ok (scr g) -> colours_ok (thm g) ->
0 <= c < 256 ->
c <> 6 -> c <> 2 -> c <> 20 -> c <> 14 -> c <> 27 -> c <> 13 -> c <> 10 -> c <> 8 ->
cursor_x (term g) = CHAR_COLS - 1 -> cursor_y (term g) = CHAR_ROWS - 1 ->
let g' := handle_char c g in
cursor_x (term g') = 0 /\ cursor_y (term g') = CHAR_ROWS - 1
/\ text_at g' (CHAR_COLS - 1) (CHAR_ROWS - 2) = c
/\ (forall x y, in_grid x y -> y < CHAR_ROWS - 1 ->
      (x, y) <> (CHAR_COLS - 1, CHAR_ROWS - 2) ->
      text_at g' x y = text_at g x (y + 1))
/\ (forall x, 0 <= x < CHAR_COLS -> text_at g' x (CHAR_ROWS - 1) = 32).
Proof.
intros Hn Hv Hinv Hok (Hfg & Hbg) Hc H6 H2 H20 H14 H27 H13 H10 H8 Hx Hy. cbv zeta.
assert (Hg : cursor_in_grid g).
{ unfold cursor_in_grid. rewrite Hx, Hy. unfold CHAR_COLS, CHAR_ROWS. lia. }
rewrite handle_char_pass by done.
rewrite dispatch_char_normal by (by rewrite filtered_in_normal).
destruct (prologue_text g Hinv Hg Hok) as (Hok1 & Htext).
assert (Hm : cursor_menu_mode (menu g) = false).
{ unfold in_normal in Hn. repeat (apply andb_prop in Hn; destruct Hn as [Hn ?]).
  by apply negb_true_iff. }
assert (Hf : scr (filtered g) = scr (prologue g)
             /\ cursor_x (term (filtered g)) = cursor_x (term g)
             /\ cursor_y (term (filtered g)) = cursor_y (term g)
             /\ cursor_visible (term (filtered g)) = cursor_visible (term g)).
{ rewrite filtered_term. unfold filtered. autorewrite with frame. proj. done. }
destruct Hf as (Hfs & Hfx & Hfy & Hfv).
pose proof (handle_normal_visible c (filtered g)) as Hvis.
pose proof (handle_normal_thm c (filtered g)) as Hthm.
pose proof (handle_normal_cur c (filtered g)) as Hcur.
assert (Hh : exists written,
           written = set_colour (cursor_x (term g)) (cursor_y (term g))
                       (current_fg (thm g)) (current_bg (thm g))
                       (set_char (cursor_x (term g)) (cursor_y (term g)) c
                          (scr (prologue g)))
           /\ charbuf_back (scr (handle_normal c (filtered g)))
              = charbuf_back
                  (scroll_paint_last (current_fg (thm g)) (current_bg (thm g))
                     (scroll_clear_last (scroll_planes (scroll_glyphs written))))
           /\ colourbuf_back (scr (handle_normal c (filtered g)))
              = colourbuf_back
                  (scroll_paint_last (current_fg (thm g)) (current_bg (thm g))
                     (scroll_clear_last (scroll_planes (scroll_glyphs written))))
           /\ cursor_x (term (handle_normal c (filtered g))) = 0
           /\ cursor_y (term (handle_normal c (filtered g))) = CHAR_ROWS - 1
           /\ menu (handle_normal c (filtered g)) = menu g).
{ eexists. split; [reflexivity|].
  rewrite handle_normal_default by done. cbv zeta.
  rewrite Hfx, Hfy, filtered_thm, Hx.
  change (uint16 (CHAR_COLS - 1 + 1) >=? CHAR_COLS) with true. cbv iota.
  match goal with
  | |- context [new_line ?g0] =>
    destruct (new_line_scrolls g0) as (-> & ->);
      [autorewrite with frame; proj; by rewrite Hfy|]
  end.
  autorewrite with frame. proj. rewrite ?filtered_thm, ?Hfs, ?Hfy, ?Hy, ?filtered_menu.
  repeat split; try reflexivity. }
destruct Hh as (written & Ew & Hcb & Hkb & Hhx & Hhy & Hmenu).
change (in_grid (cursor_x (term g)) (cursor_y (term g))) in Hg.
destruct (write_cell_once (cursor_x (term g)) (cursor_y (term g)) c
            (current_fg (thm g)) (current_bg (thm g)) (scr (prologue g)) Hok1 Hg)
  as (Hok2 & Hglyph & _ & Hoth).
cbv zeta in Hok2, Hglyph, Hoth. rewrite <- Ew in Hok2, Hglyph, Hoth. clear Ew.
destruct (scroll_stages_spec (current_fg (thm g)) (current_bg (thm g)) written Hok2)
  as (Hok4 & Hgl4 & _).
remember (scroll_paint_last (current_fg (thm g)) (current_bg (thm g))
            (scroll_clear_last (scroll_planes (scroll_glyphs written)))) as s4 eqn:E4.
clear E4.
remember (handle_normal c (filtered g)) as h eqn:Eh.
assert (Hdh : cursor_drawn (cur h) = false) by (rewrite Hcur; apply filtered_drawn).
clear Eh Hcur.
assert (Hgh : cursor_in_grid h).
{ unfold cursor_in_grid. rewrite Hhx, Hhy. unfold CHAR_COLS, CHAR_ROWS. lia. }
assert (Hokh : screen_ok (scr h)) by (by apply (screen_ok_back s4)).
destruct (text_after_redraw h) as (Htx & _ & Hterm & _);
  [by rewrite Hvis, Hfv | by rewrite Hmenu | done | done | done |].
cbv zeta in Htx, Hterm.
remember (safe_request_swap (redraw_cursor h)) as g' eqn:Eg'. clear Eg'.
rewrite Hterm. split; [exact Hhx|]. split; [exact Hhy|].
assert (Hrow : forall x y, in_grid x y ->
          text_at g' x y
          = if y <? CHAR_ROWS - 1 then glyph_at x (y + 1) written else 32).
{ intros x y Hgxy. rewrite Htx by done.
  rewrite (glyph_at_back _ _ s4 (scr h) Hcb). by apply Hgl4. }
split; [|split].
- rewrite Hrow by (unfold in_grid, CHAR_COLS, CHAR_ROWS; lia).
  change (CHAR_ROWS - 2 <? CHAR_ROWS - 1) with true. cbv iota.
  rewrite Hx, Hy in Hglyph.
  change (CHAR_ROWS - 2 + 1) with (CHAR_ROWS - 1). rewrite Hglyph.
  unfold uint8. apply Z.mod_small. lia.
- intros x y Hgxy Hylt Hne. rewrite Hrow by done.
  destruct (Z.ltb_spec y (CHAR_ROWS - 1)); [|lia].
  assert (Hg1 : in_grid x (y + 1)).
  { destruct Hgxy as (Hgx & Hgy). split; [done | lia]. }
  assert (Hne1 : (x, y + 1) <> (cursor_x (term g), cursor_y (term g))).
  { rewrite Hx, Hy. intros Heq. apply Hne.
    pose proof (f_equal fst Heq) as Hex. pose proof (f_equal snd Heq) as Hey.
    cbn [fst snd] in Hex, Hey. f_equal; [done | unfold CHAR_ROWS in *; lia]. }
  destruct (Hoth x (y + 1) Hg1 Hne1) as (-> & _). by apply Htext.
- intros x Hxr. rewrite Hrow by (split; [done | unfold CHAR_ROWS; lia]).
  by destruct (Z.ltb_spec (CHAR_ROWS - 1) (CHAR_ROWS - 1)); [lia|].
Qed.
End LastCell.

Lemma typing_on_last_cell_scrolls_witness :
  let g := @feed newlib [27; 91; 51; 48; 59; 56; 48; 72] init_globals in
  text_at (@handle_char newlib 65 g) (CHAR_COLS - 1) (CHAR_ROWS - 2) = 65
  /\ cursor_x (term (@handle_char newlib 65 g)) = 0
  /\ cursor_y (term (@handle_char newlib 65 g)) = CHAR_ROWS - 1.
Proof.
  cbv zeta.
  destruct (@typing_on_last_cell_scrolls newlib 65
              (@feed newlib [27; 91; 51; 48; 59; 56; 48; 72] init_globals))
    as (Hx & Hy & Htext & _).
  - vm_compute. reflexivity.
  - vm_compute. reflexivity.
  - unfold drawn_at_cursor. vm_compute. discriminate.
  - split; vm_compute; reflexivity.
  - unfold colours_ok. vm_compute. repeat split; discriminate.
  - lia.
  - lia.
  - lia.
  - lia.
  - lia.
  - lia.
  - lia.
  - lia.
  - lia.
  - vm_compute. reflexivity.
  - vm_compute. reflexivity.
  - split; [exact Htext | split; [exact Hx | exact Hy]].
Defined.

(** ** Backspace *)

(** The head of [handle_char] leaves on the screen the text without the
    cursor, when the glyph saved under the cursor is a byte. *)
Lemma prologue_text_all (g : globals) :
  drawn_at_cursor g -> cursor_in_grid g -> screen_ok (scr g) ->
  0 <= saved_cursor_char (cur g) < 256 ->
  forall x y, in_grid x y -> glyph_at x y (scr (prologue g)) = text_at g x y.
Proof.
  intros Hinv Hg Hok Hbyte x y Hgxy.
  destruct (decide ((x, y) = (cursor_x (term g), cursor_y (term g)))) as [Heq | Hne].
  - injection Heq as -> ->. rewrite prologue_scr. unfold text_at, remove_cursor.
    destruct (cursor_drawn (cur g)) eqn:Hd; [|reflexivity].
    destruct (Hinv Hd) as (Hx & Hy). rewrite Hx, Hy, !Z.eqb_refl. cbn [andb].
    autorewrite with frame. unfold restore_cursor_cell. autorewrite with frame.
    rewrite Hx, Hy.
    destruct (write_cell_once (cursor_x (term g)) (cursor_y (term g))
                (saved_cursor_char (cur g)) (saved_cursor_fg (cur g))
                (current_bg (thm g)) (scr g) Hok Hg) as (_ & -> & _).
    unfold uint8. apply Z.mod_small. lia.
  - by apply prologue_text.
Qed.

Section Backspace.
Context `{LibC}.

(** X24.  Backspace.  In normal mode BS on column 0 changes no text and
  leaves the cursor; on another column it moves the cursor one cell to
  the left and blanks that cell in the current colours, and the text of
  every other cell is unchanged: nothing to the right of the cursor is
  pulled in. *)
Theorem backspace_blanks_cell_on_the_left (g : globals) :
in_normal g = true -> cursor_visible (term g) = true ->
drawn_at_cursor g -> cursor_in_grid g -> screen_ok (scr g) ->
0 <= saved_cursor_char (cur g) < 256 ->
let x := cursor_x (term g) in
let y := cursor_y (term g) in
let g' := handle_char 8 g in
cursor_y (term g') = y
/\ (x = 0 ->
    cursor_x (term g') = 0
    /\ forall x' y', in_grid x' y' -> text_at g' x' y' = text_at g x' y')
/\ (0 < x ->
    cursor_x (term g') = x - 1
    /\ text_at g' (x - 1) y = 32
    /\ forall x' y', in_grid x' y' -> (x', y') <> (x - 1, y) ->
         text_at g' x' y' = text_at g x' y').
Proof.
intros Hn Hv Hinv Hg Hok Hbyte. cbv zeta.
rewrite handle_char_pass by lia.
rewrite dispatch_char_normal by (by rewrite filtered_in_normal).
pose proof (prologue_text_all g Hinv Hg Hok Hbyte) as Htext.
destruct (prologue_text g Hinv Hg Hok) as (Hok1 & _).
assert (Hm : cursor_menu_mode (menu g) = false).
{ unfold in_normal in Hn. repeat (apply andb_prop in Hn; destruct Hn as [Hn ?]).
  by apply negb_true_iff. }
assert (Hf : scr (filtered g) = scr (prologue g)
             /\ cursor_x (term (filtered g)) = cursor_x (term g)
             /\ cursor_y (term (filtered g)) = cursor_y (term g)
             /\ cursor_visible (term (filtered g)) = cursor_visible (term g)).
{ rewrite filtered_term. unfold filtered. autorewrite with frame. proj. done. }
destruct Hf as (Hfs & Hfx & Hfy & Hfv).
pose proof (handle_normal_visible 8 (filtered g)) as Hvis.
pose proof (handle_normal_cur 8 (filtered g)) as Hcur.
destruct Hg as (Hx & Hy).
assert (Hh : scr (handle_normal 8 (filtered g))
             = (if cursor_x (term g) >? 0
                then set_colour (cursor_x (term g) - 1) (cursor_y (term g))
                       (current_fg (thm g)) (current_bg (thm g))
                       (set_char (cursor_x (term g) - 1) (cursor_y (term g)) 32
                          (scr (prologue g)))
                else scr (prologue g))
             /\ cursor_x (term (handle_normal 8 (filtered g)))
                = (if cursor_x (term g) >? 0
                   then cursor_x (term g) - 1 else cursor_x (term g))
             /\ cursor_y (term (handle_normal 8 (filtered g))) = cursor_y (term g)
             /\ menu (handle_normal 8 (filtered g)) = menu g).
{ unfold handle_normal. cbn [Z.eqb Pos.eqb]. rewrite Hfx.
  destruct (cursor_x (term g) >? 0) eqn:Hpos.
  - cbv zeta. autorewrite with frame. proj.
    rewrite ?Hfx, ?Hfy, ?Hfs, ?filtered_thm, ?filtered_menu.
    unfold uint16, CHAR_COLS in *.
    apply Z.gtb_gt in Hpos. rewrite Z.mod_small by lia. done.
  - rewrite ?Hfs, ?Hfx, ?Hfy, ?filtered_menu. done. }
destruct Hh as (Hscr & Hhx & Hhy & Hmenu).
remember (handle_normal 8 (filtered g)) as h eqn:Eh.
assert (Hdh : cursor_drawn (cur h) = false) by (rewrite Hcur; apply filtered_drawn).
clear Eh Hcur.
assert (Hgh : cursor_in_grid h).
{ unfold cursor_in_grid. rewrite Hhx, Hhy.
  destruct (Z.gtb_spec (cursor_x (term g)) 0); unfold CHAR_COLS in *; lia. }
assert (Hokh : screen_ok (scr h)).
{ rewrite Hscr. destruct (cursor_x (term g) >? 0); [|exact Hok1].
  by apply screen_ok_set_colour, screen_ok_set_char. }
destruct (text_after_redraw h) as (Htx & _ & Hterm & _);
  [by rewrite Hvis, Hfv | by rewrite Hmenu | done | done | done |].
cbv zeta in Htx, Hterm.
remember (safe_request_swap (redraw_cursor h)) as g' eqn:Eg'. clear Eg'.
rewrite Hterm, Hhx, Hhy. split; [reflexivity|]. split.
- intros Hx0. rewrite Hx0 in *. cbn [Z.gtb Z.compare] in Hscr |- *.
  split; [reflexivity|].
  intros x' y' Hg'. rewrite Htx, Hscr by done. by apply Htext.
- intros Hpos.
  assert (Hb : (cursor_x (term g) >? 0) = true) by (apply Z.gtb_gt; lia).
  rewrite Hb in Hscr |- *.
  assert (Hgl : in_grid (cursor_x (term g) - 1) (cursor_y (term g))).
  { split; [unfold CHAR_COLS in *; lia | done]. }
  destruct (write_cell_once (cursor_x (term g) - 1) (cursor_y (term g)) 32
              (current_fg (thm g)) (current_bg (thm g)) (scr (prologue g)) Hok1 Hgl)
    as (_ & Hglyph & _ & Hoth).
  cbv zeta in Hglyph, Hoth. rewrite <- Hscr in Hglyph, Hoth.
  split; [reflexivity|]. split.
  + rewrite Htx by done. exact Hglyph.
  + intros x' y' Hg' Hne. rewrite Htx by done.
    destruct (Hoth x' y' Hg' Hne) as (-> & _). by apply Htext.
Qed.
End Backspace.

Lemma backspace_blanks_cell_on_the_left_witness :
  let g := @feed newlib [72; 105] init_globals in
  cursor_x (term (@handle_char newlib 8 g)) = 1
  /\ text_at (@handle_char newlib 8 g) 1 0 = 32
  /\ text_at (@handle_char newlib 8 g) 0 0 = 72.
Proof.
  cbv zeta.
  destruct (@backspace_blanks_cell_on_the_left newlib (@feed newlib [72; 105] init_globals))
    as (_ & _ & Hleft).
  - vm_compute. reflexivity.
  - vm_compute. reflexivity.
  - unfold drawn_at_cursor. intros _. vm_compute. split; reflexivity.
  - unfold cursor_in_grid, CHAR_COLS, CHAR_ROWS. vm_compute. repeat split; discriminate.
  - split; vm_compute; reflexivity.
  - vm_compute. split; [discriminate | reflexivity].
  - destruct Hleft as (Hx & Hblank & Hrest); [vm_compute; reflexivity|].
    split; [exact Hx|]. split; [exact Hblank|].
    rewrite Hrest.
    + vm_compute. reflexivity.
    + unfold in_grid, CHAR_COLS, CHAR_ROWS. lia.
    + vm_compute. discriminate.
Defined.

(** ** The menu overlay *)

Ltac menu_fields :=
  cbn [saved_chars saved_fg saved_bg menu_left menu_top
       set_saved_chars set_saved_fg set_saved_bg set_menu_left set_menu_top] in *.

(** *** Saving *)

Lemma save_menu_cell_in (sc : screen_t) (left top row col : Z) (m : menu_t) :
  in_grid (left + col) (top + row) ->
  save_menu_cell sc left top row col m
  = set_saved_bg (wr (saved_bg m) (row * MENU_BUFFER_WIDTH + col)
                    (snd (get_colour (left + col) (top + row) sc)))
      (set_saved_fg (wr (saved_fg m) (row * MENU_BUFFER_WIDTH + col)
                       (fst (get_colour (left + col) (top + row) sc)))
         (set_saved_chars (wr (saved_chars m) (row * MENU_BUFFER_WIDTH + col)
                             (glyph_at (left + col) (top + row) sc)) m)).
Proof.
  intros (Hx & Hy). unfold save_menu_cell. cbv zeta.
  unfold CHAR_COLS, CHAR_ROWS in *. rewrite !uint32_small by lia.
  destruct (Z.ltb_spec (left + col) 80); [|lia].
  destruct (Z.ltb_spec (top + row) 30); [|lia]. cbn [andb].
  unfold glyph_at, CHAR_COLS.
  by destruct (get_colour (left + col) (top + row) sc) as [fg bg].
Qed.

(** The saving loop: each slot of the rectangle holds the glyph and the
    decoded colours of its cell. *)
Lemma save_cells_spec (sc : screen_t) (left top : Z) (l : list (Z * Z)) (m : menu_t) :
  (forall p, p ∈ l ->
     0 <= p.1 < MENU_BUFFER_HEIGHT /\ 0 <= p.2 < MENU_BUFFER_WIDTH
     /\ in_grid (left + p.2) (top + p.1)) ->
  menu_arrays_ok m ->
  let m' := foldl (fun m p => save_menu_cell sc left top p.1 p.2 m) m l in
  menu_arrays_ok m' /\ menu_left m' = menu_left m /\ menu_top m' = menu_top m
  /\ forall p, p ∈ l ->
       rd (saved_chars m') (p.1 * MENU_BUFFER_WIDTH + p.2)
       = glyph_at (left + p.2) (top + p.1) sc
       /\ rd (saved_fg m') (p.1 * MENU_BUFFER_WIDTH + p.2)
          = fst (get_colour (left + p.2) (top + p.1) sc)
       /\ rd (saved_bg m') (p.1 * MENU_BUFFER_WIDTH + p.2)
          = snd (get_colour (left + p.2) (top + p.1) sc).
Proof.
  intros Hin Hok. cbv zeta. induction l as [|b l IH] using rev_ind.
  - cbn [foldl]. do 3 (split; [done|]). intros p Hp. by apply elem_of_nil in Hp.
  - rewrite foldl_snoc.
    destruct IH as (Hok' & Hl & Ht & Hcells).
    { intros p Hp. apply Hin, elem_of_app. by left. }
    remember (foldl (fun m p => save_menu_cell sc left top p.1 p.2 m) m l) as m1 eqn:E1.
    clear E1.
    destruct (Hin b) as (Hbr & Hbc & Hbg).
    { apply elem_of_app. right. by apply list_elem_of_singleton. }
    rewrite save_menu_cell_in by exact Hbg.
    destruct Hok' as (Hc1 & Hf1 & Hb1).
    unfold menu_arrays_ok. menu_fields. rewrite !length_wr.
    do 3 (split; [done|]).
    intros p Hp.
    destruct (decide (p = b)) as [-> | Hne].
    + unfold MENU_BUFFER_HEIGHT, MENU_BUFFER_WIDTH in *.
      rewrite !rd_wr_eq by lia. done.
    + assert (Hpl : p ∈ l).
      { apply elem_of_app in Hp. destruct Hp as [Hp | Hp]; [done|].
        apply list_elem_of_singleton in Hp. by destruct Hne. }
      destruct (Hin p) as (Hpr & Hpc & _); [apply elem_of_app; by left|].
      assert (Hidx : Z.to_nat (b.1 * MENU_BUFFER_WIDTH + b.2)
                     <> Z.to_nat (p.1 * MENU_BUFFER_WIDTH + p.2)).
      { unfold MENU_BUFFER_HEIGHT, MENU_BUFFER_WIDTH in *. intros Heq. apply Hne.
        destruct p as [pr pc], b as [br bc]. cbn [fst snd] in *.
        f_equal; lia. }
      rewrite !rd_wr_ne by exact Hidx. by apply Hcells.
Qed.

(** *** Painting inside the rectangle *)

Section Keeps.
Variable top : Z.
Hypothesis Htop : 0 <= top /\ top + MENU_BUFFER_HEIGHT <= CHAR_ROWS.

Lemma menu_rect_in_grid (x y : Z) : menu_rect top x y -> in_grid x y.
Proof.
unfold menu_rect, in_grid, MENU_BUFFER_WIDTH, MENU_BUFFER_HEIGHT, CHAR_COLS, CHAR_ROWS in *.
lia.
Qed.

Lemma keeps_refl (s : screen_t) : screen_ok s -> keeps top s s.
Proof. intros Hok. split; [done|]. intros x y _ _. apply same_cell_refl. Qed.

Lemma keeps_trans (s1 s2 s3 : screen_t) : keeps top s1 s2 -> keeps top s2 s3 -> keeps top s1 s3.
Proof.
intros (_ & H12) (Hok3 & H23). split; [done|].
intros x y Hg Hr. eapply same_cell_trans; [by apply H12 | by apply H23].
Qed.

Lemma keeps_set_char (px py c : Z) (s : screen_t) :
screen_ok s -> menu_rect top px py -> keeps top s (set_char px py c s).
Proof.
intros Hok Hr. split; [by apply screen_ok_set_char|].
intros x y Hg Hnr. split.
- apply glyph_set_char_other; [by apply menu_rect_in_grid | done |].
  intros Heq. injection Heq as -> ->. by apply Hnr.
- intros p Hp. apply nibble_set_char.
Qed.

Lemma keeps_set_colour (px py fg bg : Z) (s : screen_t) :
screen_ok s -> menu_rect top px py -> keeps top s (set_colour px py fg bg s).
Proof.
intros Hok Hr. split; [by apply screen_ok_set_colour|].
intros x y Hg Hnr. split.
- apply glyph_set_colour.
- intros p Hp. apply nibble_set_colour_other;
    [apply Hok | by apply menu_rect_in_grid | done | | done].
  intros Heq. injection Heq as -> ->. by apply Hnr.
Qed.

Lemma keeps_then_set_char (px py c : Z) (s s1 : screen_t) :
keeps top s s1 -> menu_rect top px py -> keeps top s (set_char px py c s1).
Proof.
intros Hk Hr. eapply keeps_trans; [exact Hk|]. apply keeps_set_char; [apply Hk | done].
Qed.

Lemma keeps_then_set_colour (px py fg bg : Z) (s s1 : screen_t) :
keeps top s s1 -> menu_rect top px py -> keeps top s (set_colour px py fg bg s1).
Proof.
intros Hk Hr. eapply keeps_trans; [exact Hk|]. apply keeps_set_colour; [apply Hk | done].
Qed.

Lemma keeps_then_foldl {A : Type} (f : screen_t -> A -> screen_t) (l : list A)
  (s s1 : screen_t) :
(forall s' i, i ∈ l -> keeps top s s' -> keeps top s (f s' i)) ->
keeps top s s1 -> keeps top s (foldl f s1 l).
Proof. intros Hstep Hk. by apply (foldl_preserves_in (keeps top s)). Qed.

Lemma keeps_draw_text (x y : Z) (text : list Z) (fg bg : Z) (s s1 : screen_t) :
keeps top s s1 ->
(forall i, 0 <= i < Z.of_nat (length text) -> menu_rect top (x + i) y) ->
keeps top s (draw_text x y text fg bg s1).
Proof.
intros Hk Hr. unfold draw_text. apply keeps_then_foldl; [|done].
intros s' i Hi Hk'. apply elem_of_upto in Hi.
apply keeps_then_set_colour; [apply keeps_then_set_char|]; try done; by apply Hr.
Qed.

Lemma keeps_draw_border_row (row width : Z) (s s1 : screen_t) :
keeps top s s1 -> top <= row < top + MENU_BUFFER_HEIGHT ->
0 <= width < MENU_BUFFER_WIDTH ->
keeps top s (draw_border_row 1 2 row width s1).
Proof.
intros Hk Hrow Hw. unfold draw_border_row. cbv zeta.
assert (Hr : forall px, 1 <= px <= width + 1 -> menu_rect top px row)
  by (intros px Hpx; unfold menu_rect; lia).
apply keeps_then_set_char; [|apply Hr; lia].
apply keeps_then_foldl.
- intros s' i Hi Hk'. apply elem_of_upto in Hi.
  apply keeps_then_set_char; [done|]. apply Hr. lia.
- apply keeps_then_set_char; [done|]. apply Hr. lia.
Qed.

Lemma keeps_draw_border_sides (y width height : Z) (s s1 : screen_t) :
keeps top s s1 -> top <= y -> y + height <= top + MENU_BUFFER_HEIGHT ->
0 <= width < MENU_BUFFER_WIDTH ->
keeps top s (draw_border_sides 1 y width height s1).
Proof.
intros Hk Hy Hh Hw. unfold draw_border_sides.
apply keeps_then_foldl; [|done].
intros s' i Hi Hk'. apply elem_of_upto in Hi.
apply keeps_then_set_char; [apply keeps_then_set_char|]; try done;
  unfold menu_rect; lia.
Qed.
End Keeps.

Lemma paint_color_menu_keeps (top fg bg : Z) (title prompt : list Z) (s : screen_t) :
  0 <= top /\ top + MENU_BUFFER_HEIGHT <= CHAR_ROWS -> screen_ok s ->
  (length title <= 32)%nat -> (length prompt <= 32)%nat ->
  keeps top s (paint_color_menu 1 top 2 (top + 1) fg bg title prompt s).
Proof.
  intros Htop Hok Ht Hp. unfold paint_color_menu. cbv zeta.
  pose proof Htop as Htop'. unfold MENU_BUFFER_HEIGHT, CHAR_ROWS in Htop.
  apply (keeps_draw_text top Htop');
    [|intros i Hi; unfold menu_rect, MENU_BUFFER_WIDTH, MENU_BUFFER_HEIGHT; lia].
  apply (keeps_then_foldl top).
  { intros s1 row Hrow Hk1. apply elem_of_upto in Hrow.
    apply (keeps_then_foldl top); [|exact Hk1].
    intros s2 col Hcol Hk2. apply elem_of_upto in Hcol.
    unfold uint16. rewrite !Z.mod_small by lia.
    repeat first [apply (keeps_then_set_colour top Htop') | apply (keeps_then_set_char top Htop')];
      first [exact Hk2 | unfold menu_rect, MENU_BUFFER_WIDTH, MENU_BUFFER_HEIGHT; lia]. }
  apply (keeps_draw_text top Htop');
    [|intros i Hi; unfold menu_rect, MENU_BUFFER_WIDTH, MENU_BUFFER_HEIGHT; lia].
  apply (keeps_draw_border_row top Htop');
    [|unfold MENU_BUFFER_HEIGHT; lia | unfold MENU_BUFFER_WIDTH; lia].
  apply (keeps_draw_border_sides top Htop');
    [|lia | unfold MENU_BUFFER_HEIGHT; lia | unfold MENU_BUFFER_WIDTH; lia].
  apply (keeps_draw_border_row top Htop');
    [|unfold MENU_BUFFER_HEIGHT; lia | unfold MENU_BUFFER_WIDTH; lia].
  by apply (keeps_refl top).
Qed.

Lemma cursor_menu_line_short (i : Z) :
  (length (nth (Z.to_nat i) cursor_menu_lines []) <= 19)%nat.
Proof.
  destruct (Z.to_nat i) as [|[|[|[|[|[|[|[|n]]]]]]]]; cbn; try lia.
  destruct n; cbn; lia.
Qed.

Lemma paint_cursor_menu_keeps (top fg bg : Z) (s : screen_t) :
  0 <= top /\ top + MENU_BUFFER_HEIGHT <= CHAR_ROWS -> screen_ok s ->
  keeps top s (paint_cursor_menu 1 top 2 (top + 1) fg bg s).
Proof.
  intros Htop Hok. unfold paint_cursor_menu. cbv zeta.
  pose proof Htop as Htop'. unfold MENU_BUFFER_HEIGHT, CHAR_ROWS in Htop.
  change (Z.of_nat (length cursor_menu_lines)) with 8.
  change (uint8 (8 + 2)) with 10.
  apply (keeps_then_foldl top).
  { intros s1 i Hi Hk1. apply elem_of_upto in Hi.
    apply (keeps_draw_text top Htop'); [exact Hk1|].
    intros j Hj. pose proof (cursor_menu_line_short i).
    unfold menu_rect, MENU_BUFFER_WIDTH, MENU_BUFFER_HEIGHT. lia. }
  apply (keeps_draw_border_row top Htop');
    [|unfold MENU_BUFFER_HEIGHT; lia | unfold MENU_BUFFER_WIDTH; lia].
  apply (keeps_draw_border_sides top Htop');
    [|lia | unfold MENU_BUFFER_HEIGHT; lia | unfold MENU_BUFFER_WIDTH; lia].
  apply (keeps_draw_border_row top Htop');
    [|unfold MENU_BUFFER_HEIGHT; lia | unfold MENU_BUFFER_WIDTH; lia].
  by apply (keeps_refl top).
Qed.

(** *** Restoring *)

Lemma restore_cells_fold (top : Z) (m : menu_t) (s : screen_t) :
  menu_left m = 1 -> menu_top m = top ->
  0 <= top /\ top + MENU_BUFFER_HEIGHT <= CHAR_ROWS ->
  restore_cells m s
  = foldl (fun s p =>
      set_colour (1 + p.2) (top + p.1)
        (rd (saved_fg m) (p.1 * MENU_BUFFER_WIDTH + p.2))
        (rd (saved_bg m) (p.1 * MENU_BUFFER_WIDTH + p.2))
        (set_char (1 + p.2) (top + p.1)
           (rd (saved_chars m) (p.1 * MENU_BUFFER_WIDTH + p.2)) s))
      s (cells_of (upto MENU_BUFFER_HEIGHT) (upto MENU_BUFFER_WIDTH)).
Proof.
  intros Hl Ht Htop. unfold restore_cells. rewrite Hl, Ht.
  rewrite (foldl_cells_of
    (fun sc row col =>
       let px := uint32 (1 + col) in
       let py := uint32 (top + row) in
       if (px <? CHAR_COLS) && (py <? CHAR_ROWS) then
         let at_ := row * MENU_BUFFER_WIDTH + col in
         set_colour px py (rd (saved_fg m) at_) (rd (saved_bg m) at_)
           (set_char px py (rd (saved_chars m) at_) sc)
       else sc)).
  apply foldl_ext_in. intros sc [row col] Hin.
  apply elem_of_cells_of in Hin. destruct Hin as (Hrow & Hcol).
  apply elem_of_upto in Hrow, Hcol. cbn [fst snd]. cbv zeta.
  unfold MENU_BUFFER_HEIGHT, MENU_BUFFER_WIDTH, CHAR_ROWS, CHAR_COLS in *.
  rewrite !uint32_small by lia.
  destruct (Z.ltb_spec (1 + col) 80); [|lia].
  destruct (Z.ltb_spec (top + row) 30); [|lia]. reflexivity.
Qed.

Lemma restore_cells_spec (top : Z) (m : menu_t) (s : screen_t) :
  menu_left m = 1 -> menu_top m = top ->
  0 <= top /\ top + MENU_BUFFER_HEIGHT <= CHAR_ROWS -> screen_ok s ->
  keeps top s (restore_cells m s)
  /\ forall x y, menu_rect top x y ->
       glyph_at x y (restore_cells m s)
       = uint8 (rd (saved_chars m) ((y - top) * MENU_BUFFER_WIDTH + (x - 1)))
       /\ forall p, 0 <= p < 3 ->
            nibble_at p x y (restore_cells m s)
            = packed_nibble p
                (rd (saved_fg m) ((y - top) * MENU_BUFFER_WIDTH + (x - 1)))
                (rd (saved_bg m) ((y - top) * MENU_BUFFER_WIDTH + (x - 1))).
Proof.
  intros Hl Ht Htop Hok. rewrite (restore_cells_fold top) by done.
  remember (cells_of (upto MENU_BUFFER_HEIGHT) (upto MENU_BUFFER_WIDTH)) as l eqn:El.
  assert (Hl_in : forall p, p ∈ l ->
            0 <= p.1 < MENU_BUFFER_HEIGHT /\ 0 <= p.2 < MENU_BUFFER_WIDTH).
  { intros [r c] Hp. rewrite El in Hp. apply elem_of_cells_of in Hp.
    destruct Hp as (Hr & Hc). apply elem_of_upto in Hr, Hc. done. }
  assert (Hin_l : forall r c, 0 <= r < MENU_BUFFER_HEIGHT -> 0 <= c < MENU_BUFFER_WIDTH ->
            (r, c) ∈ l).
  { intros r c Hr Hc. rewrite El. apply elem_of_cells_of. split; by apply elem_of_upto. }
  clear El.
  pose proof (fold_writes (fun p : Z * Z => (1 + p.2, top + p.1))
                (fun p : Z * Z =>
                   (rd (saved_chars m) (p.1 * MENU_BUFFER_WIDTH + p.2),
                    rd (saved_fg m) (p.1 * MENU_BUFFER_WIDTH + p.2),
                    rd (saved_bg m) (p.1 * MENU_BUFFER_WIDTH + p.2))) l s Hok) as Hw.
  cbn [fst snd] in Hw.
  destruct Hw as (Hok' & _ & _ & Hcells).
  { intros p Hp. destruct (Hl_in p Hp) as (Hr & Hc).
    unfold in_grid, MENU_BUFFER_HEIGHT, MENU_BUFFER_WIDTH, CHAR_ROWS, CHAR_COLS in *. lia. }
  split; [split; [exact Hok'|]|].
  - intros x y Hg Hnr. destruct (Hcells x y Hg) as (Hnone & _). apply Hnone.
    intros p Hp Heq. apply Hnr. destruct (Hl_in p Hp) as (Hr & Hc).
    injection Heq as <- <-. unfold menu_rect. lia.
  - intros x y Hr.
    assert (Hg : in_grid x y).
    { unfold menu_rect, in_grid, MENU_BUFFER_HEIGHT, MENU_BUFFER_WIDTH, CHAR_ROWS,
        CHAR_COLS in *. lia. }
    destruct (Hcells x y Hg) as (_ & Hsome).
    destruct (Hsome (y - top, x - 1)) as (Hgl & Hnb).
    + apply Hin_l; unfold menu_rect in Hr; lia.
    + cbn [fst snd]. f_equal; lia.
    + intros [r c] Hj Heq. cbn [fst snd] in Heq |- *.
      injection Heq as Hx Hy.
      replace r with (y - top) by lia. replace c with (x - 1) by lia. reflexivity.
    + cbn [fst snd] in Hgl, Hnb. split; [exact Hgl | exact Hnb].
Qed.

(** *** Saving, painting and restoring together *)

Lemma repack_nibble (p x y : Z) (s : screen_t) :
  0 <= p < 3 ->
  packed_nibble p (fst (get_colour x y s)) (snd (get_colour x y s)) = nibble_at p x y s.
Proof.
  intros Hp. rewrite get_colour_nibbles.
  pose proof (repack_check_all _ _ _ (nibble_at_range 0 x y s) (nibble_at_range 1 x y s)
                (nibble_at_range 2 x y s)) as Hc.
  unfold repack_check in Hc.
  destruct (nibbles_decode _ _ _) as [fg bg]. cbn [fst snd].
  repeat (apply andb_prop in Hc; destruct Hc as [Hc ?]).
  repeat match goal with
         | E : (_ =? _) = true |- _ => apply Z.eqb_eq in E
         end.
  assert (p = 0 \/ p = 1 \/ p = 2) as [-> | [-> | ->]] by lia; assumption.
Qed.

Lemma save_menu_region_spec (top : Z) (g : globals) :
  menu_left (menu g) = 1 -> menu_top (menu g) = top ->
  0 <= top /\ top + MENU_BUFFER_HEIGHT <= CHAR_ROWS -> menu_arrays_ok (menu g) ->
  let g' := save_menu_region MENU_BUFFER_HEIGHT MENU_BUFFER_WIDTH g in
  scr g' = scr g /\ thm g' = thm g
  /\ menu_left (menu g') = 1 /\ menu_top (menu g') = top
  /\ forall x y, menu_rect top x y ->
       rd (saved_chars (menu g')) ((y - top) * MENU_BUFFER_WIDTH + (x - 1))
       = glyph_at x y (scr g)
       /\ rd (saved_fg (menu g')) ((y - top) * MENU_BUFFER_WIDTH + (x - 1))
          = fst (get_colour x y (scr g))
       /\ rd (saved_bg (menu g')) ((y - top) * MENU_BUFFER_WIDTH + (x - 1))
          = snd (get_colour x y (scr g)).
Proof.
  intros Hl Ht Htop Hok. cbv zeta. unfold save_menu_region. autorewrite with frame.
  rewrite Hl, Ht.
  rewrite (foldl_cells_of (fun m row col => save_menu_cell (scr g) 1 top row col m)).
  remember (cells_of (upto MENU_BUFFER_HEIGHT) (upto MENU_BUFFER_WIDTH)) as l eqn:El.
  assert (Hl_in : forall p, p ∈ l ->
            0 <= p.1 < MENU_BUFFER_HEIGHT /\ 0 <= p.2 < MENU_BUFFER_WIDTH).
  { intros [r c] Hp. rewrite El in Hp. apply elem_of_cells_of in Hp.
    destruct Hp as (Hr & Hc). apply elem_of_upto in Hr, Hc. done. }
  assert (Hin_l : forall r c, 0 <= r < MENU_BUFFER_HEIGHT -> 0 <= c < MENU_BUFFER_WIDTH ->
            (r, c) ∈ l).
  { intros r c Hr Hc. rewrite El. apply elem_of_cells_of. split; by apply elem_of_upto. }
  clear El.
  destruct (save_cells_spec (scr g) 1 top l (menu g)) as (_ & Hl' & Ht' & Hcells).
  { intros p Hp. destruct (Hl_in p Hp) as (Hr & Hc). split; [done|]. split; [done|].
    unfold in_grid, MENU_BUFFER_HEIGHT, MENU_BUFFER_WIDTH, CHAR_ROWS, CHAR_COLS in *. lia. }
  { exact Hok. }
  cbv zeta in Hl', Ht', Hcells. rewrite Hl', Ht', Hl, Ht.
  do 4 (split; [reflexivity|]).
  intros x y Hr.
  assert (Hp : (y - top, x - 1) ∈ l) by (apply Hin_l; unfold menu_rect in Hr; lia).
  specialize (Hcells _ Hp). cbn [fst snd] in Hcells.
  replace (1 + (x - 1)) with x in Hcells by lia.
  replace (top + (y - top)) with y in Hcells by lia.
  exact Hcells.
Qed.

(** Restoring after a menu that painted inside the saved rectangle. *)
Lemma overlay_undone (top : Z) (paint : screen_t -> screen_t) (g g1 : globals) :
  0 <= top /\ top + MENU_BUFFER_HEIGHT <= CHAR_ROWS ->
  screen_ok (scr g) -> glyphs_ok (scr g) ->
  keeps top (scr g) (paint (scr g)) ->
  scr g1 = copy_back_to_front (paint (scr g)) ->
  menu_left (menu g1) = 1 -> menu_top (menu g1) = top ->
  (forall x y, menu_rect top x y ->
     rd (saved_chars (menu g1)) ((y - top) * MENU_BUFFER_WIDTH + (x - 1))
     = glyph_at x y (scr g)
     /\ rd (saved_fg (menu g1)) ((y - top) * MENU_BUFFER_WIDTH + (x - 1))
        = fst (get_colour x y (scr g))
     /\ rd (saved_bg (menu g1)) ((y - top) * MENU_BUFFER_WIDTH + (x - 1))
        = snd (get_colour x y (scr g))) ->
  forall x y, in_grid x y -> same_cell x y (scr g) (scr (restore_menu_region g1)).
Proof.
  intros Htop Hok Hgl (Hok1 & Hout1) Hscr Hl Ht Hsaved x y Hg.
  rewrite restore_menu_region_scr, Hscr.
  remember (paint (scr g)) as s1 eqn:E1. clear E1 Hscr.
  pose proof (screen_ok_copy s1 Hok1) as Hok2.
  destruct (restore_cells_spec top (menu g1) (copy_back_to_front s1) Hl Ht Htop Hok2)
    as ((Hok3 & Hout3) & Hin3).
  remember (restore_cells (menu g1) (copy_back_to_front s1)) as s3 eqn:E3. clear E3.
  apply (same_cell_trans _ _ _ s3); [|apply same_cell_copy].
  destruct (decide (menu_rect top x y)) as [Hr | Hnr].
  - destruct (Hin3 x y Hr) as (Hglyph & Hnib).
    destruct (Hsaved x y Hr) as (Hc & Hf & Hb).
    split.
    + rewrite Hglyph, Hc. unfold uint8. apply Z.mod_small. unfold glyph_at.
      by apply rd_byte.
    + intros p Hp. rewrite Hnib, Hf, Hb by done. by apply repack_nibble.
  - apply (same_cell_trans _ _ _ s1); [by apply Hout1|].
    apply (same_cell_trans _ _ _ (copy_back_to_front s1)); [apply same_cell_copy|].
    by apply Hout3.
Qed.

(** X25.  The menu overlay is undone.  [restore_menu_region] after
    [draw_color_menu] or [draw_cursor_menu] leaves every cell of the grid
    with the glyph and the colours that it had before the menu was drawn:
    the menu paints inside the rectangle that was saved, and the restore
    writes back all of it. *)
Theorem menu_overlay_is_undone (title prompt : list Z) (g : globals) :
  screen_ok (scr g) -> glyphs_ok (scr g) -> menu_arrays_ok (menu g) ->
  0 <= cursor_y (term g) < 65536 ->
  (length title <= 32)%nat -> (length prompt <= 32)%nat ->
  forall x y, in_grid x y ->
    same_cell x y (scr g) (scr (restore_menu_region (draw_color_menu title prompt g)))
    /\ same_cell x y (scr g) (scr (restore_menu_region (draw_cursor_menu g))).
Proof.
  intros Hok Hgl Harr Hcy Htl Hpl x y Hg. split.
  - set (top := if cursor_y (term g) + 12 <? CHAR_ROWS
                then cursor_y (term g) else CHAR_ROWS - 13).
    assert (Htop : 0 <= top /\ top + MENU_BUFFER_HEIGHT <= CHAR_ROWS).
    { unfold top, MENU_BUFFER_HEIGHT, CHAR_ROWS.
      destruct (Z.ltb_spec (cursor_y (term g) + 12) 30); lia. }
    assert (Hy : (if cursor_y (term g) + 12 <? CHAR_ROWS
                  then uint16 (cursor_y (term g) + 1)
                  else uint16 (CHAR_ROWS - 12)) = top + 1).
    { unfold top, uint16, CHAR_ROWS.
      destruct (Z.ltb_spec (cursor_y (term g) + 12) 30);
        [rewrite Z.mod_small by lia; lia | reflexivity]. }
    assert (Hu : uint16 (top + 1 - 1) = top).
    { unfold uint16. rewrite Z.mod_small; [lia|].
      unfold MENU_BUFFER_HEIGHT, CHAR_ROWS in Htop. lia. }
    clearbody top.
    apply (overlay_undone top
             (paint_color_menu 1 top 2 (top + 1) (current_fg (thm g))
                (current_bg (thm g)) title prompt)); try done.
    + by apply paint_color_menu_keeps.
    + unfold draw_color_menu. cbv zeta. rewrite Hy, Hu.
      change (uint16 (2 - 1)) with 1.
      rewrite safe_request_swap_scr by reflexivity. autorewrite with frame.
      change (save_menu_region 12 34) with
        (save_menu_region MENU_BUFFER_HEIGHT MENU_BUFFER_WIDTH).
      match goal with
      | |- context [save_menu_region _ _ ?g0] =>
        destruct (save_menu_region_spec top g0) as (-> & -> & -> & -> & _);
          [by autorewrite with frame | by autorewrite with frame | done
          | by autorewrite with frame |]
      end.
      by autorewrite with frame.
    + unfold draw_color_menu. cbv zeta. rewrite Hy, Hu.
      change (uint16 (2 - 1)) with 1. autorewrite with frame.
      change (save_menu_region 12 34) with
        (save_menu_region MENU_BUFFER_HEIGHT MENU_BUFFER_WIDTH).
      match goal with
      | |- context [save_menu_region _ _ ?g0] =>
        destruct (save_menu_region_spec top g0) as (_ & _ & -> & _);
          [by autorewrite with frame | by autorewrite with frame | done
          | by autorewrite with frame |]
      end.
      reflexivity.
    + unfold draw_color_menu. cbv zeta. rewrite Hy, Hu.
      change (uint16 (2 - 1)) with 1. autorewrite with frame.
      change (save_menu_region 12 34) with
        (save_menu_region MENU_BUFFER_HEIGHT MENU_BUFFER_WIDTH).
      match goal with
      | |- context [save_menu_region _ _ ?g0] =>
        destruct (save_menu_region_spec top g0) as (_ & _ & _ & -> & _);
          [by autorewrite with frame | by autorewrite with frame | done
          | by autorewrite with frame |]
      end.
      reflexivity.
    + unfold draw_color_menu. cbv zeta. rewrite Hy, Hu.
      change (uint16 (2 - 1)) with 1. autorewrite with frame.
      change (save_menu_region 12 34) with
        (save_menu_region MENU_BUFFER_HEIGHT MENU_BUFFER_WIDTH).
      match goal with
      | |- context [save_menu_region _ _ ?g0] =>
        destruct (save_menu_region_spec top g0) as (_ & _ & _ & _ & Hsaved);
          [by autorewrite with frame | by autorewrite with frame | done
          | by autorewrite with frame |]
      end.
      autorewrite with frame in Hsaved. exact Hsaved.
  - set (top := if cursor_y (term g) + MENU_BUFFER_HEIGHT + 1 <? CHAR_ROWS
                then cursor_y (term g) else CHAR_ROWS - MENU_BUFFER_HEIGHT - 2).
    assert (Htop : 0 <= top /\ top + MENU_BUFFER_HEIGHT <= CHAR_ROWS).
    { unfold top, MENU_BUFFER_HEIGHT, CHAR_ROWS.
      destruct (Z.ltb_spec (cursor_y (term g) + 12 + 1) 30); lia. }
    assert (Hy : (if cursor_y (term g) + MENU_BUFFER_HEIGHT + 1 <? CHAR_ROWS
                  then uint16 (cursor_y (term g) + 1)
                  else uint16 (CHAR_ROWS - MENU_BUFFER_HEIGHT - 1)) = top + 1).
    { unfold top, uint16, MENU_BUFFER_HEIGHT, CHAR_ROWS.
      destruct (Z.ltb_spec (cursor_y (term g) + 12 + 1) 30);
        [rewrite Z.mod_small by lia; lia | reflexivity]. }
    assert (Hu : uint16 (top + 1 - 1) = top).
    { unfold uint16. rewrite Z.mod_small; [lia|].
      unfold MENU_BUFFER_HEIGHT, CHAR_ROWS in Htop. lia. }
    clearbody top.
    apply (overlay_undone top
             (paint_cursor_menu 1 top 2 (top + 1) (current_fg (thm g))
                (current_bg (thm g)))); try done.
    + by apply paint_cursor_menu_keeps.
    + unfold draw_cursor_menu. cbv zeta. rewrite Hy, Hu.
      change (uint16 (2 - 1)) with 1.
      rewrite safe_request_swap_scr by reflexivity. autorewrite with frame.
      match goal with
      | |- context [save_menu_region _ _ ?g0] =>
        destruct (save_menu_region_spec top g0) as (-> & -> & -> & -> & _);
          [by autorewrite with frame | by autorewrite with frame | done
          | by autorewrite with frame |]
      end.
      by autorewrite with frame.
    + unfold draw_cursor_menu. cbv zeta. rewrite Hy, Hu.
      change (uint16 (2 - 1)) with 1. autorewrite with frame.
      match goal with
      | |- context [save_menu_region _ _ ?g0] =>
        destruct (save_menu_region_spec top g0) as (_ & _ & -> & _);
          [by autorewrite with frame | by autorewrite with frame | done
          | by autorewrite with frame |]
      end.
      reflexivity.
    + unfold draw_cursor_menu. cbv zeta. rewrite Hy, Hu.
      change (uint16 (2 - 1)) with 1. autorewrite with frame.
      match goal with
      | |- context [save_menu_region _ _ ?g0] =>
        destruct (save_menu_region_spec top g0) as (_ & _ & _ & -> & _);
          [by autorewrite with frame | by autorewrite with frame | done
          | by autorewrite with frame |]
      end.
      reflexivity.
    + unfold draw_cursor_menu. cbv zeta. rewrite Hy, Hu.
      change (uint16 (2 - 1)) with 1. autorewrite with frame.
      match goal with
      | |- context [save_menu_region _ _ ?g0] =>
        destruct (save_menu_region_spec top g0) as (_ & _ & _ & _ & Hsaved);
          [by autorewrite with frame | by autorewrite with frame | done
          | by autorewrite with frame |]
      end.
      autorewrite with frame in Hsaved. exact Hsaved.
Qed.

Lemma init_menu_arrays_ok : menu_arrays_ok (menu init_globals).
Proof. repeat split. Qed.

Lemma menu_overlay_is_undone_witness :
  same_cell 5 3 (scr init_globals)
    (scr (restore_menu_region
            (draw_color_menu (bytes_of "Foreground Color Menu")
               (bytes_of "Enter color code (00-63):") init_globals)))
  /\ same_cell 5 3 (scr init_globals)
       (scr (restore_menu_region (draw_cursor_menu init_globals))).
Proof.
  apply menu_overlay_is_undone.
  - exact init_screen_ok.
  - exact init_glyphs_ok.
  - exact init_menu_arrays_ok.
  - vm_compute. split; [discriminate | reflexivity].
  - vm_compute. lia.
  - vm_compute. lia.
  - unfold in_grid, CHAR_COLS, CHAR_ROWS. lia.
Defined.

(** ** A turn of the main loop *)

Section Turn.
Context `{LibC}.

(** X26.  A turn of the main loop handles what the interrupt handler
  queued.  When a burst [rx] has arrived on a queue [q], the turn runs
  the blink block and then [handle_char] on the bytes that waited in
  [q] followed by the bytes of [rx] that found room, each reduced to
  eight bits, in arrival order; the bytes of [rx] beyond the free room
  are never handled.  The turn ends with the queue empty, and with
  [input_active] reset when more than 100 ms have passed since the
  previous turn began. *)
Theorem main_loop_turn_handles_queued_bytes (elapsed_us : Z) (rx : list Z)
  (q : uart_queue) (g : globals) :
queue_ok q ->
let room := Z.to_nat (UART_BUFFER_SIZE - 1 - uart_level q) in
let handled := feed (pending q ++ map uint8 (take room rx)) (cursor_blink g) in
exists q',
  main_loop_turn elapsed_us (on_uart_rx rx q, g)
  = Some (q', if elapsed_us >? 100000 then set_input_active false handled
              else handled)
  /\ uart_tail q' = uart_head q'.
Proof.
intros Hok room handled.
destruct (on_uart_rx_pending rx q Hok) as (Hok1 & Hp & _). cbv zeta in Hp.
unfold main_loop_turn. cbn [fst snd].
destruct (process_uart_buffer_drains handle_char (on_uart_rx rx q) (cursor_blink g) Hok1)
  as (q' & Hrun & Ht).
exists q'. rewrite Hrun, Hp. done.
Qed.
End Turn.

Lemma uart_init_ok : queue_ok uart_init.
Proof. unfold queue_ok, UART_BUFFER_SIZE. cbn. repeat split; lia. Qed.

Lemma main_loop_turn_handles_queued_bytes_witness :
  exists q',
    @main_loop_turn newlib 150000 (on_uart_rx [72; 105] uart_init, init_globals)
    = Some (q', set_input_active false
                  (@feed newlib
                     (pending uart_init
                      ++ map uint8
                           (take (Z.to_nat (UART_BUFFER_SIZE - 1 - uart_level uart_init))
                              [72; 105]))
                     (cursor_blink init_globals)))
    /\ uart_tail q' = uart_head q'.
Proof.
  apply (@main_loop_turn_handles_queued_bytes newlib 150000 [72; 105] uart_init
           init_globals).
  exact uart_init_ok.
Defined.

(** ** The menus without a cancel key *)

Section NoCancel.
Context `{LibC}.

(** A byte that the cursor-style menu or the theme pick does not know. *)
Lemma handle_char_ignored (c : Z) (g : globals) :
escape_mode (term g) = false ->
fg_color_menu_mode (menu g) = false -> bg_color_menu_mode (menu g) = false ->
(cursor_menu_mode (menu g) = true /\ cursor_style_of_key c = None)
\/ (cursor_menu_mode (menu g) = false /\ theme_select_mode (menu g) = true
    /\ theme_of_key c = None) ->
let g' := handle_char c g in
menu g' = menu g /\ thm g' = thm g /\ ansi g' = ansi g
/\ escape_mode (term g') = false
/\ cursor_x (term g') = cursor_x (term g) /\ cursor_y (term g') = cursor_y (term g)
/\ scr g' = scr (remove_cursor g).
Proof.
intros He Hfg Hbg Hcase. cbv zeta. rewrite handle_char_unfold.
pose proof (line_ending_filter_frame c (prologue g)) as Hfr. cbv zeta in Hfr.
pose proof (line_ending_filter_rest c (prologue g)) as Hre. cbv zeta in Hre.
destruct (line_ending_filter c (prologue g)) as [g1 sw]. cbn [fst] in Hfr, Hre.
destruct Hfr as (Hscr & _ & Hmenu & Hesc & _).
destruct Hre as (Hansi & Hthm & _ & Hcx & Hcy & _).
rewrite prologue_menu in Hmenu. rewrite prologue_term in Hesc, Hcx, Hcy.
rewrite prologue_ansi in Hansi. rewrite prologue_thm in Hthm.
rewrite prologue_scr in Hscr. rewrite He in Hesc.
assert (Hsame : (if sw then g1 else dispatch_char c g1) = g1).
{ destruct sw; [reflexivity|]. unfold dispatch_char.
  rewrite Hesc, Hmenu, Hfg, Hbg.
  destruct Hcase as [(Hcm & Hkey) | (Hcm & Htm & Hkey)]; rewrite Hcm.
  - unfold cursor_menu_char. by rewrite Hkey.
  - rewrite Htm. unfold theme_char. by rewrite Hkey. }
rewrite Hsame. done.
Qed.

(** X27.  The cursor-style menu and the theme pick have no cancel key.
  While the cursor-style menu is open, every byte other than '1' to '6'
  is dropped: the menu stays open, and the cursor style, the colours,
  the cursor position and the parser are as they were; ESC does not
  close it.  The same holds for the theme pick and the bytes other than
  '0' to '9'. *)
Theorem style_and_theme_menus_have_no_cancel (bs : list Z) (g : globals) :
escape_mode (term g) = false ->
fg_color_menu_mode (menu g) = false -> bg_color_menu_mode (menu g) = false ->
(cursor_menu_mode (menu g) = true
 /\ Forall (fun c => cursor_style_of_key c = None) bs)
\/ (cursor_menu_mode (menu g) = false /\ theme_select_mode (menu g) = true
    /\ Forall (fun c => theme_of_key c = None) bs) ->
let g' := feed bs g in
menu g' = menu g /\ thm g' = thm g /\ ansi g' = ansi g
/\ escape_mode (term g') = false
/\ cursor_x (term g') = cursor_x (term g) /\ cursor_y (term g') = cursor_y (term g).
Proof.
revert g. induction bs as [|c bs IH]; intros g He Hfg Hbg Hcase; cbv zeta.
- cbn. done.
- rewrite feed_cons.
  assert (Hc : (cursor_menu_mode (menu g) = true /\ cursor_style_of_key c = None)
               \/ (cursor_menu_mode (menu g) = false /\ theme_select_mode (menu g) = true
                   /\ theme_of_key c = None)).
  { destruct Hcase as [(Hcm & Hall) | (Hcm & Htm & Hall)];
      inversion Hall; subst; [left | right]; done. }
  destruct (handle_char_ignored c g He Hfg Hbg Hc) as (Hm & Ht & Ha & He1 & Hx & Hy & _).
  cbv zeta in Hm, Ht, Ha, He1, Hx, Hy.
  remember (handle_char c g) as g1 eqn:E1. clear E1.
  destruct (IH g1) as (Hm' & Ht' & Ha' & He' & Hx' & Hy').
  + exact He1.
  + by rewrite Hm.
  + by rewrite Hm.
  + rewrite Hm. destruct Hcase as [(Hcm & Hall) | (Hcm & Htm & Hall)];
      inversion Hall; subst; [left | right]; done.
  + cbv zeta in Hm', Ht', Ha', He', Hx', Hy'.
    rewrite Hm', Ht', Ha', He', Hx', Hy', Hm, Ht, Ha, Hx, Hy. done.
Qed.
End NoCancel.

Lemma style_and_theme_menus_have_no_cancel_witness :
  let g := @handle_char newlib 14 init_globals in
  cursor_menu_mode (menu (@feed newlib [27; 13; 65; 48] g)) = true.
Proof.
  cbv zeta.
  destruct (@style_and_theme_menus_have_no_cancel newlib [27; 13; 65; 48]
              (@handle_char newlib 14 init_globals)) as (Hm & _).
  - vm_compute. reflexivity.
  - vm_compute. reflexivity.
  - vm_compute. reflexivity.
  - left. split; [vm_compute; reflexivity|].
    repeat constructor.
  - rewrite Hm. vm_compute. reflexivity.
Defined.

(** ** Cursor movement *)



Section Moves.
Context `{LibC}.

(** The state on which the final byte of ESC [ digits final dispatches. *)
Lemma csi_one_param_final (g : globals) (ds : list Z) (c : Z) :
in_normal g = true -> ansi_arrays_ok g -> all_digits ds -> (length ds <= 15)%nat ->
is_digit c = false -> c <> 59 -> c <> 91 ->
exists params count G,
  feed ([27; 91] ++ ds ++ [c]) g
  = on_term (fun t => set_ansi_mode false (set_escape_mode false t))
      (process_ansi_sequence params count c G)
  /\ move_count params count = csi_distance ds
  /\ cursor_x (term G) = cursor_x (term g) /\ cursor_y (term G) = cursor_y (term g).
Proof.
intros Hn Hok Hds Hlen Hnd H59 H91.
rewrite app_assoc, feed_app.
destruct (csi_first_param g ds Hn Hok Hds Hlen) as (Hc & Hk & Hx & Hy).
cbv zeta in Hc, Hk, Hx, Hy.
remember (feed ([27; 91] ++ ds) g) as s eqn:E. clear E.
change (feed [c] s) with (handle_char c s).
assert (Hlenp : length (ansi_params (ansi s)) = Z.to_nat ANSI_PARAM_MAX)
  by (destruct Hc as (_ & _ & _ & _ & _ & _ & _ & _ & Hq); exact Hq).
destruct (csi_final s ds 0 c Hc Hk) as (G & HG & HtG & _);
  [unfold ANSI_PARAM_MAX; lia | done | done | done |].
eexists _, _, G. split; [exact HG|].
split; [|by rewrite HtG, <- Hx, <- Hy].
unfold move_count, csi_distance.
destruct (decide (ds = [])) as [Hnil | Hne]; [reflexivity|].
change (0 + 1 >=? 1) with true. cbn [andb].
rewrite rd_wr_eq by (rewrite Hlenp; unfold ANSI_PARAM_MAX; lia). reflexivity.
Qed.

(** X28.  Cursor movements stop at the edge of the grid.  From normal
  mode with the cursor in the grid, ESC [ n A moves the cursor up by
  [n] rows and stops on row 0, B moves down and stops on the last row,
  C moves right and stops on the last column, D moves left and stops on
  column 0; the other coordinate is kept, and the distance is 1 when
  the parameter is absent or 0.  No movement wraps. *)
Theorem cursor_moves_stop_at_the_edge (g : globals) (ds : list Z) :
in_normal g = true -> ansi_arrays_ok g -> all_digits ds -> (length ds <= 15)%nat ->
cursor_in_grid g ->
let x := cursor_x (term g) in
let y := cursor_y (term g) in
let n := csi_distance ds in
let after c := term (feed ([27; 91] ++ ds ++ [c]) g) in
(cursor_x (after 65), cursor_y (after 65)) = (x, Z.max 0 (y - n))
/\ (cursor_x (after 66), cursor_y (after 66)) = (x, Z.min (CHAR_ROWS - 1) (y + n))
/\ (cursor_x (after 67), cursor_y (after 67)) = (Z.min (CHAR_COLS - 1) (x + n), y)
/\ (cursor_x (after 68), cursor_y (after 68)) = (Z.max 0 (x - n), y).
Proof.
intros Hn Hok Hds Hlen (Hgx & Hgy). cbv zeta.
assert (Hdist : 1 <= csi_distance ds < 256).
{ unfold csi_distance. pose proof (csi_param_range ds).
  destruct (decide (ds = [])); [lia|].
  destruct (Z.gtb_spec (csi_param ds) 0); lia. }
unfold CHAR_COLS, CHAR_ROWS in *.
split; [|split; [|split]].
- destruct (csi_one_param_final g ds 65 Hn Hok Hds Hlen) as
    (params & count & G & -> & Hmc & Hx & Hy); [done | lia | lia |].
  unfold process_ansi_sequence. cbn [Z.eqb Pos.eqb]. cbv zeta. rewrite Hmc.
  destruct (Z.geb_spec (cursor_y (term G)) (csi_distance ds));
    autorewrite with frame; proj; unfold uint16;
    rewrite ?Z.mod_small by lia; f_equal; lia.
- destruct (csi_one_param_final g ds 66 Hn Hok Hds Hlen) as
    (params & count & G & -> & Hmc & Hx & Hy); [done | lia | lia |].
  unfold process_ansi_sequence. cbn [Z.eqb Pos.eqb]. cbv zeta. rewrite Hmc.
  unfold CHAR_ROWS.
  destruct (Z.ltb_spec (cursor_y (term G) + csi_distance ds) 30);
    autorewrite with frame; proj; unfold uint16;
    rewrite ?Z.mod_small by lia; f_equal; lia.
- destruct (csi_one_param_final g ds 67 Hn Hok Hds Hlen) as
    (params & count & G & -> & Hmc & Hx & Hy); [done | lia | lia |].
  unfold process_ansi_sequence. cbn [Z.eqb Pos.eqb]. cbv zeta. rewrite Hmc.
  unfold CHAR_COLS.
  destruct (Z.ltb_spec (cursor_x (term G) + csi_distance ds) 80);
    autorewrite with frame; proj; unfold uint16;
    rewrite ?Z.mod_small by lia; f_equal; lia.
- destruct (csi_one_param_final g ds 68 Hn Hok Hds Hlen) as
    (params & count & G & -> & Hmc & Hx & Hy); [done | lia | lia |].
  unfold process_ansi_sequence. cbn [Z.eqb Pos.eqb]. cbv zeta. rewrite Hmc.
  destruct (Z.geb_spec (cursor_x (term G)) (csi_distance ds));
    autorewrite with frame; proj; unfold uint16;
    rewrite ?Z.mod_small by lia; f_equal; lia.
Qed.
End Moves.

Lemma cursor_moves_stop_at_the_edge_witness :
  cursor_y (term (@feed newlib ([27; 91] ++ [57; 57] ++ [66]) init_globals)) = CHAR_ROWS - 1
  /\ cursor_x (term (@feed newlib ([27; 91] ++ [57; 57] ++ [68]) init_globals)) = 0.
Proof.
  destruct (@cursor_moves_stop_at_the_edge newlib init_globals [57; 57])
    as (_ & HB & _ & HD).
  - reflexivity.
  - exact init_arrays_ok.
  - repeat constructor.
  - cbn. lia.
  - exact init_cursor_in_grid.
  - cbv zeta in HB, HD.
    pose proof (f_equal snd HB) as Hy. pose proof (f_equal fst HD) as Hx.
    cbn [fst snd] in Hx, Hy. split.
    + rewrite Hy. vm_compute. reflexivity.
    + rewrite Hx. vm_compute. reflexivity.
Defined.

(** ** Line endings and the text of the screen *)

Lemma next_row_uint16 (y : Z) :
  0 <= y < 65535 -> next_row y = Z.min (y + 1) (CHAR_ROWS - 1).
Proof.
  unfold next_row, uint16, CHAR_ROWS. intros Hy.
  rewrite (Z.mod_small (y + 1)) by lia.
  destruct (Z.geb_spec (y + 1) 30); lia.
Qed.

(** The head of [handle_char] leaves on the screen the text without the
    cursor, wherever the cursor is. *)
Lemma prologue_text_any (g : globals) :
  drawn_at_cursor g -> screen_ok (scr g) ->
  0 <= cursor_x (term g) < 65536 -> 0 <= cursor_y (term g) < 65536 ->
  0 <= saved_cursor_char (cur g) < 256 ->
  screen_ok (scr (prologue g))
  /\ forall x y, in_grid x y -> glyph_at x y (scr (prologue g)) = text_at g x y.
Proof.
  intros Hinv Hok Hx Hy Hbyte.
  destruct (decide (in_grid (cursor_x (term g)) (cursor_y (term g)))) as [Hg | Hg].
  - split; [by apply prologue_text | by apply prologue_text_all].
  - rewrite prologue_scr. unfold remove_cursor, text_at.
    destruct (cursor_drawn (cur g)) eqn:Hd; [|done].
    destruct (Hinv Hd) as (Hdx & Hdy).
    autorewrite with frame. unfold restore_cursor_cell. autorewrite with frame.
    rewrite Hdx, Hdy.
    rewrite set_char_off_grid, set_colour_off_grid by (done || lia).
    split; [exact Hok|]. intros x y Hgxy. cbn [andb].
    destruct (Z.eqb_spec x (cursor_x (term g))) as [-> |]; [|reflexivity].
    destruct (Z.eqb_spec y (cursor_y (term g))) as [-> |]; [|reflexivity].
    by destruct Hg.
Qed.

(** The text is made of bytes. *)
Lemma text_at_byte (g : globals) (x y : Z) :
  glyphs_ok (scr g) -> 0 <= saved_cursor_char (cur g) < 256 ->
  0 <= text_at g x y < 256.
Proof.
  intros Hgl Hbyte. unfold text_at.
  destruct (_ && _); [exact Hbyte|]. unfold glyph_at. by apply rd_byte.
Qed.

Lemma text_after_advance_byte (g : globals) (x y : Z) :
  glyphs_ok (scr g) -> 0 <= saved_cursor_char (cur g) < 256 ->
  0 <= text_after_advance g x y < 256.
Proof.
  intros Hgl Hbyte. unfold text_after_advance.
  destruct (_ <? CHAR_ROWS); [by apply text_at_byte|].
  destruct (_ <? _); [by apply text_at_byte | lia].
Qed.

(** The back arrays after a line advance. *)
Lemma new_line_back (g : globals) :
  0 <= cursor_y (term g) < 65535 ->
  let s' := if cursor_y (term g) + 1 <? CHAR_ROWS then scr g
            else scroll_paint_last (current_fg (thm g)) (current_bg (thm g))
                   (scroll_clear_last (scroll_planes (scroll_glyphs (scr g)))) in
  charbuf_back (scr (new_line g)) = charbuf_back s'
  /\ colourbuf_back (scr (new_line g)) = colourbuf_back s'.
Proof.
  intros Hy. cbv zeta.
  destruct (Z.ltb_spec (cursor_y (term g) + 1) CHAR_ROWS) as [Hin | Hout].
  - apply new_line_no_scroll. unfold CHAR_ROWS in *. lia.
  - unfold new_line. cbv zeta. autorewrite with frame. proj.
    unfold uint16, CHAR_ROWS in *. rewrite Z.mod_small by lia.
    destruct (Z.geb_spec (cursor_y (term g) + 1) 30); [|lia].
    match goal with
    | |- context [safe_request_swap ?g0] =>
      destruct (safe_request_swap_back g0) as (-> & ->)
    end.
    autorewrite with frame. rewrite scroll_up_scr. autorewrite with frame.
    remember (scroll_paint_last (current_fg (thm g)) (current_bg (thm g))
                (scroll_clear_last (scroll_planes (scroll_glyphs (scr g))))) as s4 eqn:E4.
    clear E4.
    by destruct (copy_back_to_front_fields s4) as (_ & _ & -> & ->).
Qed.

Section Advance.
Context `{LibC}.

(** CR or LF that reaches the [switch] in normal mode: the text of the
  screen is the text advanced by one line, and the cursor is drawn on
  column 0 of the row it went to. *)
Lemma line_advance_text (c : Z) (g : globals) :
c = 13 \/ c = 10 -> in_normal g = true ->
handle_char c g = dispatch_char c (filtered g) ->
cursor_visible (term g) = true -> drawn_at_cursor g -> screen_ok (scr g) ->
0 <= saved_cursor_char (cur g) < 256 ->
0 <= cursor_x (term g) < 65536 -> 0 <= cursor_y (term g) < 65535 ->
let g1 := handle_char c g in
(forall x y, in_grid x y -> text_at g1 x y = text_after_advance g x y)
/\ screen_ok (scr g1)
/\ cursor_visible (term g1) = true
/\ cursor_x (term g1) = 0
/\ cursor_y (term g1) = Z.min (cursor_y (term g) + 1) (CHAR_ROWS - 1)
/\ saved_cursor_char (cur g1)
   = text_after_advance g 0 (Z.min (cursor_y (term g) + 1) (CHAR_ROWS - 1)).
Proof.
intros Hc Hn Hpass Hv Hinv Hok Hbyte Hx Hy. cbv zeta. rewrite Hpass.
rewrite dispatch_char_normal by (by rewrite filtered_in_normal).
destruct (prologue_text_any g Hinv Hok Hx ltac:(lia) Hbyte) as (Hok1 & Htext).
assert (Hm : cursor_menu_mode (menu g) = false).
{ unfold in_normal in Hn. repeat (apply andb_prop in Hn; destruct Hn as [Hn ?]).
  by apply negb_true_iff. }
assert (Hh : exists flags : terminal_state_t -> terminal_state_t,
           handle_normal c (filtered g) = on_term flags (new_line (filtered g))
           /\ forall t, cursor_x (flags t) = cursor_x t /\ cursor_y (flags t) = cursor_y t
                        /\ cursor_visible (flags t) = cursor_visible t).
{ destruct Hc as [-> | ->].
  - exists (fun t => set_suppress_next_cr true (set_skip_next_lf true t)).
    split; [reflexivity | intros t; by proj].
  - exists (set_skip_next_cr true). split; [reflexivity | intros t; by proj]. }
destruct Hh as (flags & Hh & Hflags). rewrite Hh. clear Hh Hpass.
assert (Hf : scr (filtered g) = scr (prologue g)
             /\ cursor_y (term (filtered g)) = cursor_y (term g)
             /\ cursor_visible (term (filtered g)) = cursor_visible (term g)).
{ rewrite filtered_term. unfold filtered. autorewrite with frame. proj. done. }
destruct Hf as (Hfs & Hfy & Hfv).
destruct (new_line_back (filtered g)) as (Hcb & Hkb); [by rewrite Hfy|].
cbv zeta in Hcb, Hkb. rewrite Hfy, Hfs, filtered_thm in Hcb, Hkb.
pose proof (new_line_term (filtered g)) as Hnt. rewrite Hfy in Hnt.
rewrite next_row_uint16 in Hnt by done.
pose proof (new_line_cur (filtered g)) as Hnc.
pose proof (new_line_menu (filtered g)) as Hnm. rewrite filtered_menu in Hnm.
pose proof (new_line_thm (filtered g)) as Hnh.
remember (new_line (filtered g)) as n eqn:En. clear En.
assert (Hback : screen_ok (scr n)
                /\ forall x y, in_grid x y ->
                     glyph_at x y (scr n) = text_after_advance g x y).
{ unfold text_after_advance.
  destruct (cursor_y (term g) + 1 <? CHAR_ROWS).
  - split; [by apply (screen_ok_back (scr (prologue g)))|].
    intros x y Hg. rewrite (glyph_at_back _ _ _ _ Hcb). by apply Htext.
  - destruct (scroll_stages_spec (current_fg (thm g)) (current_bg (thm g))
                (scr (prologue g)) Hok1) as (Hok4 & Hgl4 & _).
    remember (scroll_paint_last (current_fg (thm g)) (current_bg (thm g))
                (scroll_clear_last (scroll_planes (scroll_glyphs (scr (prologue g))))))
      as s4 eqn:E4. clear E4.
    split; [by apply (screen_ok_back s4)|].
    intros x y Hg. rewrite (glyph_at_back _ _ _ _ Hcb), Hgl4 by done.
    destruct (Z.ltb_spec y (CHAR_ROWS - 1)); [|reflexivity].
    apply Htext. destruct Hg as (Hgx & Hgy). split; [done | lia]. }
destruct Hback as (Hokn & Hglyph). clear Hcb Hkb.
assert (Hth : term (on_term flags n) = flags (term n)) by (by autorewrite with frame).
assert (Hsh : scr (on_term flags n) = scr n) by (by autorewrite with frame).
assert (Hch : cur (on_term flags n) = cur n) by (by autorewrite with frame).
assert (Hmh : menu (on_term flags n) = menu n) by (by autorewrite with frame).
remember (on_term flags n) as h eqn:Eh. clear Eh.
destruct (Hflags (term n)) as (Hfx' & Hfy' & Hfv').
assert (Hhx : cursor_x (term h) = 0) by (rewrite Hth, Hfx', Hnt; by proj).
assert (Hhy : cursor_y (term h) = Z.min (cursor_y (term g) + 1) (CHAR_ROWS - 1))
  by (rewrite Hth, Hfy', Hnt; by proj).
assert (Hhv : cursor_visible (term h) = true).
{ rewrite Hth, Hfv', Hnt. proj. rewrite filtered_term. proj. exact Hv. }
assert (Hgh : cursor_in_grid h).
{ unfold cursor_in_grid. rewrite Hhx, Hhy. unfold CHAR_COLS, CHAR_ROWS. lia. }
assert (Hdh : cursor_drawn (cur h) = false)
  by (rewrite Hch, Hnc; apply filtered_drawn).
destruct (text_after_redraw h) as (Htx & _ & Hterm & _ & _ & Hokg);
  [done | by rewrite Hmh, Hnm | done | done | by rewrite Hsh |].
cbv zeta in Htx, Hterm, Hokg.
destruct (redraw_cursor_cur h Hhv) as (Hdr & Hdx & Hdy); [by rewrite Hmh, Hnm|].
assert (Hsaved : saved_cursor_char (cur (safe_request_swap (redraw_cursor h)))
                 = text_at (safe_request_swap (redraw_cursor h))
                     (cursor_x (term h)) (cursor_y (term h))).
{ unfold text_at. autorewrite with frame. by rewrite Hdr, Hdx, Hdy, !Z.eqb_refl. }
remember (safe_request_swap (redraw_cursor h)) as g1 eqn:Eg1. clear Eg1.
rewrite Hterm, Hhx, Hhy, Hhv, Hsaved, Hhx, Hhy.
assert (Hall : forall x y, in_grid x y -> text_at g1 x y = text_after_advance g x y).
{ intros x y Hg. rewrite Htx, Hsh by done. by apply Hglyph. }
split; [exact Hall|]. split; [exact Hokg|].
do 3 (split; [reflexivity|]).
apply Hall. unfold in_grid, CHAR_COLS, CHAR_ROWS. lia.
Qed.

(** A byte that the line-ending filter swallows changes no text, and
  leaves the cursor and the modes. *)
Lemma swallowed_text (c : Z) (g : globals) :
(c = 13 /\ (suppress_next_cr (term g) = true \/ skip_next_cr (term g) = true))
\/ (c = 10 /\ skip_next_lf (term g) = true) ->
drawn_at_cursor g -> screen_ok (scr g) ->
0 <= saved_cursor_char (cur g) < 256 ->
0 <= cursor_x (term g) < 65536 -> 0 <= cursor_y (term g) < 65536 ->
forall x y, in_grid x y -> text_at (handle_char c g) x y = text_at g x y.
Proof.
intros Hsw Hinv Hok Hbyte Hx Hy x y Hg.
destruct (prologue_text_any g Hinv Hok Hx Hy Hbyte) as (_ & Htext).
rewrite <- Htext by done. rewrite prologue_scr.
rewrite <- (handle_char_swallowed c g Hsw).
assert (Hd : cursor_drawn (cur (handle_char c g)) = false).
{ rewrite handle_char_unfold.
  pose proof (line_ending_filter_frame c (prologue g)) as Hfr. cbv zeta in Hfr.
  pose proof (line_ending_filter_swallows c (prologue g)) as Hs.
  rewrite prologue_term in Hs. specialize (Hs Hsw).
  destruct (line_ending_filter c (prologue g)) as [g' sw].
  cbn [fst snd] in Hfr, Hs. rewrite Hs.
  destruct Hfr as (_ & -> & _). apply prologue_drawn. }
unfold text_at. by rewrite Hd.
Qed.
End Advance.

(** Checking that a list holds bytes by evaluation. *)
Lemma bytes_by_evaluation (l : list Z) :
  forallb (fun c => (0 <=? c) && (c <? 256)) l = true ->
  Forall (fun c => 0 <= c < 256) l.
Proof.
  intros Hall. apply Forall_forall. intros c Hc.
  pose proof (proj1 (forallb_forall _ l) Hall c Hc) as Hb.
  apply andb_prop in Hb. destruct Hb as (H0 & H1).
  apply Z.leb_le in H0. apply Z.ltb_lt in H1. lia.
Qed.

Section LineEndings.
Context `{LibC}.

(** C9.  In normal mode with no line-ending flag armed, CR moves the
  cursor to column 0 of the next row, the last row staying the last
  row for a cursor on it or below it, and arms [skip_next_lf] and
  [suppress_next_cr]; a CR or LF that follows at once is swallowed:
  the cursor stays where it is and the screen arrays are those that
  the removal of the cursor glyph at the head of [handle_char] leaves.
  On the text of the screen, the glyph saved under the drawn cursor
  counting for its cell: after the CR every cell shows what it showed
  while the cursor was above the last row, and otherwise every row
  shows the text of the row below it and the last row is blank; after
  the swallowed byte the text is the same as after the CR.  So CR LF
  and CR CR advance the line once. *)
Theorem cr_swallows_next_line_ending (g : globals) (c : Z) :
in_normal g = true -> line_flags_clear g = true ->
0 <= cursor_y (term g) < 65535 ->
c = 13 \/ c = 10 ->
let g1 := handle_char 13 g in
let g2 := handle_char c g1 in
cursor_x (term g1) = 0
/\ cursor_y (term g1) = Z.min (cursor_y (term g) + 1) (CHAR_ROWS - 1)
/\ skip_next_lf (term g1) = true /\ suppress_next_cr (term g1) = true
/\ cursor_x (term g2) = 0
/\ cursor_y (term g2) = Z.min (cursor_y (term g) + 1) (CHAR_ROWS - 1)
/\ scr g2 = scr (remove_cursor g1)
/\ in_normal g2 = true
/\ (cursor_visible (term g) = true -> drawn_at_cursor g ->
    screen_ok (scr g) -> glyphs_ok (scr g) ->
    0 <= saved_cursor_char (cur g) < 256 -> 0 <= cursor_x (term g) < 65536 ->
    forall x y, in_grid x y ->
      text_at g1 x y = text_after_advance g x y
      /\ text_at g2 x y = text_at g1 x y).
Proof.
intros Hn Hf Hy Hc. cbv zeta.
pose proof (handle_char_cr_term g Hn Hf) as Ht.
rewrite next_row_uint16 in Ht by done.
assert (Hm1 : menu (handle_char 13 g) = menu g).
{ rewrite handle_char_clear by done.
  rewrite dispatch_char_normal by (by rewrite filtered_in_normal).
  autorewrite with frame. rewrite handle_normal_cr.
  autorewrite with frame. apply filtered_menu. }
pose proof (line_advance_text 13 g (or_introl eq_refl) Hn (handle_char_clear 13 g Hf))
  as Hadv. cbv zeta in Hadv.
pose proof (handle_char_drawn_at_cursor 13 g) as Hinv1.
remember (handle_char 13 g) as g1 eqn:E1. clear E1.
assert (Hsw : (c = 13 /\ (suppress_next_cr (term g1) = true
                          \/ skip_next_cr (term g1) = true))
              \/ (c = 10 /\ skip_next_lf (term g1) = true)).
{ rewrite Ht. proj. destruct Hc as [-> | ->]; [left | right]; auto. }
assert (Hg2 : term (handle_char c g1)
              = set_suppress_next_cr false
                  (if decide (c = 10) then set_skip_next_lf false (term g1)
                   else term g1)
              /\ scr (handle_char c g1) = scr (remove_cursor g1)
              /\ menu (handle_char c g1) = menu g1).
{ rewrite handle_char_unfold.
  destruct Hc as [-> | ->].
  - rewrite line_ending_filter_cr_cr by (by rewrite prologue_term, Ht).
    cbn [fst snd]. autorewrite with frame. rewrite prologue_scr.
    rewrite decide_False by lia. repeat split.
  - rewrite line_ending_filter_cr_lf by (by rewrite prologue_term, Ht).
    cbn [fst snd]. autorewrite with frame. rewrite prologue_scr.
    rewrite decide_True by lia. repeat split. }
pose proof (swallowed_text c g1 Hsw Hinv1) as Hkeep.
remember (handle_char c g1) as g2 eqn:E2. clear E2.
destruct Hg2 as (Ht2 & Hs2 & Hm2).
assert (Hn2 : in_normal g2 = true).
{ unfold in_normal in *. rewrite Hm2, Hm1, Ht2, Ht.
  apply andb_prop in Hn. destruct Hn as [Hn Hth].
  rewrite Hth, andb_true_r. destruct (decide (c = 10)); proj; exact Hn. }
split; [rewrite Ht; by proj|]. split; [rewrite Ht; by proj|].
split; [rewrite Ht; by proj|]. split; [rewrite Ht; by proj|].
split; [rewrite Ht2, Ht; destruct (decide (c = 10)); by proj|].
split; [rewrite Ht2, Ht; destruct (decide (c = 10)); by proj|].
split; [exact Hs2|]. split; [exact Hn2|].
intros Hv Hinv Hok Hgl Hbyte Hx x y Hg.
destruct (Hadv Hv Hinv Hok Hbyte Hx Hy) as (Hall & Hok1 & _ & Hx1 & Hy1 & Hsaved).
split; [by apply Hall|].
apply Hkeep; try done.
- rewrite Hsaved. by apply text_after_advance_byte.
- rewrite Hx1. lia.
- rewrite Hy1. unfold CHAR_ROWS. lia.
Qed.

(** X7.  A line ending that starts with LF.  In normal mode with no
  line-ending flag armed, LF moves the cursor to column 0 of the next
  row and arms [skip_next_cr] only.  A CR that follows at once is
  swallowed (LF CR advances one line): cursor and text stay.  A second
  LF is not swallowed: it advances a further line, so that the text of
  the screen after it is the text after the first LF advanced once
  more, scrolled when the first LF left the cursor on the last row. *)
Theorem lf_swallows_next_cr_only (g : globals) :
in_normal g = true -> line_flags_clear g = true ->
0 <= cursor_y (term g) < 65535 ->
let g1 := handle_char 10 g in
let g2 := handle_char 13 g1 in
let g3 := handle_char 10 g1 in
cursor_x (term g1) = 0
/\ cursor_y (term g1) = Z.min (cursor_y (term g) + 1) (CHAR_ROWS - 1)
/\ skip_next_cr (term g1) = true /\ skip_next_lf (term g1) = false
/\ suppress_next_cr (term g1) = false
/\ cursor_x (term g2) = 0
/\ cursor_y (term g2) = Z.min (cursor_y (term g) + 1) (CHAR_ROWS - 1)
/\ scr g2 = scr (remove_cursor g1) /\ line_flags_clear g2 = true
/\ cursor_x (term g3) = 0
/\ cursor_y (term g3) = Z.min (cursor_y (term g) + 2) (CHAR_ROWS - 1)
/\ (cursor_visible (term g) = true -> drawn_at_cursor g ->
    screen_ok (scr g) -> glyphs_ok (scr g) ->
    0 <= saved_cursor_char (cur g) < 256 -> 0 <= cursor_x (term g) < 65536 ->
    forall x y, in_grid x y ->
      text_at g1 x y = text_after_advance g x y
      /\ text_at g2 x y = text_at g1 x y
      /\ text_at g3 x y = text_after_advance g1 x y).
Proof.
intros Hn Hf Hy. cbv zeta.
assert (Hlf : skip_next_lf (term g) = false).
{ unfold line_flags_clear in Hf. by destruct (skip_next_lf (term g)). }
destruct (handle_char_lf g Hn Hlf) as (Ht & Hm).
rewrite next_row_uint16 in Ht by done.
pose proof (line_advance_text 10 g (or_intror eq_refl) Hn (handle_char_clear 10 g Hf))
  as Hadv. cbv zeta in Hadv.
pose proof (handle_char_drawn_at_cursor 10 g) as Hinv1.
remember (handle_char 10 g) as g1 eqn:E1. clear E1.
assert (Hn1 : in_normal g1 = true).
{ unfold in_normal in *. rewrite Hm, Ht. exact Hn. }
assert (Hlf1 : skip_next_lf (term g1) = false) by (by rewrite Ht).
assert (Hy1 : cursor_y (term g1) = Z.min (cursor_y (term g) + 1) (CHAR_ROWS - 1))
  by (rewrite Ht; by proj).
assert (Hx1 : cursor_x (term g1) = 0) by (rewrite Ht; by proj).
destruct (handle_char_lf g1 Hn1 Hlf1) as (Ht3 & _).
rewrite next_row_uint16 in Ht3 by (rewrite Hy1; unfold CHAR_ROWS; lia).
assert (Hpass3 : handle_char 10 g1 = dispatch_char 10 (filtered g1)).
{ rewrite handle_char_unfold.
  by rewrite line_ending_filter_lf by (by rewrite prologue_term). }
pose proof (line_advance_text 10 g1 (or_intror eq_refl) Hn1 Hpass3) as Hadv3.
cbv zeta in Hadv3.
assert (Hsw : (13 = 13 /\ (suppress_next_cr (term g1) = true
                           \/ skip_next_cr (term g1) = true))
              \/ (13 = 10 /\ skip_next_lf (term g1) = true)).
{ left. split; [reflexivity|]. right. rewrite Ht. by proj. }
pose proof (swallowed_text 13 g1 Hsw Hinv1) as Hkeep.
assert (Hg2 : term (handle_char 13 g1) = clear_line_flags (term g1)
              /\ scr (handle_char 13 g1) = scr (remove_cursor g1)).
{ rewrite handle_char_unfold.
  rewrite line_ending_filter_lf_cr by (by rewrite prologue_term, Ht).
  autorewrite with frame. by rewrite prologue_scr. }
destruct Hg2 as (Ht2 & Hs2).
remember (handle_char 13 g1) as g2 eqn:E2. clear E2.
remember (handle_char 10 g1) as g3 eqn:E3. clear E3.
split; [exact Hx1|]. split; [exact Hy1|].
split; [rewrite Ht; by proj|]. split; [rewrite Ht; by proj|].
split; [rewrite Ht; by proj|].
split; [rewrite Ht2, Ht; by proj|]. split; [rewrite Ht2, Ht; by proj|].
split; [exact Hs2|].
split; [unfold line_flags_clear; rewrite Ht2; by proj|].
split; [rewrite Ht3; by proj|].
split; [rewrite Ht3, Hy1; proj; unfold CHAR_ROWS; lia|].
intros Hv Hinv Hok Hgl Hbyte Hx x y Hg.
destruct (Hadv Hv Hinv Hok Hbyte Hx Hy) as (Hall & Hok1 & Hv1 & _ & _ & Hsaved).
assert (Hbyte1 : 0 <= saved_cursor_char (cur g1) < 256)
  by (rewrite Hsaved; by apply text_after_advance_byte).
split; [by apply Hall|]. split.
- apply Hkeep; try done.
  + rewrite Hx1. lia.
  + rewrite Hy1. unfold CHAR_ROWS. lia.
- destruct (Hadv3 Hv1 Hinv1 Hok1 Hbyte1) as (Hall3 & _).
  + rewrite Hx1. lia.
  + rewrite Hy1. unfold CHAR_ROWS. lia.
  + by apply Hall3.
Qed.
End LineEndings.

Lemma cr_swallows_next_line_ending_witness :
  let g := @feed newlib [27; 91; 51; 48; 59; 49; 72; 65] init_globals in
  let g1 := @handle_char newlib 13 g in
  let g2 := @handle_char newlib 10 g1 in
  cursor_y (term g) = CHAR_ROWS - 1
  /\ cursor_x (term g1) = 0 /\ cursor_y (term g1) = CHAR_ROWS - 1
  /\ cursor_x (term g2) = 0 /\ cursor_y (term g2) = CHAR_ROWS - 1
  /\ text_at g 0 (CHAR_ROWS - 1) = 65
  /\ text_at g1 0 (CHAR_ROWS - 2) = 65 /\ text_at g2 0 (CHAR_ROWS - 2) = 65
  /\ text_at g2 0 (CHAR_ROWS - 1) = 32.
Proof.
  cbv zeta.
  destruct (@cr_swallows_next_line_ending newlib
              (@feed newlib [27; 91; 51; 48; 59; 49; 72; 65] init_globals) 10)
    as (Hx1 & Hy1 & _ & _ & Hx2 & Hy2 & _ & _ & Htext).
  - vm_compute. reflexivity.
  - vm_compute. reflexivity.
  - vm_compute. split; [discriminate | reflexivity].
  - right. reflexivity.
  - assert (Hcells : forall x y, in_grid x y ->
              text_at (@handle_char newlib 13
                         (@feed newlib [27; 91; 51; 48; 59; 49; 72; 65] init_globals)) x y
              = text_after_advance
                  (@feed newlib [27; 91; 51; 48; 59; 49; 72; 65] init_globals) x y
              /\ text_at (@handle_char newlib 10 (@handle_char newlib 13
                            (@feed newlib [27; 91; 51; 48; 59; 49; 72; 65] init_globals)))
                   x y
                 = text_at (@handle_char newlib 13
                              (@feed newlib [27; 91; 51; 48; 59; 49; 72; 65] init_globals))
                     x y).
    { apply Htext.
      - vm_compute. reflexivity.
      - unfold drawn_at_cursor. intros _. vm_compute. split; reflexivity.
      - split; vm_compute; reflexivity.
      - apply bytes_by_evaluation. vm_compute. reflexivity.
      - vm_compute. split; [discriminate | reflexivity].
      - vm_compute. split; [discriminate | reflexivity]. }
    destruct (Hcells 0 (CHAR_ROWS - 2)) as (Ha & Hb);
      [unfold in_grid, CHAR_COLS, CHAR_ROWS; lia|].
    destruct (Hcells 0 (CHAR_ROWS - 1)) as (Hc & Hd);
      [unfold in_grid, CHAR_COLS, CHAR_ROWS; lia|].
    split; [vm_compute; reflexivity|].
    split; [exact Hx1|]. split; [rewrite Hy1; vm_compute; reflexivity|].
    split; [exact Hx2|]. split; [rewrite Hy2; vm_compute; reflexivity|].
    split; [vm_compute; reflexivity|].
    split; [rewrite Ha; vm_compute; reflexivity|].
    split; [rewrite Hb, Ha; vm_compute; reflexivity|].
    rewrite Hd, Hc. vm_compute. reflexivity.
Defined.

Lemma lf_swallows_next_cr_only_witness :
  let g := @feed newlib [27; 91; 51; 48; 59; 49; 72; 65] init_globals in
  let g1 := @handle_char newlib 10 g in
  let g2 := @handle_char newlib 13 g1 in
  let g3 := @handle_char newlib 10 g1 in
  cursor_y (term g1) = CHAR_ROWS - 1 /\ cursor_y (term g3) = CHAR_ROWS - 1
  /\ text_at g 0 (CHAR_ROWS - 1) = 65
  /\ text_at g1 0 (CHAR_ROWS - 2) = 65
  /\ text_at g2 0 (CHAR_ROWS - 2) = 65
  /\ text_at g3 0 (CHAR_ROWS - 2) = text_at g1 0 (CHAR_ROWS - 1)
  /\ text_at g3 0 (CHAR_ROWS - 3) = 65.
Proof.
  cbv zeta.
  destruct (@lf_swallows_next_cr_only newlib
              (@feed newlib [27; 91; 51; 48; 59; 49; 72; 65] init_globals))
    as (_ & Hy1 & _ & _ & _ & _ & _ & _ & _ & _ & Hy3 & Htext).
  - vm_compute. reflexivity.
  - vm_compute. reflexivity.
  - vm_compute. split; [discriminate | reflexivity].
  - assert (Hcells : forall x y, in_grid x y -> _) by
      (apply Htext;
       [ vm_compute; reflexivity
       | unfold drawn_at_cursor; intros _; vm_compute; split; reflexivity
       | split; vm_compute; reflexivity
       | apply bytes_by_evaluation; vm_compute; reflexivity
       | vm_compute; split; [discriminate | reflexivity]
       | vm_compute; split; [discriminate | reflexivity] ]).
    cbv beta in Hcells.
    assert (Hrow : forall k, 0 <= k < CHAR_ROWS -> in_grid 0 k)
      by (intros k Hk; unfold in_grid, CHAR_COLS, CHAR_ROWS in *; lia).
    destruct (Hcells 0 (CHAR_ROWS - 2)) as (Ha & Hb & Hc);
      [apply Hrow; unfold CHAR_ROWS; lia|].
    destruct (Hcells 0 (CHAR_ROWS - 3)) as (_ & _ & Hd);
      [apply Hrow; unfold CHAR_ROWS; lia|].
    assert (Hscroll : (cursor_y (term (@handle_char newlib 10
                         (@feed newlib [27; 91; 51; 48; 59; 49; 72; 65] init_globals))) + 1
                       <? CHAR_ROWS) = false) by (rewrite Hy1; vm_compute; reflexivity).
    unfold text_after_advance in Hc, Hd. rewrite Hscroll in Hc, Hd.
    change (CHAR_ROWS - 2 <? CHAR_ROWS - 1) with true in Hc.
    change (CHAR_ROWS - 3 <? CHAR_ROWS - 1) with true in Hd.
    change (CHAR_ROWS - 2 + 1) with (CHAR_ROWS - 1) in Hc.
    change (CHAR_ROWS - 3 + 1) with (CHAR_ROWS - 2) in Hd.
    cbv iota in Hc, Hd.
    assert (Ha' : text_at (@handle_char newlib 10
                    (@feed newlib [27; 91; 51; 48; 59; 49; 72; 65] init_globals))
                    0 (CHAR_ROWS - 2) = 65)
      by (rewrite Ha; vm_compute; reflexivity).
    split; [rewrite Hy1; vm_compute; reflexivity|].
    split; [rewrite Hy3; vm_compute; reflexivity|].
    split; [vm_compute; reflexivity|].
    split; [exact Ha'|].
    split; [rewrite Hb; exact Ha'|].
    split; [exact Hc|].
    rewrite Hd. exact Ha'.
Defined.
